(* ===== verification/_CoqProject ===== *)
-Q . S2P
Prelude.v
GoStd.v
Errno.v
Infos.v
Lru.v
Rocks.v
InfoStorage.v
Object.v
Pipeline.v
Pool.v
GaiaMsg.v
Block.v
Writer.v
WriterProofs.v
Multipart.v
Gaia.v
GaiaMove.v
MetaStorage.v
RocksDisk.v
InfoDisk.v
Alaya.v
AlayaProofs.v
Monitor.v
MonitorLoop.v
Sun.v
Moon.v
Watcher.v
Cleaner.v
CloudGaia.v
WatcherProofs.v
CleanerProofs.v
RaftNode.v
RaftNodeProofs.v
RaftDisk.v
RaftDiskProofs.v
AlayaRaft.v
AlayaRaftProofs.v
MoonLoop.v
MoonProofs.v
InfoAgent.v
Client.v
ClientProofs.v
ClientPool.v
Operators.v
Rainbow.v
Outpost.v
OutpostProofs.v
Bridge.v
BridgeProofs.v
Reader.v
ReaderProofs.v
PutGet.v
GwErrors.v
GwUtils.v
Gateway.v
GatewayProofs.v
Routes.v
GatewayAnswers.v
Streams.v
GatewayWriter.v
Auth.v
Messenger.v
Files.v
Config.v
ConfigProofs.v
NodeConfigProofs.v
EdgeNode.v
Deployment.v
Started.v
Cli.v
