(* ===== verification/Prelude.v ===== *)
(** * ECOS, an edge-cloud object store: verification library

    ECOS (the Go program under [src/]) keeps objects in buckets. A client cuts an
    object into blocks and sends them to the block servers (Gaia) of a cluster of
    edge nodes, then records the object's metadata with the metadata servers (Alaya).
    Which nodes hold a block or a metadata record follows from its placement group
    and the cluster's description, which the nodes keep in a directory replicated by
    raft (Moon) and which the watcher of the leader renews, with a new term, when
    nodes join or fail. A cloud can be attached: it registers nodes (Sun), stores
    blocks and metadata of its own and talks to the edge over one stream (Rainbow in
    the cloud, Outpost on the edge). A gateway offers the S3 interface on top of the
    client.

    ** How the program is modelled

    - A Go function is a function. [res] ([Errno.v]) is its outcome: a value, an
      error value, a panic, or waiting for ever. A method that changes its receiver
      maps a state to a state and an outcome; [do s, x <- m; k] chains such calls.
    - An integer of width w is a [Z]; [u64], [i64] and [i32] below are the conversions
      and the wrap-around of arithmetic. Strings are byte strings, contents [bytes].
    - A goroutine is a pending entry of the state; a step relation or a schedule says
      in which order pending entries run. A channel is the list of what it holds.
    - What is not in the repository is a parameter: the hash ring ([HashRing]), CRUSH
      ([Crush]), digests ([Digests]), protobuf ([Proto]), RocksDB ([RocksDB]) are type
      classes, each with a class of the laws its documentation states and an instance
      that satisfies them; the network, the disk, the clock and what raft commits are
      arguments. A theorem that needs a law takes it as a class argument, and its
      witness uses the instance.

    ** The files

    Foundations:
    - [Prelude.v] machine integers, tactics, list lemmas; [GoStd.v] packages strings,
      path and strconv; [Errno.v] [src/utils/errno/errno.go] and outcomes;
      [Infos.v] the records and identifiers of [src/edge-node/infos/];
      [Lru.v] the interface of a bounded cache and an implementation; [Rocks.v] the interface of RocksDB and an implementation by maps;
      [InfoStorage.v] the interface of the information storages with its laws, both
      implementations and the register ([storage.go], [memory_info_storage.go],
      [rocksdb_info_storage.go]); [InfoDisk.v] the register over one database.

    Naming and placement:
    - [Object.v] [src/edge-node/object/object.go], [src/utils/common/mapper.go];
      [Pipeline.v] [src/edge-node/pipeline/pipeline.go].

    The client:
    - [Pool.v] [src/utils/common/pool.go]; [GaiaMsg.v] the messages of block servers;
      [Block.v], [Writer.v], [Multipart.v], [Reader.v] the files [block.go], [upload.go],
      [ecos_writer.go], [ecos_io.go], [ecos_reader.go] of [src/client/io/];
      [InfoAgent.v] [src/client/info-agent/], [src/client/io/meta.go];
      [Client.v] [src/client/client.go], [operator.go]; [ClientPool.v] the cache of
      object factories of [client.go]; [Operators.v] the operators of [operator.go],
      [cloud_operator.go]; [PutGet.v] writer, block servers and reader together.

    The edge node:
    - [Gaia.v] [src/edge-node/gaia/gaia.go], [src/shared/gaia/transporter.go], and
      [GaiaMove.v] the moving of blocks;
      [MetaStorage.v] [src/shared/alaya/meta_storage.go],
      [src/edge-node/alaya/rocksdb_meta_storage.go], and [RocksDisk.v] its database from
      one process to the next;
      [Alaya.v] [src/edge-node/alaya/alaya.go], [alaya_raft.go], and [AlayaRaft.v] the
      loops of [alaya_raft.go];
      [Monitor.v], [MonitorLoop.v] [src/edge-node/watcher/monitor.go], [status_reporter.go];
      [Moon.v], [MoonLoop.v] [src/edge-node/moon/moon.go], and [MoonProofs.v] the directory
      through crashes; [Watcher.v] [watcher.go] of
      [src/edge-node/watcher/]; [RaftNode.v] [src/edge-node/raft-node/raft_node.go],
      and [RaftDisk.v] its log and snapshots on disk;
      [Cleaner.v] [src/edge-node/cleaner/cleaner.go];
      [Outpost.v] [src/edge-node/outpost/outpost.go];
      [EdgeNode.v] [src/edge-node/cmd/node.go], the watcher, the directory and the
      metadata service as parts of one node; [Deployment.v] clients on nodes: the
      requests of [InfoAgent.v] and [Client.v] answered by the handlers of [EdgeNode.v];
      [Started.v] the same for nodes from their start.

    The cloud:
    - [Sun.v] [src/cloud/sun/sun.go]; [Rainbow.v] [rainbow.go], [router.go],
      [cloud_alaya.go], [cloud_moon.go] and [CloudGaia.v] [cloud_gaia.go] of
      [src/cloud/rainbow/]; [Bridge.v] both ends of the stream as one machine;
      [Streams.v] how the edge comes to the stream and how both ends send over it.

    The gateway:
    - [GwErrors.v], [GwUtils.v], [Gateway.v]: [errors.go], the parsers and the handlers
      of [src/gateway/router/]. A handler is a program over the class [Backend], the
      operations of the client it calls. [Routes.v]: [route.go], [client.go],
      [config.go]; [GatewayAnswers.v] the proofs about it. [GatewayWriter.v]: the
      gateway on top of the writer of [Writer.v].

    Around them:
    - [Auth.v] [src/messenger/auth/]; [Messenger.v] [src/messenger/messenger.go];
      [Files.v] [src/utils/common/storage.go]; [Config.v] [src/utils/config/config.go],
      [src/edge-node/config/config.go] and the head of [nodeRun]
      ([src/edge-node/cmd/node.go]), with [ConfigProofs.v] and [NodeConfigProofs.v];
      [Cli.v] [src/cli/cmd/].

    Each [...Proofs.v] holds the theorems about the file it is named after; the smaller
    components have theirs at the end of their own file. The definitions keep the
    names of the Go functions; a prefix or a suffix tells apart methods of the same
    name ([Mem_List], [Rocks_List]).

    ** What is shown

    - Names and placement: an identifier is read back and is injective; slots and
      groups are in range; pipelines are well formed and every key and block is routed
      to a live node; client and server compute the same placement.
    - Data: an upload keeps the content under every interleaving of its goroutines and
      every behaviour of the network, and the writer terminates; a multipart upload is
      its parts in order; the reader returns the bytes of the object for every order
      of its goroutines; the replicas of an accepted block hold the same file; a
      deleted object leaves no block on any replica; the pool accounts for its buffers.
      End to end, what a client wrote, or what a request carried to the gateway, is what
      a reader gets from the nodes, up to the bytes a node never flushes.
    - Metadata: the storages refine maps; an acknowledged write is what is read next, a
      deletion hides the object; the log reaches the state machine once and in order;
      following a cluster starts and updates the right groups; the control loop turns
      the voters into the pipeline; a snapshot is recovered as stated; metadata survives
      crashes of a node between any two writes to its log, and processes that end and
      start again on the same database. Nodes that were started and apply one log are
      what clients rely on: what one client records reaches the first node of the group,
      and others read it.
    - Directory: it is the map its log describes, through crashes; its register over one
      database is one map through snapshots and restarts; a node that is told of nodes
      and descriptions follows them, in whatever order its callbacks run.
    - Cluster: numbers identify nodes, a node that joins is a peer, a description is
      well formed and has its pipelines, is adopted, and earlier terms stay available;
      a client that knows the current description is served; the cache of a client
      agrees with the directory; a call that meets another term is repeated and
      succeeds; what was put is listed.
    - Edge and cloud: in every interleaving, neither end of the bridge crashes as long
      as the edge asks for no deletion, and it does crash when it asks for one; a block
      read through the cloud is the block of a replica, metadata asked for through it is
      what the edge's own client gets, and information is what the directory of the
      leader holds; a listing by the cloud merges both sides; the
      cloud's block service is the edge's for one node.
    - Gateway: ranges mean what RFC 7233 says; a range request is served with the bytes
      of the range; a body signed in chunks is stored without its signatures; every
      request, on every route, is answered with a status.
    - Around them: a node keeps its identity when it is started again; a configuration
      file is completed by the defaults; a connection leads to the address asked for; a
      request is served as the user of its token; [ecos key get] leaves the bytes of the
      object in the file; uploads are found again as long as ten buckets are in use.
    - Failures: theorems that end a file or follow the main one show where the code
      does something else than it means to, such as a buffered tail that is never
      written or a listing loop that stops for good.

    ** Bounds and fuel

    Recursion is structural almost everywhere: over the list of requests, chunks,
    slots, nodes or pending steps. [put_stream] ([Gateway.v]) takes fuel, one more than
    the length of the body; [answers_put_stream] shows it never runs out, since every
    turn reads at least one byte. [write_loop], [write_run] and [io_Copy] take as fuel the
    length of what is left, as every iteration moves a byte ([write_run_ok],
    [get_writes_object]). Calls that Go repeats without bound ([repeated],
    [list_attempts], [getObjMeta]) take the list of what their attempts meet and are
    [Stuck] when it ends; [get_repeats] shows that one attempt with the current view
    is enough. [copy_file] ([GaiaMove.v]) takes fuel, too: for a block that stays on its
    node two turns are enough ([moving_truncates]). Counters that could wrap are bounded in the statements: 2^63 steps of
    the bridge, sizes below 2^63.

    ** What is not modelled

    The raft library itself, RocksDB, gRPC, gin, cobra, JSON and XML, reflection and the
    files of a log are code outside the repository: parameters with the laws their
    documentation states. Of the rest the following is left out, since it computes
    nothing that another part uses: logging, metrics and their pushing to Prometheus;
    flags, signals and the listening of servers at start-up, and the starts of the cloud
    and the gateway, which only call modelled constructors; stack traces and wrapping of
    errors; experiments, mocks, helpers of tests and generated code. Of the gateway the
    limit of a minute on a request is left out. Deadlines are not followed: a call that
    is given up is one of the errors the network may answer. *)

From Stdlib Require Export ZArith Lia List.
From stdpp Require Export base tactics numbers list strings gmap sets sorting.

#[global] Open Scope Z_scope.

(** ** Machine integers

    Go's fixed-width integers are [Z] together with the reduction that the
    hardware performs: a conversion or an arithmetic result of width [w] is the
    representative of its class modulo [2^w]. *)

Definition u64 (z : Z) : Z := z `mod` 2 ^ 64.

Definition i64 (z : Z) : Z := (z + 2 ^ 63) `mod` 2 ^ 64 - 2 ^ 63.

Definition i32 (z : Z) : Z := (z + 2 ^ 31) `mod` 2 ^ 32 - 2 ^ 31.

Definition is_u64 (z : Z) : Prop := 0 <= z < 2 ^ 64.

Definition is_i64 (z : Z) : Prop := - 2 ^ 63 <= z < 2 ^ 63.

Definition is_i32 (z : Z) : Prop := - 2 ^ 31 <= z < 2 ^ 31.

Lemma u64_range (z : Z) : is_u64 (u64 z).
Proof. unfold is_u64, u64. apply Z.mod_pos_bound. lia. Qed.

Lemma u64_id (z : Z) : is_u64 z -> u64 z = z.
Proof. intros H. unfold u64. apply Z.mod_small. exact H. Qed.

Lemma u64_u64 (z : Z) : u64 (u64 z) = u64 z.
Proof. apply u64_id, u64_range. Qed.

Lemma i64_id (z : Z) : is_i64 z -> i64 z = z.
Proof. intros H. unfold i64, is_i64 in *. rewrite Z.mod_small; lia. Qed.

Lemma i32_id (z : Z) : is_i32 z -> i32 z = z.
Proof. intros H. unfold i32, is_i32 in *. rewrite Z.mod_small; lia. Qed.

Lemma i64_range (z : Z) : is_i64 (i64 z).
Proof.
  unfold is_i64, i64.
  pose proof (Z.mod_pos_bound (z + 2 ^ 63) (2 ^ 64) ltac:(lia)). lia.
Qed.

Lemma i32_range (z : Z) : is_i32 (i32 z).
Proof.
  unfold is_i32, i32.
  pose proof (Z.mod_pos_bound (z + 2 ^ 31) (2 ^ 32) ltac:(lia)). lia.
Qed.

Create HintDb ecos.
#[export] Hint Resolve u64_range i64_range i32_range u64_id i64_id i32_id : ecos.

(** ** Tactics

    [cases] splits every [match] or [if] left in the goal, keeping the equation
    of its discriminant. *)

Ltac cases_step :=
  match goal with
  | |- context [match ?x with _ => _ end] =>
      lazymatch x with
      | context [match _ with _ => _ end] => fail
      | _ => let E := fresh "E" in destruct x eqn:E
      end
  end.

Ltac cases := repeat (cases_step; simplify_eq/=; try done).

(** ** Lists *)

Section lists.
Context {A : Type}.

Implicit Types l : list A.

(** Sum of an integer measure over a list. *)
Definition sum_of (f : A -> Z) (l : list A) : Z := foldr (fun x acc => f x + acc) 0 l.

Lemma sum_of_app f l1 l2 : sum_of f (l1 ++ l2) = sum_of f l1 + sum_of f l2.
Proof. induction l1 as [|x l1 IH]; simpl; lia. Qed.

Lemma sum_of_nonneg f l : Forall (fun x => 0 <= f x) l -> 0 <= sum_of f l.
Proof. induction 1; simpl; lia. Qed.

Lemma take_snoc_lookup l n x :
  l !! n = Some x -> take (S n) l = take n l ++ [x].
Proof. apply take_S_r. Qed.

End lists.
