(* ===== verification/GoStd.v ===== *)
(** * The parts of Go's standard library the program computes with

    Packages [strings], [path] and [strconv], on byte strings. Path cleaning is
    written over the list of components between slashes: [norm] keeps the stack
    of components that [path.Clean] keeps in its output buffer. *)

From Stdlib Require Import DecimalString DecimalN.
From Stdlib Require Export Ascii.
From S2P Require Import Prelude.

(** ** Package strings *)

Fixpoint HasPrefix (s p : string) {struct p} : bool :=
  match p, s with
  | EmptyString, _ => true
  | String a p', String b s' => bool_decide (a = b) && HasPrefix s' p'
  | String _ _, EmptyString => false
  end.

Fixpoint str_drop (n : nat) (s : string) : string :=
  match n, s with
  | S n', String _ s' => str_drop n' s'
  | _, _ => s
  end.

Definition TrimPrefix (s p : string) : string :=
  if HasPrefix s p then str_drop (String.length p) s else s.

Fixpoint Contains (s sub : string) : bool :=
  HasPrefix s sub ||
  match s with
  | String _ s' => Contains s' sub
  | EmptyString => false
  end.

(** First occurrence of a one-byte separator: what is before and after it. *)
Fixpoint cut (c : ascii) (s : string) : option (string * string) :=
  match s with
  | EmptyString => None
  | String a s' =>
      if decide (a = c) then Some ("", s')
      else match cut c s' with
           | Some (x, y) => Some (String a x, y)
           | None => None
           end
  end.

Fixpoint Split (c : ascii) (s : string) : list string :=
  match s with
  | EmptyString => [""]
  | String a s' =>
      if decide (a = c) then "" :: Split c s'
      else match Split c s' with
           | h :: t => String a h :: t
           | [] => [String a ""]
           end
  end.

Fixpoint SplitN (c : ascii) (n : nat) (s : string) : list string :=
  match n with
  | O => []
  | S n' =>
      match n' with
      | O => [s]
      | S _ => match cut c s with
               | None => [s]
               | Some (x, y) => x :: SplitN c n' y
               end
      end
  end.

Fixpoint trim_left (c : ascii) (s : string) : string :=
  match s with
  | String a s' => if decide (a = c) then trim_left c s' else s
  | EmptyString => ""
  end.

Fixpoint trim_right (c : ascii) (s : string) : string :=
  match s with
  | EmptyString => ""
  | String a s' =>
      let t := trim_right c s' in
      if decide (a = c /\ t = "") then "" else String a t
  end.

(** [strings.Trim(s, c)] for a one-byte cutset. *)
Definition Trim (c : ascii) (s : string) : string := trim_right c (trim_left c s).

(** ** Package strconv *)

Definition FormatUint (z : Z) : string := NilZero.string_of_uint (N.to_uint (Z.to_N z)).

Definition FormatInt (z : Z) : string :=
  if decide (z < 0) then "-" +:+ FormatUint (- z) else FormatUint z.

Definition parse_digits (s : string) : option Z :=
  match NilZero.uint_of_string s with
  | Some d => Some (Z.of_N (N.of_uint d))
  | None => None
  end.

(** [strconv.ParseUint(s, 10, 64)]; [None] is a non-nil error. *)
Definition ParseUint (s : string) : option Z :=
  match parse_digits s with
  | Some z => if decide (z < 2 ^ 64) then Some z else None
  | None => None
  end.

(** [strconv.ParseInt(s, 10, 64)], and [strconv.Atoi] on a 64-bit machine. *)
Definition ParseInt (s : string) : option Z :=
  let v := match s with
           | String "-" s' => match parse_digits s' with Some z => Some (- z) | None => None end
           | String "+" s' => parse_digits s'
           | _ => parse_digits s
           end in
  match v with
  | Some z => if decide (- 2 ^ 63 <= z < 2 ^ 63) then Some z else None
  | None => None
  end.

Definition Atoi : string -> option Z := ParseInt.

(** ** Package path *)

Definition sep : ascii := "/".

Fixpoint nosep (s : string) : bool :=
  match s with
  | EmptyString => true
  | String a s' => bool_decide (a <> sep) && nosep s'
  end.

Definition join (l : list string) : string := String.concat "/" l.

Definition is_rooted (s : string) : bool :=
  match s with
  | String a _ => bool_decide (a = sep)
  | EmptyString => false
  end.

Definition norm_step (rooted : bool) (stk : list string) (e : string) : list string :=
  if decide (e = "" \/ e = ".") then stk
  else if decide (e = "..") then
    match stk with
    | top :: rest => if decide (top = "..") then ".." :: stk else rest
    | [] => if rooted then [] else [".."]
    end
  else e :: stk.

Definition norm (rooted : bool) (l : list string) : list string :=
  rev (fold_left (norm_step rooted) l []).

Definition Clean (s : string) : string :=
  if decide (s = "") then "."
  else
    let out := join (norm (is_rooted s) (Split sep s)) in
    if is_rooted s then "/" +:+ out
    else if decide (out = "") then "." else out.

Fixpoint Join (elems : list string) : string :=
  match elems with
  | [] => ""
  | e :: rest => if decide (e = "") then Join rest else Clean (join elems)
  end.

(** A component that cleaning keeps as it is. *)
Definition good (s : string) : bool :=
  nosep s && bool_decide (s <> "" /\ s <> "." /\ s <> "..").

(** ** Facts *)

Lemma str_app_nil_r (s : string) : s +:+ "" = s.
Proof. induction s as [|a s IH]; [done|]. unfold String.app in *. simpl. by rewrite IH. Qed.

Lemma str_app_assoc (a b c : string) : (a +:+ b) +:+ c = a +:+ (b +:+ c).
Proof. induction a as [|x a IH]; [done|]. unfold String.app in *. simpl. by rewrite IH. Qed.

Lemma str_cons_app (a : ascii) (s t : string) : String a s +:+ t = String a (s +:+ t).
Proof. done. Qed.

Lemma str_nil_app (t : string) : "" +:+ t = t.
Proof. done. Qed.

Lemma str_app_eq_nil (s t : string) : s +:+ t = "" -> s = "" /\ t = "".
Proof. destruct s; [done|]. rewrite str_cons_app. done. Qed.

Lemma prefix_app (p s : string) : HasPrefix (p +:+ s) p = true.
Proof.
  induction p as [|a p IH]; [by destruct s|]. rewrite str_cons_app. simpl.
  by rewrite bool_decide_true.
Qed.

Lemma HasPrefix_inv (p s : string) : HasPrefix s p = true -> exists t, s = p +:+ t.
Proof.
  revert s. induction p as [|a p IH]; intros s H; [by exists s|].
  destruct s as [|b s]; [done|]. simpl in H.
  apply andb_true_iff in H as [H%bool_decide_eq_true Hs]. subst b.
  destruct (IH s Hs) as [t ->]. by exists t.
Qed.

Lemma str_drop_app (p s : string) : str_drop (String.length p) (p +:+ s) = s.
Proof. induction p as [|a p IH]; [by destruct s|]. rewrite str_cons_app. done. Qed.

Lemma TrimPrefix_app (p s : string) : TrimPrefix (p +:+ s) p = s.
Proof. unfold TrimPrefix. rewrite prefix_app. apply str_drop_app. Qed.

Lemma nosep_app (s t : string) : nosep (s +:+ t) = nosep s && nosep t.
Proof.
  induction s as [|a s IH]; [done|]. rewrite str_cons_app. simpl.
  by rewrite IH, andb_assoc.
Qed.

Lemma join_cons (e : string) (l : list string) :
  join (e :: l) = match l with [] => e | _ => e +:+ String sep (join l) end.
Proof. destruct l; done. Qed.

Lemma cut_app (s t : string) : nosep s = true -> cut sep (s +:+ String sep t) = Some (s, t).
Proof.
  induction s as [|a s IH]; intros H.
  - rewrite str_nil_app. simpl. by destruct (decide (sep = sep)).
  - simpl in H. apply andb_true_iff in H as [Ha Hs]. apply bool_decide_eq_true in Ha.
    rewrite str_cons_app. simpl. rewrite decide_False by done. by rewrite IH.
Qed.

Lemma cut_nosep (s : string) : nosep s = true -> cut sep s = None.
Proof.
  induction s as [|a s IH]; intros H; [done|].
  simpl in H. apply andb_true_iff in H as [Ha Hs]. apply bool_decide_eq_true in Ha.
  simpl. rewrite decide_False by done. by rewrite IH.
Qed.

Lemma Split_nonnil (s : string) : Split sep s <> [].
Proof.
  destruct s as [|a s]; [done|]. simpl. destruct (decide (a = sep)); [done|].
  by destruct (Split sep s).
Qed.

Lemma Split_app (s t : string) :
  nosep s = true -> Split sep (s +:+ String sep t) = s :: Split sep t.
Proof.
  induction s as [|a s IH]; intros H.
  - rewrite str_nil_app. simpl. by destruct (decide (sep = sep)).
  - simpl in H. apply andb_true_iff in H as [Ha Hs]. apply bool_decide_eq_true in Ha.
    rewrite str_cons_app. simpl. rewrite decide_False by done. by rewrite IH.
Qed.

Lemma Split_nosep (s : string) : nosep s = true -> Split sep s = [s].
Proof.
  induction s as [|a s IH]; intros H; [done|].
  simpl in H. apply andb_true_iff in H as [Ha Hs]. apply bool_decide_eq_true in Ha.
  simpl. rewrite decide_False by done. by rewrite IH.
Qed.

Lemma Split_all_nosep (s : string) : Forall (fun e => nosep e = true) (Split sep s).
Proof.
  induction s as [|a s IH]; [by repeat constructor|]. simpl.
  destruct (decide (a = sep)) as [->|Hn]; [by constructor|].
  destruct (Split sep s) as [|h t]; inv IH; constructor; try done; simpl.
  - by rewrite bool_decide_true.
  - by rewrite bool_decide_true.
Qed.

Lemma Split_join (l : list string) :
  l <> [] -> Forall (fun e => nosep e = true) l -> Split sep (join l) = l.
Proof.
  induction l as [|e l IH]; [done|]. intros _ H. inv H.
  rewrite join_cons. destruct l as [|e' l]; [by apply Split_nosep|].
  rewrite Split_app by done. by rewrite IH.
Qed.

Lemma good_nosep (s : string) : good s = true -> nosep s = true.
Proof. unfold good. intros H. by apply andb_true_iff in H as [? _]. Qed.

Lemma good_nonempty (s : string) : good s = true -> s <> "".
Proof.
  unfold good. intros H. apply andb_true_iff in H as [_ H].
  apply bool_decide_eq_true in H. tauto.
Qed.

Lemma Forall_good_nosep (l : list string) :
  Forall (fun e => good e = true) l -> Forall (fun e => nosep e = true) l.
Proof. intros H. eapply Forall_impl; [exact H|]. apply good_nosep. Qed.

Lemma norm_step_good r stk e : good e = true -> norm_step r stk e = e :: stk.
Proof.
  unfold good. intros H. apply andb_true_iff in H as [_ H].
  apply bool_decide_eq_true in H. unfold norm_step.
  rewrite decide_False by naive_solver. by rewrite decide_False by naive_solver.
Qed.

Lemma norm_step_up r t stk : good t = true -> norm_step r (t :: stk) ".." = stk.
Proof.
  unfold good. intros H. apply andb_true_iff in H as [_ H].
  apply bool_decide_eq_true in H as (_ & _ & H). unfold norm_step.
  rewrite decide_False by (intros [|]; done). rewrite decide_True by done.
  by rewrite decide_False.
Qed.

Lemma norm_fold_good r l stk :
  Forall (fun e => good e = true) l -> fold_left (norm_step r) l stk = rev l ++ stk.
Proof.
  intros H. revert stk. induction H as [|e l He _ IH]; intros stk; [done|].
  simpl. rewrite norm_step_good, IH by done. by rewrite <- app_assoc.
Qed.

Lemma norm_good r l : Forall (fun e => good e = true) l -> norm r l = l.
Proof. intros H. unfold norm. rewrite norm_fold_good by done. by rewrite app_nil_r, rev_involutive. Qed.

Lemma norm_skip_empty r l : norm r ("" :: l) = norm r l.
Proof. done. Qed.

Lemma norm_step_Forall (P : string -> Prop) r stk e :
  Forall P stk -> P e -> P ".." -> Forall P (norm_step r stk e).
Proof.
  intros Hs He Hd. unfold norm_step.
  destruct (decide (e = "" \/ e = ".")); [done|].
  destruct (decide (e = "..")); [|by constructor].
  destruct stk as [|top rest]; [destruct r; by repeat constructor|].
  inv Hs. destruct (decide (top = "..")); by repeat constructor.
Qed.

Lemma norm_step_rooted stk e :
  nosep e = true -> Forall (fun e => good e = true) stk ->
  Forall (fun e => good e = true) (norm_step true stk e).
Proof.
  intros He Hs. unfold norm_step.
  destruct (decide (e = "" \/ e = ".")); [done|].
  destruct (decide (e = "..")) as [|Hd].
  - destruct stk as [|top rest]; [done|]. inv Hs.
    rewrite decide_False; [done|]. intros ->. done.
  - constructor; [|done]. unfold good. rewrite He. simpl.
    apply bool_decide_eq_true. naive_solver.
Qed.

Lemma norm_rooted_good l :
  Forall (fun e => nosep e = true) l -> Forall (fun e => good e = true) (norm true l).
Proof.
  intros H. unfold norm. apply Forall_rev.
  assert (forall stk, Forall (fun e => good e = true) stk ->
            Forall (fun e => good e = true) (fold_left (norm_step true) l stk)) as Hgen; [|by apply Hgen].
  induction H as [|e l He _ IH]; intros stk Hs; [done|].
  simpl. by apply IH, norm_step_rooted.
Qed.

Lemma join_nonempty l :
  l <> [] -> Forall (fun e => good e = true) l -> join l <> "".
Proof.
  destruct l as [|e l]; [done|]. intros _ H. inv H. rewrite join_cons.
  destruct l; [by apply good_nonempty|].
  intros He. apply str_app_eq_nil in He as [He _]. by eapply good_nonempty.
Qed.

Lemma is_rooted_join l :
  Forall (fun e => good e = true) l -> is_rooted (join l) = false.
Proof.
  destruct l as [|e l]; [done|]. intros H. inv H. rewrite join_cons.
  assert (exists a s, e = String a s /\ a <> sep) as (a & s & -> & Ha).
  { destruct e as [|a s]; [done|]. exists a, s. split; [done|].
    apply good_nosep in H2. simpl in H2. apply andb_true_iff in H2 as [H2 _].
    by apply bool_decide_eq_true in H2. }
  destruct l; simpl; by apply bool_decide_eq_false.
Qed.

Lemma Clean_join_good l :
  l <> [] -> Forall (fun e => good e = true) l -> Clean (join l) = join l.
Proof.
  intros Hl H. pose proof (join_nonempty l Hl H) as Hj. unfold Clean.
  rewrite decide_False by done. rewrite is_rooted_join, Split_join by (try done; by apply Forall_good_nosep).
  rewrite norm_good by done. by rewrite decide_False.
Qed.

Lemma Split_rooted s : Split sep (String sep s) = "" :: Split sep s.
Proof. done. Qed.

Lemma Clean_rooted s : Clean (String sep s) = String sep (join (norm true (Split sep s))).
Proof. done. Qed.

Lemma Clean_rooted_join l :
  Forall (fun e => good e = true) l -> Clean (String sep (join l)) = String sep (join l).
Proof.
  intros H. rewrite Clean_rooted. destruct l as [|e l]; [done|].
  rewrite Split_join by (try done; by apply Forall_good_nosep). by rewrite norm_good.
Qed.

Lemma trim_left_join l :
  Forall (fun e => good e = true) l -> trim_left sep (join l) = join l.
Proof.
  intros H. pose proof (is_rooted_join l H) as Hr. destruct (join l) as [|a s]; [done|].
  simpl in *. apply bool_decide_eq_false in Hr. by rewrite decide_False.
Qed.

Lemma trim_right_nosep s : nosep s = true -> trim_right sep s = s.
Proof.
  induction s as [|a s IH]; [done|]. simpl. intros H.
  apply andb_true_iff in H as [Ha Hs]. apply bool_decide_eq_true in Ha.
  rewrite IH by done. rewrite decide_False; naive_solver.
Qed.

Lemma trim_right_app s t :
  trim_right sep t <> "" -> trim_right sep (s +:+ t) = s +:+ trim_right sep t.
Proof.
  intros Ht. induction s as [|a s IH]; [done|]. rewrite !str_cons_app. simpl.
  rewrite IH. rewrite decide_False; [done|]. intros [_ Hn].
  by apply str_app_eq_nil in Hn as [_ Hn].
Qed.

Lemma trim_right_join l :
  Forall (fun e => good e = true) l -> trim_right sep (join l) = join l.
Proof.
  induction l as [|e l IH]; [done|]. intros H. inv H. rewrite join_cons.
  destruct l as [|e' l]; [by apply trim_right_nosep, good_nosep|].
  specialize (IH H3). pose proof (join_nonempty (e' :: l) ltac:(done) H3) as Hj.
  assert (trim_right sep (String sep (join (e' :: l))) = String sep (join (e' :: l))) as E.
  { change (trim_right sep (String sep (join (e' :: l)))) with
      (let t := trim_right sep (join (e' :: l)) in if decide (sep = sep /\ t = "") then "" else String sep t).
    rewrite IH. cbv zeta. rewrite decide_False; naive_solver. }
  rewrite trim_right_app; rewrite E; done.
Qed.

Lemma Trim_join l : Forall (fun e => good e = true) l -> Trim sep (join l) = join l.
Proof. intros H. unfold Trim. by rewrite trim_left_join, trim_right_join. Qed.

(** *** Decimal numerals *)

Lemma to_uint_nonnil (n : N) : N.to_uint n <> Decimal.Nil.
Proof.
  intros H. destruct n as [|p]; [done|].
  pose proof (DecimalPos.Unsigned.to_uint_nonnil p). done.
Qed.

Lemma parse_digits_FormatUint (z : Z) : 0 <= z -> parse_digits (FormatUint z) = Some z.
Proof.
  intros Hz. unfold parse_digits, FormatUint.
  rewrite NilZero.usu by apply to_uint_nonnil.
  rewrite Unsigned.of_to, Z2N.id by done. done.
Qed.

Lemma ParseUint_FormatUint (z : Z) : is_u64 z -> ParseUint (FormatUint z) = Some z.
Proof.
  intros Hz. unfold ParseUint, is_u64 in *. rewrite parse_digits_FormatUint by lia.
  rewrite decide_True; [done|lia].
Qed.

Lemma FormatUint_inj (x y : Z) : 0 <= x -> 0 <= y -> FormatUint x = FormatUint y -> x = y.
Proof.
  intros Hx Hy E. apply (f_equal parse_digits) in E.
  rewrite !parse_digits_FormatUint in E by done. by simplify_eq.
Qed.

(** The first byte of a numeral is a digit, so it is neither a sign nor a slash. *)
Definition is_digit (a : ascii) : bool :=
  match Ascii.is_nat a with Some _ => true | None => false end.

Fixpoint all_digits (s : string) : bool :=
  match s with
  | EmptyString => true
  | String a s' => is_digit a && all_digits s'
  end.

Lemma string_of_uint_digits (d : Decimal.uint) : all_digits (NilEmpty.string_of_uint d) = true.
Proof. induction d; done. Qed.

Lemma FormatUint_digits (z : Z) : all_digits (FormatUint z) = true /\ FormatUint z <> "".
Proof.
  unfold FormatUint, NilZero.string_of_uint.
  pose proof (to_uint_nonnil (Z.to_N z)) as Hn.
  pose proof (string_of_uint_digits (N.to_uint (Z.to_N z))) as Hd.
  destruct (N.to_uint (Z.to_N z)); done.
Qed.

Lemma all_digits_nosep (s : string) : all_digits s = true -> nosep s = true.
Proof.
  induction s as [|a s IH]; [done|]. simpl. intros H.
  apply andb_true_iff in H as [Ha Hs]. rewrite IH by done.
  rewrite bool_decide_true; [done|]. intros ->. done.
Qed.

Lemma all_digits_good (s : string) : all_digits s = true -> s <> "" -> good s = true.
Proof.
  intros Hd Hn. unfold good. rewrite all_digits_nosep by done. simpl.
  apply bool_decide_eq_true. repeat split; [done| |]; intros ->; done.
Qed.

Lemma FormatUint_good (z : Z) : good (FormatUint z) = true.
Proof. destruct (FormatUint_digits z). by apply all_digits_good. Qed.

Lemma ParseInt_digits (s : string) :
  all_digits s = true ->
  ParseInt s = match parse_digits s with
               | Some z => if decide (- 2 ^ 63 <= z < 2 ^ 63) then Some z else None
               | None => None
               end.
Proof.
  destruct s as [|[[] [] [] [] [] [] [] []] s]; done.
Qed.

Lemma ParseInt_FormatUint (z : Z) : 0 <= z < 2 ^ 63 -> ParseInt (FormatUint z) = Some z.
Proof.
  intros Hz. destruct (FormatUint_digits z) as [Hd _].
  rewrite ParseInt_digits, parse_digits_FormatUint by (done || lia).
  by rewrite decide_True by lia.
Qed.

#[export] Hint Resolve FormatUint_good good_nosep : ecos.
