(* ===== verification/Errno.v ===== *)
(** * Errors of the system and the results of Go functions

    [src/utils/errno/errno.go] declares the error values every component
    returns; a value is its numeric code and its message, and [Error] prints it.
    The other errors of the program are [errors.New]/[fmt.Errorf] strings,
    [io.EOF], and errors a library outside the repository hands back.

    [res] is what a Go call does: return a value, return an error, panic (a nil
    dereference, an index out of range, [panic], [logger.Fatalf]), or block for
    ever. *)

From S2P Require Import Prelude GoStd.

(** ** Error values *)

Record Errno := mkErrno { Code : Z; Message : string }.

#[global] Instance Errno_eq_dec : EqDecision Errno.
Proof. solve_decision. Defined.

(** [newErr]: the stack trace is for people reading a log and is left out. *)
Definition newErr (code : Z) (name : string) : Errno := mkErrno code name.

Definition AlayaError : Z := (1 + 0) * 1000.
Definition GaiaError : Z := (1 + 1) * 1000.
Definition MoonError : Z := (1 + 2) * 1000.
Definition SunError : Z := (1 + 3) * 1000.
Definition ClientError : Z := (1 + 4) * 1000.
Definition GatewayError : Z := (1 + 5) * 1000.
Definition CommonError : Z := (1 + 6) * 1000.
Definition SystemError : Z := 77 * 1000.

(** The codes. *)
Definition CodePgNotExist : Z := AlayaError + 0.
Definition CodeMetaNotExist : Z := AlayaError + 1.
Definition CodeMetaStorageNotExist : Z := AlayaError + 2.

Definition CodeConnectSunFail : Z := MoonError + 0.
Definition CodeMoonRaftNotReady : Z := MoonError + 1.
Definition CodeInfoTypeNotSupport : Z := MoonError + 2.
Definition CodeInfoNotFound : Z := MoonError + 3.
Definition CodeTermNotMatch : Z := MoonError + 4.
Definition CodePgNotMatch : Z := MoonError + 5.
Definition CodeRaftNodeNotFound : Z := MoonError + 6.

Definition CodeIncompatibleSize : Z := ClientError + 0.
Definition CodeFullBuffer : Z := ClientError + 1.
Definition CodeIllegalStatus : Z := ClientError + 2.
Definition CodeRepeatedClose : Z := ClientError + 3.
Definition CodeMethodNotAllowed : Z := ClientError + 4.
Definition CodeInvalidArgument : Z := ClientError + 5.
Definition CodeJobNotExist : Z := ClientError + 6.
Definition CodeConnectionIssue : Z := ClientError + 7.
Definition CodeClusterInfo : Z := ClientError + 8.
Definition CodeBlockOperationTimeout : Z := ClientError + 9.

Definition CodeGatewayNotFound : Z := GatewayError + 0.
Definition CodeNoSuchBucket : Z := GatewayError + 1.
Definition CodeMissingBucketName : Z := GatewayError + 2.
Definition CodeMissingKey : Z := GatewayError + 3.
Definition CodeEmptyField : Z := GatewayError + 4.
Definition CodeMissingUploadId : Z := GatewayError + 5.
Definition CodeInvalidUploadId : Z := GatewayError + 6.
Definition CodeInvalidPartId : Z := GatewayError + 7.
Definition CodeFileTooLarge : Z := GatewayError + 8.
Definition CodeEntityTooSmall : Z := GatewayError + 9.
Definition CodeInvalidPart : Z := GatewayError + 10.
Definition CodeInvalidPartOrder : Z := GatewayError + 11.
Definition CodeNoSuchUpload : Z := GatewayError + 12.
Definition CodeObjectNotFound : Z := GatewayError + 13.
Definition CodeInvalidObjectState : Z := GatewayError + 14.
Definition CodeSignatureDoesNotMatch : Z := GatewayError + 15.

Definition CodePoolClosed : Z := CommonError + 0.
Definition CodeZeroSize : Z := CommonError + 1.
Definition CodeClusterNotOK : Z := CommonError + 2.

Definition CodeNoTransporter : Z := GaiaError + 0.
Definition CodeTransporterWriteFail : Z := GaiaError + 1.
Definition CodeGaiaClosed : Z := GaiaError + 2.
Definition CodeRemoteGaiaFail : Z := GaiaError + 3.

(** Alaya *)
Definition PGNotExist := newErr CodePgNotExist "place group not exist".
Definition MetaNotExist := newErr CodeMetaNotExist "meta data not exist".
Definition MetaStorageNotExist := newErr CodeMetaStorageNotExist "meta data storage not exist".
Definition TermNotExist := newErr CodeMetaNotExist "term not exist".

(** Moon *)
Definition ConnectSunFail := newErr CodeConnectSunFail "connect sun fail".
Definition MoonRaftNotReady := newErr CodeMoonRaftNotReady "moon raft not ready".
Definition InfoTypeNotSupport := newErr CodeInfoTypeNotSupport "info type not support".
Definition InfoNotFound := newErr CodeInfoNotFound "info not found".
Definition TermNotMatch := newErr CodeTermNotMatch "term not match".
Definition PgNotMatch := newErr CodePgNotMatch "place group not match".
Definition RaftNodeNotFound := newErr CodeRaftNodeNotFound "raft node not found".

(** Client *)
Definition IncompatibleSize := newErr CodeIncompatibleSize "incompatible size".
Definition IllegalStatus := newErr CodeIllegalStatus "block illegal status".
Definition RepeatedClose := newErr CodeRepeatedClose "block repeated close".
Definition MethodNotAllowed := newErr CodeMethodNotAllowed "method not allowed".
Definition InvalidArgument := newErr CodeInvalidArgument "invalid argument".
Definition JobNotExist := newErr CodeJobNotExist "job not exist".
Definition ConnectionIssue := newErr CodeConnectionIssue "connect to edge node failed".
Definition ClusterInfoErr := newErr CodeClusterInfo "get cluster info failed".
Definition BlockOperationTimeout := newErr CodeBlockOperationTimeout "block operation timeout".

(** Gateway *)
Definition NoSuchBucket := newErr CodeNoSuchBucket "bucket not found".
Definition MissingBucket := newErr CodeMissingBucketName "missing bucket name".
Definition MissingKey := newErr CodeMissingKey "missing key".
Definition EmptyField := newErr CodeEmptyField "empty field".
Definition MissingUploadId := newErr CodeMissingUploadId "missing upload id".
Definition InvalidUploadId := newErr CodeInvalidUploadId "invalid upload id".
Definition InvalidPartId := newErr CodeInvalidPartId "invalid part id".
Definition FileTooLarge := newErr CodeFileTooLarge "file too large".
Definition EntityTooSmall := newErr CodeEntityTooSmall "entity too small".
Definition InvalidPart := newErr CodeInvalidPart "invalid part".
Definition InvalidPartOrder := newErr CodeInvalidPartOrder "invalid part order".
Definition NoSuchUpload := newErr CodeNoSuchUpload "no such upload".
Definition ObjectNotFound := newErr CodeObjectNotFound "object not found".
Definition InvalidObjectState := newErr CodeInvalidObjectState "invalid object state".
Definition SignatureDoesNotMatch := newErr CodeSignatureDoesNotMatch "signature does not match".

(** Common *)
Definition PoolClosed := newErr CodePoolClosed "pool has closed".
Definition ZeroSize := newErr CodeZeroSize "0 for uint size".
Definition ClusterNotOK := newErr CodeClusterNotOK "cluster not ok".

(** Gaia *)
Definition NoTransporterErr := newErr CodeNoTransporter "no transporter available".
Definition TransporterWriteFail := newErr CodeTransporterWriteFail "transporter write fail".
Definition GaiaClosedErr := newErr CodeGaiaClosed "gaia context done".
Definition RemoteGaiaFail := newErr CodeRemoteGaiaFail "remote gaia fail".

(** ** Results *)

Inductive error :=
  | EErrno (e : Errno)
  | ENew (msg : string)
  | EEOF
  | EExt (msg : string).

#[global] Instance error_eq_dec : EqDecision error.
Proof. solve_decision. Defined.

Inductive res (A : Type) :=
  | Ok (a : A)
  | Err (e : error)
  | Panic
  | Stuck.

Arguments Ok {A} a.
Arguments Err {A} e.
Arguments Panic {A}.
Arguments Stuck {A}.

#[global] Instance res_ret : MRet res := fun A x => Ok x.
#[global] Instance res_bind : MBind res := fun A B f m =>
  match m with
  | Ok a => f a
  | Err e => Err e
  | Panic => Panic
  | Stuck => Stuck
  end.

Definition is_Ok {A} (r : res A) : bool := match r with Ok _ => true | _ => false end.

(** An index or map access that the program assumes to be defined. *)
Definition or_panic {A} (o : option A) : res A :=
  match o with Some a => Ok a | None => Panic end.

(** [if err != nil { return err }] on an absent value. *)
Definition or_err {A} (e : error) (o : option A) : res A :=
  match o with Some a => Ok a | None => Err e end.

(** ** Stateful operations

    A method that mutates its receiver is a function from the state to the state
    after the call and a result; an error or a panic ends it with the state
    reached so far. *)

Definition st_bind {S A B} (m : S * res A) (k : S -> A -> S * res B) : S * res B :=
  match m with
  | (s, Ok a) => k s a
  | (s, Err e) => (s, Err e)
  | (s, Panic) => (s, Panic)
  | (s, Stuck) => (s, Stuck)
  end.

Notation "'do' s , x <- m ; k" := (st_bind m (fun s x => k))
  (at level 100, s name, x name, m at level 90, k at level 200, right associativity).

(** A result that leaves the state as it is. *)
Definition pure {S A} (s : S) (r : res A) : S * res A := (s, r).

Lemma st_bind_inv {S A B} (m : S * res A) (k : S -> A -> S * res B) s' b :
  st_bind m k = (s', Ok b) -> exists s a, m = (s, Ok a) /\ k s a = (s', Ok b).
Proof. destruct m as [s [a| | |]]; simpl; intros H; try done. by exists s, a. Qed.

(** ** Printing *)

(** [Errno.Error], and the text of the other errors. *)
Definition Errno_Error (e : Errno) : string :=
  "[" +:+ FormatInt (Code e) +:+ "] " +:+ Message e.

Definition Error (e : error) : string :=
  match e with
  | EErrno e => Errno_Error e
  | ENew m | EExt m => m
  | EEOF => "EOF"
  end.

(** An error of a remote handler, as the RPC layer hands it to the caller. *)
Definition rpc_error (e : error) : error :=
  EExt ("rpc error: code = Unknown desc = " +:+ Error e).

(** Every error value the program declares. *)
Definition all_errno : list Errno := [
  PGNotExist; MetaNotExist; MetaStorageNotExist; TermNotExist;
  ConnectSunFail; MoonRaftNotReady; InfoTypeNotSupport; InfoNotFound; TermNotMatch; PgNotMatch; RaftNodeNotFound;
  IncompatibleSize; IllegalStatus; RepeatedClose; MethodNotAllowed; InvalidArgument; JobNotExist;
  ConnectionIssue; ClusterInfoErr; BlockOperationTimeout;
  NoSuchBucket; MissingBucket; MissingKey; EmptyField; MissingUploadId; InvalidUploadId; InvalidPartId;
  FileTooLarge; EntityTooSmall; InvalidPart; InvalidPartOrder; NoSuchUpload; ObjectNotFound;
  InvalidObjectState; SignatureDoesNotMatch;
  PoolClosed; ZeroSize; ClusterNotOK;
  NoTransporterErr; TransporterWriteFail; GaiaClosedErr; RemoteGaiaFail ].

(** Recognising an error by its text, as clients do. *)
Definition is_remote (sent : Errno) (err : error) : bool := Contains (Error err) (Errno_Error sent).
