(* ===== verification/Infos.v ===== *)
(** * Cluster information: the records and their identifiers

    The message types of [src/messenger/proto/infos.proto] that the program reads
    and writes, and what [src/edge-node/infos/*_info.go] and [info.go] compute from
    them: identifiers, kinds, the healthy nodes of a cluster. The storages they are
    kept in are in [InfoStorage.v]. *)

From S2P Require Import Prelude Errno GoStd.

(** ** Data *)

Record Timestamp := mkTimestamp { Seconds : Z; Nanos : Z }.

#[global] Instance Timestamp_eq_dec : EqDecision Timestamp.
Proof. solve_decision. Defined.

Inductive NodeState := NS_UNKNOWN | NS_ONLINE | NS_OFFLINE | NS_ERROR.

#[global] Instance NodeState_eq_dec : EqDecision NodeState.
Proof. solve_decision. Defined.

Record NodeInfo := mkNodeInfo {
  RaftId : Z;
  Uuid : string;
  IpAddr : string;
  RpcPort : Z;
  Capacity : Z;
  State : NodeState
}.

#[global] Instance NodeInfo_eq_dec : EqDecision NodeInfo.
Proof. solve_decision. Defined.

Inductive HashType := HT_OFF | HT_SHA256 | HT_MURMUR3_128 | HT_MURMUR3_32.

#[global] Instance HashType_eq_dec : EqDecision HashType.
Proof. solve_decision. Defined.

Record BucketConfig := mkBucketConfig {
  KeySlotNum : Z;
  BlockSize : Z;
  BlockHashEnable : bool;
  ObjectHashEnable : bool;
  HistoryVersionEnable : bool;
  BlockHashType : HashType;
  ObjectHashType : HashType
}.

#[global] Instance BucketConfig_eq_dec : EqDecision BucketConfig.
Proof. solve_decision. Defined.

Record BucketInfo := mkBucketInfo {
  VolumeId : string;
  BucketName : string;
  UserId : string;
  GroupId : string;
  Mode : Z;
  Config : option BucketConfig
}.

#[global] Instance BucketInfo_eq_dec : EqDecision BucketInfo.
Proof. solve_decision. Defined.

Record ClusterInfo := mkClusterInfo {
  Term : Z;
  LeaderInfo : option NodeInfo;
  NodesInfo : list NodeInfo;
  UpdateTimestamp : option Timestamp;
  MetaPgNum : Z;
  MetaPgSize : Z;
  BlockPgNum : Z;
  BlockPgSize : Z;
  LastTerm : Z
}.

#[global] Instance ClusterInfo_eq_dec : EqDecision ClusterInfo.
Proof. solve_decision. Defined.

Record UserInfo := mkUserInfo {
  user_id : string;
  user_name : string;
  user_group : string;
  user_email : string;
  user_password : string;
  user_status : string;
  user_created_at : option Timestamp;
  user_updated_at : option Timestamp
}.

#[global] Instance UserInfo_eq_dec : EqDecision UserInfo.
Proof. solve_decision. Defined.

Record VolumeInfo := mkVolumeInfo {
  volume_id : string;
  volume_user_id : string;
  quota_size : Z;
  used_size : Z
}.

#[global] Instance VolumeInfo_eq_dec : EqDecision VolumeInfo.
Proof. solve_decision. Defined.

Record GroupInfo := mkGroupInfo {
  group_id : string;
  group_name : string;
  group_description : string;
  group_created_at : option Timestamp;
  group_updated_at : option Timestamp
}.

#[global] Instance GroupInfo_eq_dec : EqDecision GroupInfo.
Proof. solve_decision. Defined.

Record AccessInfo := mkAccessInfo {
  access_key : string;
  access_secret : string;
  access_user_id : string;
  access_bucket_id : string
}.

#[global] Instance AccessInfo_eq_dec : EqDecision AccessInfo.
Proof. solve_decision. Defined.

Inductive InfoType :=
  | IT_INVALID | IT_NODE_INFO | IT_BUCKET_INFO | IT_CLUSTER_INFO
  | IT_USER_INFO | IT_GROUP_INFO | IT_VOLUME_INFO | IT_ACCESS_INFO.

#[global] Instance InfoType_eq_dec : EqDecision InfoType.
Proof. solve_decision. Defined.

(** The enumeration's numbers; they name the column families of RocksDB. *)
Definition InfoType_num (t : InfoType) : nat :=
  match t with
  | IT_INVALID => 0 | IT_NODE_INFO => 1 | IT_BUCKET_INFO => 2 | IT_CLUSTER_INFO => 3
  | IT_USER_INFO => 4 | IT_GROUP_INFO => 5 | IT_VOLUME_INFO => 6 | IT_ACCESS_INFO => 7
  end%nat.

Definition InfoType_of_num (n : nat) : InfoType :=
  match n with
  | 1 => IT_NODE_INFO | 2 => IT_BUCKET_INFO | 3 => IT_CLUSTER_INFO | 4 => IT_USER_INFO
  | 5 => IT_GROUP_INFO | 6 => IT_VOLUME_INFO | 7 => IT_ACCESS_INFO | _ => IT_INVALID
  end%nat.

Lemma InfoType_of_num_num t : InfoType_of_num (InfoType_num t) = t.
Proof. by destruct t. Qed.

#[global] Instance InfoType_countable : Countable InfoType :=
  inj_countable' InfoType_num InfoType_of_num InfoType_of_num_num.

(** The [oneof] of [BaseInfo]: a value of it is what the storages hold.
    [BI_NilClusterInfo] is the wrapper around a nil cluster info that
    [InvalidInfo.BaseInfo] makes, [BI_None] the unset [oneof]. *)
Inductive BaseInfo :=
  | BI_NodeInfo (n : NodeInfo)
  | BI_ClusterInfo (c : ClusterInfo)
  | BI_BucketInfo (b : BucketInfo)
  | BI_UserInfo (u : UserInfo)
  | BI_GroupInfo (g : GroupInfo)
  | BI_VolumeInfo (v : VolumeInfo)
  | BI_AccessInfo (a : AccessInfo)
  | BI_NilClusterInfo
  | BI_None.

#[global] Instance BaseInfo_eq_dec : EqDecision BaseInfo.
Proof. solve_decision. Defined.

(** ** Identifiers *)

Definition GenBucketID (volumeId bucketName : string) : string :=
  Join ["/"; volumeId; bucketName].

Definition BucketInfo_GetID (m : BucketInfo) : string := GenBucketID (VolumeId m) (BucketName m).

Definition NodeInfo_GetID (m : NodeInfo) : string := FormatUint (RaftId m).

Definition ClusterInfo_GetID (m : ClusterInfo) : string := FormatUint (Term m).

Definition GetHealthNode (m : ClusterInfo) : list NodeInfo :=
  List.filter (fun n => bool_decide (State n = NS_ONLINE)) (NodesInfo m).

(** A [nil] result is [None]. *)
Definition GenBucketInfo (volumeID bucketName userID : string) : option BucketInfo :=
  let volumeID := Clean volumeID in
  let bucketName := Clean bucketName in
  if Contains bucketName "/" || Contains volumeID "/" then None
  else Some (mkBucketInfo volumeID bucketName userID "" 0
               (Some (mkBucketConfig 5 (4 * 1024 * 1024) false false false
                        HT_MURMUR3_128 HT_MURMUR3_128))).

Definition GetBucketID (volumeID bucketName : string) : string :=
  let volumeID := Clean volumeID in
  let bucketName := Clean bucketName in
  if Contains bucketName "/" || Contains volumeID "/" then ""
  else GenBucketID volumeID bucketName.

(** [BaseInfo] knows three of the kinds; the others are invalid to it. *)
Definition BaseInfo_GetInfoType (m : BaseInfo) : InfoType :=
  match m with
  | BI_NodeInfo _ => IT_NODE_INFO
  | BI_ClusterInfo _ | BI_NilClusterInfo => IT_CLUSTER_INFO
  | BI_BucketInfo _ => IT_BUCKET_INFO
  | _ => IT_INVALID
  end.

(** (A nil cluster info has no identifier, Go stops there; it only ever comes
    with an error, and the program reads the error first.) *)
Definition BaseInfo_GetID (m : BaseInfo) : string :=
  match m with
  | BI_NodeInfo n => NodeInfo_GetID n
  | BI_BucketInfo b => BucketInfo_GetID b
  | BI_ClusterInfo c => ClusterInfo_GetID c
  | _ => "INFO_TYPE_INVALID"
  end.

(** [Information] is the interface the typed records and [BaseInfo] implement. *)
Inductive Information :=
  | Inf_Node (n : NodeInfo)
  | Inf_Cluster (c : ClusterInfo)
  | Inf_Bucket (b : BucketInfo)
  | Inf_User (u : UserInfo)
  | Inf_Volume (v : VolumeInfo)
  | Inf_Base (m : BaseInfo)
  | Inf_Invalid.

#[global] Instance Information_eq_dec : EqDecision Information.
Proof. solve_decision. Defined.

Definition Information_BaseInfo (i : Information) : BaseInfo :=
  match i with
  | Inf_Node n => BI_NodeInfo n
  | Inf_Cluster c => BI_ClusterInfo c
  | Inf_Bucket b => BI_BucketInfo b
  | Inf_User u => BI_UserInfo u
  | Inf_Volume v => BI_VolumeInfo v
  | Inf_Base m => m
  | Inf_Invalid => BI_NilClusterInfo
  end.

Definition GetInfoType (i : Information) : InfoType :=
  match i with
  | Inf_Node _ => IT_NODE_INFO
  | Inf_Cluster _ => IT_CLUSTER_INFO
  | Inf_Bucket _ => IT_BUCKET_INFO
  | Inf_User _ => IT_USER_INFO
  | Inf_Volume _ => IT_VOLUME_INFO
  | Inf_Base m => BaseInfo_GetInfoType m
  | Inf_Invalid => IT_INVALID
  end.

Definition GetID (i : Information) : string :=
  match i with
  | Inf_Node n => NodeInfo_GetID n
  | Inf_Cluster c => ClusterInfo_GetID c
  | Inf_Bucket b => BucketInfo_GetID b
  | Inf_User u => user_id u
  | Inf_Volume v => volume_id v
  | Inf_Base m => BaseInfo_GetID m
  | Inf_Invalid => "INFO_TYPE_INVALID"
  end.

(** The generated getters of the [oneof]: the zero value when it holds another kind. *)
Definition GetNodeInfo (m : BaseInfo) : option NodeInfo :=
  match m with BI_NodeInfo n => Some n | _ => None end.

Definition GetClusterInfo (m : BaseInfo) : option ClusterInfo :=
  match m with BI_ClusterInfo c => Some c | _ => None end.

Definition GetBucketInfo (m : BaseInfo) : option BucketInfo :=
  match m with BI_BucketInfo b => Some b | _ => None end.

(** ** Facts on identifiers *)

Lemma GenBucketID_good v b :
  good v = true -> good b = true -> GenBucketID v b = String sep (join [v; b]).
Proof.
  intros Hv Hb. unfold GenBucketID. simpl Join.
  change (join ["/"; v; b]) with (String sep (String sep (join [v; b]))).
  rewrite Clean_rooted, Split_rooted, norm_skip_empty.
  rewrite Split_join; [|done|by repeat constructor; apply good_nosep].
  by rewrite norm_good by by repeat constructor.
Qed.
