(* ===== verification/Lru.v ===== *)
(** * Caches of the least-recently-used kind

    The program keeps connections ([src/messenger/messenger.go]) and object
    factories ([src/client/client.go]) in caches of a library. [Lru] is what it
    calls; [LruOk] is the library's documented behaviour: entries ordered by their
    last use, a limit on their number, and a callback for every entry that leaves. *)

From S2P Require Import Prelude.

Class Lru (C K V : Type) := {
  lru_New : nat -> C;
  lru_Get : C -> K -> C * option V;
  lru_Add : C -> K -> V -> C * list (K * V);       (* the entries the callback is given *)
  lru_Remove : C -> K -> C * list (K * V)
}.

Section spec.
Context {K V : Type} `{EqDecision K}.

Implicit Types l : list (K * V).

Definition find_key (k : K) l : option V := p ← list_find (fun kv => kv.1 = k) l; Some p.2.2.

Definition without (k : K) l : list (K * V) := filter (fun kv => kv.1 <> k) l.

(** Most recently used first. *)
Definition use (k : K) (v : V) l : list (K * V) := (k, v) :: without k l.

End spec.

Class LruOk (C K V : Type) `{EqDecision K, Lru C K V} := {
  entries : C -> list (K * V);
  limit : C -> nat;
  lru_New_ok n : entries (lru_New n) = [] /\ limit (lru_New n) = n;
  lru_Get_ok c k c' o : lru_Get c k = (c', o) -> limit c' = limit c /\ o = find_key k (entries c) /\
    entries c' = match o with Some v => use k v (entries c) | None => entries c end;
  lru_Add_ok c k v c' out : lru_Add c k v = (c', out) -> limit c' = limit c /\
    (entries c', out) =
      if decide (k ∈ (entries c).*1) then (use k v (entries c), [])
      else (take (limit c) ((k, v) :: entries c), drop (limit c) ((k, v) :: entries c));
  lru_Remove_ok c k c' out : lru_Remove c k = (c', out) -> limit c' = limit c /\
    entries c' = without k (entries c) /\ out = filter (fun kv => kv.1 = k) (entries c)
}.

(** ** Lemmas *)

Section lemmas.
Context {K V : Type} `{EqDecision K}.

Implicit Types l : list (K * V).

Lemma find_key_cons k k' v l : find_key k ((k', v) :: l) = if decide (k' = k) then Some v else find_key k l.
Proof.
  unfold find_key. simpl. destruct (decide (k' = k)); [done|]. by destruct (list_find _ l) as [[]|].
Qed.

Lemma find_key_None k l : find_key k l = None <-> k ∉ l.*1.
Proof.
  induction l as [|[k' v] l IH]; [split; [intros _; apply not_elem_of_nil|done]|].
  rewrite find_key_cons. cbn [fmap list_fmap fst]. rewrite not_elem_of_cons. destruct (decide (k' = k)) as [->|Hne]; [by split; [|intros []]|].
  rewrite IH. split; [intros Hx; split; [congruence|done]|by intros []].
Qed.

Lemma find_key_Some k v l : find_key k l = Some v -> (k, v) ∈ l.
Proof.
  induction l as [|[k' v'] l IH]; [done|]. rewrite find_key_cons.
  destruct (decide (k' = k)) as [->|Hne]; [intros [= ->]; by left|]. intros Hf. right. by apply IH.
Qed.

Lemma find_key_elem k v l : NoDup l.*1 -> (k, v) ∈ l -> find_key k l = Some v.
Proof.
  induction l as [|[k' v'] l IH]; intros Hnd Hin; [by apply not_elem_of_nil in Hin|]. inv Hnd.
  rewrite find_key_cons. apply elem_of_cons in Hin as [[= -> ->]|Hin]; [by rewrite decide_True|].
  rewrite decide_False; [by apply IH|]. intros ->. apply H1. by apply (list_elem_of_fmap_2 fst) in Hin.
Qed.

Lemma without_keys k l : (without k l).*1 = filter (fun k' => k' <> k) l.*1.
Proof.
  unfold without. induction l as [|[k' v] l IH]; [done|]. rewrite filter_cons. simpl. rewrite filter_cons.
  destruct (decide (k' = k)); rewrite ?decide_False, ?decide_True by auto; [done|]. simpl. by f_equal.
Qed.

Lemma elem_of_without k k' v l : (k', v) ∈ without k l <-> k' <> k /\ (k', v) ∈ l.
Proof. unfold without. by rewrite list_elem_of_filter. Qed.

Lemma use_NoDup k v l : NoDup l.*1 -> NoDup (use k v l).*1.
Proof.
  intros Hnd. unfold use. cbn [fmap list_fmap fst]. fold (fmap (M:=list) (fst (A:=K) (B:=V))). rewrite without_keys. constructor.
  - rewrite list_elem_of_filter. intros [? _]. done.
  - by apply NoDup_filter.
Qed.

Lemma elem_of_use k v k' v' l : (k', v') ∈ use k v l <-> k' = k /\ v' = v \/ k' <> k /\ (k', v') ∈ l.
Proof.
  unfold use. rewrite elem_of_cons, elem_of_without. split; [intros [[= -> ->]|?]|intros [[-> ->]|?]]; auto.
Qed.

(** Using an entry that is there keeps the entries. *)
Lemma use_known k v l : NoDup l.*1 -> find_key k l = Some v -> use k v l ≡ₚ l.
Proof.
  intros Hnd Hf. apply NoDup_Permutation.
  - apply (NoDup_fmap_1 fst). by apply use_NoDup.
  - by apply (NoDup_fmap_1 fst).
  - intros [k' v']. rewrite elem_of_use. split.
    + intros [[-> ->]|[_ ?]]; [by apply find_key_Some|done].
    + intros Hin. destruct (decide (k' = k)) as [->|Hne]; [left|by right].
      split; [done|]. apply (find_key_elem _ _ _ Hnd) in Hin. congruence.
Qed.

End lemmas.

(** ** An implementation *)

Record ListLru (K V : Type) := mkListLru { ll_limit : nat; ll_entries : list (K * V) }.

Arguments mkListLru {K V}. Arguments ll_limit {K V}. Arguments ll_entries {K V}.

#[export] Instance list_lru {K V} `{EqDecision K} : Lru (ListLru K V) K V := {|
  lru_New n := mkListLru n [];
  lru_Get c k := match find_key k (ll_entries c) with
                 | Some v => (mkListLru (ll_limit c) (use k v (ll_entries c)), Some v)
                 | None => (c, None)
                 end;
  lru_Add c k v :=
    if decide (k ∈ (ll_entries c).*1) then (mkListLru (ll_limit c) (use k v (ll_entries c)), [])
    else let l := (k, v) :: ll_entries c in (mkListLru (ll_limit c) (take (ll_limit c) l), drop (ll_limit c) l);
  lru_Remove c k := (mkListLru (ll_limit c) (without k (ll_entries c)), filter (fun kv => kv.1 = k) (ll_entries c))
|}.

#[export] Instance list_lru_ok {K V} `{EqDecision K} : LruOk (ListLru K V) K V.
Proof.
  refine {| entries := ll_entries; limit := ll_limit |}; simpl.
  - done.
  - intros c k c' o. destruct (find_key k (ll_entries c)); by intros [= <- <-].
  - intros c k v c' out. destruct (decide _); by intros [= <- <-].
  - by intros c k c' out [= <- <-].
Defined.
