(* ===== verification/Rocks.v ===== *)
(** * RocksDB, as the program uses it

    The storages keep their data in column families of a RocksDB database
    through the [gorocksdb] bindings. The database is an interface: [RocksDB] has
    the calls the program makes, [RocksDBOk] what its documentation says of them:
    a column family is an ordered map of byte strings, and an iterator walks it
    in key order. [MapDB] is an implementation over finite maps. *)

From S2P Require Import Prelude GoStd Errno.

(** ** Order of keys *)

Fixpoint str_le (s t : string) : bool :=
  match s, t with
  | EmptyString, _ => true
  | String _ _, EmptyString => false
  | String a s', String b t' =>
      if decide (a = b) then str_le s' t' else bool_decide (N_of_ascii a < N_of_ascii b)%N
  end.

#[global] Instance str_le_rel : RelDecision (fun s t => str_le s t = true).
Proof. intros s t. apply _. Defined.

Lemma N_of_ascii_inj a b : N_of_ascii a = N_of_ascii b -> a = b.
Proof. intros E. rewrite <- (ascii_N_embedding a), <- (ascii_N_embedding b). by rewrite E. Qed.

Lemma str_le_refl s : str_le s s = true.
Proof. induction s as [|a s IH]; [done|]. simpl. by rewrite decide_True. Qed.

Lemma str_le_total s t : str_le s t = true \/ str_le t s = true.
Proof.
  revert t. induction s as [|a s IH]; intros [|b t]; simpl; try (by left); try (by right).
  destruct (decide (a = b)) as [->|Hne]; [rewrite !decide_True by done; apply IH|].
  rewrite decide_False by congruence. rewrite !bool_decide_eq_true.
  assert (N_of_ascii a <> N_of_ascii b) by (intros E; by apply N_of_ascii_inj in E). lia.
Qed.

Lemma str_le_trans s t u : str_le s t = true -> str_le t u = true -> str_le s u = true.
Proof.
  revert t u. induction s as [|a s IH]; intros [|b t] [|c u]; simpl; try done.
  destruct (decide (a = b)) as [->|Hab].
  - destruct (decide (b = c)); [apply IH|done].
  - destruct (decide (b = c)) as [->|Hbc].
    + rewrite (decide_False (P:=a = c)) by done. done.
    + rewrite !bool_decide_eq_true. intros H1 H2.
      destruct (decide (a = c)) as [->|Hac]; [lia|]. apply bool_decide_eq_true. lia.
Qed.

(** Keys with a given prefix are consecutive, and start at the prefix. *)
Lemma prefix_ge s p : HasPrefix s p = true -> str_le p s = true.
Proof.
  revert s. induction p as [|a p IH]; intros [|b s]; simpl; try done.
  intros [->%bool_decide_eq_true Hp]%andb_true_iff. rewrite decide_True by done. by apply IH.
Qed.

Lemma prefix_between p k k' :
  str_le p k = true -> str_le k k' = true -> HasPrefix k' p = true -> HasPrefix k p = true.
Proof.
  revert k k'. induction p as [|a p IH]; intros [|b k] [|c k']; simpl; try done.
  intros H1 H2 [->%bool_decide_eq_true Hp]%andb_true_iff.
  destruct (decide (c = b)) as [->|Hne].
  - rewrite decide_True in H2 by done. rewrite bool_decide_true by done. simpl. by eapply IH.
  - rewrite decide_False in H2 by congruence. apply bool_decide_eq_true in H1, H2. lia.
Qed.

(** ** Iterators *)

Section scan.
Context {V : Type}.

Definition key_le (x y : string * V) : Prop := str_le x.1 y.1 = true.

#[global] Instance key_le_dec : RelDecision key_le.
Proof. intros x y. unfold key_le. apply _. Defined.

(** [it.Seek(prefix)] on the sorted entries of the family. *)
Definition seek (prefix : string) (l : list (string * V)) : list (string * V) :=
  List.filter (fun kv => str_le prefix kv.1) l.

(** The loop that collects entries while they have the prefix. *)
Fixpoint take_prefix (prefix : string) (l : list (string * V)) : list (string * V) :=
  match l with
  | [] => []
  | kv :: l' => if HasPrefix kv.1 prefix then kv :: take_prefix prefix l' else []
  end.

Definition prefix_scan (prefix : string) (l : list (string * V)) : list (string * V) :=
  take_prefix prefix (seek prefix l).

Lemma take_prefix_none prefix (l : list (string * V)) k :
  Forall (fun x => str_le k x.1 = true) l -> str_le prefix k = true -> HasPrefix k prefix = false ->
  List.filter (fun kv => HasPrefix kv.1 prefix) l = [].
Proof.
  intros Hl Hp Hk. induction Hl as [|x l Hx _ IH]; [done|]. simpl.
  destruct (HasPrefix x.1 prefix) eqn:E; [|done].
  rewrite (prefix_between prefix k x.1) in Hk; done.
Qed.

(** In key order, stopping at the first other key misses nothing. *)
Lemma prefix_scan_filter prefix (l : list (string * V)) :
  StronglySorted key_le l ->
  prefix_scan prefix l = List.filter (fun kv => HasPrefix kv.1 prefix) l.
Proof.
  unfold prefix_scan. induction 1 as [|[k v] l Hs IH Hl]; [done|]. simpl.
  destruct (str_le prefix k) eqn:Hle.
  - simpl. destruct (HasPrefix k prefix) eqn:Hp; [by rewrite IH|].
    symmetry. by eapply (take_prefix_none prefix l k).
  - destruct (HasPrefix k prefix) eqn:Hp; [|done]. apply prefix_ge in Hp. congruence.
Qed.

End scan.

(** ** The interface *)

(** [V] is the type of stored byte strings: the program only makes them by
    marshalling a message. *)
Class RocksDB (V : Type) := {
  DB : Type;
  PutCF : DB -> string -> string -> V -> res DB;
  DeleteCF : DB -> string -> string -> res DB;
  GetCF : DB -> string -> string -> option V;
  IterCF : DB -> string -> list (string * V);
  CreateCF : DB -> string -> res DB
}.

(** [contents]: what the database holds, family by family. *)
Class RocksDBOk {V : Type} `{RocksDB V} := {
  contents : DB -> gmap string (gmap string V);
  PutCF_ok db cf k v db' : PutCF db cf k v = Ok db' ->
    contents db' = <[cf := <[k := v]> (default ∅ (contents db !! cf))]> (contents db);
  DeleteCF_ok db cf k db' : DeleteCF db cf k = Ok db' ->
    contents db' = <[cf := delete k (default ∅ (contents db !! cf))]> (contents db);
  GetCF_ok db cf k : GetCF db cf k = default ∅ (contents db !! cf) !! k;
  IterCF_sorted db cf : StronglySorted key_le (IterCF db cf);
  IterCF_ok db cf : IterCF db cf ≡ₚ map_to_list (default ∅ (contents db !! cf));
  CreateCF_ok db cf db' : CreateCF db cf = Ok db' -> contents db' = <[cf := ∅]> (contents db)
}.

(** ** An implementation *)

Definition sorted_entries {V} (m : gmap string V) : list (string * V) :=
  merge_sort key_le (map_to_list m).

#[export] Instance MapDB (V : Type) : RocksDB V := {|
  DB := gmap string (gmap string V);
  PutCF db cf k v := Ok (<[cf := <[k := v]> (default ∅ (db !! cf))]> db);
  DeleteCF db cf k := Ok (<[cf := delete k (default ∅ (db !! cf))]> db);
  GetCF db cf k := default ∅ (db !! cf) !! k;
  IterCF db cf := sorted_entries (default ∅ (db !! cf));
  CreateCF db cf := Ok (<[cf := ∅]> db)
|}.

#[export] Instance MapDB_ok (V : Type) : @RocksDBOk V (MapDB V).
Proof.
  refine {| contents := fun db : @DB V (MapDB V) => db |}; simpl.
  - by intros db cf k v db' [= <-].
  - by intros db cf k db' [= <-].
  - done.
  - intros db cf. apply StronglySorted_merge_sort.
    + intros x y z. apply str_le_trans.
    + intros x y. apply str_le_total.
  - intros db cf. apply merge_sort_Permutation.
  - by intros db cf db' [= <-].
Defined.
