(* ===== verification/InfoStorage.v ===== *)
(** * Storages of cluster information

    [src/edge-node/infos/storage.go] declares the interface [Storage], its
    factories, and the register that routes an operation to the storage of the
    information's type; [memory_info_storage.go] and [rocksdb_info_storage.go]
    implement it. A callback set with [SetOnUpdate] is code of another component:
    [Update] returns the names of the callbacks it runs, in the order of the
    table. [StorageLaws] is what every storage promises its clients. *)

From S2P Require Import Prelude GoStd Errno Infos Rocks.

(** ** The interface *)

Class Storage (S : Type) := {
  Storage_Update : S -> Information -> S * res (list string);
  Storage_Delete : S -> string -> S * res unit;
  Storage_Get : S -> string -> res Information;
  Storage_List : S -> string -> res (list Information);
  Storage_GetAll : S -> res (list Information);
  Storage_SetOnUpdate : S -> string -> S;
  Storage_CancelOnUpdate : S -> string -> S
}.

(** The abstract state is a map from identifiers to information. *)
Class StorageLaws (S : Type) `{Storage S} := {
  view : S -> gmap string BaseInfo;
  hooks : S -> gset string;
  storage_ok : S -> Prop;      (* every stored value can be read *)
  update_view s i s' calls : Storage_Update s i = (s', Ok calls) ->
    (storage_ok s -> storage_ok s') /\ view s' = <[GetID i := Information_BaseInfo i]> (view s) /\ hooks s' = hooks s /\
    NoDup calls /\ (forall n, n ∈ calls <-> n ∈ hooks s);
  delete_view s id s' : Storage_Delete s id = (s', Ok tt) ->
    (storage_ok s -> storage_ok s') /\ view s' = delete id (view s) /\ hooks s' = hooks s;
  get_view s id : match view s !! id with
    | Some b => exists i, Storage_Get s id = Ok i /\ Information_BaseInfo i = b
    | None => exists e, Storage_Get s id = Err e
    end;
  getall_view s l : storage_ok s -> Storage_GetAll s = Ok l ->
    Information_BaseInfo <$> l ≡ₚ (map_to_list (view s)).*2;
  list_view s prefix l : storage_ok s -> Storage_List s prefix = Ok l ->
    forall b, b ∈ (Information_BaseInfo <$> l) <->
      exists id, view s !! id = Some b /\ HasPrefix id prefix = true;
  hook_view s n : hooks (Storage_SetOnUpdate s n) = {[n]} ∪ hooks s /\ view (Storage_SetOnUpdate s n) = view s /\
    (storage_ok s -> storage_ok (Storage_SetOnUpdate s n));
  unhook_view s n : hooks (Storage_CancelOnUpdate s n) = hooks s ∖ {[n]} /\
    view (Storage_CancelOnUpdate s n) = view s /\ (storage_ok s -> storage_ok (Storage_CancelOnUpdate s n))
}.

(** ** The storage in memory *)

Record MemoryInfoStorage := mkMemoryInfoStorage {
  kvStorage : gmap string Information;
  onUpdateMap : gset string
}.

Definition Mem_Update (s : MemoryInfoStorage) (info : Information) : MemoryInfoStorage * res (list string) :=
  (mkMemoryInfoStorage (<[GetID info := info]> (kvStorage s)) (onUpdateMap s), Ok (elements (onUpdateMap s))).

Definition Mem_Delete (s : MemoryInfoStorage) (id : string) : MemoryInfoStorage * res unit :=
  (mkMemoryInfoStorage (delete id (kvStorage s)) (onUpdateMap s), Ok tt).

Definition Mem_Get (s : MemoryInfoStorage) (id : string) : res Information :=
  or_err (EErrno InfoNotFound) (kvStorage s !! id).

(** [key[:len(prefix)] == prefix]: a key shorter than the prefix is a panic. *)
Fixpoint mem_list (prefix : string) (l : list (string * Information)) : res (list Information) :=
  match l with
  | [] => Ok []
  | (k, i) :: l' =>
      if decide (String.length k < String.length prefix)%nat then Panic
      else rest ← mem_list prefix l';
           Ok (if HasPrefix k prefix then i :: rest else rest)
  end.

Definition Mem_List (s : MemoryInfoStorage) (prefix : string) : res (list Information) :=
  mem_list prefix (map_to_list (kvStorage s)).

Definition Mem_GetAll (s : MemoryInfoStorage) : res (list Information) := Ok (map_to_list (kvStorage s)).*2.

Definition Mem_SetOnUpdate (s : MemoryInfoStorage) (name : string) : MemoryInfoStorage :=
  mkMemoryInfoStorage (kvStorage s) ({[name]} ∪ onUpdateMap s).

Definition Mem_CancelOnUpdate (s : MemoryInfoStorage) (name : string) : MemoryInfoStorage :=
  mkMemoryInfoStorage (kvStorage s) (onUpdateMap s ∖ {[name]}).

Definition NewMemoryInfoStorage : MemoryInfoStorage := mkMemoryInfoStorage ∅ ∅.

#[export] Instance memory_storage : Storage MemoryInfoStorage := {|
  Storage_Update := Mem_Update; Storage_Delete := Mem_Delete; Storage_Get := Mem_Get;
  Storage_List := Mem_List; Storage_GetAll := Mem_GetAll;
  Storage_SetOnUpdate := Mem_SetOnUpdate; Storage_CancelOnUpdate := Mem_CancelOnUpdate
|}.

Lemma mem_list_ok prefix l r : mem_list prefix l = Ok r ->
  forall i, i ∈ r <-> exists k, (k, i) ∈ l /\ HasPrefix k prefix = true.
Proof.
  revert r. induction l as [|[k i] l IH]; intros r E j; simpl in E.
  - injection E as <-. split; [intros Hj; by apply not_elem_of_nil in Hj|].
    intros (k & Hk & _). by apply not_elem_of_nil in Hk.
  - destruct (decide _); [done|]. destruct (mem_list prefix l) as [r'| | |] eqn:El; try done.
    injection E as <-. specialize (IH r' eq_refl j).
    destruct (HasPrefix k prefix) eqn:Hp; rewrite ?elem_of_cons, IH; split.
    + intros [->|(k' & Hk & Hp')]; [exists k|exists k']; (split; [|done]); [by left|by right].
    + intros (k' & Hk & Hp'). apply elem_of_cons in Hk as [[= -> ->]|Hk]; [by left|right]. by exists k'.
    + intros (k' & Hk & Hp'). exists k'. split; [by right|done].
    + intros (k' & Hk & Hp'). apply elem_of_cons in Hk as [[= -> ->]|Hk]; [congruence|]. by exists k'.
Qed.

#[export] Instance memory_laws : StorageLaws MemoryInfoStorage.
Proof.
  refine {| view := fun s => Information_BaseInfo <$> kvStorage s; hooks := onUpdateMap;
            storage_ok := fun _ => True |}; simpl.
  - intros s i s' calls [= <- <-]. simpl. rewrite fmap_insert. split_and!; try done.
    + apply NoDup_elements.
    + intros n. apply elem_of_elements.
  - intros s id s' [= <-]. simpl. by rewrite fmap_delete.
  - intros s id. rewrite lookup_fmap. unfold Mem_Get.
    destruct (kvStorage s !! id) as [i|]; simpl; [by exists i|by eexists].
  - intros s l _ [= <-]. rewrite map_to_list_fmap. rewrite <- !list_fmap_compose. done.
  - intros s prefix l _ E b. rewrite list_elem_of_fmap. split.
    + intros (i & -> & Hi). apply (mem_list_ok _ _ _ E) in Hi as (k & Hk & Hp). exists k.
      apply elem_of_map_to_list in Hk. by rewrite lookup_fmap, Hk.
    + intros (k & Hk & Hp). rewrite lookup_fmap, fmap_Some in Hk. destruct Hk as (i & Hk & ->).
      exists i. split; [done|]. apply (mem_list_ok _ _ _ E). exists k. by rewrite elem_of_map_to_list.
  - done.
  - done.
Defined.

(** ** The storage in RocksDB *)

(** Marshalling of messages: a library generated from the protocol files. *)
Class Proto (A V : Type) := { Marshal : A -> V; Unmarshal : V -> option A }.

Class ProtoOk (A V : Type) `{Proto A V} : Prop := Unmarshal_Marshal : forall a : A, Unmarshal (Marshal a) = Some a.

Section rocks.
Context {V : Type} `{RocksDB V, !Proto BaseInfo V}.

Record RocksDBInfoStorage := mkRocksDBInfoStorage {
  rdb : DB;
  myCfName : string;
  rOnUpdate : gset string
}.

Definition unmarshal_err : error := EExt "proto: wrong wireType".

Fixpoint unmarshal_all (l : list (string * V)) : res (list Information) :=
  match l with
  | [] => Ok []
  | (_, v) :: l' =>
      b ← or_err unmarshal_err (Unmarshal v);
      rest ← unmarshal_all l';
      Ok (Inf_Base b :: rest)
  end.

Definition Rocks_List (s : RocksDBInfoStorage) (prefix : string) : res (list Information) :=
  unmarshal_all (prefix_scan prefix (IterCF (rdb s) (myCfName s))).

Definition Rocks_Update (s : RocksDBInfoStorage) (info : Information) : RocksDBInfoStorage * res (list string) :=
  match PutCF (rdb s) (myCfName s) (GetID info) (Marshal (Information_BaseInfo info)) with
  | Ok db => (mkRocksDBInfoStorage db (myCfName s) (rOnUpdate s), Ok (elements (rOnUpdate s)))
  | Err e => (s, Err e) | Panic => (s, Panic) | Stuck => (s, Stuck)
  end.

Definition Rocks_Delete (s : RocksDBInfoStorage) (id : string) : RocksDBInfoStorage * res unit :=
  match DeleteCF (rdb s) (myCfName s) id with
  | Ok db => (mkRocksDBInfoStorage db (myCfName s) (rOnUpdate s), Ok tt)
  | Err e => (s, Err e) | Panic => (s, Panic) | Stuck => (s, Stuck)
  end.

(** A value that does not unmarshal is logged, and the empty message returned. *)
Definition Rocks_Get (s : RocksDBInfoStorage) (id : string) : res Information :=
  match GetCF (rdb s) (myCfName s) id with
  | None => Err (ENew ("key " +:+ id +:+ " not found"))
  | Some v => Ok (Inf_Base (default BI_None (Unmarshal v)))
  end.

(** A value that does not unmarshal ends the call with no result and no error. *)
Definition Rocks_GetAll (s : RocksDBInfoStorage) : res (list Information) :=
  match unmarshal_all (IterCF (rdb s) (myCfName s)) with
  | Ok l => Ok l
  | _ => Ok []
  end.

Definition Rocks_SetOnUpdate (s : RocksDBInfoStorage) (name : string) : RocksDBInfoStorage :=
  mkRocksDBInfoStorage (rdb s) (myCfName s) ({[name]} ∪ rOnUpdate s).

Definition Rocks_CancelOnUpdate (s : RocksDBInfoStorage) (name : string) : RocksDBInfoStorage :=
  mkRocksDBInfoStorage (rdb s) (myCfName s) (rOnUpdate s ∖ {[name]}).

#[export] Instance rocks_storage : Storage RocksDBInfoStorage := {|
  Storage_Update := Rocks_Update; Storage_Delete := Rocks_Delete; Storage_Get := Rocks_Get;
  Storage_List := Rocks_List; Storage_GetAll := Rocks_GetAll;
  Storage_SetOnUpdate := Rocks_SetOnUpdate; Storage_CancelOnUpdate := Rocks_CancelOnUpdate
|}.

(** What the column family holds, read back. *)
Definition decode (v : V) : BaseInfo := default BI_None (Unmarshal v).

Lemma unmarshal_all_ok l : Forall (fun kv => is_Some (Unmarshal kv.2)) l ->
  unmarshal_all l = Ok (Inf_Base ∘ decode ∘ snd <$> l).
Proof.
  induction 1 as [|[k v] l [b Hb] _ IH]; [done|]. cbn [snd] in Hb. cbn [unmarshal_all]. rewrite Hb.
  cbn [or_err mbind res_bind]. rewrite IH. csimpl. unfold decode. by rewrite Hb.
Qed.

Context `{!RocksDBOk, !ProtoOk BaseInfo V}.

Definition family (s : RocksDBInfoStorage) : gmap string V := default ∅ (contents (rdb s) !! myCfName s).

Definition readable (s : RocksDBInfoStorage) : Prop := map_Forall (fun _ v => is_Some (Unmarshal v)) (family s).

Lemma iter_readable s : readable s ->
  Forall (fun kv => is_Some (Unmarshal kv.2)) (IterCF (rdb s) (myCfName s)).
Proof.
  intros Hr. apply Forall_forall. intros [k v] Hk. rewrite IterCF_ok in Hk.
  apply elem_of_map_to_list in Hk. by eapply Hr.
Qed.

#[export] Instance rocks_laws : StorageLaws RocksDBInfoStorage.
Proof.
  refine {| view := fun s => decode <$> family s; hooks := rOnUpdate; storage_ok := readable |}; simpl.
  - intros s i s' calls E. unfold Rocks_Update in E. destruct (PutCF _ _ _ _) as [db| | |] eqn:Ep; try done.
    injection E as <- <-. apply PutCF_ok in Ep.
    assert (family (mkRocksDBInfoStorage db (myCfName s) (rOnUpdate s)) =
      <[GetID i := Marshal (Information_BaseInfo i)]> (family s)) as Ef.
    { unfold family. simpl. by rewrite Ep, lookup_insert_eq. }
    split_and!; try done.
    + intros Hr. unfold readable. rewrite Ef. apply map_Forall_insert_2; [|done].
      rewrite Unmarshal_Marshal. by eexists.
    + rewrite Ef, fmap_insert. unfold decode at 1. by rewrite Unmarshal_Marshal.
    + apply NoDup_elements.
    + intros n. apply elem_of_elements.
  - intros s id s' E. unfold Rocks_Delete in E. destruct (DeleteCF _ _ _) as [db| | |] eqn:Ep; try done.
    injection E as <-. apply DeleteCF_ok in Ep.
    assert (family (mkRocksDBInfoStorage db (myCfName s) (rOnUpdate s)) = delete id (family s)) as Ef.
    { unfold family. simpl. by rewrite Ep, lookup_insert_eq. }
    split_and!; try done.
    + intros Hr. unfold readable. rewrite Ef. by apply map_Forall_delete.
    + by rewrite Ef, fmap_delete.
  - intros s id. rewrite lookup_fmap. unfold Rocks_Get. rewrite GetCF_ok. fold (family s).
    destruct (family s !! id) as [v|]; simpl; [by eexists|by eexists].
  - intros s l Hr E. unfold Rocks_GetAll in E. rewrite (unmarshal_all_ok _ (iter_readable s Hr)) in E.
    injection E as <-. rewrite map_to_list_fmap, <- !list_fmap_compose. unfold family.
    rewrite <- IterCF_ok. done.
  - intros s prefix l Hr E b. unfold Rocks_List in E.
    rewrite prefix_scan_filter in E by apply IterCF_sorted.
    rewrite unmarshal_all_ok in E.
    2:{ apply Forall_forall. intros x Hx. apply list_elem_of_In, filter_In in Hx as [Hx _].
        pose proof (iter_readable s Hr) as Hall. rewrite List.Forall_forall in Hall. by apply Hall. }
    injection E as <-. rewrite <- list_fmap_compose, list_elem_of_fmap. split.
    + intros ([k v] & -> & Hin). apply list_elem_of_In, filter_In in Hin as [Hin Hp]. exists k. split; [|done].
      apply list_elem_of_In in Hin. rewrite IterCF_ok in Hin. apply elem_of_map_to_list in Hin.
      rewrite lookup_fmap. unfold family. by rewrite Hin.
    + intros (k & Hk & Hp). rewrite lookup_fmap, fmap_Some in Hk. destruct Hk as (v & Hk & ->).
      exists (k, v). split; [done|]. apply list_elem_of_In, filter_In. split; [|done].
      apply list_elem_of_In. rewrite IterCF_ok. by apply elem_of_map_to_list.
  - done.
  - done.
Defined.

End rocks.

Arguments RocksDBInfoStorage V {_}.

(** ** The register *)

Section register.
Context {S : Type} `{Storage S}.

Record StorageRegister := mkStorageRegister { storageMap : gmap InfoType S }.

Definition Register (r : StorageRegister) (infoType : InfoType) (storage : S) : StorageRegister :=
  mkStorageRegister (<[infoType := storage]> (storageMap r)).

(** A missing storage is fatal. *)
Definition GetStorage (r : StorageRegister) (infoType : InfoType) : res S :=
  or_panic (storageMap r !! infoType).

Definition Register_Update (r : StorageRegister) (info : Information) : StorageRegister * res (list string) :=
  match storageMap r !! GetInfoType info with
  | Some s => let '(s', x) := Storage_Update s info in (Register r (GetInfoType info) s', x)
  | None => (r, Err (EErrno InfoTypeNotSupport))
  end.

Definition Register_Delete (r : StorageRegister) (infoType : InfoType) (id : string) : StorageRegister * res unit :=
  match storageMap r !! infoType with
  | Some s => let '(s', x) := Storage_Delete s id in (Register r infoType s', x)
  | None => (r, Err (EErrno InfoTypeNotSupport))
  end.

Definition Register_Get (r : StorageRegister) (infoType : InfoType) (id : string) : res Information :=
  match storageMap r !! infoType with
  | Some s => Storage_Get s id
  | None => Err (EErrno InfoTypeNotSupport)
  end.

Definition Register_List (r : StorageRegister) (infoType : InfoType) (prefix : string) : res (list Information) :=
  match storageMap r !! infoType with
  | Some s => Storage_List s prefix
  | None => Err (EErrno InfoTypeNotSupport)
  end.

Definition Register_Close (r : StorageRegister) : StorageRegister := mkStorageRegister ∅.

(** Five types have a storage; [fresh] is what the factory makes. *)
Definition registerAllStorage (fresh : InfoType -> S) (r : StorageRegister) : StorageRegister :=
  let r := Register r IT_NODE_INFO (fresh IT_NODE_INFO) in
  let r := Register r IT_CLUSTER_INFO (fresh IT_CLUSTER_INFO) in
  let r := Register r IT_USER_INFO (fresh IT_USER_INFO) in
  let r := Register r IT_BUCKET_INFO (fresh IT_BUCKET_INFO) in
  Register r IT_VOLUME_INFO (fresh IT_VOLUME_INFO).

Definition GetStorageRegister (fresh : InfoType -> S) : StorageRegister :=
  registerAllStorage fresh (mkStorageRegister ∅).

Context `{!StorageLaws S}.

(** What a client of the register sees: one map per type. *)
Definition register_view (r : StorageRegister) : gmap InfoType (gmap string BaseInfo) := view <$> storageMap r.

Lemma Register_Update_view r info r' calls :
  Register_Update r info = (r', Ok calls) ->
  exists m, register_view r !! GetInfoType info = Some m /\
    register_view r' = <[GetInfoType info := <[GetID info := Information_BaseInfo info]> m]> (register_view r).
Proof.
  unfold Register_Update, register_view. rewrite lookup_fmap.
  destruct (storageMap r !! GetInfoType info) as [s|]; [|done].
  destruct (Storage_Update s info) as [s' x] eqn:E. intros [= <- ->].
  destruct (update_view _ _ _ _ E) as (_ & Hv & _). exists (view s). split; [done|]. simpl.
  by rewrite fmap_insert, Hv.
Qed.

Lemma Register_Get_view r t id :
  match register_view r !! t with
  | None => Register_Get r t id = Err (EErrno InfoTypeNotSupport)
  | Some m => match m !! id with
              | Some b => exists i, Register_Get r t id = Ok i /\ Information_BaseInfo i = b
              | None => exists e, Register_Get r t id = Err e
              end
  end.
Proof.
  unfold register_view, Register_Get. rewrite lookup_fmap.
  destruct (storageMap r !! t) as [s|]; simpl; [|done]. apply get_view.
Qed.

End register.

Arguments StorageRegister S : clear implicits.

(** ** Snapshots of the RocksDB factory *)

Section snapshot.
Context {V : Type} `{RocksDB V}.

Record RocksDBInfoStorageFactory := mkRocksFactory { fdb : DB; cfNames : list string }.

(** A snapshot message: per column family its keys and its values. *)
Record CfContent := mkCfContent { CfName : string; Keys : list string; Values : list V }.

Definition Factory_GetSnapshot (f : RocksDBInfoStorageFactory) : list CfContent :=
  (fun name => let l := IterCF (fdb f) name in mkCfContent name l.*1 l.*2) <$> cfNames f.

Fixpoint put_all (db : DB) (cf : string) (keys : list string) (values : list V) : res DB :=
  match keys, values with
  | [], _ => Ok db
  | _ :: _, [] => Panic                         (* index out of range *)
  | k :: keys', v :: values' => db' ← PutCF db cf k v; put_all db' cf keys' values'
  end.

(** A family without a handle is a nil pointer for the database. *)
Fixpoint recover_all (names : list string) (db : DB) (snap : list CfContent) : res DB :=
  match snap with
  | [] => Ok db
  | c :: snap' =>
      if decide (CfName c ∈ names \/ Keys c = []) then
        db' ← put_all db (CfName c) (Keys c) (Values c);
        recover_all names db' snap'
      else Panic
  end.

Definition Factory_RecoverFromSnapshot (f : RocksDBInfoStorageFactory) (snap : list CfContent)
    : res RocksDBInfoStorageFactory :=
  db ← recover_all (cfNames f) (fdb f) snap;
  Ok (mkRocksFactory db (cfNames f)).

Definition infoTypeToStr (t : InfoType) : string := FormatInt (Z.of_nat (InfoType_num t)).

(** [GetStorage]: the family of the type is created when it is missing. *)
Definition Factory_GetStorage (f : RocksDBInfoStorageFactory) (t : InfoType)
    : RocksDBInfoStorageFactory * res (RocksDBInfoStorage V) :=
  let name := infoTypeToStr t in
  if decide (name ∈ cfNames f) then (f, Ok (mkRocksDBInfoStorage (fdb f) name ∅))
  else match CreateCF (fdb f) name with
       | Ok db => (mkRocksFactory db (cfNames f ++ [name]), Ok (mkRocksDBInfoStorage db name ∅))
       | Err e => (f, Panic)                    (* a nil storage *)
       | Panic => (f, Panic) | Stuck => (f, Stuck)
       end.

Context `{!RocksDBOk}.

Lemma list_to_map_one_union (k : string) (v : V) (m : gmap string V) :
  (list_to_map [(k, v)] : gmap string V) ∪ m = <[k := v]> m.
Proof. by rewrite insert_union_singleton_l. Qed.

Lemma put_all_contents cf l : forall db db',
  put_all db cf l.*1 l.*2 = Ok db' ->
  contents db' !! cf = (match l with [] => contents db !! cf
                        | _ => Some (list_to_map (reverse l) ∪ default ∅ (contents db !! cf)) end) /\
  forall cf', cf' <> cf -> contents db' !! cf' = contents db !! cf'.
Proof.
  induction l as [|[k v] l IH]; intros db db' E; csimpl in E; [by injection E as <-|].
  destruct (PutCF db cf k v) as [db1| | |] eqn:Ep; try done. simpl in E. apply PutCF_ok in Ep.
  destruct (IH db1 db' E) as [Hc Ho]. split.
  - rewrite Hc, Ep. destruct l as [|y l].
    + rewrite lookup_insert_eq. f_equal. symmetry. apply list_to_map_one_union.
    + rewrite lookup_insert_eq. cbn [default]. f_equal. rewrite (reverse_cons (y :: l) (k, v)), list_to_map_app.
      rewrite <- (assoc_L (∪)). f_equal. symmetry. apply list_to_map_one_union.
  - intros cf' Hne. rewrite Ho by done. rewrite Ep. by rewrite lookup_insert_ne.
Qed.

(** The entries of a family, as a map. *)
Definition family_of (db : DB) (cf : string) : gmap string V := default ∅ (contents db !! cf).

Lemma iter_to_map db cf : list_to_map (reverse (IterCF db cf)) = family_of db cf.
Proof.
  assert (NoDup (IterCF db cf).*1) as Hnd.
  { rewrite IterCF_ok. apply NoDup_fst_map_to_list. }
  rewrite <- (list_to_map_to_list (family_of db cf)). apply list_to_map_proper.
  - by rewrite fmap_reverse, reverse_Permutation.
  - by rewrite reverse_Permutation, IterCF_ok.
Qed.

Lemma put_iter db0 db db' cf : put_all db cf (IterCF db0 cf).*1 (IterCF db0 cf).*2 = Ok db' ->
  family_of db' cf = family_of db0 cf ∪ family_of db cf /\
  forall cf', cf' <> cf -> family_of db' cf' = family_of db cf'.
Proof.
  intros E. destruct (put_all_contents cf _ db db' E) as [Hc Ho]. split.
  - unfold family_of at 1. rewrite Hc. pose proof (iter_to_map db0 cf) as Hi.
    destruct (IterCF db0 cf) as [|y l]; cbn [default]; [|by rewrite Hi].
    rewrite <- Hi. change (list_to_map (reverse [])) with (∅ : gmap string V). by rewrite (left_id_L ∅ (∪)).
  - intros cf' Hne. unfold family_of. by rewrite Ho.
Qed.

Lemma recover_contents names db0 l : forall db db', NoDup l ->
  recover_all names db ((fun name => mkCfContent name (IterCF db0 name).*1 (IterCF db0 name).*2) <$> l) = Ok db' ->
  forall cf, family_of db' cf = if decide (cf ∈ l) then family_of db0 cf ∪ family_of db cf else family_of db cf.
Proof.
  induction l as [|x l IH]; intros db db' Hnd E cf; csimpl in E; [by injection E as <-|].
  apply NoDup_cons in Hnd as [Hx Hnd]. destruct (decide (x ∈ names \/ _)) as [_|]; [|done].
  destruct (put_all _ _ _ _) as [db1| | |] eqn:Ep; try done. cbn [mbind res_bind] in E.
  destruct (put_iter _ _ _ _ Ep) as [Hsame Hother]. rewrite (IH db1 db' Hnd E cf).
  destruct (decide (cf = x)) as [->|Hne].
  - rewrite decide_False by done. rewrite decide_True by (by left). done.
  - rewrite Hother by done. destruct (decide (cf ∈ l)) as [Hin|Hnin].
    + by rewrite decide_True by (by right).
    + rewrite decide_False; [done|]. by intros [?|?]%elem_of_cons.
Qed.

End snapshot.

(** ** Properties *)

(** C22: the register is one map per information type, whatever the storages
    behind it: an update is read back under the same type and identifier and is
    invisible under every other; a deletion removes just that entry; and a type
    without a storage is refused, for reads and writes. *)
Theorem register_refines {S : Type} `{StorageLaws S} (r : StorageRegister S) :
  (forall info r' calls, Register_Update r info = (r', Ok calls) ->
     exists m, register_view r !! GetInfoType info = Some m /\
       register_view r' = <[GetInfoType info := <[GetID info := Information_BaseInfo info]> m]> (register_view r)) /\
  (forall t id r', Register_Delete r t id = (r', Ok tt) ->
     exists m, register_view r !! t = Some m /\ register_view r' = <[t := delete id m]> (register_view r)) /\
  (forall t id b m, register_view r !! t = Some m -> m !! id = Some b ->
     exists i, Register_Get r t id = Ok i /\ Information_BaseInfo i = b) /\
  (forall t id m, register_view r !! t = Some m -> m !! id = None -> exists e, Register_Get r t id = Err e) /\
  (forall t id info prefix, register_view r !! t = None -> GetInfoType info = t ->
     Register_Get r t id = Err (EErrno InfoTypeNotSupport) /\
     Register_Update r info = (r, Err (EErrno InfoTypeNotSupport)) /\
     Register_Delete r t id = (r, Err (EErrno InfoTypeNotSupport)) /\
     Register_List r t prefix = Err (EErrno InfoTypeNotSupport)).
Proof.
  split_and!.
  - apply Register_Update_view.
  - intros t id r'. unfold Register_Delete, register_view. rewrite lookup_fmap.
    destruct (storageMap r !! t) as [s|]; [|done].
    destruct (Storage_Delete s id) as [s' x] eqn:E. intros [= <- ->].
    destruct (delete_view _ _ _ E) as (_ & Hv & _). exists (view s). split; [done|]. simpl.
    by rewrite fmap_insert, Hv.
  - intros t id b m Hm Hb. pose proof (Register_Get_view r t id) as Hg. by rewrite Hm, Hb in Hg.
  - intros t id m Hm Hb. pose proof (Register_Get_view r t id) as Hg. by rewrite Hm, Hb in Hg.
  - intros t id info prefix Ht <-. unfold register_view in Ht. rewrite lookup_fmap in Ht.
    apply fmap_None in Ht. unfold Register_Get, Register_Update, Register_Delete, Register_List. by rewrite Ht.
Qed.

Definition demo_register : StorageRegister MemoryInfoStorage :=
  GetStorageRegister (fun _ => NewMemoryInfoStorage).

Lemma register_refines_witness :
  exists m, register_view demo_register !! IT_NODE_INFO = Some m /\
    register_view (Register_Update demo_register (Inf_Node (mkNodeInfo 3 "u" "10.0.0.1" 3267 10 NS_ONLINE))).1 =
      <[IT_NODE_INFO := <["3" := BI_NodeInfo (mkNodeInfo 3 "u" "10.0.0.1" 3267 10 NS_ONLINE)]> m]>
        (register_view demo_register).
Proof.
  exact (proj1 (register_refines demo_register) (Inf_Node (mkNodeInfo 3 "u" "10.0.0.1" 3267 10 NS_ONLINE)) _ [] eq_refl).
Defined.

(** the storages of the program serve every type of node, cluster and bucket
    information, but a user's or a volume's information that arrives wrapped in a
    [BaseInfo], as every proposal does, is refused although its storage exists. *)
Theorem wrapped_user_info_refused (fresh : InfoType -> MemoryInfoStorage) (u : UserInfo) (v : VolumeInfo) :
  let r := GetStorageRegister fresh in
  (Register_Update r (Inf_Base (BI_UserInfo u))).2 = Err (EErrno InfoTypeNotSupport) /\
  (Register_Update r (Inf_Base (BI_VolumeInfo v))).2 = Err (EErrno InfoTypeNotSupport) /\
  (exists calls, (Register_Update r (Inf_User u)).2 = Ok calls) /\
  (exists calls, (Register_Update r (Inf_Volume v)).2 = Ok calls).
Proof. split_and!; [done|done|by eexists|by eexists]. Qed.

(** recovering from a snapshot. Every family named in the snapshot gets all
    entries of the source, the snapshot's value winning, and keeps the entries of
    the target that the source does not have; the other families are untouched.
    So an empty target becomes equal to the source, but an entry deleted at the
    source survives at a target that still has it. *)
Theorem snapshot_recovers {V : Type} `{RocksDB V, !RocksDBOk} (src dst dst' : RocksDBInfoStorageFactory) (cf : string) :
  NoDup (cfNames src) ->
  Factory_RecoverFromSnapshot dst (Factory_GetSnapshot src) = Ok dst' ->
  family_of (fdb dst') cf =
    if decide (cf ∈ cfNames src) then family_of (fdb src) cf ∪ family_of (fdb dst) cf else family_of (fdb dst) cf.
Proof.
  intros Hnd E. unfold Factory_RecoverFromSnapshot in E.
  destruct (recover_all _ _ _) as [db| | |] eqn:Er; try done. injection E as <-.
  exact (recover_contents _ (fdb src) _ _ _ Hnd Er cf).
Qed.

Definition demo_db (m : gmap string nat) : @DB nat (MapDB nat) := <["1" := m]> ∅.
Definition demo_src := mkRocksFactory (demo_db (<["a" := 1%nat]> ∅)) ["1"].
Definition demo_dst := mkRocksFactory (demo_db (<["b" := 2%nat]> ∅)) ["1"].
Definition demo_restored := mkRocksFactory (demo_db (<["a" := 1%nat]> (<["b" := 2%nat]> ∅))) ["1"].

Lemma demo_recover : Factory_RecoverFromSnapshot demo_dst (Factory_GetSnapshot demo_src) = Ok demo_restored.
Proof. vm_cast_no_check (eq_refl (Ok demo_restored)). Qed.

Lemma snapshot_recovers_witness :
  family_of (fdb demo_restored) "1" = family_of (fdb demo_src) "1" ∪ family_of (fdb demo_dst) "1".
Proof.
  rewrite (snapshot_recovers demo_src demo_dst demo_restored "1" (NoDup_singleton "1") demo_recover).
  reflexivity.
Defined.

(** listing by prefix in RocksDB. The iterator starts at the prefix and the
    loop stops at the first key without it; because keys are visited in order this
    finds exactly the stored entries whose key has the prefix. *)
Theorem rocks_list_complete {V : Type} `{RocksDB V, !RocksDBOk, !Proto BaseInfo V, !ProtoOk BaseInfo V}
    (s : RocksDBInfoStorage V) (prefix : string) :
  readable s -> exists l, Rocks_List s prefix = Ok l /\
    forall b, b ∈ (Information_BaseInfo <$> l) <->
      exists id, (decode <$> family s) !! id = Some b /\ HasPrefix id prefix = true.
Proof.
  intros Hr. assert (exists l, Rocks_List s prefix = Ok l) as [l El].
  { unfold Rocks_List. rewrite prefix_scan_filter by apply IterCF_sorted.
    rewrite unmarshal_all_ok; [by eexists|]. apply Forall_forall. intros x Hx.
    apply list_elem_of_In, filter_In in Hx as [Hx _].
    pose proof (iter_readable s Hr) as Hall. rewrite List.Forall_forall in Hall. by apply Hall. }
  exists l. split; [done|]. exact (list_view (S:=RocksDBInfoStorage V) s prefix l Hr El).
Qed.

(** Messages stored as themselves. *)
#[local] Instance proto_id : Proto BaseInfo BaseInfo := {| Marshal b := b; Unmarshal b := Some b |}.
#[local] Instance proto_id_ok : ProtoOk BaseInfo BaseInfo.
Proof. done. Qed.

Lemma rocks_list_complete_witness :
  let s := mkRocksDBInfoStorage (V:=BaseInfo) (<["2" := <["/v/b" := BI_None]> ∅]> ∅ : @DB BaseInfo (MapDB BaseInfo)) "2" ∅ in
  exists l, Rocks_List s "/v/" = Ok l /\
    forall b, b ∈ (Information_BaseInfo <$> l) <->
      exists id, (decode <$> family s) !! id = Some b /\ HasPrefix id "/v/" = true.
Proof. apply rocks_list_complete. intros k v _. by eexists. Defined.
