(* ===== verification/Object.v ===== *)
(** * Object identifiers and placement groups

    [src/edge-node/object/object.go] and [src/utils/common/mapper.go]: an object
    key is cleaned, hashed to one of the bucket's key slots, and named
    [volume/bucket/slot/key]; the slot is hashed to a placement group. The
    consistent-hash ring is a library outside the repository: it is the class
    [HashRing], of which only the documented contract [HashRingOk] is used. *)

From S2P Require Import Prelude Errno GoStd Infos.

(** ** Data *)

Inductive Position := POSITION_UNKNOWN | POSITION_EDGE | POSITION_CLOUD | POSITION_EDGE_CLOUD.

#[global] Instance Position_eq_dec : EqDecision Position.
Proof. solve_decision. Defined.

Inductive ObjStatus := STATUS_UNKNOWN | STATUS_OK | STATUS_BROKEN | STATUS_UPDATING | STATUS_DELETED.

#[global] Instance ObjStatus_eq_dec : EqDecision ObjStatus.
Proof. solve_decision. Defined.

Record BlockInfo := mkBlockInfo {
  BlockId : string;
  PartId : Z;
  BI_BlockSize : Z;
  BlockHash : string;
  BI_PgId : Z
}.

#[global] Instance BlockInfo_eq_dec : EqDecision BlockInfo.
Proof. solve_decision. Defined.

Record ObjectMeta := mkObjectMeta {
  ObjId : string;
  Status : ObjStatus;
  Pos : Position;
  ObjSize : Z;
  UpdateTime : option Timestamp;
  ObjHash : string;
  PgId : Z;
  Blocks : list BlockInfo;
  OM_Term : Z;
  MetaData : option (list (string * string))
}.

#[global] Instance ObjectMeta_eq_dec : EqDecision ObjectMeta.
Proof. solve_decision. Defined.

(** ** Keys *)

Definition CleanObjectKey (objectKey : string) : string := TrimPrefix (Clean objectKey) "/".

(** Components of a key after cleaning. *)
Definition key_comps (key : string) : list string := norm (is_rooted key) (Split sep key).

(** A key that names something below the bucket: it is not empty once cleaned
    and does not climb out of it. *)
Definition key_ok (key : string) : bool :=
  bool_decide (key_comps key <> []) && forallb good (key_comps key).

(** [string(slot)]: the UTF-8 encoding of a code point. *)
Definition byte_of (z : Z) : ascii := ascii_of_N (Z.to_N z).

Definition string_of_rune (r : Z) : string :=
  let invalid := String (byte_of 239) (String (byte_of 191) (String (byte_of 189) "")) in
  if decide (0 <= r < 128) then String (byte_of r) ""
  else if decide (0 <= r < 2048) then
    String (byte_of (192 + r `div` 64)) (String (byte_of (128 + r `mod` 64)) "")
  else if decide (r < 0 \/ 55296 <= r < 57344 \/ 1114111 < r) then invalid
  else if decide (r < 65536) then
    String (byte_of (224 + r `div` 4096))
      (String (byte_of (128 + (r `div` 64) `mod` 64)) (String (byte_of (128 + r `mod` 64)) ""))
  else
    String (byte_of (240 + r `div` 262144))
      (String (byte_of (128 + (r `div` 4096) `mod` 64))
        (String (byte_of (128 + (r `div` 64) `mod` 64)) (String (byte_of (128 + r `mod` 64)) ""))).

(** ** The hash ring, an interface

    [hashring.New(nodes).GetNode(key)], and what its documentation promises: a
    ring that has nodes answers every key with one of them. *)

Class HashRing := GetNode : list string -> string -> option string.

Class HashRingOk `{HashRing} : Prop :=
  GetNode_member : forall nodes id,
    nodes <> [] -> exists n, GetNode nodes id = Some n /\ n ∈ nodes.

Section mapper.
Context `{HashRing}.

(** ** The mapper *)

Record Mapper := mkMapper { ring : list string }.

Definition makeMapper (pgNum : Z) : Mapper := mkMapper (FormatUint <$> seqZ 1 pgNum).

(** [NewMapper] with the process-wide cache it reads and extends. *)
Definition NewMapper (mapperCatch : gmap Z Mapper) (pgNum : Z) : gmap Z Mapper * Mapper :=
  match mapperCatch !! pgNum with
  | Some m => (mapperCatch, m)
  | None => let m := makeMapper pgNum in (<[pgNum := m]> mapperCatch, m)
  end.

(** [logger.Fatalf] ends the process. *)
Definition MapIDtoPG (m : Mapper) (id : string) : res Z :=
  match GetNode (ring m) id with
  | None => Panic
  | Some ringID =>
      match ParseUint ringID with
      | None => Panic
      | Some pgID => Ok pgID
      end
  end.

(** ** Placement *)

Definition GenSlotPgID (bucketID : string) (slot pgNum : Z) : res Z :=
  let str := bucketID +:+ "/" +:+ string_of_rune slot in
  MapIDtoPG (makeMapper (u64 pgNum)) str.

Definition CalculateSlot (objectKey : string) (slotNum : Z) : res Z :=
  let objectKey := CleanObjectKey objectKey in
  slot ← MapIDtoPG (makeMapper (u64 slotNum)) objectKey;
  Ok (i32 slot).

Definition GenObjPgID (bucketInfo : BucketInfo) (objectKey : string) (pgNum : Z) : res Z :=
  let objectKey := CleanObjectKey objectKey in
  let bucketID := BucketInfo_GetID bucketInfo in
  config ← or_panic (Config bucketInfo);
  slot ← CalculateSlot objectKey (KeySlotNum config);
  GenSlotPgID bucketID slot pgNum.

Definition GenObjectId (bucketInfo : BucketInfo) (key : string) : res string :=
  let prefix := BucketInfo_GetID bucketInfo in
  let key := Clean key in
  let key := Trim sep key in
  config ← or_panic (Config bucketInfo);
  slot ← CalculateSlot key (KeySlotNum config);
  let objID := Join [prefix; FormatInt slot; key] in
  Ok (CleanObjectKey objID).

Definition GenBlockPgID (blockID : string) (pgNum : Z) : res Z :=
  MapIDtoPG (makeMapper (u64 pgNum)) blockID.

(** ** Reading an identifier back *)

Record ObjectName := mkObjectName { volumeID : string; bucketID : string; key : string; slotID : Z }.

Definition SplitID (objectID : string) : res ObjectName :=
  let objectID := CleanObjectKey objectID in
  match SplitN sep 4 objectID with
  | [volumeID; bucketName; slotStr; key] =>
      let bucketID := GenBucketID volumeID bucketName in
      let key := TrimPrefix key "/" in
      match Atoi slotStr with
      | None => Err (ENew "split objectID error")
      | Some slot => Ok (mkObjectName volumeID bucketID key (i32 slot))
      end
  | _ => Err (ENew "split objectID error")
  end.

Definition SplitPrefixWithoutSlotID (prefix : string) : res (string * string * string) :=
  let prefix := CleanObjectKey prefix in
  match SplitN sep 3 prefix with
  | volumeID :: bucketName :: rest =>
      let key := match rest with k :: _ => k | [] => "/" end in
      Ok (volumeID, GenBucketID volumeID bucketName, TrimPrefix key "/")
  | _ => Err (ENew "split prefix error")
  end.

(** ** Facts *)

Context `{!HashRingOk}.

Lemma MapIDtoPG_range (n : Z) (id : string) :
  1 <= n < 2 ^ 64 -> exists pg, MapIDtoPG (makeMapper n) id = Ok pg /\ 1 <= pg <= n.
Proof.
  intros Hn. unfold MapIDtoPG, makeMapper. simpl.
  destruct (GetNode_member (FormatUint <$> seqZ 1 n) id) as (s & Hs & Hin).
  { rewrite seqZ_cons by lia. done. }
  rewrite Hs. apply list_elem_of_fmap in Hin as (z & -> & Hz%elem_of_seqZ).
  rewrite ParseUint_FormatUint by (unfold is_u64; lia). exists z. split; [done|lia].
Qed.

Lemma CalculateSlot_range (key : string) (slotNum : Z) :
  1 <= slotNum < 2 ^ 31 ->
  exists slot, CalculateSlot key slotNum = Ok slot /\ 1 <= slot <= slotNum.
Proof.
  intros Hn. unfold CalculateSlot. rewrite u64_id by (unfold is_u64; lia).
  destruct (MapIDtoPG_range slotNum (CleanObjectKey key)) as (s & -> & Hs); [lia|].
  exists s. simpl. rewrite i32_id by (unfold is_i32; lia). done.
Qed.

Lemma GenSlotPgID_range (b : string) (slot pgNum : Z) :
  1 <= pgNum < 2 ^ 31 -> exists pg, GenSlotPgID b slot pgNum = Ok pg /\ 1 <= pg <= pgNum.
Proof.
  intros Hn. unfold GenSlotPgID. rewrite u64_id by (unfold is_u64; lia).
  apply MapIDtoPG_range. lia.
Qed.

Lemma GenBlockPgID_range (b : string) (pgNum : Z) :
  1 <= pgNum < 2 ^ 31 -> exists pg, GenBlockPgID b pgNum = Ok pg /\ 1 <= pg <= pgNum.
Proof.
  intros Hn. unfold GenBlockPgID. rewrite u64_id by (unfold is_u64; lia).
  apply MapIDtoPG_range. lia.
Qed.

End mapper.

Lemma key_ok_spec (key : string) :
  key_ok key = true -> key_comps key <> [] /\ Forall (fun e => good e = true) (key_comps key).
Proof.
  unfold key_ok. intros [H1 H2]%andb_true_iff.
  split; [by apply bool_decide_eq_true in H1|].
  apply List.Forall_forall. by apply List.forallb_forall.
Qed.

Lemma TrimPrefix_join l : Forall (fun e => good e = true) l -> TrimPrefix (join l) "/" = join l.
Proof.
  intros H. pose proof (is_rooted_join l H) as Hr. unfold TrimPrefix.
  destruct (join l) as [|a s]; [done|]. simpl in *. apply bool_decide_eq_false in Hr.
  by rewrite bool_decide_false by (intros <-; done).
Qed.

Lemma Clean_key (key : string) :
  key_ok key = true ->
  Clean key = (if is_rooted key then String sep (join (key_comps key)) else join (key_comps key)).
Proof.
  intros Hk. destruct (key_ok_spec key Hk) as [Hne Hg].
  unfold Clean, key_comps in *. destruct (decide (key = "")) as [->|]; [done|].
  destruct (is_rooted key); [done|]. by rewrite decide_False by by apply join_nonempty.
Qed.

Lemma CleanObjectKey_ok (key : string) :
  key_ok key = true -> CleanObjectKey key = join (key_comps key).
Proof.
  intros Hk. destruct (key_ok_spec key Hk) as [Hne Hg].
  unfold CleanObjectKey. rewrite Clean_key by done. destruct (is_rooted key).
  - apply (TrimPrefix_app "/").
  - by apply TrimPrefix_join.
Qed.

Lemma CleanObjectKey_join l :
  l <> [] -> Forall (fun e => good e = true) l -> CleanObjectKey (join l) = join l.
Proof.
  intros Hl H. unfold CleanObjectKey. rewrite Clean_join_good by done. by apply TrimPrefix_join.
Qed.

Lemma CleanObjectKey_rooted_join l :
  Forall (fun e => good e = true) l -> CleanObjectKey (String sep (join l)) = join l.
Proof.
  intros H. unfold CleanObjectKey. rewrite Clean_rooted_join by done. apply (TrimPrefix_app "/").
Qed.

Lemma Trim_key (key : string) : key_ok key = true -> Trim sep (Clean key) = join (key_comps key).
Proof.
  intros Hk. destruct (key_ok_spec key Hk) as [Hne Hg]. rewrite Clean_key by done.
  destruct (is_rooted key); by apply Trim_join.
Qed.

(** Every key that starts with a slash, as the gateway's keys do, stays below
    its bucket unless nothing is left of it. *)
Lemma key_ok_rooted (s : string) :
  key_comps (String sep s) <> [] -> key_ok (String sep s) = true.
Proof.
  intros Hne. unfold key_ok. rewrite bool_decide_true by done. simpl.
  apply List.forallb_forall. apply List.Forall_forall.
  unfold key_comps. rewrite Split_rooted. apply norm_rooted_good.
  constructor; [done|]. apply Split_all_nosep.
Qed.

Lemma join_app (a b : list string) :
  a <> [] -> b <> [] -> join (a ++ b) = join a +:+ String sep (join b).
Proof.
  intros Ha Hb. induction a as [|e a IH]; [done|]. destruct a as [|e' a].
  - simpl app. rewrite join_cons. by destruct b.
  - simpl app in *. rewrite !(join_cons e). rewrite IH by done. by rewrite str_app_assoc.
Qed.

Lemma SplitN4_join (v b s : string) (l : list string) :
  Forall (fun e => good e = true) [v; b; s] -> l <> [] ->
  SplitN sep 4 (join ([v; b; s] ++ l)) = [v; b; s; join l].
Proof.
  intros (Hv & (Hb & (Hs & _)%Forall_cons)%Forall_cons)%Forall_cons Hl.
  rewrite (join_app [v; b; s]) by done.
  change (join [v; b; s]) with (v +:+ String sep (b +:+ String sep s)).
  rewrite !str_app_assoc, !str_cons_app, !str_app_assoc, !str_cons_app.
  simpl. rewrite !cut_app by auto with ecos. done.
Qed.

Section naming.
Context `{HashRing, !HashRingOk}.

(** A bucket whose volume and name are single path components. *)
Definition bucket_ok (b : BucketInfo) : Prop :=
  good (VolumeId b) = true /\ good (BucketName b) = true /\
  exists cfg, Config b = Some cfg /\ 1 <= KeySlotNum cfg < 2 ^ 31.

Lemma CalculateSlot_clean (key : string) (n : Z) :
  key_ok key = true -> CalculateSlot (join (key_comps key)) n = CalculateSlot key n.
Proof.
  intros Hk. destruct (key_ok_spec key Hk) as [Hne Hg].
  unfold CalculateSlot. by rewrite CleanObjectKey_join, CleanObjectKey_ok.
Qed.

Lemma GenObjPgID_clean (b : BucketInfo) (key : string) (n : Z) :
  key_ok key = true -> GenObjPgID b (join (key_comps key)) n = GenObjPgID b key n.
Proof.
  intros Hk. destruct (key_ok_spec key Hk) as [Hne Hg].
  unfold GenObjPgID. by rewrite CleanObjectKey_join, CleanObjectKey_ok.
Qed.

Lemma GenObjPgID_CleanObjectKey (b : BucketInfo) (key : string) (n : Z) :
  key_ok key = true -> GenObjPgID b (CleanObjectKey key) n = GenObjPgID b key n.
Proof. intros Hk. destruct (key_ok_spec key Hk) as [Hne Hg]. rewrite CleanObjectKey_ok by done. by apply GenObjPgID_clean. Qed.

(** The identifier of an object, written out. *)
Lemma GenObjectId_shape (b : BucketInfo) (key : string) :
  bucket_ok b -> key_ok key = true ->
  exists cfg slot, Config b = Some cfg /\ CalculateSlot key (KeySlotNum cfg) = Ok slot /\
    1 <= slot <= KeySlotNum cfg /\ KeySlotNum cfg < 2 ^ 31 /\
    GenObjectId b key =
      Ok (join ([VolumeId b; BucketName b; FormatUint slot] ++ key_comps key)).
Proof.
  intros (Hv & Hb & cfg & Hcfg & Hn) Hk. destruct (key_ok_spec key Hk) as [Hne Hg].
  destruct (CalculateSlot_range key (KeySlotNum cfg) Hn) as (slot & Hslot & Hr).
  exists cfg, slot. split_and!; try done; try lia.
  unfold GenObjectId. rewrite Hcfg. cbn [or_panic mbind res_bind].
  rewrite Trim_key, CalculateSlot_clean, Hslot by done. cbn [mbind res_bind]. f_equal.
  unfold BucketInfo_GetID. rewrite GenBucketID_good by done.
  unfold FormatInt. rewrite decide_False by lia.
  assert (Join [String sep (join [VolumeId b; BucketName b]); FormatUint slot; join (key_comps key)] =
          Clean (String sep (join ([VolumeId b; BucketName b; FormatUint slot] ++ key_comps key)))) as E.
  { simpl Join. f_equal. change ([VolumeId b; BucketName b; FormatUint slot] ++ key_comps key)
      with ([VolumeId b; BucketName b] ++ [FormatUint slot] ++ key_comps key).
    rewrite (join_app [_; _]), (join_app [_]) by done. done. }
  rewrite E, Clean_rooted_join; [apply CleanObjectKey_rooted_join|];
    repeat (constructor; [auto with ecos|]); done.
Qed.

(** [SplitID] undoes [GenObjectId]. *)
Lemma SplitID_GenObjectId (b : BucketInfo) (key : string) :
  bucket_ok b -> key_ok key = true ->
  exists cfg slot oid, Config b = Some cfg /\ CalculateSlot key (KeySlotNum cfg) = Ok slot /\
    GenObjectId b key = Ok oid /\ CleanObjectKey oid = oid /\
    SplitID oid = Ok (mkObjectName (VolumeId b) (BucketInfo_GetID b) (CleanObjectKey key) slot).
Proof.
  intros Hb Hk. destruct (GenObjectId_shape b key Hb Hk) as (cfg & slot & Hcfg & Hslot & Hr & Hn & Hid).
  destruct (key_ok_spec key Hk) as [Hne Hg]. destruct Hb as (Hv & Hbn & _).
  assert (Forall (fun e => good e = true) ([VolumeId b; BucketName b; FormatUint slot] ++ key_comps key)) as Hall.
  { repeat (constructor; [auto with ecos|]). done. }
  exists cfg, slot, (join ([VolumeId b; BucketName b; FormatUint slot] ++ key_comps key)).
  assert (CleanObjectKey (join ([VolumeId b; BucketName b; FormatUint slot] ++ key_comps key)) =
          join ([VolumeId b; BucketName b; FormatUint slot] ++ key_comps key)) as Hclean.
  { by apply CleanObjectKey_join. }
  split_and!; try done. unfold SplitID. rewrite Hclean, SplitN4_join; [|by repeat constructor; auto with ecos|done].
  unfold Atoi. rewrite ParseInt_FormatUint by lia. simpl. f_equal.
  rewrite TrimPrefix_join, CleanObjectKey_ok, i32_id by (done || unfold is_i32; lia).
  done.
Qed.

End naming.

(** ** Properties *)

(** A ring that satisfies the contract: the length of the key picks the node. *)
Definition length_ring : HashRing := fun nodes id =>
  nodes !! (String.length id `mod` length nodes)%nat.

Lemma length_ring_ok : @HashRingOk length_ring.
Proof.
  intros nodes id Hn. unfold GetNode, length_ring.
  destruct (lookup_lt_is_Some_2 nodes (String.length id `mod` length nodes)%nat) as [x Hx].
  { apply Nat.mod_upper_bound. by destruct nodes. }
  exists x. split; [done|]. by eapply list_elem_of_lookup_2.
Qed.

(** The bucket [root/default] the cluster creates when it starts. *)
Definition default_bucket : BucketInfo :=
  mkBucketInfo "root" "default" "root" "" 0
    (Some (mkBucketConfig 5 4194304 false false false HT_MURMUR3_128 HT_MURMUR3_128)).

Lemma default_bucket_ok : bucket_ok default_bucket.
Proof. split_and!; [done|done|]. eexists. split; [done|]. simpl. lia. Qed.

(** C4: the identifier the client makes for an object is read back by the server
    as the same volume, the same bucket, the cleaned key and the slot the client
    hashed the key to, for every key that stays below its bucket. *)
Theorem object_name_roundtrip `{HashRing, !HashRingOk} (b : BucketInfo) (key : string) :
  bucket_ok b -> key_ok key = true ->
  exists cfg slot oid, Config b = Some cfg /\ CalculateSlot key (KeySlotNum cfg) = Ok slot /\
    GenObjectId b key = Ok oid /\ CleanObjectKey oid = oid /\
    SplitID oid = Ok (mkObjectName (VolumeId b) (BucketInfo_GetID b) (CleanObjectKey key) slot).
Proof. apply SplitID_GenObjectId. Qed.

Lemma object_name_roundtrip_witness :
  exists cfg slot oid, Config default_bucket = Some cfg /\
    @CalculateSlot length_ring "/a//b/../c" (KeySlotNum cfg) = Ok slot /\
    @GenObjectId length_ring default_bucket "/a//b/../c" = Ok oid /\ CleanObjectKey oid = oid /\
    SplitID oid = Ok (mkObjectName "root" "/root/default" "a/c" slot).
Proof.
  exact (@object_name_roundtrip length_ring length_ring_ok default_bucket "/a//b/../c"
           default_bucket_ok eq_refl).
Defined.

(** C7: distinct objects have distinct identifiers: two objects with the same
    identifier are in the same bucket of the same volume and have the same key
    once cleaned. *)
Theorem object_id_injective `{HashRing, !HashRingOk} (b b' : BucketInfo) (k k' oid : string) :
  bucket_ok b -> bucket_ok b' -> key_ok k = true -> key_ok k' = true ->
  GenObjectId b k = Ok oid -> GenObjectId b' k' = Ok oid ->
  VolumeId b = VolumeId b' /\ BucketName b = BucketName b' /\ CleanObjectKey k = CleanObjectKey k'.
Proof.
  intros Hb Hb' Hk Hk' E E'.
  destruct (SplitID_GenObjectId b k Hb Hk) as (c & s & o & _ & _ & Ho & _ & Hs).
  destruct (SplitID_GenObjectId b' k' Hb' Hk') as (c' & s' & o' & _ & _ & Ho' & _ & Hs').
  rewrite E in Ho. rewrite E' in Ho'. injection Ho as <-. injection Ho' as <-.
  rewrite Hs in Hs'. assert (forall n n' : ObjectName, Ok n = Ok n' -> n = n') as Hinj by (by intros ?? [=]).
  apply Hinj in Hs'. pose proof (f_equal volumeID Hs') as Hv. pose proof (f_equal bucketID Hs') as Hbid.
  pose proof (f_equal key Hs') as Hkey. cbn [volumeID bucketID key] in Hv, Hbid, Hkey.
  split_and!; try done. unfold BucketInfo_GetID in Hbid. destruct Hb as (Hv1 & Hb1 & _), Hb' as (Hv2 & Hb2 & _).
  rewrite !GenBucketID_good in Hbid by done. rewrite Hv in Hbid.
  injection Hbid as Hbid. apply (f_equal (Split sep)) in Hbid.
  rewrite !Split_join in Hbid by (done || by repeat constructor; apply good_nosep).
  by simplify_eq.
Qed.

Lemma object_id_injective_witness :
  exists oid, @GenObjectId length_ring default_bucket "a/./b" = Ok oid /\
    @GenObjectId length_ring default_bucket "/a/b" = Ok oid /\
    CleanObjectKey "a/./b" = CleanObjectKey "/a/b".
Proof.
  eexists. split; [vm_compute; reflexivity|]. split; [vm_compute; reflexivity|].
  refine (proj2 (proj2 (@object_id_injective length_ring length_ring_ok default_bucket default_bucket
    "a/./b" "/a/b" _ default_bucket_ok default_bucket_ok eq_refl eq_refl _ _)));
    vm_compute; reflexivity.
Defined.

(** Every key has a group. *)
Lemma GenObjPgID_total `{HR : HashRing, !HashRingOk} (b : BucketInfo) (key : string) (pgNum : Z) :
  bucket_ok b -> 1 <= pgNum < 2 ^ 31 -> exists pg, GenObjPgID b key pgNum = Ok pg /\ 1 <= pg <= pgNum.
Proof.
  intros (_ & _ & cfg & Hcfg & Hn) Hp.
  destruct (CalculateSlot_range (CleanObjectKey key) _ Hn) as (s' & Hs' & Hr').
  destruct (GenSlotPgID_range (BucketInfo_GetID b) s' pgNum Hp) as (pg & Hpg & Hpr).
  exists pg. split; [|done]. unfold GenObjPgID. rewrite Hcfg. cbn [or_panic mbind res_bind]. rewrite Hs'. exact Hpg.
Qed.

(** placement is total and in range: every key gets a slot between 1 and the
    bucket's slot count, and a placement group between 1 and the group count, so
    the pipeline table indexed by [pgID-1] is never read out of range. *)
Theorem placement_in_range `{HashRing, !HashRingOk} (b : BucketInfo) (key : string) (pgNum : Z) :
  bucket_ok b -> 1 <= pgNum < 2 ^ 31 ->
  exists cfg slot pg, Config b = Some cfg /\
    CalculateSlot key (KeySlotNum cfg) = Ok slot /\ 1 <= slot <= KeySlotNum cfg /\
    GenObjPgID b key pgNum = Ok pg /\ 1 <= pg <= pgNum.
Proof.
  intros Hb Hp. pose proof Hb as (_ & _ & cfg & Hcfg & Hn).
  destruct (CalculateSlot_range key _ Hn) as (s & Hs & Hr).
  destruct (GenObjPgID_total b key pgNum) as (pg & Hpg & Hpr); [done..|].
  exists cfg, s, pg. split_and!; (done || lia).
Qed.

Lemma placement_in_range_witness :
  exists cfg slot pg, Config default_bucket = Some cfg /\
    @CalculateSlot length_ring "k" (KeySlotNum cfg) = Ok slot /\ 1 <= slot <= KeySlotNum cfg /\
    @GenObjPgID length_ring default_bucket "k" 10 = Ok pg /\ 1 <= pg <= 10.
Proof.
  apply (@placement_in_range length_ring length_ring_ok default_bucket "k" 10 default_bucket_ok).
  lia.
Defined.

(** the cache of mappers is transparent: whatever was cached before by the
    same function, [NewMapper] returns the mapper it would build, and keeps the
    cache that way. *)
Theorem mapper_cache_transparent (cache : gmap Z Mapper) (n : Z) :
  (forall k m, cache !! k = Some m -> m = makeMapper k) ->
  snd (NewMapper cache n) = makeMapper n /\
  (forall k m, fst (NewMapper cache n) !! k = Some m -> m = makeMapper k).
Proof.
  intros Hc. unfold NewMapper. destruct (cache !! n) as [m|] eqn:E; simpl.
  - split; [by apply Hc|done].
  - split; [done|]. intros k m. rewrite lookup_insert.
    destruct (decide (n = k)) as [->|]; [by intros [= <-]|apply Hc].
Qed.

Lemma mapper_cache_transparent_witness :
  snd (NewMapper (fst (NewMapper ∅ 3)) 3) = makeMapper 3 /\
  (forall k m, fst (NewMapper (fst (NewMapper ∅ 3)) 3) !! k = Some m -> m = makeMapper k).
Proof.
  apply mapper_cache_transparent. apply mapper_cache_transparent.
  intros k m Hk. rewrite lookup_empty in Hk. discriminate.
Defined.

(** a key with enough [..] components leaves its bucket: through the client
    library, whose keys need not start with a slash, the object named
    [../../other/1/x] of bucket [default] gets the identifier of object [x] in
    slot 1 of bucket [other], for every hash ring. *)
Theorem key_escapes_bucket `{HashRing, !HashRingOk} :
  GenObjectId default_bucket "../../other/1/x" = Ok "root/other/1/x".
Proof.
  destruct (CalculateSlot_range "../../other/1/x" 5 ltac:(lia)) as (slot & Hs & Hr).
  unfold GenObjectId. cbn [Config default_bucket or_panic mbind res_bind KeySlotNum].
  change (Trim sep (Clean "../../other/1/x")) with "../../other/1/x".
  rewrite Hs. cbn [mbind res_bind]. f_equal.
  unfold FormatInt. rewrite decide_False by lia.
  change (Join [BucketInfo_GetID default_bucket; FormatUint slot; "../../other/1/x"]) with
    (Clean (String sep (join (["root"; "default"] ++ [FormatUint slot] ++ [".."; ".."; "other"; "1"; "x"])))).
  rewrite Clean_rooted, Split_join; [|done|].
  - unfold norm. rewrite !fold_left_app.
    rewrite (norm_fold_good true [FormatUint slot]) by (repeat constructor; auto with ecos).
    cbn [fold_left rev app]. rewrite norm_step_up by auto with ecos. reflexivity.
  - repeat (constructor; [auto with ecos; done|]). by repeat constructor.
Qed.

Lemma key_escapes_bucket_witness :
  @GenObjectId length_ring default_bucket "../../other/1/x" = Ok "root/other/1/x".
Proof. exact (@key_escapes_bucket length_ring length_ring_ok). Defined.
