(* ===== verification/Pipeline.v ===== *)
(** * Pipelines: which nodes hold a placement group

    [src/edge-node/pipeline/pipeline.go]. Every node and every client computes
    the pipelines of a cluster info on its own; CRUSH, the library that picks the
    nodes, is the class [Crush], a function of the tree it is given (the
    components agree on a placement only because it is one), with its documented
    contract [CrushOk]. *)

From S2P Require Import Prelude Errno GoStd Infos Object.

(** ** Data *)

Inductive SyncType := Sync_RAFT | Sync_STREAM.

#[global] Instance SyncType_eq_dec : EqDecision SyncType.
Proof. solve_decision. Defined.

Record Pipeline := mkPipeline {
  P_PgId : Z;
  P_RaftId : list Z;
  P_SyncType : SyncType;
  ClusterTerm : Z
}.

#[global] Instance Pipeline_eq_dec : EqDecision Pipeline.
Proof. solve_decision. Defined.

Record ClusterPipelines := mkClusterPipelines {
  CP_Term : Z;
  MetaPipelines : list Pipeline;
  BlockPipelines : list Pipeline
}.

(** A leaf of the CRUSH tree: the selector reads its weight and its id. *)
Record EcosNode := mkEcosNode { EN_info : NodeInfo; EN_Failed : bool }.

#[global] Instance EcosNode_eq_dec : EqDecision EcosNode.
Proof. solve_decision. Defined.

Definition GetWeight (x : EcosNode) : Z := i64 (Capacity (EN_info x)).
Definition GetId (x : EcosNode) : string := Uuid (EN_info x).
Definition GetRaftId (x : EcosNode) : Z := RaftId (EN_info x).

(** ** CRUSH, an interface *)

Class Crush := Select : list EcosNode -> Z -> Z -> list EcosNode.

Class CrushOk `{Crush} : Prop :=
  Select_spec : forall children input count,
    NoDup children -> 0 <= count <= Z.of_nat (length children) ->
    Z.of_nat (length (Select children input count)) = count /\
    NoDup (Select children input count) /\
    (forall n, n ∈ Select children input count -> n ∈ children).

Section pipelines.
Context `{Crush}.

(** ** Operations *)

(** The children of the root: every node that is not offline, in order. *)
Definition healthyNodes (clusterInfo : ClusterInfo) : list EcosNode :=
  omap (fun info => if decide (State info = NS_OFFLINE) then None
                    else Some (mkEcosNode info false)) (NodesInfo clusterInfo).

Definition GenPipelines (clusterInfo : ClusterInfo) (pgNum groupSize : Z) : list Pipeline :=
  let children := healthyNodes clusterInfo in
  if decide (u64 (Z.of_nat (length children)) < groupSize) then []
  else
    (fun i =>
       let nodes := Select children (i64 i) (i64 groupSize) in
       mkPipeline i (GetRaftId <$> nodes) Sync_RAFT (Term clusterInfo)) <$> seqZ 1 pgNum.

Definition GenMetaPipelines (clusterInfo : ClusterInfo) : list Pipeline :=
  GenPipelines clusterInfo (u64 (MetaPgNum clusterInfo)) (u64 (MetaPgSize clusterInfo)).

Definition GenBlockPipelines (clusterInfo : ClusterInfo) : list Pipeline :=
  GenPipelines clusterInfo (u64 (BlockPgNum clusterInfo)) (u64 (BlockPgSize clusterInfo)).

Definition NewClusterPipelines (info : ClusterInfo) : res ClusterPipelines :=
  let metaPipelines := GenMetaPipelines info in
  let blockPipelines := GenBlockPipelines info in
  if decide (length metaPipelines = 0%nat \/ length blockPipelines = 0%nat)
  then Err (EErrno ClusterNotOK)
  else Ok (mkClusterPipelines (Term info) metaPipelines blockPipelines).

(** [pipelines[pgID-1]] on a [uint64]: out of range it panics. *)
Definition pipeline_at (ps : list Pipeline) (pgID : Z) : res Pipeline :=
  let i := u64 (pgID - 1) in
  if decide (i < Z.of_nat (length ps)) then or_panic (ps !! Z.to_nat i) else Panic.

Definition GetMetaPipeline (cp : ClusterPipelines) (pgID : Z) : res Pipeline :=
  pipeline_at (MetaPipelines cp) pgID.

Definition GetBlockPipeline (cp : ClusterPipelines) (pgID : Z) : res Pipeline :=
  pipeline_at (BlockPipelines cp) pgID.

Definition GetMetaPG (cp : ClusterPipelines) (pgID : Z) : res (list Z) :=
  p ← pipeline_at (MetaPipelines cp) pgID; Ok (P_RaftId p).

Definition GetMetaPGNodeID (cp : ClusterPipelines) (pgID : Z) : res (list string) :=
  p ← pipeline_at (MetaPipelines cp) pgID; Ok (FormatUint <$> P_RaftId p).

Definition GetBlockPG (cp : ClusterPipelines) (pgID : Z) : res (list Z) :=
  p ← pipeline_at (BlockPipelines cp) pgID; Ok (P_RaftId p).

Definition GetBlockPGNodeID (cp : ClusterPipelines) (pgID : Z) : res (list string) :=
  p ← pipeline_at (BlockPipelines cp) pgID; Ok (FormatUint <$> P_RaftId p).

(** ** Well-formedness of a table of pipelines *)

(** Pipeline number [pg] of [n] has identifier [pg], and [size] distinct nodes
    of the cluster that are not offline. *)
Definition pipelines_wf (info : ClusterInfo) (n size : Z) (ps : list Pipeline) : Prop :=
  Z.of_nat (length ps) = n /\
  forall pg, 1 <= pg <= n -> exists p, pipeline_at ps pg = Ok p /\
    P_PgId p = pg /\ ClusterTerm p = Term info /\ Z.of_nat (length (P_RaftId p)) = size /\
    NoDup (P_RaftId p) /\
    forall id, id ∈ P_RaftId p -> exists ni, ni ∈ NodesInfo info /\ RaftId ni = id /\ State ni <> NS_OFFLINE.

Context `{!CrushOk}.

Lemma elem_of_healthy info n :
  n ∈ healthyNodes info <->
  exists ni, ni ∈ NodesInfo info /\ State ni <> NS_OFFLINE /\ n = mkEcosNode ni false.
Proof.
  unfold healthyNodes. rewrite list_elem_of_omap. split.
  - intros (ni & Hin & Hd). destruct (decide _); [done|]. injection Hd as <-. by exists ni.
  - intros (ni & Hin & Hs & ->). exists ni. by rewrite decide_False.
Qed.

Lemma healthy_RaftId_NoDup info :
  NoDup (RaftId <$> NodesInfo info) -> NoDup (GetRaftId <$> healthyNodes info).
Proof.
  unfold healthyNodes. induction (NodesInfo info) as [|ni l IH]; [done|].
  simpl. intros [Hni Hl]%NoDup_cons.
  destruct (decide (State ni = NS_OFFLINE)); simpl; [by apply IH|].
  apply NoDup_cons. split; [|by apply IH].
  intros (e & He & Hin)%list_elem_of_fmap. apply Hni.
  apply list_elem_of_omap in Hin as (ni' & Hin' & Hd). destruct (decide _); [done|].
  injection Hd as <-. apply list_elem_of_fmap. exists ni'. done.
Qed.

Lemma NoDup_fmap_sub {A B} (f : A -> B) (l l' : list A) :
  NoDup (f <$> l) -> NoDup l' -> (forall x, x ∈ l' -> x ∈ l) -> NoDup (f <$> l').
Proof.
  intros Hf Hl' Hs. apply NoDup_fmap_2_strong; [|done].
  intros x y Hx Hy E. apply Hs, list_elem_of_lookup in Hx as [i Hi].
  apply Hs, list_elem_of_lookup in Hy as [j Hj].
  assert (i = j) as ->; [|congruence].
  eapply (NoDup_lookup (f <$> l)); [done| |]; rewrite list_lookup_fmap.
  - by rewrite Hi.
  - rewrite Hj. simpl. by rewrite E.
Qed.

Lemma healthy_length info : (length (healthyNodes info) <= length (NodesInfo info))%nat.
Proof.
  unfold healthyNodes. induction (NodesInfo info) as [|ni l IH]; csimpl; [lia|].
  destruct (decide (State ni = NS_OFFLINE)); csimpl; lia.
Qed.

Lemma GenPipelines_wf info n size :
  NoDup (RaftId <$> NodesInfo info) -> Z.of_nat (length (NodesInfo info)) < 2 ^ 63 ->
  0 <= n < 2 ^ 63 -> 0 <= size <= Z.of_nat (length (healthyNodes info)) ->
  pipelines_wf info n size (GenPipelines info n size).
Proof.
  intros Hnd Hlen Hn Hs. pose proof (healthy_length info) as Hle.
  unfold GenPipelines. rewrite u64_id by (unfold is_u64; lia).
  rewrite decide_False by lia. split.
  { rewrite length_fmap, length_seqZ. lia. }
  intros pg Hpg. unfold pipeline_at. rewrite u64_id by (unfold is_u64; lia).
  rewrite length_fmap, length_seqZ, decide_True by lia.
  rewrite list_lookup_fmap, lookup_seqZ_lt by lia. simpl.
  replace (1 + Z.of_nat (Z.to_nat (pg - 1))) with pg by lia.
  rewrite !i64_id by (unfold is_i64; lia).
  pose proof (healthy_RaftId_NoDup info Hnd) as Hh.
  destruct (Select_spec (healthyNodes info) pg size (NoDup_fmap_1 _ _ Hh) Hs) as (Hl & Hn' & Hin).
  eexists. split; [done|]. simpl. split_and!; try done.
  - by rewrite length_fmap.
  - by eapply NoDup_fmap_sub.
  - intros id (e & -> & He)%list_elem_of_fmap. apply Hin, elem_of_healthy in He as (ni & Hni & Hst & ->).
    by exists ni.
Qed.

Lemma GenPipelines_nil info n size :
  Z.of_nat (length (NodesInfo info)) < 2 ^ 63 -> 0 <= n ->
  GenPipelines info n size = [] <-> Z.of_nat (length (healthyNodes info)) < size \/ n = 0.
Proof.
  intros Hlen Hn. pose proof (healthy_length info) as Hle.
  unfold GenPipelines. rewrite u64_id by (unfold is_u64; lia).
  destruct (decide _) as [|Hd]; [naive_solver|]. split.
  - intros E. apply (f_equal length) in E. rewrite length_fmap, length_seqZ in E. simpl in E. lia.
  - intros [Hx|Hx]; [lia|]. by rewrite Hx.
Qed.

End pipelines.

(** ** Properties *)

(** A cluster as the watcher describes it: distinct node ids, sane sizes. *)
Definition cluster_wf (info : ClusterInfo) : Prop :=
  NoDup (RaftId <$> NodesInfo info) /\ Z.of_nat (length (NodesInfo info)) < 2 ^ 63 /\
  1 <= MetaPgNum info < 2 ^ 31 /\ 1 <= MetaPgSize info < 2 ^ 31 /\
  1 <= BlockPgNum info < 2 ^ 31 /\ 1 <= BlockPgSize info < 2 ^ 31.

Lemma NewClusterPipelines_spec `{Crush, !CrushOk} (info : ClusterInfo) :
  cluster_wf info ->
  (MetaPgSize info <= Z.of_nat (length (healthyNodes info)) /\
   BlockPgSize info <= Z.of_nat (length (healthyNodes info)) /\
   exists cp, NewClusterPipelines info = Ok cp /\ CP_Term cp = Term info /\
     pipelines_wf info (MetaPgNum info) (MetaPgSize info) (MetaPipelines cp) /\
     pipelines_wf info (BlockPgNum info) (BlockPgSize info) (BlockPipelines cp)) \/
  ((Z.of_nat (length (healthyNodes info)) < MetaPgSize info \/
    Z.of_nat (length (healthyNodes info)) < BlockPgSize info) /\
   NewClusterPipelines info = Err (EErrno ClusterNotOK)).
Proof.
  intros (Hnd & Hlen & Hmn & Hms & Hbn & Hbs).
  unfold NewClusterPipelines, GenMetaPipelines, GenBlockPipelines.
  rewrite !u64_id by (unfold is_u64; lia). set (k := Z.of_nat (length (healthyNodes info))).
  pose proof (GenPipelines_nil info (MetaPgNum info) (MetaPgSize info) Hlen ltac:(lia)) as Hm.
  pose proof (GenPipelines_nil info (BlockPgNum info) (BlockPgSize info) Hlen ltac:(lia)) as Hb.
  fold k in Hm, Hb.
  destruct (decide _) as [Hd|Hd]; rewrite !length_zero_iff_nil, Hm, Hb in Hd; [right; split; [lia|done]|].
  left. split; [lia|]. split; [lia|]. eexists. split; [done|]. split; [done|].
  split; apply GenPipelines_wf; unfold k in *; (done || lia).
Qed.

(** Everything the properties below need of a table that was computed. *)
Lemma pipeline_at_outside (ps : list Pipeline) (pg : Z) :
  is_u64 pg -> Z.of_nat (length ps) < 2 ^ 64 -> ~ (1 <= pg <= Z.of_nat (length ps)) ->
  pipeline_at ps pg = Panic.
Proof.
  intros Hu Hl Hpg. unfold pipeline_at. rewrite decide_False; [done|].
  unfold is_u64 in Hu. destruct (decide (pg = 0)) as [->|].
  - change (u64 (0 - 1)) with (2 ^ 64 - 1). lia.
  - rewrite u64_id by (unfold is_u64; lia). lia.
Qed.

Lemma pipeline_at_lookup (ps : list Pipeline) (i : nat) :
  Z.of_nat (length ps) < 2 ^ 64 -> (i < length ps)%nat ->
  pipeline_at ps (Z.of_nat i + 1) = or_panic (ps !! i).
Proof.
  intros Hl Hi. unfold pipeline_at. replace (Z.of_nat i + 1 - 1) with (Z.of_nat i) by lia.
  rewrite u64_id by (unfold is_u64; lia). rewrite decide_True by lia. by rewrite Nat2Z.id.
Qed.

Lemma pipeline_at_elem ps pg p : pipeline_at ps pg = Ok p -> p ∈ ps.
Proof.
  unfold pipeline_at. destruct (decide _); [|done]. destruct (ps !! _) as [q|] eqn:E; [|done]. intros [= <-]. by eapply list_elem_of_lookup_2.
Qed.

(** A well-formed table is its own index: entry [i] has the number [i + 1]. *)
Lemma pipelines_wf_lookup info n size ps i p : n < 2 ^ 31 -> pipelines_wf info n size ps ->
  ps !! i = Some p -> P_PgId p = Z.of_nat i + 1 /\ 1 <= P_PgId p <= n /\ ClusterTerm p = Term info /\
    pipeline_at ps (P_PgId p) = Ok p.
Proof.
  intros Hn [Hlen Hps] Hi. apply lookup_lt_Some in Hi as Hlt.
  destruct (Hps (Z.of_nat i + 1) ltac:(lia)) as (q & Hq & Hpg & Ht & _). pose proof Hq as Hq'.
  rewrite pipeline_at_lookup, Hi in Hq by lia. injection Hq as <-.
  split_and!; try lia. by rewrite Hpg.
Qed.

Lemma pipelines_wf_NoDup info n size ps : n < 2 ^ 31 -> pipelines_wf info n size ps -> NoDup (P_PgId <$> ps).
Proof.
  intros Hn Hwf. apply NoDup_alt. intros i j x Hi Hj.
  rewrite list_lookup_fmap in Hi. rewrite list_lookup_fmap in Hj.
  destruct (ps !! i) as [p|] eqn:Ei; [|done]. destruct (ps !! j) as [q|] eqn:Ej; [|done].
  injection Hi as Hi. injection Hj as Hj.
  destruct (pipelines_wf_lookup _ _ _ _ _ _ Hn Hwf Ei) as [H1 _].
  destruct (pipelines_wf_lookup _ _ _ _ _ _ Hn Hwf Ej) as [H2 _]. lia.
Qed.

(** C34: a cluster with enough nodes gets a full table of pipelines: the pipelines
    of metadata and of blocks are numbered 1 to the configured count, carry the
    cluster's term, and each has exactly the configured number of distinct nodes,
    all of them members of the cluster that are not offline; a cluster with too
    few such nodes is refused with [ClusterNotOK]. *)
Theorem cluster_pipelines_correct `{Crush, !CrushOk} (info : ClusterInfo) :
  cluster_wf info ->
  (MetaPgSize info <= Z.of_nat (length (healthyNodes info)) /\
   BlockPgSize info <= Z.of_nat (length (healthyNodes info)) /\
   exists cp, NewClusterPipelines info = Ok cp /\ CP_Term cp = Term info /\
     pipelines_wf info (MetaPgNum info) (MetaPgSize info) (MetaPipelines cp) /\
     pipelines_wf info (BlockPgNum info) (BlockPgSize info) (BlockPipelines cp)) \/
  ((Z.of_nat (length (healthyNodes info)) < MetaPgSize info \/
    Z.of_nat (length (healthyNodes info)) < BlockPgSize info) /\
   NewClusterPipelines info = Err (EErrno ClusterNotOK)).
Proof. apply NewClusterPipelines_spec. Qed.

(** A selector that satisfies the contract: the first [count] children. *)
Definition first_crush : Crush := fun children _ count => take (Z.to_nat count) children.

Lemma first_crush_ok : @CrushOk first_crush.
Proof.
  intros children input count Hnd Hc. unfold Select, first_crush. split_and!.
  - rewrite length_take. lia.
  - rewrite <- (take_drop (Z.to_nat count) children) in Hnd. by apply NoDup_app in Hnd as [? _].
  - intros n Hn. rewrite <- (take_drop (Z.to_nat count) children). apply elem_of_app. by left.
Qed.

(** Three nodes, one of them offline, and groups of two. *)
Definition small_cluster : ClusterInfo :=
  let node id st := mkNodeInfo id "u" "10.0.0.1" 3267 10 st in
  mkClusterInfo 7 None [node 3 NS_ONLINE; node 2 NS_OFFLINE; node 1 NS_ONLINE] None 10 2 100 2 0.

Lemma small_cluster_wf : cluster_wf small_cluster.
Proof.
  split_and!; simpl; try lia. apply (bool_decide_unpack (NoDup [3; 2; 1])). vm_compute. exact I.
Qed.

Lemma cluster_pipelines_correct_witness :
  (2 <= 2 /\ 2 <= 2 /\
   exists cp, @NewClusterPipelines first_crush small_cluster = Ok cp /\ CP_Term cp = 7 /\
     pipelines_wf small_cluster 10 2 (MetaPipelines cp) /\
     pipelines_wf small_cluster 100 2 (BlockPipelines cp)) \/
  ((2 < 2 \/ 2 < 2) /\ @NewClusterPipelines first_crush small_cluster = Err (EErrno ClusterNotOK)).
Proof. exact (@cluster_pipelines_correct first_crush first_crush_ok small_cluster small_cluster_wf). Defined.

(** routing is total: in a cluster that has its pipelines, every block
    identifier and every object key of a well-formed bucket is mapped to a
    placement group whose pipeline exists, and whose first node, the one the
    client talks to, is a member of the cluster that is not offline. *)
Theorem routing_total `{HashRing, !HashRingOk, Crush, !CrushOk}
    (info : ClusterInfo) (cp : ClusterPipelines) (b : BucketInfo) (key blockID : string) :
  cluster_wf info -> bucket_ok b -> NewClusterPipelines info = Ok cp ->
  (exists pg n rest ni, GenObjPgID b key (MetaPgNum info) = Ok pg /\
     GetMetaPG cp pg = Ok (n :: rest) /\ ni ∈ NodesInfo info /\ RaftId ni = n /\ State ni <> NS_OFFLINE) /\
  (exists pg n rest ni, GenBlockPgID blockID (BlockPgNum info) = Ok pg /\
     GetBlockPG cp pg = Ok (n :: rest) /\ ni ∈ NodesInfo info /\ RaftId ni = n /\ State ni <> NS_OFFLINE).
Proof.
  intros Hwf Hb Hcp.
  destruct (NewClusterPipelines_spec info Hwf) as [(_ & _ & cp' & Hcp' & _ & Hm & Hbl)|[_ Herr]]; [|congruence].
  rewrite Hcp in Hcp'. injection Hcp' as <-.
  destruct Hwf as (_ & _ & Hmn & Hms & Hbn & Hbs).
  assert (forall n size ps pg, 1 <= size -> pipelines_wf info n size ps -> 1 <= pg <= n ->
    exists p m rest ni, pipeline_at ps pg = Ok p /\ P_RaftId p = m :: rest /\
      ni ∈ NodesInfo info /\ RaftId ni = m /\ State ni <> NS_OFFLINE) as Hfirst.
  { intros n size ps pg Hsz [_ Hps] Hpg.
    destruct (Hps pg Hpg) as (p & Hp & _ & _ & Hlen & _ & Hin).
    destruct (P_RaftId p) as [|m rest] eqn:Er; [simpl in Hlen; lia|].
    destruct (Hin m ltac:(left)) as (ni & Hni & Hid & Hst).
    by exists p, m, rest, ni. }
  split.
  - destruct Hb as (_ & _ & cfg & Hcfg & Hsl).
    destruct (CalculateSlot_range (CleanObjectKey key) _ Hsl) as (s & Hs & _).
    destruct (GenSlotPgID_range (BucketInfo_GetID b) s (MetaPgNum info) Hmn) as (pg & Hpg & Hr).
    destruct (Hfirst _ (MetaPgSize info) _ pg ltac:(lia) Hm Hr) as (p & m & rest & ni & Hp & Hraft & Hni & Hid & Hst).
    exists pg, m, rest, ni. split_and!; try done.
    + unfold GenObjPgID. rewrite Hcfg. cbn [or_panic mbind res_bind]. by rewrite Hs.
    + unfold GetMetaPG. rewrite Hp. simpl. by rewrite Hraft.
  - destruct (GenBlockPgID_range blockID (BlockPgNum info) Hbn) as (pg & Hpg & Hr).
    destruct (Hfirst _ (BlockPgSize info) _ pg ltac:(lia) Hbl Hr) as (p & m & rest & ni & Hp & Hraft & Hni & Hid & Hst).
    exists pg, m, rest, ni. split_and!; try done.
    unfold GetBlockPG. rewrite Hp. simpl. by rewrite Hraft.
Qed.

Lemma routing_total_witness :
  exists cp, @NewClusterPipelines first_crush small_cluster = Ok cp /\
    exists pg n rest ni, @GenObjPgID length_ring default_bucket "a/b" 10 = Ok pg /\
     GetMetaPG cp pg = Ok (n :: rest) /\ ni ∈ NodesInfo small_cluster /\ RaftId ni = n /\
     State ni <> NS_OFFLINE.
Proof.
  eexists. split; [vm_compute; reflexivity|].
  refine (proj1 (@routing_total length_ring length_ring_ok first_crush first_crush_ok small_cluster
    _ default_bucket "a/b" "id" small_cluster_wf default_bucket_ok _)).
  vm_compute. reflexivity.
Defined.

(** a placement group number outside the table is a panic, not another
    group's pipeline: in particular the number 0, which marks a failed
    computation, is never served. *)
Theorem bad_group_panics (cp : ClusterPipelines) (pg : Z) :
  is_u64 pg -> Z.of_nat (length (MetaPipelines cp)) < 2 ^ 64 ->
  ~ (1 <= pg <= Z.of_nat (length (MetaPipelines cp))) ->
  GetMetaPG cp pg = Panic /\ GetMetaPGNodeID cp pg = Panic /\ GetMetaPipeline cp pg = Panic.
Proof.
  intros Hu Hl Hpg. unfold GetMetaPG, GetMetaPGNodeID, GetMetaPipeline.
  by rewrite pipeline_at_outside.
Qed.

Lemma bad_group_panics_witness :
  exists cp, @NewClusterPipelines first_crush small_cluster = Ok cp /\
    GetMetaPG cp 0 = Panic /\ GetMetaPGNodeID cp 0 = Panic /\ GetMetaPipeline cp 0 = Panic.
Proof.
  eexists. split; [vm_compute; reflexivity|].
  apply bad_group_panics; [unfold is_u64; lia|vm_compute; reflexivity|lia].
Defined.
