(* ===== verification/Pool.v ===== *)
(** * The resource pool of [src/utils/common/pool.go]

    A buffered channel of idle resources, filled on demand up to [maxCount] by a
    factory. The uploading client keeps its chunk buffers in one. [Stuck] is the
    outcome of a channel operation that has to wait for another goroutine. *)

From S2P Require Import Prelude Errno.

Section pool.
Context {R : Type}.

(** [fn]: the [k]-th call of the factory. *)
Context (factory : nat -> res R).

Record Pool := mkPool {
  resources : list R;      (* the channel, oldest first *)
  capacity : nat;             (* its capacity *)
  calls : nat;             (* calls of the factory so far *)
  curCount : Z;
  maxCount : Z
}.

Definition NewPool (size : nat) (maxCount : Z) : res Pool :=
  if decide (size = 0%nat) then Err (EErrno ZeroSize)
  else Ok (mkPool [] size 0 0 maxCount).

(** Send on and receive from the channel. *)
Definition chan_send (p : Pool) (r : R) : res Pool :=
  if decide (length (resources p) < capacity p)%nat
  then Ok (mkPool (resources p ++ [r]) (capacity p) (calls p) (curCount p) (maxCount p))
  else Stuck.

Definition chan_recv (p : Pool) : res (R * Pool) :=
  match resources p with
  | r :: rest => Ok (r, mkPool rest (capacity p) (calls p) (curCount p) (maxCount p))
  | [] => Stuck
  end.

(** The pool after the call, and its result. *)
Definition Acquire (p : Pool) : Pool * res R :=
  let grow :=
    if decide (curCount p < maxCount p /\ Z.of_nat (length (resources p)) < maxCount p) then
      let p1 := mkPool (resources p) (capacity p) (S (calls p)) (curCount p) (maxCount p) in
      match factory (calls p) with
      | Ok r => match chan_send p1 r with
                | Ok p2 => (mkPool (resources p2) (capacity p2) (calls p2) (curCount p2 + 1) (maxCount p2), Ok tt)
                | _ => (p1, Stuck)
                end
      | Err e => (p1, Err e)
      | Panic => (p1, Panic)
      | Stuck => (p1, Stuck)
      end
    else (p, Ok tt) in
  match grow with
  | (p1, Ok _) => match chan_recv p1 with
                  | Ok (r, p2) => (p2, Ok r)
                  | _ => (p1, Stuck)
                  end
  | (p1, Err e) => (p1, Err e)
  | (p1, Panic) => (p1, Panic)
  | (p1, Stuck) => (p1, Stuck)
  end.

Definition Release (p : Pool) (r : R) : res Pool := chan_send p r.

Fixpoint release_all (p : Pool) (rs : list R) : res Pool :=
  match rs with
  | [] => Ok p
  | r :: rs' => p' ← Release p r; release_all p' rs'
  end.

Fixpoint acquire_loop (count : nat) (p : Pool) (ret : list R) : Pool * res (list R) :=
  match count with
  | O => (p, Ok ret)
  | S n =>
      match Acquire p with
      | (p1, Ok r) => acquire_loop n p1 (ret ++ [r])
      | (p1, Err e) => match release_all p1 ret with
                       | Ok p2 => (p2, Err e)
                       | _ => (p1, Stuck)
                       end
      | (p1, Panic) => (p1, Panic)
      | (p1, Stuck) => (p1, Stuck)
      end
  end.

Definition AcquireMultiple (p : Pool) (count : nat) : Pool * res (list R) :=
  if decide (count = 0%nat) then (p, Err (EErrno ZeroSize))
  else acquire_loop count p [].

(** ** Invariant

    [held] are the resources handed out. Their number and the idle ones make up
    [curCount]; the channel has room for all of them. *)
Record pool_inv (held : nat) (p : Pool) : Prop := {
  inv_count : Z.of_nat (held + length (resources p)) = curCount p;
  inv_max : curCount p <= maxCount p;
  inv_cap : maxCount p <= Z.of_nat (capacity p)
}.

Lemma pool_inv_eq held held' p : pool_inv held p -> held = held' -> pool_inv held' p.
Proof. by intros ? <-. Qed.

Hypothesis factory_total : forall k, exists r, factory k = Ok r.

Lemma NewPool_inv size maxCount p :
  0 <= maxCount <= Z.of_nat size -> NewPool size maxCount = Ok p -> pool_inv 0 p.
Proof.
  intros Hm H. unfold NewPool in H. destruct (decide _); [done|]. injection H as <-.
  constructor; simpl; lia.
Qed.

(** The pool and what it hands out, in one step. *)
Lemma Acquire_spec held p :
  pool_inv held p ->
  (Z.of_nat held < maxCount p /\
   exists r p', Acquire p = (p', Ok r) /\ pool_inv (S held) p' /\ maxCount p' = maxCount p /\
     (r ∈ resources p \/ factory (calls p) = Ok r) /\
     (forall x, x ∈ resources p' -> x ∈ resources p \/ factory (calls p) = Ok x)) \/
  (Z.of_nat held = maxCount p /\ Acquire p = (p, Stuck)).
Proof.
  intros [Hc Hm Hk]. unfold Acquire.
  destruct (decide _) as [Hg|Hg].
  - destruct (factory_total (calls p)) as [r Hr]. rewrite Hr. unfold chan_send. simpl.
    rewrite decide_True by lia. simpl. left. split; [lia|].
    destruct (resources p) as [|x l] eqn:El; simpl in *.
    + exists r. eexists. split; [done|]. split; [constructor; simpl; lia|].
      split; [done|]. split; [by right|]. intros y Hy. by apply not_elem_of_nil in Hy.
    + exists x. eexists. split; [done|]. split; [constructor; simpl; rewrite ?length_app; simpl; lia|].
      split; [done|]. split; [left; by left|].
      intros y [Hy|Hy%list_elem_of_singleton]%elem_of_app; [left; by right|right; congruence].
  - unfold chan_recv. destruct (resources p) as [|x l] eqn:El; simpl in *.
    + right. split; [lia|]. done.
    + left. split; [lia|]. exists x. eexists. split; [done|].
      split; [constructor; simpl; lia|]. split; [done|]. split; [left; by left|].
      intros y Hy. left. by right.
Qed.

Lemma Release_spec held p r :
  pool_inv (S held) p ->
  exists p', Release p r = Ok p' /\ pool_inv held p' /\ maxCount p' = maxCount p /\
    resources p' = resources p ++ [r].
Proof.
  intros [Hc Hm Hk]. unfold Release, chan_send. rewrite decide_True by lia.
  eexists. split; [done|]. split; [|done].
  constructor; simpl; rewrite ?length_app; simpl; lia.
Qed.

Lemma release_all_spec rs : forall held p,
  pool_inv (held + length rs) p ->
  exists p', release_all p rs = Ok p' /\ pool_inv held p' /\ maxCount p' = maxCount p /\
    resources p' = resources p ++ rs.
Proof.
  induction rs as [|r rs IH]; intros held p Hp; simpl in *.
  - exists p. rewrite Nat.add_0_r in Hp. by rewrite app_nil_r.
  - replace (held + S (length rs))%nat with (S (held + length rs)) in Hp by lia.
    destruct (Release_spec _ p r Hp) as (p1 & -> & H1 & Hm1 & Hr1). simpl.
    destruct (IH held p1 H1) as (p2 & -> & H2 & Hm2 & Hr2).
    exists p2. split_and!; try done; [congruence|]. rewrite Hr2, Hr1. by rewrite <- app_assoc.
Qed.

(** What every resource of the pool satisfies, every acquired one satisfies. *)
Lemma acquire_loop_spec (P : R -> Prop) n : forall held p ret,
  pool_inv held p -> Z.of_nat (held + n) <= maxCount p ->
  (forall k r, factory k = Ok r -> P r) -> Forall P (resources p) -> Forall P ret ->
  exists rs p', acquire_loop n p ret = (p', Ok (ret ++ rs)) /\ length rs = n /\
    pool_inv (held + n) p' /\ maxCount p' = maxCount p /\ Forall P (resources p') /\ Forall P (ret ++ rs).
Proof.
  induction n as [|n IH]; intros held p ret Hp Hn HP Hres Hret; simpl.
  - exists [], p. rewrite app_nil_r, Nat.add_0_r. done.
  - destruct (Acquire_spec held p Hp) as [(_ & r & p1 & -> & Hp1 & Hm1 & Hr & Hrest)|[Heq _]]; [|lia].
    assert (P r) as HPr. { destruct Hr as [Hr|Hr]; [by eapply Forall_forall in Hres|by eapply HP]. }
    destruct (IH (S held) p1 (ret ++ [r])) as (rs & p2 & -> & Hl & Hp2 & Hm2 & Hf2 & Hf3); try done.
    + lia.
    + apply Forall_forall. intros x Hx. destruct (Hrest x Hx) as [Hx'|Hx'].
      * by eapply Forall_forall in Hres.
      * by eapply HP.
    + by apply Forall_app_2; [|repeat constructor].
    + exists (r :: rs), p2. rewrite <- app_assoc in *. simpl in *. split_and!; try done.
      * by rewrite Hl.
      * by replace (held + S n)%nat with (S held + n)%nat by lia.
      * congruence.
Qed.

Lemma AcquireMultiple_spec (P : R -> Prop) held p n :
  pool_inv held p -> n <> 0%nat -> Z.of_nat (held + n) <= maxCount p ->
  (forall k r, factory k = Ok r -> P r) -> Forall P (resources p) ->
  exists rs p', AcquireMultiple p n = (p', Ok rs) /\ length rs = n /\
    pool_inv (held + n) p' /\ maxCount p' = maxCount p /\ Forall P (resources p') /\ Forall P rs.
Proof.
  intros Hp Hn Hk HP Hres. unfold AcquireMultiple. rewrite decide_False by done.
  destruct (acquire_loop_spec P n held p [] Hp Hk HP Hres (Forall_nil_2 _))
    as (rs & p' & E & Hrest). exists rs, p'. by rewrite E.
Qed.

Lemma acquire_loop_stuck n : forall held p ret,
  pool_inv held p -> maxCount p < Z.of_nat (held + n) -> exists p', acquire_loop n p ret = (p', Stuck).
Proof.
  induction n as [|n IH]; intros held p ret Hp Hn; simpl.
  - destruct Hp. lia.
  - destruct (Acquire_spec held p Hp) as [(Hlt & r & p1 & E & Hp1 & Hm1 & _)|[Heq E]]; rewrite E.
    + apply (IH (S held)); [done|]. lia.
    + by exists p.
Qed.

Lemma AcquireMultiple_ok_inv held p n p' rs :
  pool_inv held p -> AcquireMultiple p n = (p', Ok rs) -> Z.of_nat (held + n) <= maxCount p.
Proof.
  intros Hp. unfold AcquireMultiple. destruct (decide _) as [|_]; [done|].
  destruct (decide (Z.of_nat (held + n) <= maxCount p)) as [|Hgt]; [done|].
  destruct (acquire_loop_stuck n held p [] Hp ltac:(lia)) as [p1 ->]. done.
Qed.

End pool.

Arguments Pool R : clear implicits.

(** ** Properties *)

(** the pool accounts for its resources: as long as fewer than [maxCount] are
    handed out, [Acquire] returns one without waiting, and when all are handed
    out it waits and changes nothing; giving one back never waits; and the
    idle and the handed-out ones together never exceed [maxCount]. *)
Theorem pool_accounting {R : Type} (factory : nat -> res R) (held : nat) (p : Pool R) :
  (forall k, exists r, factory k = Ok r) -> pool_inv held p ->
  (Z.of_nat held < maxCount p ->
     exists r p', Acquire factory p = (p', Ok r) /\ pool_inv (S held) p' /\
       exists p'', Release p' r = Ok p'' /\ pool_inv held p'') /\
  (Z.of_nat held = maxCount p -> Acquire factory p = (p, Stuck)) /\
  Z.of_nat held <= maxCount p.
Proof.
  intros Hf Hp. pose proof Hp as [Hc Hm Hk].
  destruct (Acquire_spec factory Hf held p Hp) as [(Hlt & r & p' & E & Hp' & _)|[Heq E]].
  - split_and!; try lia. intros _. exists r, p'. split; [done|]. split; [done|].
    destruct (Release_spec held p' r Hp') as (p'' & ? & ? & _). by exists p''.
  - split_and!; try lia. by intros _.
Qed.

Lemma pool_accounting_witness :
  let p := mkPool (R:=nat) [] 2 0 0 2 in
  (0 < 2 -> exists r p', Acquire (fun k => Ok k) p = (p', Ok r) /\ pool_inv 1 p' /\
       exists p'', Release p' r = Ok p'' /\ pool_inv 0 p'') /\
  (0 = 2 -> Acquire (fun k => Ok k) p = (p, Stuck)) /\ 0 <= 2.
Proof.
  apply (pool_accounting (fun k => Ok k) 0 (mkPool [] 2 0 0 2)).
  - intros k. by exists k.
  - constructor; simpl; lia.
Defined.
