(* ===== verification/GaiaMsg.v ===== *)
(** * Messages of the block service

    The request stream of [UploadBlockData], the request of [DeleteBlock] and the
    result every call ends with ([src/shared/gaia/gaia.pb.go],
    [src/messenger/common/common.pb.go]). *)

From Stdlib Require Export Init.Byte.
From S2P Require Import Prelude Errno Infos Object Pipeline.

Abbreviation bytes := (list Byte.byte).

Inductive ControlCode := CM_BEGIN | CM_EOF | CM_OTHER.

#[global] Instance ControlCode_eq_dec : EqDecision ControlCode.
Proof. solve_decision. Defined.

Record ControlMessage := mkControlMessage {
  CM_Code : ControlCode;
  CM_Block : BlockInfo;
  CM_Pipeline : option Pipeline;
  CM_Term : Z
}.

(** The [oneof] of [UploadBlockRequest]; [Req_None] is the unset field. *)
Inductive UploadBlockRequest :=
  | Req_Message (m : ControlMessage)
  | Req_Chunk (content : bytes)
  | Req_None.

Inductive ResultStatus := Result_OK | Result_FAIL.

#[global] Instance ResultStatus_eq_dec : EqDecision ResultStatus.
Proof. solve_decision. Defined.

Record Result := mkResult { R_Status : ResultStatus; R_Code : Z; R_Message : string }.

#[global] Instance Result_eq_dec : EqDecision Result.
Proof. solve_decision. Defined.

(** The data of a request stream, in order. *)
Fixpoint stream_data (l : list UploadBlockRequest) : bytes :=
  match l with
  | [] => []
  | Req_Chunk c :: l' => c ++ stream_data l'
  | _ :: l' => stream_data l'
  end.

Lemma stream_data_app l1 l2 : stream_data (l1 ++ l2) = stream_data l1 ++ stream_data l2.
Proof. induction l1 as [|[] l1 IH]; simpl; rewrite ?IH, ?app_assoc; done. Qed.
