(* ===== verification/Block.v ===== *)
(** * Blocks on the client: [src/client/io/block.go], [upload.go]

    A block collects the chunks of the writer, gets its identifier, hash, size
    and placement group when it is closed, and is sent to a storage node as a
    stream of requests. What the network does is an argument: for each node the
    outcome of connecting, of opening the stream, of each [Send] and of the final
    [CloseAndRecv]. Digests and UUIDs come from libraries: [Digests] and the
    argument [uuid]. *)

From S2P Require Import Prelude Errno GoStd Infos Object Pipeline GaiaMsg.

Class Digests := hex_digest : HashType -> bytes -> string.

(** ** Data *)

Inductive BlockStatus := READING | UPLOADING | FAILED | FINISHED | ABORTED.

#[global] Instance BlockStatus_eq_dec : EqDecision BlockStatus.
Proof. solve_decision. Defined.

Record localChunk := mkChunk { data : bytes; freeSize : Z }.

Inductive ConnectType := ConnectEdge | ConnectCloud.

#[global] Instance ConnectType_eq_dec : EqDecision ConnectType.
Proof. solve_decision. Defined.

(** What [delFunc] does with the chunks: give them back to the pool, or drop them. *)
Inductive DelFunc := DelRelease | DelDrop.

#[global] Instance DelFunc_eq_dec : EqDecision DelFunc.
Proof. solve_decision. Defined.

Record Block := mkBlock {
  blockInfo : BlockInfo;
  status : BlockStatus;
  chunks : list localChunk;
  blockTerm : Z;                (* clusterInfo.Term *)
  blockNumber : Z;              (* blockCount *)
  blockHashType : HashType;
  delFunc : DelFunc
}.

Definition with_status (b : Block) (s : BlockStatus) : Block :=
  mkBlock (blockInfo b) s (chunks b) (blockTerm b) (blockNumber b) (blockHashType b) (delFunc b).

Definition with_info (b : Block) (i : BlockInfo) : Block :=
  mkBlock i (status b) (chunks b) (blockTerm b) (blockNumber b) (blockHashType b) (delFunc b).

Definition with_chunks (b : Block) (cs : list localChunk) : Block :=
  mkBlock (blockInfo b) (status b) cs (blockTerm b) (blockNumber b) (blockHashType b) (delFunc b).

(** [uint64(len(chunk.data)) - chunk.freeSize], and the slice up to it. *)
Definition chunk_used (c : localChunk) : Z := u64 (Z.of_nat (length (data c)) - freeSize c).

Definition chunk_content (c : localChunk) : res bytes :=
  if decide (chunk_used c <= Z.of_nat (length (data c)))
  then Ok (take (Z.to_nat (chunk_used c)) (data c)) else Panic.

(** ** Closing a block *)

Section close.
Context `{HR : HashRing, DG : Digests}.

Definition blockPgNum : Z := 100.

Definition GenBlockPG (blockID : string) : res Z := MapIDtoPG (makeMapper blockPgNum) blockID.

Definition set_hash (i : BlockInfo) (h : string) : BlockInfo :=
  mkBlockInfo (BlockId i) (PartId i) (BI_BlockSize i) h (BI_PgId i).

(** The hash covers the whole buffer of every chunk. *)
Definition genBlockHash (b : Block) : Block * res unit :=
  if decide (status b <> UPLOADING) then (b, Err (EErrno IllegalStatus))
  else match blockHashType b with
       | HT_OFF => (with_info b (set_hash (blockInfo b) ""), Ok tt)
       | h => (with_info b (set_hash (blockInfo b) (hex_digest h (concat (data <$> chunks b)))), Ok tt)
       end.

Definition updateBlockInfo (uuid : string) (b : Block) : Block * res unit :=
  let b :=
    if decide (PartId (blockInfo b) = 0) then
      let sz := foldl (fun acc c => u64 (acc + chunk_used c)) 0 (chunks b) in
      with_info b (mkBlockInfo (BlockId (blockInfo b)) (PartId (blockInfo b)) sz
                     (BlockHash (blockInfo b)) (BI_PgId (blockInfo b)))
    else b in
  match genBlockHash b with
  | (b, Ok _) =>
      let id := match blockHashType b with HT_OFF => uuid | _ => BlockHash (blockInfo b) end in
      match GenBlockPG id with
      | Ok pg => (with_info b (mkBlockInfo id (PartId (blockInfo b)) (BI_BlockSize (blockInfo b))
                                 (BlockHash (blockInfo b)) pg), Ok tt)
      | Err e => (b, Err e)
      | Panic => (b, Panic)
      | Stuck => (b, Stuck)
      end
  | r => r
  end.

Definition Block_Close (uuid : string) (b : Block) : Block * res unit :=
  if decide (PartId (blockInfo b) <> 0) then (b, Ok tt)
  else if decide (length (chunks b) = 0%nat) then (b, Ok tt)
  else if decide (status b <> READING) then (b, Err (EErrno RepeatedClose))
  else updateBlockInfo uuid (with_status b UPLOADING).

(** ** Sending a block *)

(** One connection to a storage node: errors of [GetRpcConn], of opening the
    stream, of the [k]-th [Send], and of [CloseAndRecv]. *)
Record Conn := mkConn {
  conn_err : option error;
  open_err : option error;
  send_err : nat -> option error;
  recv_err : option error
}.

(** [err != nil && err != io.EOF] after a [Send]. *)
Definition send_fails (o : option error) : option error :=
  match o with
  | Some EEOF | None => None
  | Some e => Some e
  end.

(** Requests handed to [Send], and the number of bytes counted. *)
Fixpoint send_chunks (c : Conn) (k : nat) (cs : list localChunk) (byteCount : Z)
    : list UploadBlockRequest * res Z :=
  match cs with
  | [] => ([], Ok byteCount)
  | ch :: cs' =>
      match chunk_content ch with
      | Ok content =>
          match send_fails (send_err c k) with
          | Some e => ([Req_Chunk content], Err e)
          | None => let '(l, r) := send_chunks c (S k) cs' (u64 (byteCount + chunk_used ch)) in
                    (Req_Chunk content :: l, r)
          end
      | _ => ([], Panic)
      end
  end.

Definition uploadByStream (b : Block) (pipe : Pipeline) (c : Conn)
    : list UploadBlockRequest * res unit :=
  let start := Req_Message (mkControlMessage CM_BEGIN (blockInfo b) (Some pipe) (blockTerm b)) in
  let fin := Req_Message (mkControlMessage CM_EOF (blockInfo b) (Some pipe) (blockTerm b)) in
  match send_fails (send_err c 0) with
  | Some e => ([start], Err e)
  | None =>
      match send_chunks c 1 (chunks b) 0 with
      | (l, Ok byteCount) =>
          if decide (byteCount <> BI_BlockSize (blockInfo b))
          then (start :: l, Err (ENew "incompatible upload size"))
          else match send_fails (send_err c (S (length (chunks b)))) with
               | Some e => (start :: l ++ [fin], Err e)
               | None => match recv_err c with
                         | Some e => (start :: l ++ [fin], Err e)
                         | None => (start :: l ++ [fin], Ok tt)
                         end
               end
      | (l, Err e) => (start :: l, Err e)
      | (l, Panic) => (start :: l, Panic)
      | (l, Stuck) => (start :: l, Stuck)
      end
  end.

(** One node of the pipeline: its info from the agent ([None]: the lookup
    failed, and the nil node info is dereferenced) and its connection. *)
Record Peer := mkPeer { peer_info : option NodeInfo; peer_conn : Conn }.

(** Requests sent to each node tried, in order. *)
Fixpoint upload_nodes (b : Block) (pipe : Pipeline) (peer : string -> Peer) (nodes : list string)
    : list (string * list UploadBlockRequest) * res unit :=
  match nodes with
  | [] => ([], Err (EErrno RemoteGaiaFail))
  | n :: rest =>
      match peer_info (peer n) with
      | None => ([], Panic)
      | Some _ =>
          let c := peer_conn (peer n) in
          match conn_err c, open_err c with
          | Some _, _ | None, Some _ => upload_nodes b pipe peer rest
          | None, None =>
              match uploadByStream b pipe c with
              | (l, Ok _) => ([(n, l)], Ok tt)
              | (l, Err _) => let '(ls, r) := upload_nodes b pipe peer rest in ((n, l) :: ls, r)
              | (l, Panic) => ([(n, l)], Panic)
              | (l, Stuck) => ([(n, l)], Stuck)
              end
          end
      end
  end.

Definition uploadByEdge (cp : ClusterPipelines) (peer : string -> Peer) (b : Block)
    : list (string * list UploadBlockRequest) * res unit :=
  match GetBlockPGNodeID cp (BI_PgId (blockInfo b)), GetBlockPipeline cp (BI_PgId (blockInfo b)) with
  | Ok nodes, Ok pipe => upload_nodes b pipe peer nodes
  | _, _ => ([], Panic)
  end.

(** The single connection to the cloud, under the name ["cloud"]. *)
Definition uploadByCloud (cp : ClusterPipelines) (c : Conn) (b : Block)
    : list (string * list UploadBlockRequest) * res unit :=
  match conn_err c, open_err c with
  | Some e, _ | None, Some e => ([], Err e)
  | None, None =>
      match GetBlockPipeline cp (BI_PgId (blockInfo b)) with
      | Ok pipe => let '(l, r) := uploadByStream b pipe c in ([("cloud", l)], r)
      | _ => ([], Panic)
      end
  end.

(** [Block.Upload]. *)
Definition Block_Upload (ct : ConnectType) (cp : ClusterPipelines) (peer : string -> Peer) (cloud : Conn) (b : Block)
    : list (string * list UploadBlockRequest) * res unit :=
  match ct with
  | ConnectCloud => uploadByCloud cp cloud b
  | ConnectEdge => uploadByEdge cp peer b
  end.

(** [Block.Abort]: the answer of the [DeleteBlock] call decides. *)
Definition Block_Abort (reply : res Result) : res unit :=
  match reply with
  | Ok r => if decide (R_Status r = Result_FAIL) then Err (ENew (R_Message r)) else Ok tt
  | Err e => Err e
  | Panic => Panic
  | Stuck => Stuck
  end.

End close.

(** ** A client of one node: [src/client/io/upload.go] *)

(** [u_deadline]: after how long its calls are given up, from its making on; nothing
    ends it earlier. [u_open]: the stream is not nil. *)
Record UploadClient := mkUploadClient { u_conn : Conn; u_deadline : option Z; u_open : bool }.

Definition NewGaiaClient (uploadTimeout : Z) (c : Conn) : res UploadClient :=
  match conn_err c with
  | Some e => Err e
  | None => Ok (mkUploadClient c (if decide (0 < uploadTimeout) then Some uploadTimeout else None) false)
  end.

Definition NewUploadStream (u : UploadClient) : UploadClient * res unit :=
  match open_err (u_conn u) with
  | Some e => (mkUploadClient (u_conn u) (u_deadline u) false, Err e)
  | None => (mkUploadClient (u_conn u) (u_deadline u) true, Ok tt)
  end.

(** [CloseAndRecv], with the answer of the node. *)
Definition GetUploadResult (u : UploadClient) (reply : Result) : res Result :=
  if u_open u then match recv_err (u_conn u) with Some e => Err e | None => Ok reply end else Panic.

(** [EcosWriter.getUploadStream]. *)
Definition getUploadStream (uploadTimeout : Z) (cp : ClusterPipelines) (peer : string -> Peer) (b : Block) : res UploadClient :=
  nodes ← GetBlockPGNodeID cp (BI_PgId (blockInfo b));
  n ← or_panic (head nodes);
  _ ← or_panic (peer_info (peer n));
  u ← NewGaiaClient uploadTimeout (peer_conn (peer n));
  let '(u, r) := NewUploadStream u in
  _ ← r;
  Ok u.

(** [EcosWriter.getObjNodeByPg]: the first node of a group. *)
Definition getObjNodeByPg (cp : ClusterPipelines) (peer : string -> Peer) (pgID : Z) : res NodeInfo :=
  nodes ← GetMetaPGNodeID cp pgID;
  n ← or_panic (head nodes);
  or_panic (peer_info (peer n)).

(** A stream goes to the first node of the block's group, is open, and has a deadline
    exactly if one is configured. *)
Lemma getUploadStream_ok uploadTimeout cp peer b u : getUploadStream uploadTimeout cp peer b = Ok u ->
  exists n rest, GetBlockPGNodeID cp (BI_PgId (blockInfo b)) = Ok (n :: rest) /\ u_conn u = peer_conn (peer n) /\
    conn_err (u_conn u) = None /\ open_err (u_conn u) = None /\ u_open u = true /\
    (u_deadline u = None <-> uploadTimeout <= 0).
Proof.
  unfold getUploadStream, NewGaiaClient, NewUploadStream. destruct (GetBlockPGNodeID _ _) as [[|n rest]| | |]; try done. cbn [mbind res_bind head or_panic].
  destruct (peer_info (peer n)); [|done]. cbn [mbind res_bind or_panic]. destruct (conn_err (peer_conn (peer n))) eqn:Ec; [done|].
  cbn [mbind res_bind u_conn u_deadline]. destruct (open_err (peer_conn (peer n))) eqn:Eo; [done|]. intros [= <-]. exists n, rest.
  cbn [u_conn u_deadline u_open]. split_and!; try done. destruct (decide _); split; (done || lia).
Qed.

(** ** Facts *)

(** A chunk in use: the free part is inside the buffer. *)
Definition chunk_wf (c : localChunk) : Prop :=
  0 <= freeSize c <= Z.of_nat (length (data c)) /\ Z.of_nat (length (data c)) < 2 ^ 64.

(** The bytes written into a chunk. *)
Definition chunk_bytes (c : localChunk) : bytes :=
  take (length (data c) - Z.to_nat (freeSize c)) (data c).

Definition chunks_bytes (cs : list localChunk) : bytes := concat (chunk_bytes <$> cs).

Lemma chunk_used_wf c : chunk_wf c -> chunk_used c = Z.of_nat (length (chunk_bytes c)).
Proof.
  intros [H1 H2]. unfold chunk_used, chunk_bytes. rewrite u64_id by (unfold is_u64; lia).
  rewrite length_take. lia.
Qed.

Lemma chunk_content_wf c : chunk_wf c -> chunk_content c = Ok (chunk_bytes c).
Proof.
  intros Hc. pose proof Hc as [H1 H2]. unfold chunk_content.
  rewrite chunk_used_wf by done. unfold chunk_bytes in *. rewrite length_take.
  rewrite decide_True by lia. f_equal. f_equal. lia.
Qed.

Lemma chunks_bytes_app l1 l2 : chunks_bytes (l1 ++ l2) = chunks_bytes l1 ++ chunks_bytes l2.
Proof. unfold chunks_bytes. by rewrite fmap_app, concat_app. Qed.

Lemma chunks_bytes_cons c l : chunks_bytes (c :: l) = chunk_bytes c ++ chunks_bytes l.
Proof. done. Qed.

Lemma chunks_bytes_snoc l c : chunks_bytes (l ++ [c]) = chunks_bytes l ++ chunk_bytes c.
Proof. rewrite chunks_bytes_app, chunks_bytes_cons. by rewrite app_nil_r. Qed.

Lemma fold_used_sum cs acc :
  Forall chunk_wf cs -> 0 <= acc -> acc + Z.of_nat (length (chunks_bytes cs)) < 2 ^ 64 ->
  foldl (fun acc c => u64 (acc + chunk_used c)) acc cs = acc + Z.of_nat (length (chunks_bytes cs)).
Proof.
  intros Hcs. revert acc. induction Hcs as [|c cs Hc _ IH]; intros acc Ha Hs; simpl; [lia|].
  rewrite chunks_bytes_cons, length_app in *. rewrite chunk_used_wf by done.
  rewrite u64_id by (unfold is_u64; lia). rewrite IH; lia.
Qed.

Lemma send_chunks_ok (c : Conn) cs : forall k acc,
  (forall i, send_fails (send_err c i) = None) -> Forall chunk_wf cs -> 0 <= acc ->
  acc + Z.of_nat (length (chunks_bytes cs)) < 2 ^ 64 ->
  send_chunks c k cs acc =
    (Req_Chunk ∘ chunk_bytes <$> cs, Ok (acc + Z.of_nat (length (chunks_bytes cs)))).
Proof.
  induction cs as [|ch cs IH]; intros k acc Hs Hwf Ha Hb; simpl.
  - do 2 f_equal. lia.
  - inv Hwf. rewrite chunk_content_wf by done. rewrite Hs.
    rewrite chunks_bytes_cons, length_app in *.
    rewrite chunk_used_wf by done. rewrite u64_id by (unfold is_u64; lia).
    rewrite IH by (done || lia). do 2 f_equal. lia.
Qed.

Lemma stream_data_chunks cs : stream_data (Req_Chunk ∘ chunk_bytes <$> cs) = chunks_bytes cs.
Proof. induction cs as [|c cs IH]; [done|]. by rewrite chunks_bytes_cons, <- IH. Qed.

(** Whatever the network does, the bytes handed to a stream are a prefix of the
    block's bytes, and a stream that succeeded carried all of them. *)
Lemma send_chunks_prefix (c : Conn) cs : forall k acc l r,
  Forall chunk_wf cs -> send_chunks c k cs acc = (l, r) ->
  (exists rest, chunks_bytes cs = stream_data l ++ rest) /\
  (forall n, r = Ok n -> l = Req_Chunk ∘ chunk_bytes <$> cs).
Proof.
  induction cs as [|ch cs IH]; intros k acc l r Hwf E; simpl in E.
  - injection E as <- <-. split; [by exists []|done].
  - inv Hwf. rewrite chunk_content_wf in E by done.
    destruct (send_fails (send_err c k)) as [e|].
    + injection E as <- <-. simpl. rewrite app_nil_r. split; [|done].
      exists (chunks_bytes cs). done.
    + destruct (send_chunks c (S k) cs (u64 (acc + chunk_used ch))) as [l' r'] eqn:E'.
      injection E as <- <-. destruct (IH _ _ _ _ H2 E') as [[rest Hp] Hok]. simpl. split.
      * exists rest. rewrite <- app_assoc, <- Hp. done.
      * intros n Hn. rewrite (Hok n Hn). done.
Qed.

(** The requests of an upload that succeeds. *)
Definition block_stream (info : BlockInfo) (pipe : Pipeline) (term : Z) (cs : list bytes) : list UploadBlockRequest :=
  Req_Message (mkControlMessage CM_BEGIN info (Some pipe) term) :: (Req_Chunk <$> cs) ++
  [Req_Message (mkControlMessage CM_EOF info (Some pipe) term)].

Lemma block_stream_data info pipe term cs : stream_data (block_stream info pipe term cs) = concat cs.
Proof.
  unfold block_stream. cbn [stream_data]. rewrite stream_data_app. cbn [stream_data]. rewrite app_nil_r.
  induction cs as [|c cs IH]; [done|]. cbn [fmap list_fmap stream_data concat]. by rewrite <- IH.
Qed.

Lemma uploadByStream_shape b pipe c l :
  Forall chunk_wf (chunks b) -> uploadByStream b pipe c = (l, Ok tt) ->
  l = block_stream (blockInfo b) pipe (blockTerm b) (chunk_bytes <$> chunks b).
Proof.
  intros Hwf. unfold uploadByStream.
  destruct (send_fails (send_err c 0)); [done|].
  destruct (send_chunks c 1 (chunks b) 0) as [l' [n| | |]] eqn:E; try done.
  destruct (send_chunks_prefix _ _ _ _ _ _ Hwf E) as [_ Hok].
  destruct (decide _); [done|].
  destruct (send_fails _); [done|]. destruct (recv_err c); [done|].
  intros [= <-]. unfold block_stream. by rewrite (Hok n eq_refl), <- list_fmap_compose.
Qed.

Lemma uploadByStream_ok b pipe c l :
  Forall chunk_wf (chunks b) -> uploadByStream b pipe c = (l, Ok tt) ->
  stream_data l = chunks_bytes (chunks b).
Proof. intros Hwf E. rewrite (uploadByStream_shape _ _ _ _ Hwf E). apply block_stream_data. Qed.
