(* ===== verification/Writer.v ===== *)
(** * Writing an object: [src/client/io/ecos_writer.go]

    The writer cuts the byte stream it is given into chunks taken from a pool,
    the chunks into blocks, and hands every full block to a goroutine that
    uploads it and gives the chunks back. The state is the fields of
    [EcosWriter]; blocks that a goroutine shares with the writer live in [heap]
    and are referred to by their index. A goroutine is a pending entry of
    [uploads]: running it is the operation [uploadBlock], which may happen at any
    point between two iterations of the writer's loop. [finishedBlocks] is an
    unbuffered channel: its value is the blocks whose goroutine is waiting to send. *)

From S2P Require Import Prelude Errno GoStd Infos Object Pipeline Pool GaiaMsg Block.

(** ** State *)

(** What the factory fixes for a writer ([src/client/io/ecos_io.go]). *)
Record Factory := mkFactory {
  fChunkSize : Z;              (* config.Object.ChunkSize *)
  fUploadBuffer : Z;           (* config.UploadBuffer *)
  fBucket : BucketInfo;
  fConfig : BucketConfig       (* bucketInfo.Config *)
}.

Record EcosWriter := mkWriter {
  wKey : string;
  wStatus : BlockStatus;
  pool : Pool localChunk;
  curChunk : option localChunk;
  reserveChunks : list localChunk;
  chunkCount : Z;
  wTerm : Z;
  heap : list Block;
  blocks : gmap Z nat;
  curBlock : option Block;
  blockCount : Z;
  uploads : list nat;
  finishedBlocks : list nat;
  writeSize : Z;
  hashed : bytes;              (* what objHash has been given *)
  partObject : bool;
  partIDs : list Z
}.

Definition newLocalChunk (f : Factory) (_ : nat) : res localChunk :=
  Ok (mkChunk (replicate (Z.to_nat (fChunkSize f)) x00) (fChunkSize f)).

(** [UploadBuffer / ChunkSize] chunks at most. *)
Definition newChunkPool (f : Factory) : res (Pool localChunk) :=
  let maxChunk := fUploadBuffer f `div` fChunkSize f in
  NewPool (Z.to_nat maxChunk) maxChunk.

Definition GetEcosWriter (key : string) (p : Pool localChunk) (term : Z) : EcosWriter :=
  mkWriter key READING p None [] 0 term [] ∅ None 0 [] [] 0 [] false [].

(** Field updates. *)
Definition set_pool w p := mkWriter (wKey w) (wStatus w) p (curChunk w) (reserveChunks w) (chunkCount w)
  (wTerm w) (heap w) (blocks w) (curBlock w) (blockCount w) (uploads w) (finishedBlocks w)
  (writeSize w) (hashed w) (partObject w) (partIDs w).
Definition set_status w s := mkWriter (wKey w) s (pool w) (curChunk w) (reserveChunks w) (chunkCount w)
  (wTerm w) (heap w) (blocks w) (curBlock w) (blockCount w) (uploads w) (finishedBlocks w)
  (writeSize w) (hashed w) (partObject w) (partIDs w).
Definition set_chunks w cur reserve := mkWriter (wKey w) (wStatus w) (pool w) cur reserve (chunkCount w)
  (wTerm w) (heap w) (blocks w) (curBlock w) (blockCount w) (uploads w) (finishedBlocks w)
  (writeSize w) (hashed w) (partObject w) (partIDs w).
Definition set_chunkCount w n := mkWriter (wKey w) (wStatus w) (pool w) (curChunk w) (reserveChunks w) n
  (wTerm w) (heap w) (blocks w) (curBlock w) (blockCount w) (uploads w) (finishedBlocks w)
  (writeSize w) (hashed w) (partObject w) (partIDs w).
Definition set_curBlock w b n := mkWriter (wKey w) (wStatus w) (pool w) (curChunk w) (reserveChunks w) (chunkCount w)
  (wTerm w) (heap w) (blocks w) b n (uploads w) (finishedBlocks w)
  (writeSize w) (hashed w) (partObject w) (partIDs w).
Definition set_heap w h bs ups := mkWriter (wKey w) (wStatus w) (pool w) (curChunk w) (reserveChunks w) (chunkCount w)
  (wTerm w) h bs (curBlock w) (blockCount w) ups (finishedBlocks w)
  (writeSize w) (hashed w) (partObject w) (partIDs w).
Definition set_finished w l := mkWriter (wKey w) (wStatus w) (pool w) (curChunk w) (reserveChunks w) (chunkCount w)
  (wTerm w) (heap w) (blocks w) (curBlock w) (blockCount w) (uploads w) l
  (writeSize w) (hashed w) (partObject w) (partIDs w).
Definition set_written w n h := mkWriter (wKey w) (wStatus w) (pool w) (curChunk w) (reserveChunks w) (chunkCount w)
  (wTerm w) (heap w) (blocks w) (curBlock w) (blockCount w) (uploads w) (finishedBlocks w)
  n h (partObject w) (partIDs w).
Definition set_parts w ps := mkWriter (wKey w) (wStatus w) (pool w) (curChunk w) (reserveChunks w) (chunkCount w)
  (wTerm w) (heap w) (blocks w) (curBlock w) (blockCount w) (uploads w) (finishedBlocks w)
  (writeSize w) (hashed w) (partObject w) ps.

Section writer.
Context `{HR : HashRing, DG : Digests}.
Context (f : Factory).

(** [int(BlockSize / ChunkSize)]; a zero chunk size is a division panic. *)
Definition chunksPerBlock : res nat :=
  if decide (fChunkSize f = 0) then Panic
  else Ok (Z.to_nat (BlockSize (fConfig f) `div` fChunkSize f)).

(** ** Blocks *)

(** The block hash type of the bucket is not copied into the block. *)
Definition getNewBlock (w : EcosWriter) : Block :=
  mkBlock (mkBlockInfo "" 0 0 "" 0) READING [] (wTerm w) (blockCount w) HT_OFF DelRelease.

(** The spare chunks go back to the pool; [go w.uploadBlock(...)] makes the block
    shared. *)
Definition commitCurBlock (w : EcosWriter) : EcosWriter * res unit :=
  match release_all (pool w) (reserveChunks w) with
  | Ok p =>
      let w := set_chunks (set_pool w p) (curChunk w) [] in
      match curBlock w with
      | None => (w, Ok tt)
      | Some b =>
          let a := length (heap w) in
          let w := set_heap w (heap w ++ [b]) (<[blockCount w := a]> (blocks w)) (uploads w ++ [a]) in
          (set_curBlock w None (blockCount w), Ok tt)
      end
  | _ => (w, Stuck)
  end.

Definition getCurBlock (w : EcosWriter) : EcosWriter * res Block :=
  do w, n <- pure w chunksPerBlock;
  do w, _ <- match curBlock w with
             | Some b => if decide (length (chunks b) = n) then commitCurBlock w else (w, Ok tt)
             | None => (w, Ok tt)
             end;
  match curBlock w with
  | Some b => (w, Ok b)
  | None => let b := getNewBlock w in
            (set_curBlock w (Some b) (blockCount w + 1), Ok b)
  end.

(** ** Chunks *)

Definition getCurChunk (w : EcosWriter) : EcosWriter * res localChunk :=
  match curChunk w with
  | Some c => (w, Ok c)
  | None =>
      do w, _ <- match reserveChunks w with
                 | [] =>
                     do w, n <- pure w chunksPerBlock;
                     let '(p, r) := AcquireMultiple (newLocalChunk f) (pool w) n in
                     do w, cs <- pure (set_pool w p) r;
                     (set_chunks w None cs, Ok tt)
                 | _ => (w, Ok tt)
                 end;
      match reserveChunks w with
      | [] => (w, Panic)
      | c :: rest => (set_chunkCount (set_chunks w (Some c) rest) (chunkCount w + 1), Ok c)
      end
  end.

Definition commitCurChunk (w : EcosWriter) : EcosWriter * res unit :=
  match curChunk w with
  | None => (w, Ok tt)
  | Some c =>
      do w, b <- getCurBlock w;
      let b := with_chunks b (chunks b ++ [c]) in
      do w, n <- pure (set_curBlock w (Some b) (blockCount w)) chunksPerBlock;
      do w, _ <- (if decide (length (chunks b) = n) then commitCurBlock w else (w, Ok tt));
      (set_chunks w None (reserveChunks w), Ok tt)
  end.

(** ** Write *)

(** [copy(dst[start:], src)] and the number of bytes copied. *)
Definition copy_at (dst : bytes) (start : nat) (src : bytes) : bytes * nat :=
  let n := Nat.min (length dst - start) (length src) in
  (take start dst ++ take n src ++ drop (start + n) dst, n).

(** One iteration of the loop of [Write] on the bytes that are left; the result
    is what is left after it. *)
Definition write_iter (w : EcosWriter) (rest : bytes) : EcosWriter * res bytes :=
  do w, c <- getCurChunk w;
  let start := u64 (fChunkSize f - freeSize c) in
  if decide (Z.of_nat (length (data c)) < start) then (w, Panic)
  else
    let '(d, n) := copy_at (data c) (Z.to_nat start) rest in
    let c := mkChunk d (u64 (freeSize c - Z.of_nat n)) in
    let w := set_chunks w (Some c) (reserveChunks w) in
    do w, _ <- (if decide (freeSize c = 0) then commitCurChunk w else (w, Ok tt));
    (w, Ok (drop n rest)).

(** The loop. An iteration that copies nothing is repeated for ever: [Stuck]. *)
Fixpoint write_loop (fuel : nat) (w : EcosWriter) (rest : bytes) : EcosWriter * bytes * res unit :=
  match rest with
  | [] => (w, [], Ok tt)
  | _ =>
      match fuel with
      | O => (w, rest, Stuck)
      | S fuel =>
          match write_iter w rest with
          | (w, Ok rest') => write_loop fuel w rest'
          | (w, Err e) => (w, rest, Err e)
          | (w, Panic) => (w, rest, Panic)
          | (w, Stuck) => (w, rest, Stuck)
          end
      end
  end.

Definition hash_write (w : EcosWriter) (p : bytes) : bytes :=
  match ObjectHashType (fConfig f) with
  | HT_OFF => hashed w
  | _ => hashed w ++ p
  end.

(** The guards of [Write], and its end once the loop has left [rest]. *)
Definition write_guard (w : EcosWriter) : option error :=
  if partObject w then Some (EErrno MethodNotAllowed)
  else if decide (wStatus w <> READING) then Some (EErrno IllegalStatus)
  else None.

Definition write_end (w : EcosWriter) (p rest : bytes) : EcosWriter * (Z * option error) :=
  let lenP := Z.of_nat (length p) in
  let offset := lenP - Z.of_nat (length rest) in
  let w := set_written w (u64 (writeSize w + u64 offset)) (hash_write w (take (Z.to_nat offset) p)) in
  if decide (offset <> lenP) then (w, (offset, Some (EErrno IncompatibleSize)))
  else (w, (lenP, None)).

(** [Write] returns the number of bytes taken and an error. Every iteration
    copies at least one byte when chunks are not empty, so the length of the
    input is fuel enough. Here the writer runs alone; the goroutines run between
    its iterations in [step] below. *)
Definition Write (w : EcosWriter) (p : bytes) : EcosWriter * res (Z * option error) :=
  match write_guard w with
  | Some e => (w, Ok (0, Some e))
  | None =>
      match write_loop (length p) w p with
      | (w, rest, Ok _) => let '(w, r) := write_end w p rest in (w, Ok r)
      | (w, rest, Err e) => (w, Ok (Z.of_nat (length p) - Z.of_nat (length rest), Some e))
      | (w, _, Panic) => (w, Panic)
      | (w, _, Stuck) => (w, Stuck)
      end
  end.

(** ** The upload goroutine *)

Definition reset_chunk (c : localChunk) : localChunk := mkChunk (data c) (fChunkSize f).

Definition update_block (w : EcosWriter) (a : nat) (b : Block) : EcosWriter :=
  set_heap w (<[a := b]> (heap w)) (blocks w) (uploads w).

(** [delFunc]: the chunks go back to the pool or are dropped, then the goroutine
    waits to hand the block over. *)
Definition run_delFunc (w : EcosWriter) (a : nat) (b : Block) : EcosWriter * res unit :=
  match delFunc b with
  | DelRelease =>
      match release_all (pool w) (reset_chunk <$> chunks b) with
      | Ok p => (set_finished (update_block (set_pool w p) a (with_chunks b [])) (finishedBlocks w ++ [a]), Ok tt)
      | _ => (w, Stuck)
      end
  | DelDrop =>
      (set_finished (update_block w a (with_chunks b [])) (finishedBlocks w ++ [a]), Ok tt)
  end.

(** [uploadBlock] on the pending block [a]: [upload] is [Block.Upload], with the
    requests it sent. A block that fails to close never reaches [delFunc]. *)
Definition uploadBlock (uuid : string)
    (upload : Block -> list (string * list UploadBlockRequest) * res unit)
    (w : EcosWriter) (a : nat) : EcosWriter * list (string * list UploadBlockRequest) * res unit :=
  match heap w !! a with
  | None => (w, [], Panic)
  | Some b =>
      let w := set_heap w (heap w) (blocks w) (filter (fun x => x <> a) (uploads w)) in
      match Block_Close uuid b with
      | (b, Ok _) =>
          match upload b with
          | (l, Ok _) => let '(w, r) := run_delFunc w a (with_status b FINISHED) in (w, l, r)
          | (l, Err _) => let '(w, r) := run_delFunc w a (with_status b FAILED) in (w, l, r)
          | (l, Panic) => (w, l, Panic)
          | (l, Stuck) => (w, l, Stuck)
          end
      | (b, Err _) => (update_block w a b, [], Ok tt)
      | (b, Panic) => (w, [], Panic)
      | (b, Stuck) => (w, [], Stuck)
      end
  end.

(** ** Metadata *)

(** The blocks numbered 1 to [len(w.blocks)]; a hole in the map is a nil block. *)
Fixpoint collect_blocks (w : EcosWriter) (ids : list Z) : res (list BlockInfo) :=
  match ids with
  | [] => Ok []
  | i :: ids' =>
      a ← or_panic (blocks w !! i);
      b ← or_panic (heap w !! a);
      rest ← collect_blocks w ids';
      Ok (blockInfo b :: rest)
  end.

Definition object_digest (w : EcosWriter) : string :=
  match ObjectHashType (fConfig f) with
  | HT_OFF => ""
  | h => hex_digest h (hashed w)
  end.

Definition genMeta (now : Timestamp) (w : EcosWriter) (objectKey : string) : res ObjectMeta :=
  pgID ← GenObjPgID (fBucket f) objectKey 10;
  objID ← GenObjectId (fBucket f) objectKey;
  bs ← collect_blocks w (seqZ 1 (Z.of_nat (size (blocks w))));
  Ok (mkObjectMeta objID STATUS_UNKNOWN POSITION_UNKNOWN (writeSize w) (Some now)
        (object_digest w) pgID bs (wTerm w) None).

(** [uploadMeta]: each attempt is the answer of [SubmitMeta] and, when the terms
    differ, that of [UpdateCurClusterInfo]. The loop has no bound of its own. *)
Fixpoint uploadMeta (attempts : list (res unit * res unit)) : res unit :=
  match attempts with
  | [] => Stuck
  | (Ok _, _) :: _ => Ok tt
  | (Err e, upd) :: rest =>
      if is_remote TermNotMatch e then
        match upd with
        | Ok _ => uploadMeta rest
        | r => r
        end
      else Err e
  | (r, _) :: _ => r
  end.

(** ** Close, Abort, Copy *)

(** [Close] up to the point where it starts to wait for the goroutines. *)
Definition Close_start (w : EcosWriter) : EcosWriter * res unit :=
  if decide (wStatus w <> READING) then (w, Err (EErrno RepeatedClose))
  else
    do w, _ <- commitCurChunk w;
    do w, _ <- commitCurBlock w;
    (set_status w UPLOADING, Ok tt).

(** Receiving [n] times from the channel. *)
Definition receive_blocks (n : Z) (w : EcosWriter) : EcosWriter * res (list nat) :=
  if decide (n <= Z.of_nat (length (finishedBlocks w)))
  then (set_finished w (drop (Z.to_nat n) (finishedBlocks w)), Ok (take (Z.to_nat n) (finishedBlocks w)))
  else (w, Stuck).

(** The rest of [Close]: wait for every block, then commit the metadata; [submit]
    is [uploadMeta] on the metadata made. *)
Definition Close_finish (now : Timestamp) (submit : ObjectMeta -> res unit) (w : EcosWriter)
    : EcosWriter * res ObjectMeta :=
  do w, _ <- receive_blocks (blockCount w) w;
  do w, meta <- pure w (genMeta now w (wKey w));
  do w, _ <- pure w (submit meta);
  (set_status w FINISHED, Ok meta).

(** [Abort] waits for [blockCount] goroutines and starts the deletion of their
    blocks; the result is the blocks it deletes. *)
Definition Abort (w : EcosWriter) : EcosWriter * res (list nat) :=
  if decide (wStatus w <> READING) then (w, Err (EErrno RepeatedClose))
  else receive_blocks (blockCount w) (set_status w ABORTED).

Definition with_identity (m : ObjectMeta) (objID : string) (pgID : Z) : ObjectMeta :=
  mkObjectMeta objID (Status m) (Pos m) (ObjSize m) (UpdateTime m) (ObjHash m) pgID
    (Blocks m) (OM_Term m) (MetaData m).

Definition Copy (submit : ObjectMeta -> res unit) (w : EcosWriter) (meta : ObjectMeta) : res (string * ObjectMeta) :=
  pgID ← GenObjPgID (fBucket f) (wKey w) 10;
  objID ← GenObjectId (fBucket f) (wKey w);
  let meta := with_identity meta objID pgID in
  _ ← submit meta;
  Ok (objID, meta).

End writer.
