(* ===== verification/WriterProofs.v ===== *)
(** * The writer keeps the object's content

    The writer and its upload goroutines as one transition system: between two
    iterations of the loop of [Write], any pending [uploadBlock] may run, against
    any behaviour of the network. The invariant relates the state to the bytes
    taken so far and to the reference way of cutting them into blocks. *)

From S2P Require Import Prelude Errno GoStd Infos Object Pipeline Pool GaiaMsg Block Writer.

(** ** Reference: cutting a byte string into blocks *)

Fixpoint split_blocks_fuel (fuel N : nat) (d : bytes) : list bytes :=
  match fuel, d with
  | _, [] => []
  | O, _ => [d]
  | S fuel, _ => take N d :: split_blocks_fuel fuel N (drop N d)
  end.

(** The last piece, if there is one. *)
Definition opt_block (d : bytes) : list bytes := match d with [] => [] | _ => [d] end.

(** Pieces of [N] bytes, the last one shorter. *)
Definition split_blocks (N : nat) (d : bytes) : list bytes := split_blocks_fuel (length d) N d.

Lemma split_blocks_fuel_eq N : (0 < N)%nat -> forall cont tail fuel,
  Forall (fun c => length c = N) cont -> (length tail <= N)%nat ->
  (length (concat cont ++ tail) <= fuel)%nat ->
  split_blocks_fuel fuel N (concat cont ++ tail) =
    cont ++ opt_block tail.
Proof.
  intros HN. induction cont as [|c cont IH]; intros tail fuel Hc Ht Hf; simpl in *.
  - destruct tail as [|x tail]; [by destruct fuel|].
    destruct fuel as [|fuel]; [simpl in Hf; lia|]. simpl split_blocks_fuel.
    rewrite take_ge by done. rewrite drop_ge by done. by destruct fuel.
  - inv Hc. rewrite <- app_assoc in *. rewrite !length_app in *.
    destruct fuel as [|fuel]; [lia|]. destruct c as [|x c]; [simpl in *; lia|].
    cbn [split_blocks_fuel app].
    change (x :: c ++ concat cont ++ tail) with ((x :: c) ++ concat cont ++ tail).
    rewrite take_app_length, drop_app_length. f_equal. apply IH; [done|done|].
    rewrite length_app. simpl in *. lia.
Qed.

Lemma split_blocks_eq N cont tail :
  (0 < N)%nat -> Forall (fun c => length c = N) cont -> (length tail <= N)%nat ->
  split_blocks N (concat cont ++ tail) = cont ++ opt_block tail.
Proof. intros. by apply split_blocks_fuel_eq. Qed.

Lemma concat_split_fuel N fuel d : (0 < N)%nat -> (length d <= fuel)%nat ->
  concat (split_blocks_fuel fuel N d) = d.
Proof.
  intros HN. revert d. induction fuel as [|fuel IH]; intros d Hf.
  - destruct d; [done|simpl in Hf; lia].
  - destruct d as [|x d]; [done|]. cbn [split_blocks_fuel concat]. rewrite IH.
    + apply take_drop.
    + rewrite length_drop. simpl in *. lia.
Qed.

Lemma concat_split_blocks N d : (0 < N)%nat -> concat (split_blocks N d) = d.
Proof. intros HN. by apply concat_split_fuel. Qed.

(** ** The system *)

Record Sys := mkSys {
  sw : EcosWriter;
  sCall : option (bytes * bytes);     (* the argument of the running Write and what is left of it *)
  sWritten : bytes;                   (* all bytes taken so far *)
  sSent : list (nat * list (string * list UploadBlockRequest))   (* per finished goroutine, what it sent *)
}.

Section system.
Context `{HR : HashRing, DG : Digests}.
Context (f : Factory) (cp : ClusterPipelines).

Inductive step : Sys -> Sys -> Prop :=
  | step_call w p wr sent :
      write_guard w = None ->
      step (mkSys w None wr sent) (mkSys w (Some (p, p)) wr sent)
  | step_iter w p rest wr sent w' rest' :
      rest <> [] -> write_iter f w rest = (w', Ok rest') ->
      step (mkSys w (Some (p, rest)) wr sent)
           (mkSys w' (Some (p, rest')) (wr ++ take (length rest - length rest') rest) sent)
  | step_return w p wr sent w' n :
      write_end f w p [] = (w', (n, None)) ->
      step (mkSys w (Some (p, [])) wr sent) (mkSys w' None wr sent)
  | step_upload w call wr sent a uuid peer w' l :
      a ∈ uploads w -> uploadBlock f uuid (uploadByEdge cp peer) w a = (w', l, Ok tt) ->
      step (mkSys w call wr sent) (mkSys w' call wr (sent ++ [(a, l)]))
  | step_close w wr sent w' :
      Close_start f w = (w', Ok tt) ->
      step (mkSys w None wr sent) (mkSys w' None wr sent).

Definition fresh_sys (key : string) (p : Pool localChunk) (term : Z) : Sys :=
  mkSys (GetEcosWriter key p term) None [] [].

(** ** Assumptions on the configuration *)

Definition nChunks : nat := Z.to_nat (BlockSize (fConfig f) `div` fChunkSize f).

Definition blockBytes : nat := nChunks * Z.to_nat (fChunkSize f).

(** A block holds at least one chunk and the buffer at least one block. *)
Record config_ok : Prop := {
  ok_chunk : 0 < fChunkSize f < 2 ^ 63;
  ok_block : fChunkSize f <= BlockSize (fConfig f);
  ok_block_max : BlockSize (fConfig f) < 2 ^ 63;
  ok_buffer : BlockSize (fConfig f) <= fUploadBuffer f
}.

End system.

(** ** Invariant *)

Section invariant.
Context `{HR : HashRing, HRok : !HashRingOk, DG : Digests}.
Context (f : Factory) (cp : ClusterPipelines) (Hcfg : config_ok f).

(** A chunk of the pool has a buffer of the configured size. *)
Definition chunk_ok (c : localChunk) : Prop :=
  length (data c) = Z.to_nat (fChunkSize f) /\ 0 <= freeSize c <= fChunkSize f.

Definition fresh (c : localChunk) : Prop := chunk_ok c /\ freeSize c = fChunkSize f.

(** Some byte has been written into it. *)
Definition used (c : localChunk) : Prop := freeSize c < fChunkSize f.

Definition cur_list (w : EcosWriter) : list localChunk := option_list (curChunk w).

Definition cur_chunks (w : EcosWriter) : list localChunk :=
  match curBlock w with Some b => chunks b | None => [] end.

(** The bytes that are in no committed block yet. *)
Definition tail_bytes (w : EcosWriter) : bytes := chunks_bytes (cur_chunks w ++ cur_list w).

Definition own_chunks (w : EcosWriter) : nat :=
  length (reserveChunks w) + length (cur_list w) + length (cur_chunks w).

Definition block_len (h : list Block) (a : nat) : nat :=
  match h !! a with Some b => length (chunks b) | None => 0 end.

Definition held (w : EcosWriter) : nat := own_chunks w + sum_list_with (block_len (heap w)) (uploads w).

Definition full (c : localChunk) : Prop := freeSize c = 0.

(** All chunks but the last are full. *)
Definition packed (cs : list localChunk) : Prop := Forall full (removelast cs).

(** A block the writer still fills, or that waits for its goroutine. *)
Definition new_block (b : Block) : Prop :=
  blockInfo b = mkBlockInfo "" 0 0 "" 0 /\ status b = READING /\ blockHashType b = HT_OFF /\
  delFunc b = DelRelease /\ Forall chunk_ok (chunks b) /\ Forall used (chunks b) /\
  (0 < length (chunks b) <= nChunks f)%nat /\ packed (chunks b).

(** A block whose goroutine is done: what it was uploaded with. Its last stream
    carried it in pieces of the size of a chunk. *)
Definition done_block (sent : list (nat * list (string * list UploadBlockRequest)))
    (a : nat) (b : Block) (d : bytes) : Prop :=
  BI_BlockSize (blockInfo b) = Z.of_nat (length d) /\ GenBlockPG (BlockId (blockInfo b)) = Ok (BI_PgId (blockInfo b)) /\
  (status b = FAILED \/
   status b = FINISHED /\ exists l node pipe, (a, l) ∈ sent /\ GetBlockPipeline cp (BI_PgId (blockInfo b)) = Ok pipe /\
     node ∈ FormatUint <$> P_RaftId pipe /\
     last l = Some (node, block_stream (blockInfo b) pipe (blockTerm b) (split_blocks (Z.to_nat (fChunkSize f)) d))).

Record winv (w : EcosWriter) (wr : bytes) sent (cont : list bytes) : Prop := {
  i_len : length cont = length (heap w);
  i_content : concat cont ++ tail_bytes w = wr;
  i_count : blockCount w = Z.of_nat (length (heap w)) + match curBlock w with Some _ => 1 | None => 0 end;
  i_blocks : forall i, blocks w !! i =
    if decide (1 <= i <= Z.of_nat (length (heap w))) then Some (Z.to_nat (i - 1)) else None;
  i_threads : uploads w ++ finishedBlocks w ≡ₚ seq 0 (length (heap w));
  i_pool : pool_inv (held w) (pool w);
  i_max : maxCount (pool w) = fUploadBuffer f `div` fChunkSize f;
  i_idle : Forall fresh (resources (pool w));
  i_reserve : Forall fresh (reserveChunks w);
  i_cur : Forall chunk_ok (cur_list w);
  i_curBlock : forall b, curBlock w = Some b -> new_block b;
  i_uploads : forall a d, a ∈ uploads w -> cont !! a = Some d ->
    exists b, heap w !! a = Some b /\ new_block b /\ chunks_bytes (chunks b) = d;
  i_finished : forall a d, a ∈ finishedBlocks w -> cont !! a = Some d ->
    exists b, heap w !! a = Some b /\ done_block sent a b d
}.

(** Room in the current chunk and the current block: between two iterations. *)
Definition room (w : EcosWriter) : Prop :=
  (forall c, curChunk w = Some c -> 0 < freeSize c < fChunkSize f) /\ (length (cur_chunks w) < nChunks f)%nat.

(** While data is written: committed blocks are full, and the chunks of the
    writer form one group of [nChunks]. *)
Record reading (w : EcosWriter) (cont : list bytes) : Prop := {
  r_status : wStatus w = READING;
  r_full : Forall (fun c => length c = blockBytes f) cont;
  r_chunks : Forall full (cur_chunks w);
  r_group : own_chunks w = 0%nat \/ own_chunks w = nChunks f
}.

(** Once [Close] has handed everything over. *)
Record closed (w : EcosWriter) (wr : bytes) (cont : list bytes) : Prop := {
  c_status : wStatus w = UPLOADING;
  c_split : cont = split_blocks (blockBytes f) wr;
  c_curBlock : curBlock w = None;
  c_own : own_chunks w = 0%nat
}.

(** *** Arithmetic of the configuration *)

Lemma cfg_chunks : chunksPerBlock f = Ok (nChunks f) /\ (0 < nChunks f)%nat.
Proof.
  destruct Hcfg. unfold chunksPerBlock, nChunks. rewrite decide_False by lia. split; [done|].
  assert (1 <= BlockSize (fConfig f) `div` fChunkSize f); [|lia].
  apply Z.div_le_lower_bound; lia.
Qed.

Lemma cfg_pool : Z.of_nat (nChunks f) <= fUploadBuffer f `div` fChunkSize f.
Proof.
  destruct Hcfg. unfold nChunks. pose proof (Z.div_pos (BlockSize (fConfig f)) (fChunkSize f)).
  rewrite Z2Nat.id by lia. apply Z.div_le_mono; lia.
Qed.

Lemma cfg_bytes : Z.of_nat (blockBytes f) < 2 ^ 63 /\ (0 < blockBytes f)%nat.
Proof.
  destruct cfg_chunks as [_ Hn]. destruct Hcfg. unfold blockBytes in *.
  pose proof (Z.mul_div_le (BlockSize (fConfig f)) (fChunkSize f) ltac:(lia)).
  pose proof (Z.div_pos (BlockSize (fConfig f)) (fChunkSize f)).
  split; [|apply Nat.mul_pos_pos; lia].
  unfold nChunks. rewrite Nat2Z.inj_mul, !Z2Nat.id by lia. lia.
Qed.

Lemma chunk_ok_wf c : chunk_ok c -> chunk_wf c.
Proof. destruct Hcfg. intros [H1 H2]. unfold chunk_wf. rewrite H1. lia. Qed.

Lemma chunk_ok_length c : chunk_ok c -> Z.of_nat (length (chunk_bytes c)) = fChunkSize f - freeSize c.
Proof. intros [H1 H2]. unfold chunk_bytes. rewrite length_take, H1. lia. Qed.

Lemma chunks_length cs :
  Forall chunk_ok cs -> (length (chunks_bytes cs) <= length cs * Z.to_nat (fChunkSize f))%nat.
Proof.
  induction 1 as [|c cs Hc _ IH]; [done|]. rewrite chunks_bytes_cons, length_app. simpl.
  pose proof (chunk_ok_length c Hc). destruct Hc. lia.
Qed.

Lemma chunks_length_full cs :
  Forall chunk_ok cs -> Forall full cs -> length (chunks_bytes cs) = (length cs * Z.to_nat (fChunkSize f))%nat.
Proof.
  induction 1 as [|c cs Hc _ IH]; intros Hf; [done|]. inv Hf.
  rewrite chunks_bytes_cons, length_app, IH by done. simpl.
  pose proof (chunk_ok_length c Hc). unfold full in *. lia.
Qed.

Lemma new_block_bytes b : new_block b ->
  Forall chunk_wf (chunks b) /\ (length (chunks_bytes (chunks b)) <= blockBytes f)%nat.
Proof.
  intros (_ & _ & _ & _ & Hc & _ & Hn & _). split; [eapply Forall_impl; [exact Hc|apply chunk_ok_wf]|].
  pose proof (chunks_length _ Hc). unfold blockBytes. nia.
Qed.

(** *** Committing a block *)

Lemma seq_snoc n : seq 0 (S n) = seq 0 n ++ [n].
Proof. by rewrite seq_S. Qed.

Lemma block_len_app h h' l :
  Forall (fun a => a < length h)%nat l ->
  sum_list_with (block_len (h ++ h')) l = sum_list_with (block_len h) l.
Proof.
  induction 1 as [|a l Ha _ IH]; [done|]. simpl. rewrite IH. unfold block_len.
  by rewrite lookup_app_l.
Qed.

Lemma threads_lt w wr sent cont a :
  winv w wr sent cont -> a ∈ uploads w \/ a ∈ finishedBlocks w -> (a < length (heap w))%nat.
Proof.
  intros Hi Ha. assert (a ∈ seq 0 (length (heap w))) as Hs.
  { rewrite <- (i_threads _ _ _ _ Hi). apply elem_of_app. done. }
  apply elem_of_seq in Hs. lia.
Qed.

Lemma new_block_nonempty b : new_block b -> chunks_bytes (chunks b) <> [].
Proof.
  intros (_ & _ & _ & _ & Hc & Hu & Hn & _). destruct (chunks b) as [|c cs]; [simpl in Hn; lia|].
  inv Hc. inv Hu. rewrite chunks_bytes_cons. intros E%(f_equal length). rewrite length_app in E.
  pose proof (chunk_ok_length c ltac:(done)). unfold used in *. simpl in E. lia.
Qed.

Lemma release_reserve w wr sent cont :
  winv w wr sent cont -> curChunk w = None ->
  exists p, release_all (pool w) (reserveChunks w) = Ok p /\
    pool_inv (length (cur_chunks w) + sum_list_with (block_len (heap w)) (uploads w)) p /\
    maxCount p = maxCount (pool w) /\ Forall fresh (resources p).
Proof.
  intros Hi Hc. pose proof (i_pool _ _ _ _ Hi) as Hp. unfold held, own_chunks, cur_list in Hp.
  rewrite Hc in Hp. simpl in Hp.
  destruct (release_all_spec (reserveChunks w)
    (length (cur_chunks w) + sum_list_with (block_len (heap w)) (uploads w)) (pool w))
    as (p & Ep & Hp' & Hm' & Hr').
  { eapply pool_inv_eq; [exact Hp|lia]. }
  exists p. split_and!; try done. rewrite Hr'. apply Forall_app_2; [apply Hi|apply Hi].
Qed.

(** The fields no commit touches. *)
Definition same_frame (w w' : EcosWriter) : Prop :=
  wStatus w' = wStatus w /\ writeSize w' = writeSize w /\ hashed w' = hashed w /\ wKey w' = wKey w /\
  wTerm w' = wTerm w /\ partObject w' = partObject w.

Lemma commitCurBlock_inv w wr sent cont :
  winv w wr sent cont -> curChunk w = None ->
  exists w', commitCurBlock w = (w', Ok tt) /\ curBlock w' = None /\ own_chunks w' = 0%nat /\
    same_frame w w' /\
    winv w' wr sent (cont ++ opt_block (tail_bytes w)).
Proof.
  intros Hi Hc. destruct (release_reserve _ _ _ _ Hi Hc) as (p & Ep & Hp' & Hm' & Hr').
  pose proof (fun a => threads_lt _ _ _ _ a Hi) as Hlt.
  destruct Hi as [Hlen Hcont Hcount Hbl Hth Hp Hmax Hidle Hres Hcur HcB Hup Hfin].
  unfold commitCurBlock. rewrite Ep. simpl. destruct (curBlock w) as [b|] eqn:Eb.
  - pose proof (HcB b eq_refl) as Hnew.
    assert (tail_bytes w = chunks_bytes (chunks b)) as Et.
    { unfold tail_bytes, cur_chunks, cur_list. rewrite Eb, Hc. simpl. by rewrite app_nil_r. }
    replace (opt_block (tail_bytes w)) with [chunks_bytes (chunks b)].
    2:{ rewrite Et. pose proof (new_block_nonempty b Hnew). by destruct (chunks_bytes (chunks b)). }
    eexists. split; [done|]. unfold own_chunks, same_frame, cur_chunks, cur_list in *. simpl in *.
    rewrite Eb in Hp'. rewrite Hc in *. simpl in *. split_and!; try done.
    constructor; simpl; unfold held, own_chunks, tail_bytes, cur_chunks, cur_list; simpl; rewrite ?Hc; try done.
    + rewrite !length_app. simpl. lia.
    + rewrite concat_app. simpl. rewrite !app_nil_r, <- Hcont, Et. done.
    + rewrite length_app. simpl. lia.
    + intros i. rewrite length_app. simpl. destruct (decide (i = blockCount w)) as [->|Hne].
      * rewrite lookup_insert_eq, decide_True by lia. f_equal. lia.
      * rewrite lookup_insert_ne by done. rewrite Hbl.
        destruct (decide _) as [?|?]; [rewrite decide_True by lia|rewrite decide_False by lia]; done.
    + rewrite length_app, Nat.add_1_r, seq_snoc.
      rewrite <- app_assoc, (Permutation_app_comm [_]), app_assoc. by rewrite Hth.
    + rewrite sum_list_with_app, block_len_app by (apply Forall_forall; auto). simpl.
      eapply pool_inv_eq; [exact Hp'|]. unfold block_len at 3.
      rewrite lookup_app_r, Nat.sub_diag by lia. simpl. lia.
    + congruence.
    + intros a d [Ha|Ha%list_elem_of_singleton]%elem_of_app Hd.
      * specialize (Hlt a (or_introl Ha)). rewrite lookup_app_l in Hd by lia.
        destruct (Hup a d Ha Hd) as (b' & ? & ?). exists b'. by rewrite lookup_app_l by lia.
      * subst a. rewrite <- Hlen, lookup_app_r, Nat.sub_diag in Hd by lia. injection Hd as <-.
        exists b. split; [|done]. rewrite lookup_app_r, Nat.sub_diag by lia. done.
    + intros a d Ha Hd. specialize (Hlt a (or_intror Ha)). rewrite lookup_app_l in Hd by lia. destruct (Hfin a d Ha Hd) as (b' & ? & ?).
      exists b'. by rewrite lookup_app_l by lia.
  - eexists. split; [done|]. unfold own_chunks, same_frame, tail_bytes, cur_chunks, cur_list in *. simpl.
    rewrite Eb, Hc in *. split_and!; try done. simpl. rewrite app_nil_r.
    constructor; simpl; unfold held, own_chunks, tail_bytes, cur_chunks, cur_list; simpl;
      rewrite ?Eb, ?Hc; try done. congruence.
Qed.

(** *** Committing a chunk *)

(** The writer with its current chunk moved to the current block. *)
Definition add_chunk (w : EcosWriter) (c : localChunk) : EcosWriter :=
  let b := default (getNewBlock w) (curBlock w) in
  set_chunks (set_curBlock w (Some (with_chunks b (chunks b ++ [c])))
                (blockCount w + match curBlock w with Some _ => 0 | None => 1 end))
    None (reserveChunks w).

Lemma commitCurChunk_eq w c :
  curChunk w = Some c -> (length (cur_chunks w) < nChunks f)%nat ->
  (exists p, release_all (pool w) (reserveChunks w) = Ok p) ->
  commitCurChunk f w =
    if decide (length (cur_chunks w ++ [c]) = nChunks f) then commitCurBlock (add_chunk w c)
    else (add_chunk w c, Ok tt).
Proof.
  intros Hc Hn [p Hp]. destruct cfg_chunks as [Hk Hpos]. unfold commitCurChunk, getCurBlock. rewrite Hc, Hk.
  unfold cur_chunks in *. cbn [pure st_bind]. destruct (curBlock w) as [b|] eqn:Eb.
  - rewrite decide_False by lia. cbn [st_bind]. rewrite Eb. cbn [st_bind pure].
    destruct (decide _) as [Hd|Hd].
    + unfold commitCurBlock, add_chunk. simpl. rewrite Hp. simpl. rewrite Eb. simpl. rewrite Z.add_0_r. done.
    + unfold add_chunk. rewrite Eb. simpl. rewrite Z.add_0_r. done.
  - cbn [st_bind]. rewrite Eb. cbn [st_bind pure]. simpl length in *.
    destruct (decide _) as [Hd|Hd].
    + unfold commitCurBlock, add_chunk. simpl. rewrite Hp. simpl. rewrite Eb. done.
    + unfold add_chunk. rewrite Eb. done.
Qed.

Lemma add_chunk_chunks w c : cur_chunks (add_chunk w c) = cur_chunks w ++ [c].
Proof. unfold cur_chunks, add_chunk. simpl. by destruct (curBlock w). Qed.

Lemma add_chunk_inv w c wr sent cont :
  winv w wr sent cont -> curChunk w = Some c -> used c -> Forall full (cur_chunks w) ->
  (length (cur_chunks w) < nChunks f)%nat -> winv (add_chunk w c) wr sent cont.
Proof.
  intros [Hlen Hcont Hcount Hbl Hth Hp Hmax Hidle Hres Hcur HcB Hup Hfin] Hc Hu Hch Hn.
  unfold cur_list in Hcur. rewrite Hc in Hcur. inv Hcur. 
  constructor; try done.
  - unfold tail_bytes in *. rewrite add_chunk_chunks. unfold cur_list in *. rewrite Hc in *. simpl.
    by rewrite app_nil_r.
  - simpl. rewrite Hcount. destruct (curBlock w); lia.
  - eapply pool_inv_eq; [exact Hp|]. unfold held, own_chunks. rewrite add_chunk_chunks, length_app.
    unfold cur_list. simpl. rewrite Hc. simpl. lia.
  - intros b Hb. simpl in Hb. injection Hb as <-. unfold cur_chunks in Hn, Hch. unfold new_block. simpl.
    rewrite length_app. simpl. destruct (curBlock w) as [b|] eqn:Eb; simpl.
    + destruct (HcB b eq_refl) as (? & ? & ? & ? & ? & ? & ? & ?). split_and!; try done; try lia.
      * by apply Forall_app_2; [|constructor].
      * by apply Forall_app_2; [|constructor].
      * unfold packed. by rewrite removelast_last.
    + simpl in Hn. split_and!; try done; try lia; by apply Forall_singleton.
Qed.

Lemma commitCurChunk_inv w c wr sent cont :
  winv w wr sent cont -> curChunk w = Some c -> used c -> Forall full (cur_chunks w) -> (length (cur_chunks w) < nChunks f)%nat ->
  exists w' cont', commitCurChunk f w = (w', Ok tt) /\ winv w' wr sent cont' /\
    curChunk w' = None /\ same_frame w w' /\
    ((cont' = cont /\ cur_chunks w' = cur_chunks w ++ [c] /\ (length (cur_chunks w') < nChunks f)%nat /\
      own_chunks w' = own_chunks w) \/
     (cont' = cont ++ [chunks_bytes (cur_chunks w ++ [c])] /\ S (length (cur_chunks w)) = nChunks f /\
      own_chunks w' = 0%nat /\ curBlock w' = None)).
Proof.
  intros Hi Hc Hu Hch Hn. pose proof (add_chunk_inv _ _ _ _ _ Hi Hc Hu Hch Hn) as Ha.
  rewrite (commitCurChunk_eq w c Hc Hn)
    by (destruct (release_reserve _ _ _ _ Ha eq_refl) as (p & Hp & _); by exists p).
  destruct (decide _) as [Hd|Hd]; rewrite length_app in Hd; simpl in Hd.
  - destruct (commitCurBlock_inv _ _ _ _ Ha eq_refl) as (w' & Hw & Hcb & Hown & Hfr & Hi').
    assert (tail_bytes (add_chunk w c) = chunks_bytes (cur_chunks w ++ [c])) as Et.
    { unfold tail_bytes. rewrite add_chunk_chunks. unfold cur_list. simpl. by rewrite app_nil_r. }
    assert (chunks_bytes (cur_chunks w ++ [c]) <> []) as Hne.
    { pose proof (i_curBlock _ _ _ _ Ha _ eq_refl) as Hnew. apply new_block_nonempty in Hnew.
      pose proof (add_chunk_chunks w c) as Ecc. unfold cur_chunks at 1 in Ecc. simpl in Ecc, Hnew.
      by rewrite Ecc in Hnew. }
    rewrite Et in Hi'. exists w'. eexists. split; [exact Hw|]. split; [exact Hi'|].
    split. { unfold own_chunks in Hown. unfold cur_list in Hown. destruct (curChunk w'); simpl in Hown; [lia|done]. }
    split; [done|]. right. split; [by destruct (chunks_bytes _)|]. split; [lia|done].
  - exists (add_chunk w c), cont. split; [done|]. split; [done|]. split; [done|]. split; [done|].
    left. rewrite add_chunk_chunks, length_app. split; [done|]. split; [done|]. split; [simpl; lia|].
    unfold own_chunks. rewrite add_chunk_chunks, length_app. unfold cur_list. rewrite Hc. simpl. lia.
Qed.

(** *** One iteration of [Write] *)

Lemma newLocalChunk_fresh k c : newLocalChunk f k = Ok c -> fresh c.
Proof.
  destruct Hcfg. intros [= <-]. unfold fresh, chunk_ok. simpl. rewrite length_replicate. lia.
Qed.

(** Chunks that wait for their upload. *)
Definition uploading (w : EcosWriter) : nat := sum_list_with (block_len (heap w)) (uploads w).

Lemma set_cur_inv w wr sent cont c rest p :
  winv w wr sent cont -> cur_list w = [] -> fresh c -> Forall fresh rest ->
  pool_inv (length rest + 1 + length (cur_chunks w) + uploading w) p ->
  maxCount p = maxCount (pool w) -> Forall fresh (resources p) ->
  winv (set_chunkCount (set_chunks (set_pool w p) (Some c) rest) (chunkCount w + 1)) wr sent cont.
Proof.
  intros [Hlen Hcont Hcount Hbl Hth Hp Hmax Hidle Hres Hcur HcB Hup Hfin] Hc Hf Hfr Hp' Hm Hr.
  constructor; try done.
  - unfold tail_bytes in *. rewrite Hc, app_nil_r in Hcont. unfold cur_list. simpl.
    rewrite chunks_bytes_snoc.
    replace (chunk_bytes c) with (@nil byte); [by rewrite app_nil_r|].
    destruct Hf as [Hok Hfs]. pose proof (chunk_ok_length c Hok). rewrite Hfs in *.
    destruct (chunk_bytes c); [done|simpl in *; lia].
  - simpl. congruence.
  - unfold cur_list. simpl. apply Forall_singleton, Hf.
Qed.

Lemma getCurChunk_inv w wr sent cont :
  winv w wr sent cont -> room w -> own_chunks w = 0%nat \/ own_chunks w = nChunks f ->
  (own_chunks w = 0%nat -> Z.of_nat (uploading w + nChunks f) <= maxCount (pool w)) ->
  exists w' c, getCurChunk f w = (w', Ok c) /\ curChunk w' = Some c /\ winv w' wr sent cont /\
    0 < freeSize c /\ own_chunks w' = nChunks f /\ curBlock w' = curBlock w /\ uploads w' = uploads w /\ same_frame w w'.
Proof.
  intros Hi [Hroom Hlt] Hg Hav. destruct cfg_chunks as [Hk Hpos]. destruct Hcfg.
  unfold getCurChunk. unfold own_chunks in *. unfold cur_list in *.
  destruct (curChunk w) as [c|] eqn:Ec.
  { exists w, c. split_and!; try done; [by apply Hroom|]. unfold own_chunks, cur_list. rewrite Ec. simpl in *. lia. }
  simpl in Hg, Hav. destruct (reserveChunks w) as [|c rest] eqn:Er.
  - simpl in Hg, Hav. assert (length (cur_chunks w) = 0%nat) as E0 by lia.
    rewrite Hk. cbn [pure st_bind].
    destruct (AcquireMultiple_spec (newLocalChunk f) ltac:(intros k; by eexists) fresh (uploading w) (pool w) (nChunks f))
      as (rs & p & E & Hl & Hp & Hm & Hr & Hrs).
    + eapply pool_inv_eq; [apply Hi|]. unfold held, uploading, own_chunks, cur_list. rewrite Ec, Er. simpl. lia.
    + lia.
    + by apply Hav.
    + apply newLocalChunk_fresh.
    + apply Hi.
    + rewrite E. cbn [st_bind pure]. destruct rs as [|c rest]; [simpl in Hl; lia|]. inv Hrs. simpl.
      eexists _, c. split; [done|]. simpl. split; [done|]. split; [|split_and!]; try done.
      * apply (set_cur_inv w wr sent cont c rest p); try done.
        -- unfold cur_list. by rewrite Ec.
        -- eapply pool_inv_eq; [exact Hp|]. simpl in *. lia.
      * match goal with H : fresh c |- _ => destruct H as [_ ->] end. lia.
      * unfold own_chunks, cur_list, cur_chunks in *. simpl in *. lia.
  - cbn [st_bind]. rewrite Er. eexists _, c. split; [done|]. simpl. split; [done|].
    pose proof (i_reserve _ _ _ _ Hi) as Hres. rewrite Er in Hres. inv Hres. split; [|split_and!]; try done.
    + replace (set_chunks w (Some c) rest) with (set_chunks (set_pool w (pool w)) (Some c) rest) by done.
      apply (set_cur_inv w wr sent cont c rest (pool w)); try done.
      * unfold cur_list. by rewrite Ec.
      * eapply pool_inv_eq; [apply Hi|]. unfold held, own_chunks, cur_list, uploading. rewrite Ec, Er. simpl. lia.
      * apply Hi.
    + match goal with H : fresh c |- _ => destruct H as [_ ->] end. lia.
    + unfold own_chunks, cur_list, cur_chunks in *. simpl in *. lia.
Qed.

(** Conversely, a chunk can only be had when the pool has enough of them. *)
Lemma getCurChunk_ok_inv w wr sent cont w' c :
  winv w wr sent cont -> getCurChunk f w = (w', Ok c) -> own_chunks w = 0%nat ->
  Z.of_nat (uploading w + nChunks f) <= maxCount (pool w).
Proof.
  intros Hi E H0. unfold own_chunks in H0. unfold getCurChunk in E. unfold cur_list in H0.
  destruct (curChunk w) as [c0|] eqn:Ec; [simpl in H0; lia|].
  destruct (reserveChunks w) as [|c0 l] eqn:Er; [|simpl in H0; lia].
  destruct cfg_chunks as [Hk _]. rewrite Hk in E. cbn [pure st_bind] in E.
  destruct (AcquireMultiple _ _ _) as [p [rs| | |]] eqn:Ea; try done.
  eapply (AcquireMultiple_ok_inv (newLocalChunk f)); [intros k; by eexists| |exact Ea].
  eapply pool_inv_eq; [apply Hi|]. unfold held, uploading, own_chunks, cur_list. rewrite Ec, Er. simpl in *. lia.
Qed.

(** Filling the current chunk. *)
Definition filled (c : localChunk) (src : bytes) : localChunk :=
  let '(d, n) := copy_at (data c) (Z.to_nat (fChunkSize f - freeSize c)) src in
  mkChunk d (freeSize c - Z.of_nat n).

Definition taken (c : localChunk) (src : bytes) : nat := Nat.min (Z.to_nat (freeSize c)) (length src).

Lemma filled_spec c src : chunk_ok c ->
  chunk_ok (filled c src) /\ freeSize (filled c src) = freeSize c - Z.of_nat (taken c src) /\
  chunk_bytes (filled c src) = chunk_bytes c ++ take (taken c src) src.
Proof.
  intros [Hl Hfs]. unfold filled, copy_at, taken. simpl.
  replace (length (data c) - Z.to_nat (fChunkSize f - freeSize c))%nat with (Z.to_nat (freeSize c)) by lia.
  set (n := Nat.min _ _). set (st := Z.to_nat (fChunkSize f - freeSize c)).
  assert (n <= Z.to_nat (freeSize c))%nat by lia.
  assert (n <= length src)%nat by lia.
  assert (length (take st (data c) ++ take n src ++ drop (st + n) (data c)) = length (data c)) as El.
  { rewrite !length_app, !length_take, length_drop. lia. }
  split_and!; simpl.
  - split; simpl; [by rewrite El|lia].
  - done.
  - unfold chunk_bytes. simpl. rewrite El.
    replace (length (data c) - Z.to_nat (freeSize c - Z.of_nat n))%nat with (st + n)%nat by lia.
    replace (length (data c) - Z.to_nat (freeSize c))%nat with st by lia.
    rewrite app_assoc. rewrite take_app_le by (rewrite length_app, !length_take; lia).
    rewrite take_ge; [done|]. rewrite length_app, !length_take. lia.
Qed.

Lemma fill_inv w wr sent cont c src :
  winv w wr sent cont -> curChunk w = Some c ->
  winv (set_chunks w (Some (filled c src)) (reserveChunks w)) (wr ++ take (taken c src) src) sent cont.
Proof.
  intros [Hlen Hcont Hcount Hbl Hth Hp Hmax Hidle Hres Hcur HcB Hup Hfin] Hc.
  unfold cur_list in Hcur. rewrite Hc in Hcur. simpl in Hcur. rewrite Forall_singleton in Hcur.
  destruct (filled_spec c src Hcur) as (Hok & _ & Hb).
  constructor; try done.
  - rewrite <- Hcont. unfold tail_bytes, cur_list. simpl. rewrite Hc. simpl.
    change (cur_chunks (set_chunks _ _ _)) with (cur_chunks w).
    by rewrite !chunks_bytes_snoc, Hb, !app_assoc.
  - eapply pool_inv_eq; [exact Hp|]. unfold held, own_chunks, cur_list, cur_chunks. simpl. by rewrite Hc.
  - by apply Forall_singleton.
Qed.

Lemma cur_chunks_ok w wr sent cont :
  winv w wr sent cont -> Forall chunk_ok (cur_chunks w) /\ Forall used (cur_chunks w).
Proof.
  intros Hi. unfold cur_chunks. destruct (curBlock w) as [b|] eqn:Eb; [|done].
  by destruct (i_curBlock _ _ _ _ Hi b Eb) as (_ & _ & _ & _ & ? & ? & _).
Qed.

Lemma same_frame_trans w1 w2 w3 : same_frame w1 w2 -> same_frame w2 w3 -> same_frame w1 w3.
Proof. unfold same_frame. intuition congruence. Qed.

(** A full chunk is committed between two iterations. *)
Lemma commit_full w c wr sent cont :
  winv w wr sent cont -> curChunk w = Some c -> full c -> chunk_ok c -> wStatus w = READING ->
  Forall (fun d => length d = blockBytes f) cont -> Forall full (cur_chunks w) ->
  (length (cur_chunks w) < nChunks f)%nat -> own_chunks w = nChunks f ->
  exists w' cont', commitCurChunk f w = (w', Ok tt) /\ winv w' wr sent cont' /\ reading w' cont' /\
    room w' /\ same_frame w w'.
Proof.
  intros Hi Hc Hfc Hck Hst Hfull Hch Hn Hown. destruct (cur_chunks_ok _ _ _ _ Hi) as [Hok _].
  destruct (commitCurChunk_inv w c wr sent cont Hi Hc) as (w' & cont' & E & Hi' & Hc' & Hfr & Hcase); [|done..|].
  { destruct Hcfg. unfold used, full in *. lia. }
  assert (wStatus w' = READING) as Hst' by (destruct Hfr; congruence).
  assert (Forall full (cur_chunks w ++ [c])) by (by apply Forall_app_2; [|apply Forall_singleton]).
  exists w', cont'. split; [done|]. split; [done|].
  destruct Hcase as [(-> & Ech & Hlt & Hown')|(-> & Hlen & Hown' & Hcb)].
  - split; [constructor|split]; try done.
    + by rewrite Ech.
    + right. congruence.
    + split; [by rewrite Hc'|done].
  - split; [constructor|split]; try done.
    + apply Forall_app_2; [done|]. apply Forall_singleton. rewrite chunks_length_full.
      * rewrite length_app. simpl. unfold blockBytes. by rewrite Nat.add_1_r, Hlen.
      * by apply Forall_app_2; [|apply Forall_singleton].
      * done.
    + unfold cur_chunks. by rewrite Hcb.
    + by left.
    + split; [by rewrite Hc'|]. unfold cur_chunks. rewrite Hcb. simpl. destruct cfg_chunks. lia.
Qed.

Lemma write_iter_inv w wr sent cont rest :
  winv w wr sent cont -> reading w cont -> room w -> rest <> [] ->
  (own_chunks w = 0%nat -> Z.of_nat (uploading w + nChunks f) <= maxCount (pool w)) ->
  exists w' n cont', write_iter f w rest = (w', Ok (drop n rest)) /\ (0 < n <= length rest)%nat /\
    winv w' (wr ++ take n rest) sent cont' /\ reading w' cont' /\ room w' /\ same_frame w w'.
Proof.
  intros Hi [Hst Hfull Hch Hg] Hroom Hne Hav.
  destruct (getCurChunk_inv _ _ _ _ Hi Hroom Hg Hav) as (w1 & c & E1 & Hc1 & Hi1 & Hfs & Hown1 & Hcb1 & Hup1 & Hfr1).
  pose proof (i_cur _ _ _ _ Hi1) as Hck. unfold cur_list in Hck. rewrite Hc1 in Hck. simpl in Hck. rewrite Forall_singleton in Hck.
  destruct (filled_spec c rest Hck) as (Hok & Hff & Hb).
  pose proof (fill_inv _ _ _ _ _ rest Hi1 Hc1) as Hi2. destruct Hcfg. destruct Hck as [Hcl Hcf].
  assert (0 < length rest)%nat by (destruct rest; [done|simpl; lia]).
  assert (taken c rest = Nat.min (length (data c) - Z.to_nat (fChunkSize f - freeSize c)) (length rest)) as Etk
    by (unfold taken; lia).
  unfold write_iter. rewrite E1. cbn [st_bind].
  rewrite u64_id by (unfold is_u64; lia). rewrite decide_False by lia.
  unfold copy_at. rewrite <- Etk. rewrite u64_id by (unfold is_u64, taken in *; lia).
  replace (mkChunk _ _) with (filled c rest) by (unfold filled, copy_at; by rewrite <- Etk).
  assert (0 < taken c rest <= length rest)%nat as Htk by (unfold taken; lia).
  assert (cur_chunks (set_chunks w1 (Some (filled c rest)) (reserveChunks w1)) = cur_chunks w) as Ecc
    by (unfold cur_chunks; simpl; by rewrite Hcb1).
  assert (own_chunks (set_chunks w1 (Some (filled c rest)) (reserveChunks w1)) = nChunks f) as Eown
    by (unfold own_chunks, cur_list, cur_chunks in *; simpl; by rewrite Hc1 in Hown1).
  destruct (decide _) as [Hz|Hz].
  - destruct (commit_full _ (filled c rest) _ _ _ Hi2 eq_refl) as (w2 & cont' & E2 & Hi3 & Hrd & Hrm & Hfr2); try done.
    + destruct Hfr1. simpl. congruence.
    + by rewrite Ecc.
    + rewrite Ecc. apply Hroom.
    + rewrite E2. cbn [st_bind]. exists w2, (taken c rest), cont'. split_and!; try done; try lia.
      eapply same_frame_trans; done.
  - cbn [st_bind]. eexists _, (taken c rest), cont. split; [done|]. split; [done|]. split; [done|].
    split; [constructor|split]; try done.
    + destruct Hfr1. simpl. congruence.
    + by rewrite Ecc.
    + by right.
    + split; [|by rewrite Ecc; apply Hroom]. intros c' Hc'. injection Hc' as <-. destruct Hok. lia.
Qed.

(** *** The upload goroutine *)

Lemma Block_Close_new uuid b : new_block b ->
  exists b', Block_Close uuid b = (b', Ok tt) /\ status b' = UPLOADING /\ chunks b' = chunks b /\
    delFunc b' = DelRelease /\ 1 <= BI_PgId (blockInfo b') <= blockPgNum /\
    GenBlockPG (BlockId (blockInfo b')) = Ok (BI_PgId (blockInfo b')) /\
    BI_BlockSize (blockInfo b') = Z.of_nat (length (chunks_bytes (chunks b))).
Proof.
  intros Hb. destruct (new_block_bytes b Hb) as [Hwf Hlen]. destruct cfg_bytes as [Hmax _].
  destruct Hb as (Hinfo & Hst & Hht & Hdf & _ & _ & Hn & _).
  unfold Block_Close. rewrite Hinfo, Hst. rewrite decide_False by (simpl; lia).
  rewrite decide_False by lia. rewrite decide_False by (intros []; done).
  unfold updateBlockInfo. simpl. rewrite Hinfo. rewrite decide_True by done.
  unfold genBlockHash. simpl. rewrite Hht.
  destruct (MapIDtoPG_range blockPgNum uuid) as (pg & Hpg & Hr); [unfold blockPgNum; lia|].
  simpl. rewrite Hht.
  unfold GenBlockPG. rewrite Hpg. eexists. split; [done|]. simpl. split_and!; try done; try lia.
  rewrite fold_used_sum; [lia|done|lia|lia].
Qed.

Lemma upload_nodes_shape b pipe peer nodes l :
  Forall chunk_wf (chunks b) -> upload_nodes b pipe peer nodes = (l, Ok tt) ->
  exists n, n ∈ nodes /\ last l = Some (n, block_stream (blockInfo b) pipe (blockTerm b) (chunk_bytes <$> chunks b)).
Proof.
  intros Hwf. revert l. induction nodes as [|n nodes IH]; intros l E; simpl in E; [done|].
  destruct (peer_info (peer n)); [|done].
  assert (forall l, upload_nodes b pipe peer nodes = (l, Ok tt) -> exists n', n' ∈ n :: nodes /\
    last l = Some (n', block_stream (blockInfo b) pipe (blockTerm b) (chunk_bytes <$> chunks b))) as IH'.
  { intros l0 (n' & Hn' & Hl)%IH. exists n'. split; [by right|done]. }
  destruct (conn_err _); [by apply IH'|]. destruct (open_err _); [by apply IH'|].
  destruct (uploadByStream b pipe _) as [l' [[]|e| |]] eqn:Es; try done.
  - injection E as <-. exists n. split; [by left|]. simpl. by rewrite (uploadByStream_shape _ _ _ _ Hwf Es).
  - destruct (upload_nodes b pipe peer nodes) as [ls r]. injection E as <- ->.
    destruct (IH' ls eq_refl) as (n' & Hn' & Hl). exists n'. split; [done|]. by destruct ls as [|x ls].
Qed.

Lemma uploadByEdge_shape peer b l :
  Forall chunk_wf (chunks b) -> uploadByEdge cp peer b = (l, Ok tt) ->
  exists n pipe, GetBlockPipeline cp (BI_PgId (blockInfo b)) = Ok pipe /\ n ∈ FormatUint <$> P_RaftId pipe /\
    last l = Some (n, block_stream (blockInfo b) pipe (blockTerm b) (chunk_bytes <$> chunks b)).
Proof.
  intros Hwf. unfold uploadByEdge.
  unfold GetBlockPGNodeID, GetBlockPipeline. destruct (pipeline_at _ _) as [pipe| | |]; try done. cbn [mbind res_bind].
  intros (n & Hn & Hl)%upload_nodes_shape; [|done]. by exists n, pipe.
Qed.

Lemma uploadByEdge_ok peer b l :
  Forall chunk_wf (chunks b) -> uploadByEdge cp peer b = (l, Ok tt) ->
  exists n reqs, last l = Some (n, reqs) /\ stream_data reqs = chunks_bytes (chunks b).
Proof.
  intros Hwf (n & pipe & _ & _ & Hl)%uploadByEdge_shape; [|done]. eexists n, _. split; [done|]. apply block_stream_data.
Qed.

(** The chunks of a packed block are its bytes cut into pieces. *)
Lemma packed_split cs : Forall chunk_ok cs -> Forall used cs -> packed cs ->
  chunk_bytes <$> cs = split_blocks (Z.to_nat (fChunkSize f)) (chunks_bytes cs).
Proof.
  intros Hok Hu Hp. destruct Hcfg. destruct cs as [|c cs _] using rev_ind; [done|].
  unfold packed in Hp. rewrite removelast_last in Hp. apply Forall_app in Hok as [Hok Hc], Hu as [_ Hu].
  rewrite Forall_singleton in Hc. rewrite Forall_singleton in Hu. pose proof (chunk_ok_length c Hc) as Hl. unfold used in Hu.
  rewrite chunks_bytes_snoc. unfold chunks_bytes. rewrite split_blocks_eq.
  - rewrite fmap_app. f_equal. simpl. destruct Hc as [_ Hc]. destruct (chunk_bytes c); [simpl in Hl; lia|done].
  - lia.
  - apply Forall_fmap. eapply Forall_impl; [apply Forall_and; split; [exact Hok|exact Hp]|].
    intros c' [Hc' Hf']. simpl. pose proof (chunk_ok_length c' Hc'). unfold full in Hf'. lia.
  - destruct Hc. lia.
Qed.

Lemma new_block_split b : new_block b ->
  chunk_bytes <$> chunks b = split_blocks (Z.to_nat (fChunkSize f)) (chunks_bytes (chunks b)).
Proof. intros (_ & _ & _ & _ & Hok & Hu & _ & Hp). by apply packed_split. Qed.

Lemma done_block_mono sent sent' a b d :
  done_block sent a b d -> done_block (sent ++ sent') a b d.
Proof.
  intros (H1 & H2 & [H3|(H3 & l & n & r & H4 & H5)]); split_and!; try done; try lia; [by left|right].
  split; [done|]. exists l, n, r. split; [|done]. apply elem_of_app. by left.
Qed.

Lemma filter_remove (a : nat) (l : list nat) :
  NoDup l -> a ∈ l -> l ≡ₚ a :: filter (fun x => x <> a) l.
Proof.
  induction l as [|x l IH]; intros Hnd Ha; [by apply not_elem_of_nil in Ha|].
  apply NoDup_cons in Hnd as [Hx Hnd]. apply elem_of_cons in Ha as [->|Ha].
  - rewrite filter_cons_False by (intros ?; done).
    assert (filter (fun y => y <> x) l = l) as Hfl; [|by rewrite Hfl].
    clear -Hx. induction l as [|y l IH]; [done|]. apply not_elem_of_cons in Hx as [? ?].
    rewrite filter_cons_True by done. f_equal. by apply IH.
  - rewrite filter_cons_True by (intros ->; done). rewrite Permutation_swap. by rewrite <- IH.
Qed.

Lemma sum_list_with_perm {A} (g : A -> nat) l l' : l ≡ₚ l' -> sum_list_with g l = sum_list_with g l'.
Proof. induction 1; simpl; lia. Qed.

Lemma block_len_update h a b l :
  a ∉ l -> sum_list_with (block_len (<[a := b]> h)) l = sum_list_with (block_len h) l.
Proof.
  induction l as [|x l IH]; intros Ha; [done|]. apply not_elem_of_cons in Ha as [Hne Ha]. simpl.
  rewrite IH by done. unfold block_len. by rewrite list_lookup_insert_ne.
Qed.

Lemma reset_fresh cs : Forall chunk_ok cs -> Forall fresh (reset_chunk f <$> cs).
Proof.
  destruct Hcfg. intros H. apply Forall_fmap. eapply Forall_impl; [exact H|].
  intros c [Hl Hb]. unfold fresh, chunk_ok. simpl. split_and!; (done || lia).
Qed.

Lemma finish_inv w wr sent cont a b b' d l :
  winv w wr sent cont -> a ∈ uploads w -> cont !! a = Some d -> heap w !! a = Some b ->
  new_block b -> delFunc b' = DelRelease -> chunks b' = chunks b ->
  done_block (sent ++ [(a, l)]) a (with_chunks b' []) d ->
  exists w', run_delFunc f (set_heap w (heap w) (blocks w) (filter (fun x => x <> a) (uploads w))) a b' = (w', Ok tt) /\
    winv w' wr (sent ++ [(a, l)]) cont /\ own_chunks w' = own_chunks w /\
    cur_chunks w' = cur_chunks w /\ curChunk w' = curChunk w /\ curBlock w' = curBlock w /\ same_frame w w' /\
    uploads w' = filter (fun x => x <> a) (uploads w).
Proof.
  intros Hi Ha Hd Hb (_ & _ & _ & _ & Hok & _) Hdel Hch Hdone.
  pose proof Hi as [Hlen Hcont Hcount Hbl Hth Hp Hmax Hidle Hres Hcur HcB Hup Hfin].
  assert (NoDup (uploads w ++ finishedBlocks w)) as Hnd by (rewrite Hth; apply NoDup_seq).
  apply NoDup_app in Hnd as (Hnd & Hdis & _).
  pose proof (filter_remove a _ Hnd Ha) as Hperm.
  assert (a ∉ filter (fun x => x <> a) (uploads w)) as Hna by (intros [? _]%list_elem_of_filter; done).
  assert (held w = own_chunks w + sum_list_with (block_len (heap w)) (filter (fun x => x <> a) (uploads w))
            + length (chunks b))%nat as Eheld.
  { unfold held. rewrite (sum_list_with_perm _ _ _ Hperm). simpl. unfold block_len at 1. rewrite Hb. lia. }
  unfold run_delFunc. rewrite Hdel, Hch. simpl.
  destruct (release_all_spec (reset_chunk f <$> chunks b)
    (own_chunks w + sum_list_with (block_len (heap w)) (filter (fun x => x <> a) (uploads w))) (pool w))
    as (p & Ep & Hp' & Hm' & Hr').
  { eapply pool_inv_eq; [exact Hp|]. by rewrite length_fmap. }
  rewrite Ep. eexists. split; [done|]. split; [|split_and!; done].
  constructor; try done; simpl.
  - by rewrite length_insert.
  - by rewrite length_insert.
  - intros i. by rewrite length_insert.
  - rewrite length_insert, <- Hth. rewrite Hperm at 2. simpl. rewrite app_assoc.
    by rewrite <- Permutation_cons_append.
  - eapply pool_inv_eq; [exact Hp'|]. unfold held, own_chunks, cur_list, cur_chunks. simpl.
    by rewrite block_len_update.
  - congruence.
  - rewrite Hr'. apply Forall_app_2; [done|]. by apply reset_fresh.
  - intros a' d' [Hne Ha']%list_elem_of_filter Hd'.
    rewrite list_lookup_insert_ne by done. by apply Hup.
  - intros a' d' [Ha'|Ha'%list_elem_of_singleton]%elem_of_app Hd'.
    + destruct (Hfin a' d' Ha' Hd') as (b1 & Hb1 & Hdn). exists b1.
      rewrite list_lookup_insert_ne by (intros ->; by eapply Hdis). split; [done|]. by apply done_block_mono.
    + subst a'. rewrite Hd in Hd'. injection Hd' as <-. eexists. split; [|exact Hdone].
      apply list_lookup_insert_eq. apply lookup_lt_is_Some. by eexists.
Qed.

(** What running a pending goroutine does, when its upload comes to an end. *)
Lemma uploadBlock_inv w wr sent cont a uuid peer :
  winv w wr sent cont -> a ∈ uploads w ->
  (forall b b', heap w !! a = Some b -> Block_Close uuid b = (b', Ok tt) ->
     1 <= BI_PgId (blockInfo b') <= blockPgNum ->
     exists l r, uploadByEdge cp peer b' = (l, r) /\ (r = Ok tt \/ exists e, r = Err e)) ->
  exists w' l, uploadBlock f uuid (uploadByEdge cp peer) w a = (w', l, Ok tt) /\
    winv w' wr (sent ++ [(a, l)]) cont /\ own_chunks w' = own_chunks w /\
    cur_chunks w' = cur_chunks w /\ curChunk w' = curChunk w /\ curBlock w' = curBlock w /\ same_frame w w' /\
    uploads w' = filter (fun x => x <> a) (uploads w).
Proof.
  intros Hi Ha Hup.
  pose proof (threads_lt _ _ _ _ a Hi (or_introl Ha)) as Hlt. rewrite <- (i_len _ _ _ _ Hi) in Hlt.
  apply lookup_lt_is_Some in Hlt as [d Hd].
  destruct (i_uploads _ _ _ _ Hi a d Ha Hd) as (b & Hb & Hnew & Hbytes).
  destruct (Block_Close_new uuid b Hnew) as (b' & Ec & Hst & Hch & Hdel & Hpg & Hid & Hsz).
  destruct (new_block_bytes b Hnew) as [Hwf _]. rewrite <- Hch in Hwf.
  unfold uploadBlock. rewrite Hb, Ec. destruct (Hup b b' Hb Ec Hpg) as (l & r & Eu & Hr). rewrite Eu.
  destruct Hr as [->|[e ->]].
  - destruct (uploadByEdge_shape peer b' l Hwf Eu) as (n & pipe & Hpipe & Hn & Hl).
    destruct (finish_inv w wr sent cont a b (with_status b' FINISHED) d l) as (w' & Ew & Hrest); try done.
    + split_and!; simpl; try done; try lia; [congruence|]. right. split; [done|].
      exists l, n, pipe. split_and!; try done; [apply elem_of_app; right; by left|].
      rewrite Hl. do 3 f_equal. rewrite Hch, <- Hbytes. by apply new_block_split.
    + simpl in Ew |- *. rewrite Ew. by exists w', l.
  - destruct (finish_inv w wr sent cont a b (with_status b' FAILED) d l) as (w' & Ew & Hrest); try done.
    + split_and!; simpl; try done; try lia; [congruence|]. by left.
    + simpl in Ew |- *. rewrite Ew. by exists w', l.
Qed.

(** *** Closing *)

Lemma tail_bytes_le w wr sent cont :
  winv w wr sent cont -> room w -> (length (tail_bytes w) <= blockBytes f)%nat.
Proof.
  intros Hi [_ Hlt]. destruct (cur_chunks_ok _ _ _ _ Hi) as [Hok _]. unfold tail_bytes.
  pose proof (i_cur _ _ _ _ Hi) as Hc.
  pose proof (chunks_length _ (Forall_app_2 _ _ _ Hok Hc)) as Hl. rewrite length_app in Hl.
  assert (length (cur_list w) <= 1)%nat by (unfold cur_list; destruct (curChunk w); simpl; lia).
  unfold blockBytes. nia.
Qed.

Lemma commitCurChunk_close w wr sent cont :
  winv w wr sent cont -> room w -> Forall full (cur_chunks w) ->
  exists w1 cont1, commitCurChunk f w = (w1, Ok tt) /\ winv w1 wr sent cont1 /\ curChunk w1 = None /\
    same_frame w w1 /\ cont1 ++ opt_block (tail_bytes w1) = cont ++ opt_block (tail_bytes w).
Proof.
  intros Hi [Hroom Hlt] Hch. destruct (curChunk w) as [c|] eqn:Ec.
  2:{ exists w, cont. unfold commitCurChunk. by rewrite Ec. }
  destruct (commitCurChunk_inv w c wr sent cont Hi Ec) as (w1 & cont1 & E & Hi1 & Hc1 & Hfr & Hcase); try done.
  { unfold used. specialize (Hroom c eq_refl). lia. }
  exists w1, cont1. split_and!; try done.
  pose proof (i_content _ _ _ _ Hi) as Hw. pose proof (i_content _ _ _ _ Hi1) as Hw1.
  destruct Hcase as [(-> & _)|(-> & _ & _ & Hcb)].
  - rewrite <- Hw in Hw1. apply app_inv_head in Hw1. by rewrite Hw1.
  - assert (tail_bytes w1 = []) as Et.
    { unfold tail_bytes, cur_chunks, cur_list. by rewrite Hcb, Hc1. }
    rewrite Et in *.
    rewrite concat_app in Hw1. simpl in Hw1. rewrite !app_nil_r in *. rewrite <- Hw in Hw1.
    apply app_inv_head in Hw1. rewrite Hw1. unfold opt_block.
    assert (tail_bytes w <> []) as Hne; [|by destruct (tail_bytes w)].
    unfold tail_bytes, cur_list. rewrite Ec. simpl. rewrite chunks_bytes_snoc.
    intros [_ Hn]%app_nil. pose proof (i_cur _ _ _ _ Hi) as Hck. unfold cur_list in Hck. rewrite Ec in Hck.
    simpl in Hck. rewrite Forall_singleton in Hck. pose proof (chunk_ok_length c Hck) as Hl. rewrite Hn in Hl.
    specialize (Hroom c eq_refl). simpl in Hl. lia.
Qed.

Lemma Close_start_inv w wr sent cont :
  winv w wr sent cont -> reading w cont -> room w ->
  exists w' cont', Close_start f w = (w', Ok tt) /\ winv w' wr sent cont' /\ closed w' wr cont' /\
    same_frame (set_status w UPLOADING) w'.
Proof.
  intros Hi [Hst Hfull Hch Hg] Hroom. unfold Close_start. rewrite decide_False by (by intros []).
  destruct cfg_bytes as [_ HbB].
  destruct (commitCurChunk_close w wr sent cont Hi Hroom Hch) as (w1 & cont1 & E1 & Hi1 & Hc1 & Hfr1 & Ecat).
  rewrite E1. cbn [st_bind].
  destruct (commitCurBlock_inv w1 wr sent cont1 Hi1 Hc1) as (w2 & E2 & Hcb & Hown & Hfr2 & Hi2).
  rewrite E2. cbn [st_bind].
  rewrite Ecat in Hi2.
  eexists _, _. split; [done|].
  assert (same_frame w w2) as Hfr by (by eapply same_frame_trans).
  split; [|split].
  - destruct Hi2. constructor; done.
  - constructor; try done. rewrite <- (i_content _ _ _ _ Hi). rewrite split_blocks_eq; try done.
    by eapply tail_bytes_le.
  - unfold same_frame in *. simpl. intuition.
Qed.

End invariant.

(** ** Reachable states *)

Section reachable.
Context `{HR : HashRing, HRok : !HashRingOk, DG : Digests}.
Context (f : Factory) (cp : ClusterPipelines) (Hcfg : config_ok f).

(** What has been hashed and counted after the bytes [done]. *)
Definition counted (w : EcosWriter) (done : bytes) : Prop :=
  writeSize w = u64 (Z.of_nat (length done)) /\
  hashed w = match ObjectHashType (fConfig f) with HT_OFF => [] | _ => done end.

Definition call_inv (s : Sys) : Prop :=
  match sCall s with
  | None => counted (sw s) (sWritten s)
  | Some (p, rest) => wStatus (sw s) = READING /\ exists before n,
      sWritten s = before ++ take n p /\ rest = drop n p /\ counted (sw s) before
  end.

Record sys_inv (key : string) (s : Sys) (cont : list bytes) : Prop := {
  s_winv : winv f cp (sw s) (sWritten s) (sSent s) cont;
  s_phase : (reading f (sw s) cont /\ room f (sw s)) \/ closed f (sw s) (sWritten s) cont;
  s_call : call_inv s;
  s_single : partObject (sw s) = false /\ wKey (sw s) = key
}.

Lemma fresh_sys_inv key p term :
  newChunkPool f = Ok p -> sys_inv key (fresh_sys key p term) [].
Proof.
  intros Hp. destruct Hcfg. destruct (cfg_chunks f Hcfg) as [_ Hn]. unfold newChunkPool in Hp.
  assert (0 <= fUploadBuffer f `div` fChunkSize f) by (apply Z.div_pos; lia).
  assert (pool_inv 0 p) as Hinv. { eapply NewPool_inv; [|exact Hp]. lia. }
  unfold NewPool in Hp. destruct (decide _); [done|]. injection Hp as <-.
  constructor; simpl; try done.
  - constructor; simpl; try done.
    intros i. rewrite decide_False by lia. apply lookup_empty.
  - left. split; [constructor; try done; by left|]. split; [done|]. unfold cur_chunks. simpl. done.
  - split; [done|]. simpl. by destruct (ObjectHashType _).
Qed.

Lemma take_drop_extend {A} (p : list A) n m :
  take n p ++ take (length (drop n p) - length (drop m (drop n p))) (drop n p) = take (n + m) p.
Proof.
  rewrite drop_drop, !length_drop. rewrite <- (take_take_drop p n m).
  f_equal. destruct (decide (n + m <= length p)%nat).
  - f_equal. lia.
  - rewrite (take_ge (drop n p) m) by (rewrite length_drop; lia).
    rewrite take_ge; [done|]. rewrite length_drop. lia.
Qed.

Lemma counted_frame w w' d : same_frame w w' -> counted w d -> counted w' d.
Proof. unfold same_frame, counted. intuition congruence. Qed.

Lemma iter_preserves key w p rest wr sent w' rest' cont :
  sys_inv key (mkSys w (Some (p, rest)) wr sent) cont -> rest <> [] ->
  write_iter f w rest = (w', Ok rest') ->
  exists cont', sys_inv key (mkSys w' (Some (p, rest')) (wr ++ take (length rest - length rest') rest) sent) cont' /\
    (length rest' < length rest)%nat.
Proof.
  intros [Hi Hph [Hst (before & n & Hwr & Hrest & Hcnt)] Hs] Hne E. simpl in *.
  destruct Hph as [[Hr Hroom]|[Hst' _ _ _]]; [|congruence].
  destruct (write_iter_inv f cp Hcfg w wr sent cont rest Hi Hr Hroom Hne) as
    (w1 & m & cont' & E1 & Hm & Hi1 & Hr1 & Hroom1 & Hfr).
  { intros H0. unfold write_iter in E. apply st_bind_inv in E as (w2 & c & Ec & _).
    by eapply getCurChunk_ok_inv. }
  rewrite E in E1. injection E1 as <- ->.
  replace (length rest - length (drop m rest))%nat with m by (rewrite length_drop; lia).
  exists cont'. split; [|rewrite length_drop; lia]. constructor; simpl; try done.
  - by left.
  - split; [apply Hr1|]. exists before, (n + m)%nat. split_and!.
    + rewrite Hwr, Hrest, <- app_assoc. f_equal. by rewrite take_take_drop.
    + by rewrite Hrest, drop_drop.
    + by eapply counted_frame.
  - unfold same_frame in Hfr. intuition congruence.
Qed.

Lemma return_preserves key w p wr sent w' n cont :
  sys_inv key (mkSys w (Some (p, [])) wr sent) cont -> write_end f w p [] = (w', (n, None)) ->
  sys_inv key (mkSys w' None wr sent) cont /\ n = Z.of_nat (length p).
Proof.
  intros [Hi Hph [Hst (before & m & Hwr & Hrest & Hcnt & Hh)] Hs] E. simpl in *.
  unfold write_end in E. simpl in E. rewrite decide_False in E by lia. injection E as <- <-. split; [|done].
  assert (take m p = p) as Hp.
  { apply take_ge. symmetry in Hrest. apply (f_equal length) in Hrest. rewrite length_drop in Hrest. simpl in Hrest. lia. }
  rewrite Hp in Hwr.
  constructor; simpl; try done.
  - destruct Hi; constructor; done.
  - destruct Hph as [[[] Hroom]|[]]; [left|by right]. split; [by constructor|done].
  - split; simpl.
    + rewrite Hcnt, Hwr, length_app, Nat2Z.inj_add, Z.sub_0_r. unfold u64.
      by rewrite <- Zplus_mod.
    + unfold hash_write. rewrite Hh, Hwr. rewrite take_ge by lia. by destruct (ObjectHashType _).
Qed.

Lemma upload_preserves key w call wr sent a uuid peer w' l cont :
  sys_inv key (mkSys w call wr sent) cont -> a ∈ uploads w ->
  uploadBlock f uuid (uploadByEdge cp peer) w a = (w', l, Ok tt) ->
  sys_inv key (mkSys w' call wr (sent ++ [(a, l)])) cont /\
  (length (uploads w') < length (uploads w))%nat.
Proof.
  intros [Hi Hph Hcall Hs] Ha E. simpl in *.
  destruct (uploadBlock_inv f cp Hcfg w wr sent cont a uuid peer Hi Ha) as
    (w1 & l1 & E1 & Hi1 & Hown & Hcc & Hc & Hcb & Hfr & Hups).
  { intros b b' Hb Hcl _. unfold uploadBlock in E. rewrite Hb, Hcl in E.
    destruct (uploadByEdge cp peer b') as [l' [[]|e| |]]; try done; eexists _, _; split; try done; [by left|right; by eexists]. }
  rewrite E in E1. injection E1 as <- <-. split; [constructor; simpl|]; try done.
  - destruct Hph as [[[] []]|[]]; [left|right].
    + unfold same_frame in Hfr. split; [constructor; rewrite ?Hcc, ?Hown; try done; intuition congruence|].
      split; rewrite ?Hcc, ?Hc; done.
    + unfold same_frame in Hfr. constructor; rewrite ?Hown, ?Hcb; try done. intuition congruence.
  - unfold call_inv in *. simpl in *. destruct call as [[p rest]|]; [|by eapply counted_frame].
    destruct Hcall as (Hst & before & n & ? & ? & Hcnt). split; [unfold same_frame in Hfr; intuition congruence|].
    exists before, n. split_and!; try done. by eapply counted_frame.
  - unfold same_frame in Hfr. intuition congruence.
  - rewrite Hups. assert (NoDup (uploads w ++ finishedBlocks w)) as Hnd
      by (rewrite (i_threads _ _ _ _ _ _ Hi); apply NoDup_seq).
    apply NoDup_app in Hnd as [Hnd _]. rewrite (Permutation_length (filter_remove a _ Hnd Ha)) at 1. simpl. lia.
Qed.

Lemma step_preserves key s s' cont :
  sys_inv key s cont -> step f cp s s' -> exists cont', sys_inv key s' cont'.
Proof.
  intros Hs Hst. destruct Hst as [w p wr sent Hg|w p rest wr sent w' rest' Hne E|w p wr sent w' n E
    |w call wr sent a uuid peer w' l Ha E|w wr sent w' E].
  - exists cont. destruct Hs as [Hi Hph Hc Hs]. constructor; try done. simpl in *.
    unfold write_guard in Hg. destruct (partObject w); [done|]. destruct (decide _) as [|Hst%dec_stable]; [done|].
    split; [done|]. exists wr, 0%nat. by rewrite app_nil_r.
  - destruct (iter_preserves _ _ _ _ _ _ _ _ _ Hs Hne E) as (cont' & ? & _). by exists cont'.
  - exists cont. by eapply return_preserves.
  - exists cont. by eapply upload_preserves.
  - destruct Hs as [Hi Hph Hc Hs]. simpl in *.
    destruct Hph as [[Hr Hroom]|[Hst _ _ _]].
    + destruct (Close_start_inv f cp Hcfg w wr sent cont Hi Hr Hroom) as (w1 & cont' & E1 & Hi1 & Hcl & Hfr).
      rewrite E in E1. injection E1 as <-. exists cont'. unfold same_frame in Hfr. simpl in Hfr.
      constructor; simpl; try done; [by right| |intuition congruence].
      unfold call_inv, counted in *. simpl in *. intuition congruence.
    + unfold Close_start in E. rewrite decide_True in E by (rewrite Hst; done). done.
Qed.

Lemma reachable_inv key p term s :
  newChunkPool f = Ok p -> rtc (step f cp) (fresh_sys key p term) s -> exists cont, sys_inv key s cont.
Proof.
  intros Hp Hr. assert (forall s1 s2 cont, rtc (step f cp) s1 s2 -> sys_inv key s1 cont -> exists cont', sys_inv key s2 cont') as Hind.
  { intros s1 s2 cont Hrtc. revert cont. induction Hrtc as [|s1 s2 s3 Hst _ IH]; intros cont Hinv; [by exists cont|].
    destruct (step_preserves _ _ _ _ Hinv Hst) as [cont' Hinv']. by eapply IH. }
  eapply Hind; [exact Hr|]. by apply fresh_sys_inv.
Qed.

End reachable.

(** ** The end of [Close] *)

Section finish.
Context `{HR : HashRing, HRok : !HashRingOk, DG : Digests}.
Context (f : Factory) (cp : ClusterPipelines) (Hcfg : config_ok f).

Lemma ids_total b key pgNum : bucket_ok b -> 1 <= pgNum < 2 ^ 31 ->
  exists pg oid, GenObjPgID b key pgNum = Ok pg /\ GenObjectId b key = Ok oid.
Proof.
  intros (_ & _ & cfg & Hc & Hn) Hpg. unfold GenObjPgID, GenObjectId. rewrite Hc. cbn [or_panic mbind res_bind].
  destruct (CalculateSlot_range (CleanObjectKey key) _ Hn) as (s & -> & _).
  destruct (CalculateSlot_range (Trim sep (Clean key)) _ Hn) as (s' & -> & _).
  destruct (GenSlotPgID_range (BucketInfo_GetID b) s pgNum Hpg) as (pg & Hs & _). cbn [mbind res_bind].
  by eexists pg, _.
Qed.

Lemma size_of_blocks (m : gmap Z nat) (n : nat) :
  (forall i, m !! i = if decide (1 <= i <= Z.of_nat n) then Some (Z.to_nat (i - 1)) else None) ->
  size m = n.
Proof.
  intros Hm. rewrite <- (size_dom (D:=gset Z)).
  assert (dom m = list_to_set (seqZ 1 (Z.of_nat n)) :> gset Z) as ->.
  { apply set_eq. intros i. rewrite elem_of_dom, elem_of_list_to_set, elem_of_seqZ, Hm.
    destruct (decide _); split; intros Hx; try done; try lia; by destruct Hx. }
  rewrite size_list_to_set by apply NoDup_seqZ. rewrite length_seqZ. lia.
Qed.

Lemma collect_blocks_spec w :
  (forall i, blocks w !! i =
     if decide (1 <= i <= Z.of_nat (length (heap w))) then Some (Z.to_nat (i - 1)) else None) ->
  collect_blocks w (seqZ 1 (Z.of_nat (size (blocks w)))) = Ok (blockInfo <$> heap w).
Proof.
  intros Hm. rewrite (size_of_blocks _ _ Hm).
  assert (forall h k, heap w = k ++ h ->
    collect_blocks w (seqZ (1 + Z.of_nat (length k)) (Z.of_nat (length h))) = Ok (blockInfo <$> h)) as Hgen.
  { induction h as [|b h IH]; intros k Hk; [done|].
    rewrite seqZ_cons by (simpl; lia). simpl collect_blocks. rewrite Hm, Hk, length_app.
    rewrite decide_True by (simpl; lia). cbn [or_panic mbind res_bind].
    replace (Z.to_nat (1 + Z.of_nat (length k) - 1)) with (length k) by lia.
    rewrite lookup_app_r, Nat.sub_diag by lia. cbn [lookup list_lookup or_panic mbind res_bind].
    specialize (IH (k ++ [b])). rewrite length_app in IH. simpl length in IH |- *.
    replace (Z.succ (1 + Z.of_nat (length k))) with (1 + Z.of_nat (length k + 1)) by lia.
    replace (Z.pred (Z.of_nat (S (length h)))) with (Z.of_nat (length h)) by lia.
    rewrite IH; [done|]. by rewrite <- app_assoc. }
  apply (Hgen (heap w) []). done.
Qed.

(** Every block is done: sizes and data of all of them. *)
Lemma all_done w wr sent cont :
  winv f cp w wr sent cont -> uploads w = [] ->
  Forall2 (fun b d => BI_BlockSize (blockInfo b) = Z.of_nat (length d)) (heap w) cont /\
  forall i b, heap w !! i = Some b -> exists d, cont !! i = Some d /\ done_block f cp sent i b d.
Proof.
  intros Hi Hu. assert (forall i b, heap w !! i = Some b -> exists d, cont !! i = Some d /\ done_block f cp sent i b d) as Hall.
  { intros i b Hb. pose proof (lookup_lt_Some _ _ _ Hb) as Hlt. rewrite <- (i_len _ _ _ _ _ _ Hi) in Hlt.
    apply lookup_lt_is_Some in Hlt as [d Hd]. exists d. split; [done|].
    assert (i ∈ finishedBlocks w) as Hin.
    { pose proof (i_threads _ _ _ _ _ _ Hi) as Hth. rewrite Hu in Hth. simpl in Hth. rewrite Hth.
      apply elem_of_seq. rewrite <- (i_len _ _ _ _ _ _ Hi). apply lookup_lt_Some in Hd. lia. }
    destruct (i_finished _ _ _ _ _ _ Hi i d Hin Hd) as (b' & Hb' & Hdn). congruence. }
  split; [|done]. apply Forall2_same_length_lookup. split; [by rewrite (i_len _ _ _ _ _ _ Hi)|].
  intros i b d Hb Hd. destruct (Hall i b Hb) as (d' & Hd' & Hdn & _). congruence.
Qed.

Lemma Close_finish_spec key s cont now submit :
  sys_inv f cp key s cont -> bucket_ok (fBucket f) -> wStatus (sw s) = UPLOADING -> uploads (sw s) = [] ->
  Z.of_nat (length (sWritten s)) < 2 ^ 64 -> (forall m, submit m = Ok tt) ->
  exists w' meta pg, Close_finish f now submit (sw s) = (w', Ok meta) /\ wStatus w' = FINISHED /\
    GenObjectId (fBucket f) key = Ok (ObjId meta) /\ GenObjPgID (fBucket f) key 10 = Ok pg /\ PgId meta = pg /\
    ObjSize meta = Z.of_nat (length (sWritten s)) /\
    Blocks meta = blockInfo <$> heap (sw s) /\
    BI_BlockSize <$> Blocks meta = Z.of_nat ∘ length <$> split_blocks (blockBytes f) (sWritten s) /\
    ObjHash meta = match ObjectHashType (fConfig f) with HT_OFF => "" | h => hex_digest h (sWritten s) end /\
    cont = split_blocks (blockBytes f) (sWritten s).
Proof.
  intros [Hi Hph Hcall [_ Hkey]] Hb Hst Hu Hlen Hsub.
  destruct Hph as [[[] _]|[_ Hsplit Hcb Hown]]; [congruence|].
  destruct (ids_total (fBucket f) key 10 Hb ltac:(lia)) as (pg & oid & Hpg & Hoid).
  destruct (all_done _ _ _ _ Hi Hu) as [Hsz _].
  assert (length (finishedBlocks (sw s)) = length (heap (sw s))) as Hfin.
  { pose proof (i_threads _ _ _ _ _ _ Hi) as Hth. rewrite Hu in Hth. apply Permutation_length in Hth.
    by rewrite length_seq in Hth. }
  pose proof (i_count _ _ _ _ _ _ Hi) as Hcount. rewrite Hcb in Hcount.
  unfold Close_finish, receive_blocks. rewrite decide_True by lia. cbn [st_bind pure].
  unfold genMeta. cbn [wKey set_finished blocks heap]. rewrite Hkey, Hpg, Hoid. cbn [mbind res_bind].
  match goal with |- context [collect_blocks ?w' _] =>
    pose proof (collect_blocks_spec w' (i_blocks _ _ _ _ _ _ Hi)) as Hcol end.
  cbn [blocks heap set_finished] in Hcol. rewrite Hcol.
  cbn [mbind res_bind st_bind]. rewrite Hsub. cbn [st_bind].
  assert (sCall s = None) as Hnone.
  { unfold call_inv in Hcall. destruct (sCall s) as [[]|]; [|done]. destruct Hcall. congruence. }
  unfold call_inv in Hcall. rewrite Hnone in Hcall. destruct Hcall as [Hws Hh].
  eexists _, _, pg. split; [done|]. simpl. split_and!; try done.
  - rewrite Hws. apply u64_id. unfold is_u64. lia.
  - rewrite <- Hsplit, <- list_fmap_compose. apply list_eq_Forall2, Forall2_fmap.
    eapply Forall2_impl; [exact Hsz|]. done.
  - unfold object_digest. simpl. rewrite Hh. by destruct (ObjectHashType (fConfig f)).
Qed.

End finish.

(** ** Progress *)

Section progress.
Context `{HR : HashRing, HRok : !HashRingOk, DG : Digests}.
Context (f : Factory) (cp : ClusterPipelines) (Hcfg : config_ok f).

(** Every block group of the client has a pipeline. *)
Definition blocks_routed : Prop :=
  forall pg, 1 <= pg <= blockPgNum -> exists p, pipeline_at (BlockPipelines cp) pg = Ok p.

(** The info agent knows every node. *)
Definition peers_known (peer : string -> Peer) : Prop := forall n, is_Some (peer_info (peer n)).

Lemma send_chunks_total (c : Conn) cs : forall k acc,
  Forall chunk_wf cs -> exists l r, send_chunks c k cs acc = (l, r) /\ ((exists n, r = Ok n) \/ exists e, r = Err e).
Proof.
  induction cs as [|ch cs IH]; intros k acc Hwf; simpl; [eexists _, _; split; [done|left; by eexists]|].
  inv Hwf. rewrite chunk_content_wf by done. destruct (send_fails _).
  - eexists _, _. split; [done|right; by eexists].
  - destruct (IH (S k) (u64 (acc + chunk_used ch)) ltac:(done)) as (l & r & -> & Hr). by eexists _, r.
Qed.

Lemma uploadByStream_total b pipe c : Forall chunk_wf (chunks b) ->
  exists l r, uploadByStream b pipe c = (l, r) /\ (r = Ok tt \/ exists e, r = Err e).
Proof.
  intros Hwf. unfold uploadByStream. destruct (send_fails _); [eexists _, _; split; [done|right; by eexists]|].
  destruct (send_chunks_total c (chunks b) 1 0 Hwf) as (l & r & -> & [[n ->]|[e ->]]).
  2:{ eexists _, _; split; [done|right; by eexists]. }
  destruct (decide _); [eexists _, _; split; [done|right; by eexists]|].
  destruct (send_fails _); [eexists _, _; split; [done|right; by eexists]|].
  destruct (recv_err c); eexists _, _; (split; [done|]); [right; by eexists|by left].
Qed.

Lemma upload_nodes_total b pipe peer nodes :
  Forall chunk_wf (chunks b) -> peers_known peer ->
  exists l r, upload_nodes b pipe peer nodes = (l, r) /\ (r = Ok tt \/ exists e, r = Err e).
Proof.
  intros Hwf Hp. induction nodes as [|n nodes (l & r & E & Hr)]; simpl.
  { eexists _, _; split; [done|right; by eexists]. }
  destruct (Hp n) as [i ->]. destruct (conn_err _); [by exists l, r|]. destruct (open_err _); [by exists l, r|].
  destruct (uploadByStream_total b pipe (peer_conn (peer n)) Hwf) as (l' & r' & -> & [->|[e ->]]).
  - eexists _, _; split; [done|by left].
  - rewrite E. by eexists _, r.
Qed.

Lemma upload_enabled w wr sent cont a uuid peer :
  blocks_routed -> peers_known peer -> winv f cp w wr sent cont -> a ∈ uploads w ->
  exists w' l, uploadBlock f uuid (uploadByEdge cp peer) w a = (w', l, Ok tt).
Proof.
  intros Hr Hp Hi Ha.
  destruct (uploadBlock_inv f cp Hcfg w wr sent cont a uuid peer Hi Ha) as (w' & l & E & _); [|by exists w', l].
  intros b b' Hb Hcl Hpg.
  pose proof (threads_lt f cp _ _ _ _ a Hi (or_introl Ha)) as Hlt. rewrite <- (i_len _ _ _ _ _ _ Hi) in Hlt.
  apply lookup_lt_is_Some in Hlt as [d Hd].
  destruct (i_uploads _ _ _ _ _ _ Hi a d Ha Hd) as (b0 & Hb0 & Hnew & _). rewrite Hb in Hb0. injection Hb0 as <-.
  destruct (Block_Close_new f Hcfg uuid b Hnew) as (b1 & Hcl1 & _ & Hch & _).
  rewrite Hcl in Hcl1. injection Hcl1 as <-.
  destruct (Hr _ Hpg) as [pipe Hpipe]. unfold uploadByEdge, GetBlockPGNodeID, GetBlockPipeline. rewrite Hpipe. simpl.
  apply upload_nodes_total; [|done]. rewrite Hch. by apply (new_block_bytes f Hcfg).
Qed.

Lemma iter_enabled key w p rest wr sent cont :
  sys_inv f cp key (mkSys w (Some (p, rest)) wr sent) cont -> rest <> [] -> uploads w = [] ->
  exists w' rest', write_iter f w rest = (w', Ok rest').
Proof.
  intros [Hi Hph [Hst _] _] Hne Hu. simpl in *.
  destruct Hph as [[Hr Hroom]|[Hst' _ _ _]]; [|congruence].
  destruct (write_iter_inv f cp Hcfg w wr sent cont rest Hi Hr Hroom Hne) as (w' & n & cont' & E & _); [|by eexists _, _].
  intros _. unfold uploading. rewrite Hu. simpl. rewrite (i_max _ _ _ _ _ _ Hi). by apply cfg_pool.
Qed.

(** Steps that neither start a [Write] nor close the writer. *)
Definition internal (s s' : Sys) : Prop :=
  step f cp s s' /\ wStatus (sw s') = wStatus (sw s) /\ (sCall s = None -> sCall s' = None).

(** A network on which every upload succeeds. *)
Definition good_peer (_ : string) : Peer :=
  mkPeer (Some (mkNodeInfo 0 "" "" 0 0 NS_ONLINE)) (mkConn None None (fun _ => None) None).

Lemma internal_progress key s cont :
  blocks_routed -> sys_inv f cp key s cont -> sCall s <> None \/ uploads (sw s) <> [] -> exists s', internal s s'.
Proof.
  intros Hr Hinv Hbusy. destruct s as [w call wr sent]. simpl in *.
  destruct (uploads w) as [|a ups] eqn:Eu.
  - destruct call as [[p rest]|]; [|by destruct Hbusy]. destruct rest as [|x rest].
    + destruct (write_end f w p []) as [w' [n o]] eqn:E. pose proof E as E'.
      unfold write_end in E'. simpl in E'. rewrite decide_False in E' by lia. injection E' as <- <- <-.
      eexists. split; [by eapply step_return|]. done.
    + destruct (iter_enabled key w p (x :: rest) wr sent cont Hinv ltac:(done) Eu) as (w' & rest' & E).
      destruct (iter_preserves f cp Hcfg _ _ _ _ _ _ _ _ _ Hinv ltac:(done) E) as (cont' & Hinv' & _).
      eexists. split; [by eapply step_iter|]. split; [|done].
      destruct (s_call _ _ _ _ _ Hinv) as [E1 _]. destruct (s_call _ _ _ _ _ Hinv') as [E2 _].
      simpl in *. congruence.
  - destruct (upload_enabled w wr sent cont a "" good_peer Hr ltac:(by eexists) (s_winv _ _ _ _ _ Hinv)) as (w' & l & E).
    { rewrite Eu. by left. }
    eexists. split; [eapply step_upload; [|exact E]; rewrite Eu; by left|]. split; [|done]. simpl.
    destruct (uploadBlock_inv f cp Hcfg w wr sent cont a "" good_peer (s_winv _ _ _ _ _ Hinv)) as (w1 & l1 & E1 & _ & _ & _ & _ & _ & Hfr & _).
    + rewrite Eu. by left.
    + intros b b' Hb Hcl _. unfold uploadBlock in E. rewrite Hb, Hcl in E.
      destruct (uploadByEdge cp good_peer b') as [l' [[]|e| |]]; try done;
        eexists _, _; split; try done; [by left|right; by eexists].
    + rewrite E in E1. injection E1 as <- <-. apply Hfr.
Qed.

Definition call_size (s : Sys) : nat :=
  match sCall s with None => 0 | Some (_, rest) => S (length rest) end.

Lemma internal_decreases key s s' cont :
  sys_inv f cp key s cont -> internal s s' ->
  (call_size s' < call_size s)%nat \/
  (call_size s' = call_size s /\ length (uploads (sw s')) < length (uploads (sw s)))%nat.
Proof.
  intros Hinv [Hst [Hstatus Hnone]]. unfold call_size.
  destruct Hst as [w p wr sent Hg|w p rest wr sent w' rest' Hne E|w p wr sent w' n E
    |w call wr sent a uuid peer w' l Ha E|w wr sent w' E]; simpl in *.
  - by specialize (Hnone eq_refl).
  - left. destruct (iter_preserves f cp Hcfg _ _ _ _ _ _ _ _ _ Hinv Hne E) as (_ & _ & ?). lia.
  - left. lia.
  - right. split; [done|]. by destruct (upload_preserves f cp Hcfg _ _ _ _ _ _ _ _ _ _ _ Hinv Ha E).
  - exfalso. unfold Close_start in E. destruct (decide _) as [|Hrd%dec_stable]; [done|].
    apply st_bind_inv in E as (w1 & [] & _ & E). apply st_bind_inv in E as (w2 & [] & _ & E).
    injection E as <-. simpl in Hstatus. congruence.
Qed.

Lemma internal_acc key : forall n m s cont,
  call_size s = n -> length (uploads (sw s)) = m -> sys_inv f cp key s cont -> Acc (flip internal) s.
Proof.
  induction n as [n IHn] using lt_wf_ind. induction m as [m IHm] using lt_wf_ind.
  intros s cont Hn Hm Hinv. constructor. intros s' Hst.
  destruct (step_preserves f cp Hcfg _ _ _ _ Hinv (proj1 Hst)) as [cont' Hinv'].
  destruct (internal_decreases _ _ _ _ Hinv Hst) as [Hlt|[Heq Hlt]].
  - eapply IHn; [|done|done|exact Hinv']. lia.
  - eapply IHm; [|congruence|done|exact Hinv']. lia.
Qed.

End progress.

(** ** [Write] run alone is one of the schedules *)

Section alone.
Context `{HR : HashRing, DG : Digests}.
Context (f : Factory) (cp : ClusterPipelines).

Lemma write_iter_drop w rest w' rest' :
  write_iter f w rest = (w', Ok rest') -> exists n, rest' = drop n rest /\ (n <= length rest)%nat.
Proof.
  unfold write_iter. intros E. apply st_bind_inv in E as (w1 & c & _ & E).
  destruct (decide _); [done|]. destruct (copy_at _ _ _) as [d k] eqn:Ec.
  apply st_bind_inv in E as (w2 & [] & _ & E). injection E as <- <-. exists k. split; [done|].
  unfold copy_at in Ec. injection Ec as <- <-. lia.
Qed.

Lemma write_loop_run p wr sent fuel : forall w rest w',
  write_loop f fuel w rest = (w', [], Ok tt) ->
  rtc (step f cp) (mkSys w (Some (p, rest)) wr sent) (mkSys w' (Some (p, [])) (wr ++ rest) sent).
Proof.
  revert wr. induction fuel as [|fuel IH]; intros wr w [|x rest] w' E; simpl in E; try done.
  - injection E as <-. by rewrite app_nil_r.
  - injection E as <-. by rewrite app_nil_r.
  - destruct (write_iter f w (x :: rest)) as [w1 [rest'| | |]] eqn:Ei; try done.
    destruct (write_iter_drop _ _ _ _ Ei) as (n & -> & Hn).
    eapply rtc_l; [by eapply step_iter|].
    eapply (IH (wr ++ take (length (x :: rest) - length (drop n (x :: rest))) (x :: rest))) in E.
    replace (wr ++ x :: rest) with
      ((wr ++ take (length (x :: rest) - length (drop n (x :: rest))) (x :: rest)) ++ drop n (x :: rest)); [exact E|].
    rewrite <- app_assoc. f_equal. rewrite length_drop.
    replace (length (x :: rest) - (length (x :: rest) - n))%nat with n by lia. apply take_drop.
Qed.

Lemma Write_run w p wr sent w' n :
  Write f w p = (w', Ok (n, None)) ->
  rtc (step f cp) (mkSys w None wr sent) (mkSys w' None (wr ++ p) sent).
Proof.
  unfold Write. intros E. destruct (write_guard w) eqn:Eg; [done|].
  destruct (write_loop f (length p) w p) as [[w1 rest] [[]| | |]] eqn:El; try done.
  assert (rest = []) as ->.
  { destruct (write_end f w1 p rest) as [w2 r] eqn:Ee. injection E as <- ->.
    unfold write_end in Ee. destruct (decide _) as [|Hd]; [done|].
    destruct rest; [done|]. simpl in Hd. lia. }
  destruct (write_end f w1 p []) as [w2 r] eqn:Ee. injection E as <- ->.
  eapply rtc_l; [by apply step_call|]. eapply rtc_r; [by eapply write_loop_run|]. by eapply step_return.
Qed.

End alone.

(** ** A small run

    Chunks of 2 bytes, blocks of 4, a buffer of 8; five bytes are written, the
    writer is closed and the second block is uploaded before the first. *)

Definition demo_factory : Factory :=
  mkFactory 2 8 default_bucket (mkBucketConfig 5 4 false false false HT_SHA256 HT_OFF).

Definition demo_pipes : ClusterPipelines :=
  match @NewClusterPipelines first_crush small_cluster with Ok cp => cp | _ => mkClusterPipelines 0 [] [] end.

Definition demo_digests : Digests := fun _ d => FormatUint (Z.of_nat (length d)).

Definition demo_pool : Pool localChunk := mkPool [] 4 0 0 4.

Definition demo_data : bytes := [x01; x02; x03; x04; x05].

Definition demo_w1 : EcosWriter := (Write demo_factory (GetEcosWriter "a/b" demo_pool 7) demo_data).1.
Definition demo_w2 : EcosWriter := (Close_start demo_factory demo_w1).1.
Definition demo_up (id : string) (w : EcosWriter) (a : nat) :=
  @uploadBlock length_ring demo_digests demo_factory id (uploadByEdge demo_pipes good_peer) w a.
Definition demo_w3 : EcosWriter := (demo_up "id-2" demo_w2 1).1.1.
Definition demo_w4 : EcosWriter := (demo_up "id-1" demo_w3 0).1.1.

Definition demo_sys : Sys :=
  mkSys demo_w4 None demo_data [(1%nat, (demo_up "id-2" demo_w2 1).1.2); (0%nat, (demo_up "id-1" demo_w3 0).1.2)].

Lemma demo_reachable :
  rtc (@step length_ring demo_digests demo_factory demo_pipes) (fresh_sys "a/b" demo_pool 7) demo_sys.
Proof.
  etrans.
  { eapply (@Write_run length_ring demo_digests demo_factory demo_pipes _ demo_data). vm_compute. reflexivity. }
  eapply rtc_l; [apply step_close; vm_compute; reflexivity|].
  eapply rtc_l; [apply (@step_upload length_ring demo_digests _ _ _ _ _ _ 1 "id-2" good_peer);
    [|vm_compute; reflexivity]; right; left|].
  eapply rtc_l; [apply (@step_upload length_ring demo_digests _ _ _ _ _ _ 0 "id-1" good_peer);
    [|vm_compute; reflexivity]; left|].
  vm_compute. apply rtc_refl.
Qed.

Lemma demo_config : config_ok demo_factory.
Proof. constructor; simpl; lia. Qed.

Lemma demo_routed : blocks_routed demo_pipes.
Proof.
  intros pg Hpg. unfold blockPgNum in Hpg.
  assert (forallb (fun i => match pipeline_at (BlockPipelines demo_pipes) i with Ok _ => true | _ => false end)
    (seqZ 1 100) = true) as Hall by (vm_compute; reflexivity).
  assert (In pg (seqZ 1 100)) as Hin by (apply list_elem_of_In, elem_of_seqZ; lia).
  pose proof (proj1 (List.forallb_forall _ _) Hall pg Hin) as Hp. simpl in Hp.
  destruct (pipeline_at _ pg) as [p| | |] eqn:E; try done. by exists p.
Qed.

(** ** Properties *)



(** C25: the writer and its goroutines never deadlock and never run for ever: if
    the buffer holds one block, from every reachable state each run of loop
    iterations and uploads is finite, some step is possible as long as a [Write]
    is in progress or an upload is pending, and a pending upload can always be
    run to its end, against any network in which the nodes are known. *)
Theorem writer_terminates `{HashRing, !HashRingOk, Digests}
    (f : Factory) (cp : ClusterPipelines) key p term s :
  config_ok f -> blocks_routed cp -> newChunkPool f = Ok p ->
  rtc (step f cp) (fresh_sys key p term) s ->
  Acc (flip (internal f cp)) s /\
  (sCall s <> None \/ uploads (sw s) <> [] -> exists s', internal f cp s s') /\
  (forall a uuid peer, a ∈ uploads (sw s) -> peers_known peer ->
     exists w' l, uploadBlock f uuid (uploadByEdge cp peer) (sw s) a = (w', l, Ok tt)).
Proof.
  intros Hcfg Hrt Hp Hr. destruct (reachable_inv f cp Hcfg key p term s Hp Hr) as [cont Hinv].
  split; [by eapply internal_acc|]. split; [by eapply internal_progress|].
  intros a uuid peer Ha Hk. eapply upload_enabled; try done. apply Hinv.
Qed.

Lemma writer_terminates_witness :
  Acc (flip (@internal length_ring demo_digests demo_factory demo_pipes)) demo_sys.
Proof.
  exact (proj1 (@writer_terminates length_ring length_ring_ok demo_digests demo_factory demo_pipes "a/b" demo_pool 7
    demo_sys demo_config demo_routed eq_refl demo_reachable)).
Defined.

(** [Abort] waits for one goroutine too many when a block has been started:
    in every reachable state with a current block, also after all pending uploads
    are done, it blocks for ever. *)
Theorem abort_blocks `{HashRing, !HashRingOk, Digests}
    (f : Factory) (cp : ClusterPipelines) key p term s :
  config_ok f -> newChunkPool f = Ok p -> rtc (step f cp) (fresh_sys key p term) s ->
  curBlock (sw s) <> None -> (Abort (sw s)).2 = Stuck.
Proof.
  intros Hcfg Hp Hr Hcb. destruct (reachable_inv f cp Hcfg key p term s Hp Hr) as [cont Hinv].
  destruct Hinv as [Hi Hph _ _]. destruct Hph as [[Hrd _]|[_ _ Hnone _]]; [|done].
  unfold Abort. rewrite decide_False by (rewrite (r_status _ _ _ Hrd); by intros []).
  unfold receive_blocks. simpl. rewrite decide_False; [done|].
  rewrite (i_count _ _ _ _ _ _ Hi). destruct (curBlock (sw s)); [|done].
  pose proof (Permutation_length (i_threads _ _ _ _ _ _ Hi)) as Hl. rewrite length_app, length_seq in Hl. lia.
Qed.

(** One chunk of a block of two. *)
Definition demo_started : Sys :=
  mkSys (Write demo_factory (GetEcosWriter "a/b" demo_pool 7) [x01; x02]).1 None ([] ++ [x01; x02]) [].

Lemma demo_started_reachable :
  rtc (@step length_ring demo_digests demo_factory demo_pipes) (fresh_sys "a/b" demo_pool 7) demo_started.
Proof. eapply (@Write_run length_ring demo_digests demo_factory demo_pipes). vm_compute. reflexivity. Qed.

Lemma abort_blocks_witness : (Abort (sw demo_started)).2 = Stuck.
Proof.
  apply (@abort_blocks length_ring length_ring_ok demo_digests demo_factory demo_pipes "a/b" demo_pool 7
    demo_started demo_config eq_refl demo_started_reachable).
  vm_compute. discriminate.
Defined.

(** A network on which no connection is made. *)
Definition dead_peer (_ : string) : Peer :=
  mkPeer (Some (mkNodeInfo 0 "" "" 0 0 NS_ONLINE)) (mkConn (Some (EExt "refused")) None (fun _ => None) None).

(** a failed upload is not reported: with every node unreachable, [Write] and
    [Close] both succeed and the metadata lists a block that no node was sent. *)
Theorem failed_upload_committed :
  let w1 := Write demo_factory (GetEcosWriter "a/b" demo_pool 7) [x01] in
  let w2 := Close_start demo_factory w1.1 in
  let w3 := @uploadBlock length_ring demo_digests demo_factory "id" (uploadByEdge demo_pipes dead_peer) w2.1 0 in
  let w4 := @Close_finish length_ring demo_digests demo_factory (mkTimestamp 0 0) (fun _ => Ok tt) w3.1.1 in
  w1.2 = Ok (1, None) /\ w2.2 = Ok tt /\ w3.2 = Ok tt /\ w3.1.2 = [] /\
  match w4.2 with Ok meta => BI_BlockSize <$> Blocks meta = [1] | _ => False end /\
  wStatus w4.1 = FINISHED /\ status <$> heap w4.1 = [FAILED].
Proof. vm_compute. repeat split. Qed.
