(* ===== verification/Multipart.v ===== *)
(** * Multipart uploads: [src/client/io/ecos_writer.go], [src/client/io/ecos_io.go]

    A writer in part mode keeps one block per part number; parts may be written
    in any order and again. The job table of the factory maps upload identifiers
    to writers. The state of an operation is the writer and the log of blocks it
    asked a storage node to delete. *)

From S2P Require Import Prelude Errno GoStd Infos Object Pipeline Pool GaiaMsg Block Writer WriterProofs.

(** ** Part numbers *)

(** Ordered insertion; [false] when the number is already there. *)
Fixpoint insert_part (partID : Z) (ids : list Z) : list Z * bool :=
  match ids with
  | [] => ([partID], true)
  | id :: rest =>
      if decide (partID = id) then (ids, false)
      else if decide (partID < id) then (partID :: ids, true)
      else let '(l, b) := insert_part partID rest in (id :: l, b)
  end.

Definition addPartID (w : EcosWriter) (partID : Z) : EcosWriter * bool :=
  let '(l, b) := insert_part partID (partIDs w) in (set_parts w l, b).

(** ** Parts *)

Definition MState : Type := EcosWriter * list string.

Definition set_part_block (w : EcosWriter) (partID : Z) (b : Block) : EcosWriter :=
  set_heap w (heap w ++ [b]) (<[partID := length (heap w)]> (blocks w)) (uploads w).

Definition set_hashed (w : EcosWriter) (h : bytes) : EcosWriter := set_written w (writeSize w) h.

Definition del_block (w : EcosWriter) (partID : Z) : EcosWriter :=
  set_heap w (heap w) (delete partID (blocks w)) (uploads w).

Section multipart.
Context `{HR : HashRing, DG : Digests}.
Context (f : Factory) (cp : ClusterPipelines).

(** Looking the node of a block up and connecting to it ([None]: fine), then the
    answer of [DeleteBlock]. *)
Record Deletion := mkDeletion { del_conn : option error; del_reply : res Result }.

(** [victim.Abort(client)] behind its node lookup; a block without a placement
    group has no node. *)
Definition delete_part (d : Deletion) (m : MState) (b : Block) : MState * res unit :=
  do m, nodes <- pure m (GetBlockPGNodeID cp (BI_PgId (blockInfo b)));
  do m, _ <- pure m (or_panic (head nodes));
  match del_conn d with
  | Some e => (m, Err e)
  | None => pure (m.1, m.2 ++ [BlockId (blockInfo b)]) (Block_Abort (del_reply d))
  end.

(** One [reader.Read] per element: the bytes it put into the buffer, and its error. *)
Definition Reader : Type := list (bytes * option error).

(** The read loop: the chunks made, the bytes hashed, and how it ended. *)
Fixpoint read_part (r : Reader) : list localChunk * bytes * res unit :=
  match r with
  | [] => ([], [], Stuck)
  | (d, e) :: r' =>
      let c := mkChunk d 0 in
      match e with
      | Some EEOF => ([c], d, Ok tt)
      | Some e => ([c], d, Err e)
      | None => let '(cs, h, x) := read_part r' in (c :: cs, d ++ h, x)
      end
  end.

Definition sizes (cs : list localChunk) : Z :=
  foldl (fun acc c => u64 (acc + Z.of_nat (length (data c)))) 0 cs.

Definition new_part (w : EcosWriter) (partID : Z) : Block :=
  mkBlock (mkBlockInfo "" partID 0 "" 0) READING [] (wTerm w) partID HT_OFF DelDrop.

(** The block of a part that is there already is deleted, by the call and once
    more by a goroutine. *)
Definition replace_part (d : Deletion) (m : MState) (partID : Z) : MState * res unit :=
  let '(w, noDuplicate) := addPartID m.1 partID in
  if noDuplicate then ((w, m.2), Ok tt)
  else
    do m, a <- pure (w, m.2) (or_panic (blocks w !! partID));
    do m, victim <- pure m (or_panic (heap m.1 !! a));
    do m, _ <- delete_part d m victim;
    ((del_block m.1 partID, m.2 ++ [BlockId (blockInfo victim)]), Ok tt).

Definition WritePart (uuid : string) (d : Deletion) (m : MState) (partID : Z) (reader : Reader)
    : MState * res string :=
  if negb (partObject m.1) then (m, Err (EErrno MethodNotAllowed))
  else if decide (wStatus m.1 <> READING) then (m, Err (EErrno RepeatedClose))
  else if decide (partID < 1 \/ 10000 < partID) then (m, Err (EErrno InvalidArgument))
  else
    do m, _ <- replace_part d m partID;
    match ObjectHashType (fConfig f), reader with
    | HT_OFF, (d, _) :: _ =>                                       (* objHash is nil *)
        ((set_part_block m.1 partID (with_chunks (new_part m.1 partID) [mkChunk d 0]), m.2), Panic)
    | _, _ =>
        let '(cs, h, r) := read_part reader in
        let b := with_chunks (new_part m.1 partID) cs in
        let a := length (heap m.1) in
        let w := set_hashed m.1 (hashed m.1 ++ h) in
        do m, _ <- pure (set_part_block w partID b, m.2) r;
        let sized := with_info b (mkBlockInfo "" partID (sizes cs) "" 0) in
        match updateBlockInfo uuid (with_status sized UPLOADING) with
        | (b, Ok _) =>
            let w := m.1 in
            ((set_heap w (<[a := b]> (heap w)) (blocks w) (uploads w ++ [a]), m.2), Ok (BlockId (blockInfo b)))
        | (b, Err e) => (m, Err e)
        | (b, Panic) => (m, Panic)
        | (b, Stuck) => (m, Stuck)
        end
    end.

(** ** Listing *)

Definition part_block (w : EcosWriter) (partID : Z) : res Block :=
  a ← or_panic (blocks w !! partID); or_panic (heap w !! a).

Fixpoint part_blocks (w : EcosWriter) (ids : list Z) : res (list Block) :=
  match ids with
  | [] => Ok []
  | i :: ids' => b ← part_block w i; l ← part_blocks w ids'; Ok (b :: l)
  end.

Record Part := mkPart { ETag : string; PartNumber : Z; PartSize : Z }.

Definition ListParts (w : EcosWriter) : res (list Part) :=
  bs ← part_blocks w (partIDs w);
  Ok (zip_with (fun id b => mkPart (BlockId (blockInfo b)) id (i64 (BI_BlockSize (blockInfo b)))) (partIDs w) bs).

Definition GetPartBlockInfo (w : EcosWriter) (partID : Z) : res BlockInfo :=
  if negb (partObject w) then Err (EErrno MethodNotAllowed)
  else if decide (wStatus w <> READING) then Err (EErrno MethodNotAllowed)
  else if decide (partID < 0 \/ i32 (Z.of_nat (length (partIDs w))) <= partID) then Err (EErrno InvalidArgument)
  else match blocks w !! partID with
       | None => Err (EErrno InvalidPart)
       | Some a =>
           b ← or_panic (heap w !! a);
           if decide (status b <> FINISHED) then Err (EErrno InvalidObjectState) else Ok (blockInfo b)
       end.

(** ** Completion *)

(** The hash state is reset and fed with the block hashes as text. *)
Definition genPartialHash (w : EcosWriter) (bs : list Block) : EcosWriter * string :=
  match ObjectHashType (fConfig f) with
  | HT_OFF => (w, "")
  | h => let w := set_hashed w (concat ((fun b => String.list_byte_of_string (BlockHash (blockInfo b))) <$> bs)) in
         (w, hex_digest h (hashed w))
  end.

Definition genPartialMeta (now : Timestamp) (w : EcosWriter) (objectKey : string) : EcosWriter * res ObjectMeta :=
  do w, pgID <- pure w (GenObjPgID (fBucket f) objectKey 10);
  do w, bs <- pure w (part_blocks w (partIDs w));
  let objSize := foldl (fun acc b => u64 (acc + BI_BlockSize (blockInfo b))) 0 bs in
  do w, objID <- pure w (GenObjectId (fBucket f) (wKey w));
  let '(w, hash) := genPartialHash w bs in
  (w, Ok (mkObjectMeta objID STATUS_UNKNOWN POSITION_UNKNOWN objSize (Some now) hash pgID
            (blockInfo <$> bs) (wTerm w) None)).

(** [submit] is the retry loop around [SubmitMeta]. *)
Definition CommitPartialMeta (now : Timestamp) (submit : ObjectMeta -> res unit) (w : EcosWriter)
    : EcosWriter * res ObjectMeta :=
  if negb (partObject w) then (w, Err (EErrno MethodNotAllowed))
  else
    do w, meta <- genPartialMeta now w (wKey w);
    do w, _ <- pure w (submit meta);
    (w, Ok meta).

(** The parts named by the caller, checked one by one. *)
Fixpoint check_parts (w : EcosWriter) (parts : list Z) : res unit :=
  match parts with
  | [] => Ok tt
  | n :: rest =>
      if decide (n < 1 \/ 10000 < n) then Err (EErrno InvalidArgument)
      else match blocks w !! n with
           | None => Err (EErrno InvalidPart)
           | Some _ => check_parts w rest
           end
  end.

(** Receiving blocks until each pending part has been seen once. *)
Fixpoint receive_parts (w : EcosWriter) (pendingMap : gset Z) (pending : nat) (ch : list nat) : list nat * res unit :=
  match pending with
  | O => (ch, Ok tt)
  | S n =>
      match ch with
      | [] => ([], Stuck)
      | a :: ch' =>
          match heap w !! a with
          | None => (ch', Panic)
          | Some b =>
              let part := PartId (blockInfo b) in
              if decide (blocks w !! part = Some a /\ part ∈ pendingMap)
              then receive_parts w (pendingMap ∖ {[part]}) n ch'
              else receive_parts w pendingMap (S n) ch'
          end
      end
  end.

Definition CloseMultiPart (now : Timestamp) (submit : ObjectMeta -> res unit) (w : EcosWriter) (parts : list Z)
    : EcosWriter * res (string * ObjectMeta) :=
  if negb (partObject w) then (w, Err (EErrno MethodNotAllowed))
  else if decide (wStatus w <> READING) then (w, Err (EErrno RepeatedClose))
  else
    let w := set_status w UPLOADING in
    do w, _ <- pure w (check_parts w parts);
    let '(ch, r) := receive_parts w (list_to_set parts) (length parts) (finishedBlocks w) in
    do w, _ <- pure (set_finished w ch) r;
    do w, meta <- CommitPartialMeta now submit w;
    let w := set_status w FINISHED in
    match ObjectHashType (fConfig f) with
    | HT_OFF => (w, Panic)
    | h => (w, Ok (hex_digest h (hashed w), meta))
    end.

(** Parts are deleted one by one; those that fail stay listed, and the last
    error is returned. *)
Fixpoint abort_parts (del : Z -> Deletion) (m : MState) (ids : list Z) : MState * res (list Z * option error) :=
  match ids with
  | [] => (m, Ok ([], None))
  | id :: rest =>
      do m, b <- pure m (part_block m.1 id);
      match delete_part (del id) m b with
      | (m, Ok _) =>
          let w := m.1 in
          let w := match blocks w !! id with
                   | Some a => update_block w a (with_status b ABORTED)
                   | None => w
                   end in
          abort_parts del (w, m.2) rest
      | (m, Err e) =>
          do m, r <- abort_parts del m rest;
          (m, Ok (id :: r.1, Some (default e r.2)))
      | (m, Panic) => (m, Panic)
      | (m, Stuck) => (m, Stuck)
      end
  end.

Definition AbortMultiPart (del : Z -> Deletion) (m : MState) : MState * res unit :=
  if negb (partObject m.1) then (m, Err (EErrno MethodNotAllowed))
  else if decide (wStatus m.1 <> READING) then (m, Err (EErrno RepeatedClose))
  else
    do m, r <- abort_parts del (set_status m.1 ABORTED, m.2) (partIDs m.1);
    ((set_parts m.1 r.1, m.2), match r.2 with Some e => Err e | None => Ok tt end).

(** ** Jobs *)

Definition Jobs : Type := gmap string EcosWriter.

Definition as_multipart (w : EcosWriter) : EcosWriter :=
  mkWriter (wKey w) (wStatus w) (pool w) (curChunk w) (reserveChunks w) (chunkCount w)
    (wTerm w) (heap w) (blocks w) (curBlock w) (blockCount w) (uploads w) (finishedBlocks w)
    (writeSize w) (hashed w) true (partIDs w).

Definition CreateMultipartUploadJob (uploadId : string) (p : Pool localChunk) (term : Z) (jobs : Jobs) (key : string)
    : Jobs * string :=
  (<[uploadId := as_multipart (GetEcosWriter key p term)]> jobs, uploadId).

Definition GetMultipartUploadWriter (jobs : Jobs) (jobID : string) : res EcosWriter :=
  or_err (EErrno NoSuchUpload) (jobs !! jobID).

(** [writer.Abort], which waits for [blockCount] blocks; a multipart writer has
    counted none. *)
Definition AbortMultipartUploadJob (jobs : Jobs) (jobID : string) : Jobs * res unit :=
  do jobs, w <- pure jobs (GetMultipartUploadWriter jobs jobID);
  let '(w, r) := Abort w in
  do jobs, _ <- pure (<[jobID := w]> jobs) r;
  (delete jobID jobs, Ok tt).

(** The part numbers must not decrease; the first is compared with 0. *)
Fixpoint parts_ordered (prev : Z) (parts : list Z) : bool :=
  match parts with
  | [] => true
  | n :: rest => bool_decide (prev <= n) && parts_ordered n rest
  end.

Definition CompleteMultipartUploadJob (now : Timestamp) (submit : ObjectMeta -> res unit)
    (jobs : Jobs) (jobID : string) (parts : list Z) : Jobs * res (string * ObjectMeta) :=
  if negb (parts_ordered 0 parts) then (jobs, Err (EErrno InvalidPartOrder))
  else
    do jobs, w <- pure jobs (GetMultipartUploadWriter jobs jobID);
    let '(w, r) := CloseMultiPart now submit w parts in
    do jobs, etag <- pure (<[jobID := w]> jobs) r;
    (delete jobID jobs, Ok etag).

Definition ListMultipartUploadJob (jobs : Jobs) : list (string * string) :=
  (fun '(id, w) => (wKey w, id)) <$> map_to_list jobs.

(** Every job is aborted and removed, whatever the outcome. *)
Definition AbortAllMultipartUploadJob (jobs : Jobs) : Jobs * res unit :=
  foldl (fun acc '(id, w) =>
           do jobs, _ <- acc;
           match (Abort w).2 with
           | Panic => (jobs, Panic)
           | Stuck => (jobs, Stuck)
           | _ => (delete id jobs, Ok tt)
           end) (jobs, Ok tt) (map_to_list jobs).

End multipart.

(** ** Part numbers stay sorted *)

Lemma insert_part_spec id ids l b :
  StronglySorted Z.lt ids -> insert_part id ids = (l, b) ->
  StronglySorted Z.lt l /\ (forall x, x ∈ l <-> x = id \/ x ∈ ids) /\ (b = true <-> id ∉ ids) /\ (b = false -> l = ids).
Proof.
  intros Hs. revert l b. induction Hs as [|x ids Hs IH Hx]; intros l b E; simpl in E.
  - injection E as <- <-. split_and!; try done; [repeat constructor|set_solver|set_solver].
  - destruct (decide (id = x)) as [->|Hne].
    { injection E as <- <-. split_and!; try done; [by constructor|set_solver|set_solver]. }
    destruct (decide (id < x)) as [Hlt|Hge].
    { injection E as <- <-. split_and!; try done; [|set_solver|].
      - constructor; [by constructor|]. constructor; [done|]. eapply Forall_impl; [exact Hx|]. simpl. lia.
      - split; [|done]. intros _ [->|Hin]%elem_of_cons; [done|].
        eapply Forall_forall in Hx; [|exact Hin]. lia. }
    destruct (insert_part id ids) as [l' b'] eqn:El. injection E as <- <-.
    destruct (IH l' b' eq_refl) as (Hs' & Hin & Hb & Hsame). split_and!.
    + constructor; [done|]. apply Forall_forall. intros y [->|Hy]%Hin; [lia|]. by eapply Forall_forall in Hx.
    + intros y. rewrite !elem_of_cons, Hin. tauto.
    + rewrite Hb, not_elem_of_cons. tauto.
    + intros ->. by rewrite Hsame.
Qed.

(** ** Waiting for parts *)

Lemma list_to_set_size (l : list Z) : (size (list_to_set l : gset Z) <= length l)%nat.
Proof.
  induction l as [|x l IH]; [done|]. simpl.
  rewrite size_union_alt, size_singleton.
  pose proof (subseteq_size ((list_to_set l : gset Z) ∖ {[x]}) (list_to_set l) ltac:(set_solver)). lia.
Qed.

Lemma list_to_set_NoDup (l : list Z) : (length l <= size (list_to_set l : gset Z))%nat -> NoDup l.
Proof.
  induction l as [|x l IH]; intros Hl; [constructor|]. pose proof (list_to_set_size l) as Hs.
  destruct (decide (x ∈ l)) as [Hin|Hin].
  - exfalso. simpl in Hl. replace ({[x]} ∪ list_to_set l : gset Z) with (list_to_set l : gset Z) in Hl; [lia|].
    apply set_eq. intros y. rewrite elem_of_union, elem_of_singleton, elem_of_list_to_set. naive_solver.
  - constructor; [done|]. apply IH. simpl in Hl. rewrite size_union in Hl.
    + rewrite size_singleton in Hl. lia.
    + apply disjoint_singleton_l. by rewrite elem_of_list_to_set.
Qed.

Lemma receive_parts_bound w ch : forall S k ch',
  receive_parts w S k ch = (ch', Ok tt) -> (k <= size S)%nat.
Proof.
  induction ch as [|a ch IH]; intros S [|k] ch' E; simpl in E; try done; try lia.
  destruct (heap w !! a) as [b|]; [|done]. destruct (decide _) as [[_ Hin]|_].
  - apply IH in E. rewrite size_difference in E by set_solver. rewrite size_singleton in E.
    assert (size S <> 0)%nat; [|lia]. intros H0%size_empty_inv. set_solver.
  - by eapply IH.
Qed.

Lemma receive_parts_suffix w ch : forall S k ch' r,
  receive_parts w S k ch = (ch', r) -> exists pre, ch = pre ++ ch'.
Proof.
  induction ch as [|a ch IH]; intros S [|k] ch' r E; simpl in E.
  - injection E as <- _. by exists [].
  - injection E as <- _. by exists [].
  - injection E as <- _. by exists [].
  - destruct (heap w !! a) as [b|].
    + destruct (decide _); (destruct (IH _ _ _ _ E) as [pre ->]; by exists (a :: pre)).
    + injection E as <- _. by exists [a].
Qed.

Lemma receive_parts_all w ch : forall S k ch',
  receive_parts w S k ch = (ch', Ok tt) -> k = size S ->
  forall id, id ∈ S -> exists a, a ∈ ch /\ blocks w !! id = Some a.
Proof.
  induction ch as [|a ch IH]; intros S [|k] ch' E Hk id Hid; simpl in E; try done.
  - symmetry in Hk. apply size_empty_inv in Hk. set_solver.
  - symmetry in Hk. apply size_empty_inv in Hk. set_solver.
  - destruct (heap w !! a) as [b|]; [|done]. destruct (decide _) as [[Hb Hin]|_].
    + destruct (decide (id = PartId (blockInfo b))) as [->|Hne].
      * exists a. split; [by left|done].
      * destruct (IH _ _ _ E) with (id := id) as (a' & Ha' & ?).
        -- rewrite size_difference by set_solver. rewrite size_singleton. lia.
        -- set_solver.
        -- exists a'. split; [by right|done].
    + destruct (IH _ _ _ E Hk id Hid) as (a' & Ha' & ?). exists a'. split; [by right|done].
Qed.

(** ** The system: parts written and uploaded in any order *)

Definition reader_data (r : Reader) : bytes := (read_part r).1.2.

(** Per finished goroutine, what it sent to which node. *)
Abbreviation SentLog := (list (nat * list (string * list UploadBlockRequest))).

Record MSys := mkMSys {
  mSt : MState;
  mParts : gmap Z bytes;       (* the data of each part, as last written *)
  mSent : SentLog
}.

Section msystem.
Context `{HR : HashRing, HRok : !HashRingOk, DG : Digests}.
Context (f : Factory) (cp : ClusterPipelines).

(** [io.Reader]: a call reads no more than the buffer holds; and a part has fewer
    than 2^64 bytes. *)
Definition reader_fits (r : Reader) : Prop :=
  Forall (fun x => Z.of_nat (length x.1) <= fChunkSize f) r /\ Z.of_nat (length (reader_data r)) < 2 ^ 64 /\
  fChunkSize f < 2 ^ 64.

Inductive mstep : MSys -> MSys -> Prop :=
  | mstep_part m spec sent uuid d id reader m' tag :
      reader_fits reader ->
      WritePart f cp uuid d m id reader = (m', Ok tag) ->
      mstep (mkMSys m spec sent) (mkMSys m' (<[id := reader_data reader]> spec) sent)
  | mstep_upload m spec sent a uuid peer w' l :
      a ∈ uploads m.1 -> uploadBlock f uuid (uploadByEdge cp peer) m.1 a = (w', l, Ok tt) ->
      mstep (mkMSys m spec sent) (mkMSys (w', m.2) spec (sent ++ [(a, l)])).

Definition fresh_multipart (key : string) (p : Pool localChunk) (term : Z) : MSys :=
  mkMSys (as_multipart (GetEcosWriter key p term), []) ∅ [].

(** A block of a part: still to be uploaded, or uploaded. *)
Definition part_ok (w : EcosWriter) (sent : SentLog) (id : Z) (d : bytes) (a : nat) (b : Block) : Prop :=
  PartId (blockInfo b) = id /\ id <> 0 /\ BI_BlockSize (blockInfo b) = Z.of_nat (length d) /\
  1 <= BI_PgId (blockInfo b) <= blockPgNum /\
  ((a ∈ uploads w /\ chunks_bytes (chunks b) = d) \/
   ((a ∉ uploads w) /\ (status b = FAILED \/ status b = FINISHED /\ exists l node reqs,
      (a, l) ∈ sent /\ last l = Some (node, reqs) /\ stream_data reqs = d))).

Record minv (w : EcosWriter) (spec : gmap Z bytes) (sent : SentLog) : Prop := {
  m_part : partObject w = true;
  m_sorted : StronglySorted Z.lt (partIDs w);
  m_ids : forall id, id ∈ partIDs w <-> is_Some (spec !! id);
  m_dom : dom (blocks w) = dom spec;
  m_blocks : forall id d, spec !! id = Some d -> exists a b, blocks w !! id = Some a /\ heap w !! a = Some b /\
    part_ok w sent id d a b;
  m_threads : NoDup (uploads w ++ finishedBlocks w) /\
    forall a, a ∈ uploads w \/ a ∈ finishedBlocks w -> (a < length (heap w))%nat;
  m_heap : forall a b, heap w !! a = Some b -> PartId (blockInfo b) <> 0 /\ delFunc b = DelDrop /\ Forall chunk_wf (chunks b)
}.

Lemma fresh_multipart_inv key p term : minv (mSt (fresh_multipart key p term)).1 ∅ [].
Proof.
  constructor; simpl; try done.
  - constructor.
  - intros id. split; [intros Hx; by apply not_elem_of_nil in Hx|intros [d Hd]; by rewrite lookup_empty in Hd].
  - split; [constructor|]. intros a [Ha|Ha]; by apply not_elem_of_nil in Ha.
Qed.

Lemma read_part_ok r cs h :
  Forall (fun x => Z.of_nat (length x.1) <= fChunkSize f) r -> fChunkSize f < 2 ^ 64 ->
  read_part r = (cs, h, Ok tt) -> Forall chunk_wf cs /\ chunks_bytes cs = h /\
    Forall (fun c => freeSize c = 0) cs.
Proof.
  intros Hr Hc. revert cs h. induction Hr as [|[d e] r Hd _ IH]; intros cs h E; simpl in E; [done|].
  assert (chunk_wf (mkChunk d 0)) as Hwf by (split; simpl in *; lia).
  assert (chunk_bytes (mkChunk d 0) = d) as Hb by (unfold chunk_bytes; simpl; apply take_ge; lia).
  destruct e as [[| | |]|]; try done.
  - injection E as <- <-. split; [by apply Forall_singleton|]. split; [|by apply Forall_singleton].
    rewrite chunks_bytes_cons, Hb. by rewrite app_nil_r.
  - destruct (read_part r) as [[cs' h'] x]. injection E as <- <- ->.
    destruct (IH cs' h' eq_refl) as (H1 & H2 & H3). split; [by constructor|]. split; [|by constructor].
    by rewrite chunks_bytes_cons, Hb, H2.
Qed.

Lemma sizes_spec cs acc :
  Forall (fun c => freeSize c = 0) cs -> 0 <= acc -> acc + Z.of_nat (length (chunks_bytes cs)) < 2 ^ 64 ->
  foldl (fun acc c => u64 (acc + Z.of_nat (length (data c)))) acc cs = acc + Z.of_nat (length (chunks_bytes cs)).
Proof.
  intros H. revert acc. induction H as [|c cs Hc _ IH]; intros acc Ha Hs; simpl; [lia|].
  assert (chunk_bytes c = data c) as Hb by (unfold chunk_bytes; rewrite Hc; apply take_ge; lia).
  rewrite chunks_bytes_cons, length_app, Hb in *. rewrite u64_id by (unfold is_u64; lia). rewrite IH; lia.
Qed.

Lemma replace_part_spec d m id m' spec sent :
  minv m.1 spec sent -> replace_part cp d m id = (m', Ok tt) ->
  exists ids b, insert_part id (partIDs m.1) = (ids, b) /\
    m'.1 = set_heap (set_parts m.1 ids) (heap m.1) (delete id (blocks m.1)) (uploads m.1).
Proof.
  intros Hi. unfold replace_part, addPartID.
  destruct (insert_part id (partIDs m.1)) as [ids b] eqn:Ei. destruct b; intros E.
  - injection E as <-. exists ids, true. split; [done|]. simpl. rewrite delete_id; [done|].
    destruct (insert_part_spec _ _ _ _ (m_sorted _ _ _ Hi) Ei) as (_ & _ & Hb & _).
    apply not_elem_of_dom. rewrite (m_dom _ _ _ Hi). rewrite elem_of_dom.
    rewrite <- (m_ids _ _ _ Hi). by apply Hb.
  - apply st_bind_inv in E as (m1 & a & Ea & E). apply st_bind_inv in E as (m2 & v & Ev & E).
    unfold pure in Ea, Ev. injection Ea as <- Ea. injection Ev as <- Ev.
    apply st_bind_inv in E as (m3 & [] & Ed & E). injection E as <-.
    exists ids, false. split; [done|]. simpl.
    unfold delete_part in Ed. apply st_bind_inv in Ed as (m4 & ns & En & Ed).
    unfold pure in En. injection En as <- _. apply st_bind_inv in Ed as (m5 & n & En & Ed).
    unfold pure in En. injection En as <- _. destruct (del_conn d); [done|].
    unfold pure in Ed. injection Ed as <- _. done.
Qed.

Lemma updateBlockInfo_part uuid b : PartId (blockInfo b) <> 0 -> status b = UPLOADING -> blockHashType b = HT_OFF ->
  exists pg, 1 <= pg <= blockPgNum /\ updateBlockInfo uuid b =
    (with_info b (mkBlockInfo uuid (PartId (blockInfo b)) (BI_BlockSize (blockInfo b)) "" pg), Ok tt).
Proof.
  intros Hp Hs Hh. unfold updateBlockInfo. rewrite decide_False by done. unfold genBlockHash.
  rewrite Hs. rewrite decide_False by (by intros []). rewrite Hh. simpl. rewrite Hh.
  destruct (MapIDtoPG_range blockPgNum uuid) as (pg & Hpg & Hr); [unfold blockPgNum; lia|].
  unfold GenBlockPG. rewrite Hpg. by exists pg.
Qed.

(** What a successful [WritePart] leaves. *)
Lemma WritePart_ok uuid d m id reader m' tag spec sent :
  minv m.1 spec sent -> reader_fits reader -> WritePart f cp uuid d m id reader = (m', Ok tag) ->
  exists ids b cs pg, insert_part id (partIDs m.1) = (ids, b) /\ 1 <= id /\ 1 <= pg <= blockPgNum /\
    let blk := mkBlock (mkBlockInfo uuid id (Z.of_nat (length (reader_data reader))) "" pg) UPLOADING cs
                 (wTerm m.1) id HT_OFF DelDrop in
    Forall chunk_wf cs /\ chunks_bytes cs = reader_data reader /\ tag = uuid /\ wStatus m.1 = READING /\
    partObject m'.1 = true /\ partIDs m'.1 = ids /\ heap m'.1 = heap m.1 ++ [blk] /\ wKey m'.1 = wKey m.1 /\
    wStatus m'.1 = READING /\
    blocks m'.1 = <[id := length (heap m.1)]> (delete id (blocks m.1)) /\
    uploads m'.1 = uploads m.1 ++ [length (heap m.1)] /\ finishedBlocks m'.1 = finishedBlocks m.1.
Proof.
  intros Hi (Hfit & Hlen & Hcs) E. unfold WritePart in E. rewrite (m_part _ _ _ Hi) in E. simpl in E.
  destruct (decide _) as [|Hst%dec_stable]; [done|]. destruct (decide _) as [|Hid]; [done|].
  apply st_bind_inv in E as (m1 & [] & Er & E).
  destruct (replace_part_spec _ _ _ _ _ _ Hi Er) as (ids & b & Ei & Em1).
  assert (exists cs h r, read_part reader = (cs, h, r) /\
    (do m, _ <- pure (set_part_block (set_hashed m1.1 (hashed m1.1 ++ h)) id (with_chunks (new_part m1.1 id) cs), m1.2) r;
     match updateBlockInfo uuid (with_status (with_info (with_chunks (new_part m1.1 id) cs)
             (mkBlockInfo "" id (sizes cs) "" 0)) UPLOADING) with
     | (b, Ok _) => ((set_heap m.1 (<[length (heap m1.1) := b]> (heap m.1)) (blocks m.1)
                       (uploads m.1 ++ [length (heap m1.1)]), m.2), Ok (BlockId (blockInfo b)))
     | (b, Err e) => (m, Err e) | (b, Panic) => (m, Panic) | (b, Stuck) => (m, Stuck)
     end) = (m', Ok tag)) as (cs & h & r & Erd & E').
  { destruct (read_part reader) as [[cs h] r]. exists cs, h, r. split; [done|].
    destruct (ObjectHashType (fConfig f)), reader as [|[d0 e0] reader]; try done. }
  clear E. apply st_bind_inv in E' as (m2 & [] & Ep & E). unfold pure in Ep. injection Ep as <- ->.
  destruct (read_part_ok reader cs h Hfit Hcs Erd) as (Hwf & Hb & Hfull).
  assert (reader_data reader = h) as Hrd by (unfold reader_data; by rewrite Erd). rewrite Hrd in *.
  match type of E with context [updateBlockInfo uuid ?x] =>
    destruct (updateBlockInfo_part uuid x) as (pg & Hpg & Eu); [simpl; lia|done|done|]; rewrite Eu in E end.
  injection E as <- <-. exists ids, b, cs, pg. rewrite Em1. simpl.
  split_and!; try done; try lia.
  - apply (m_part _ _ _ Hi).
  - rewrite insert_app_r_alt by lia. rewrite Nat.sub_diag. simpl. unfold with_info. simpl.
    unfold sizes. rewrite sizes_spec by (done || lia || (rewrite Hb; lia)). by rewrite Hb.
Qed.

Lemma part_step_inv uuid d m id reader m' tag spec sent :
  minv m.1 spec sent -> reader_fits reader -> WritePart f cp uuid d m id reader = (m', Ok tag) ->
  minv m'.1 (<[id := reader_data reader]> spec) sent.
Proof.
  intros Hi Hfit E.
  destruct (WritePart_ok _ _ _ _ _ _ _ _ _ Hi Hfit E) as
    (ids & b & cs & pg & Ei & Hid & Hpg & Hwf & Hb & -> & _ & Hpo & Hids & Hh & _ & _ & Hbl & Hup & Hfin).
  destruct (insert_part_spec _ _ _ _ (m_sorted _ _ _ Hi) Ei) as (Hs & Hin & _ & _).
  destruct (m_threads _ _ _ Hi) as [Hnd Hlt].
  constructor.
  - done.
  - by rewrite Hids.
  - intros i. rewrite Hids, Hin, (m_ids _ _ _ Hi). destruct (decide (i = id)) as [->|Hne].
    + rewrite lookup_insert_eq. split; [by eexists|by left].
    + rewrite lookup_insert_ne by done. naive_solver.
  - rewrite Hbl, dom_insert_L, dom_delete_L, dom_insert_L, (m_dom _ _ _ Hi).
    apply set_eq. intros x. destruct (decide (x = id)); set_solver.
  - intros i x Hx. rewrite Hbl, Hh. destruct (decide (i = id)) as [->|Hne].
    + rewrite lookup_insert_eq in Hx. injection Hx as <-. rewrite lookup_insert_eq.
      eexists _, _. split; [done|]. rewrite lookup_app_r, Nat.sub_diag by lia. split; [done|].
      split_and!; simpl; try done; try lia. left. split; [|done]. rewrite Hup. apply elem_of_app. right. by left.
    + rewrite lookup_insert_ne in Hx by done.
      destruct (m_blocks _ _ _ Hi i x Hx) as (a & bb & Ha & Hbb & Hp). exists a, bb.
      rewrite lookup_insert_ne, lookup_delete_ne by done. split; [done|].
      pose proof (lookup_lt_Some _ _ _ Hbb). rewrite lookup_app_l by lia. split; [done|].
      destruct Hp as (? & ? & ? & ? & Hcase). split_and!; try done; try lia.
      rewrite Hup. destruct Hcase as [[Hau Hc]|[Hau Hc]]; [left|right]; (split; [|done]).
      * apply elem_of_app. by left.
      * intros [?|Hx'%list_elem_of_singleton]%elem_of_app; [done|]. lia.
  - rewrite Hup, Hfin, Hh. split.
    + rewrite <- app_assoc, (Permutation_app_comm [_]), app_assoc. apply NoDup_app. split_and!; [done| |apply NoDup_singleton].
      intros x Hx%elem_of_app Hx'%list_elem_of_singleton. subst x. apply Hlt in Hx. lia.
    + rewrite length_app. simpl. intros a [[Ha|Ha%list_elem_of_singleton]%elem_of_app|Ha].
      * specialize (Hlt a (or_introl Ha)). lia.
      * lia.
      * specialize (Hlt a (or_intror Ha)). lia.
  - rewrite Hh. intros a b0 Hb0. destruct (decide (a < length (heap m.1))%nat).
    + rewrite lookup_app_l in Hb0 by done. by apply (m_heap _ _ _ Hi a).
    + rewrite lookup_app_r in Hb0 by lia. apply list_lookup_singleton_Some in Hb0 as [_ <-]. simpl. split_and!; (done || lia).
Qed.

(** An upload that ends settles its block: failed, or with the bytes of its chunks sent. *)
Lemma uploadBlock_settles w a uuid peer b w' l :
  heap w !! a = Some b -> PartId (blockInfo b) <> 0 -> delFunc b = DelDrop -> Forall chunk_wf (chunks b) ->
  uploadBlock f uuid (uploadByEdge cp peer) w a = (w', l, Ok tt) ->
  exists st, w' = set_finished (update_block (set_heap w (heap w) (blocks w)
      (filter (fun x => x <> a) (uploads w))) a (with_chunks (with_status b st) []))
      (finishedBlocks w ++ [a]) /\ (st = FAILED \/ st = FINISHED /\ exists node reqs,
        last l = Some (node, reqs) /\ stream_data reqs = chunks_bytes (chunks b)).
Proof.
  intros Hb Hp Hdel Hwf E. unfold uploadBlock in E. rewrite Hb in E. unfold Block_Close in E.
  rewrite decide_True in E by done.
  destruct (uploadByEdge cp peer b) as [l0 [[]|e| |]] eqn:Eu; try done;
    unfold run_delFunc in E; simpl in E; rewrite Hdel in E; injection E as <- <-.
  - exists FINISHED. split; [done|]. right. split; [done|].
    destruct (uploadByEdge_ok cp peer b l0 Hwf Eu) as (n & reqs & ? & ?). by exists n, reqs.
  - exists FAILED. split; [done|]. by left.
Qed.

Lemma upload_step_inv w spec sent a uuid peer w' l :
  minv w spec sent -> a ∈ uploads w -> uploadBlock f uuid (uploadByEdge cp peer) w a = (w', l, Ok tt) ->
  minv w' spec (sent ++ [(a, l)]) /\ wStatus w' = wStatus w /\ wKey w' = wKey w.
Proof.
  intros Hi Ha E. destruct (m_threads _ _ _ Hi) as [Hnd Hlt].
  destruct (lookup_lt_is_Some_2 (heap w) a (Hlt a (or_introl Ha))) as [b Hb].
  destruct (m_heap _ _ _ Hi a b Hb) as (Hp & Hdel & Hwf).
  destruct (uploadBlock_settles _ _ _ _ _ _ _ Hb Hp Hdel Hwf E) as (st & -> & Hst).
  split; [|done]. clear E.
  apply NoDup_app in Hnd as (Hnd1 & Hdis & Hnd2).
  pose proof (lookup_lt_Some _ _ _ Hb) as Hlen.
  destruct Hi as [Hpo Hs Hids Hdom Hbl _ Hheap].
  constructor; simpl; try done.
  - intros i d Hd. destruct (Hbl i d Hd) as (a' & b' & Ha' & Hb' & Hid & H0 & Hsz & Hpg & Hcase).
    destruct (decide (a' = a)) as [->|Hne].
    + rewrite Hb in Hb'. injection Hb' as <-. eexists a, _. split; [done|].
      split; [by apply list_lookup_insert_eq|]. split_and!; simpl; try done; try lia. right.
      split; [intros [? _]%list_elem_of_filter; done|].
      destruct Hcase as [[_ Hc]|[Hn _]]; [|done]. destruct Hst as [->|[-> (node & reqs & Hl & Hd')]]; [by left|right].
      split; [done|]. exists l, node, reqs. split_and!; try done; [|congruence]. apply elem_of_app. right. by left.
    + exists a', b'. split; [done|]. rewrite list_lookup_insert_ne by done. split; [done|].
      split_and!; try done; try lia. destruct Hcase as [[Hau Hc]|[Hau Hc]]; [left|right].
      * split; [|done]. by apply list_elem_of_filter.
      * split; [intros [_ ?]%list_elem_of_filter; done|]. destruct Hc as [?|(? & l0 & n0 & r0 & ? & ? & ?)]; [by left|right].
        split; [done|]. exists l0, n0, r0. split_and!; try done. apply elem_of_app. by left.
  - split.
    + apply NoDup_app. split_and!; [by apply NoDup_filter| |].
      * intros x [Hxa Hx]%list_elem_of_filter [Hx'|Hx'%list_elem_of_singleton]%elem_of_app; [by eapply Hdis|done].
      * apply NoDup_app. split_and!; [done| |apply NoDup_singleton].
        intros x Hx Hx'%list_elem_of_singleton. subst x. by eapply Hdis.
    + rewrite length_insert. intros x [[_ Hx]%list_elem_of_filter|[Hx|Hx%list_elem_of_singleton]%elem_of_app].
      * apply Hlt. by left.
      * apply Hlt. by right.
      * by subst.
  - intros a' b' Hb'. destruct (decide (a' = a)) as [->|Hne].
    + rewrite list_lookup_insert_eq in Hb' by done. injection Hb' as <-. simpl. done.
    + rewrite list_lookup_insert_ne in Hb' by done. by apply (Hheap a').
Qed.

Lemma mreachable_inv key p term s :
  rtc mstep (fresh_multipart key p term) s -> minv (mSt s).1 (mParts s) (mSent s).
Proof.
  intros Hr. assert (forall s1 s2, rtc mstep s1 s2 -> minv (mSt s1).1 (mParts s1) (mSent s1) ->
    minv (mSt s2).1 (mParts s2) (mSent s2)) as Hind.
  { intros s1 s2. induction 1 as [|s1 s2 s3 Hst _ IH]; [done|]. intros Hi. apply IH.
    destruct Hst as [m spec sent uuid d id reader m' tag Hf E|m spec sent a uuid peer w' l Ha E]; simpl in *.
    - by eapply part_step_inv.
    - by eapply upload_step_inv. }
  eapply Hind; [exact Hr|]. apply fresh_multipart_inv.
Qed.

(** ** Completing *)

Lemma received_inv w spec sent pre ch st :
  minv w spec sent -> finishedBlocks w = pre ++ ch -> minv (set_finished (set_status w st) ch) spec sent.
Proof.
  intros [Hpo Hs Hids Hdom Hbl [Hnd Hlt] Hheap] Hf. constructor; try done. simpl. rewrite Hf in *. split.
  - rewrite app_assoc in Hnd. apply NoDup_app in Hnd as (Hnd & Hdis & Hch).
    apply NoDup_app in Hnd as (Hu & _ & _). apply NoDup_app. split_and!; try done.
    intros x Hx. apply Hdis. apply elem_of_app. by left.
  - intros a [Ha|Ha]; apply Hlt; [by left|right]. apply elem_of_app. by right.
Qed.

Lemma part_blocks_spec w spec sent ids :
  minv w spec sent -> (forall id, id ∈ ids -> is_Some (spec !! id)) ->
  exists bs, part_blocks w ids = Ok bs /\
    Forall2 (fun id b => exists d a, spec !! id = Some d /\ blocks w !! id = Some a /\ part_ok w sent id d a b) ids bs.
Proof.
  intros Hi. induction ids as [|id ids IH]; intros Hids; [by exists []|].
  destruct (Hids id ltac:(left)) as [d Hd]. destruct IH as (bs & Eb & HF).
  { intros x Hx. apply Hids. by right. }
  destruct (m_blocks _ _ _ Hi id d Hd) as (a & b & Ha & Hb & Hp).
  exists (b :: bs). simpl. unfold part_block. rewrite Ha. cbn [or_panic mbind res_bind]. rewrite Hb.
  cbn [or_panic mbind res_bind]. rewrite Eb. split; [done|]. constructor; [|done]. by exists d, a.
Qed.

Lemma commit_partial_ok now submit w w' meta spec sent :
  minv w spec sent -> CommitPartialMeta f now submit w = (w', Ok meta) ->
  (PartId <$> Blocks meta) = partIDs w /\
  Forall2 (fun id i => exists d, spec !! id = Some d /\ BI_BlockSize i = Z.of_nat (length d)) (partIDs w) (Blocks meta) /\
  ObjSize meta = foldl (fun acc i => u64 (acc + BI_BlockSize i)) 0 (Blocks meta) /\
  GenObjectId (fBucket f) (wKey w) = Ok (ObjId meta).
Proof.
  intros Hi E. unfold CommitPartialMeta in E. rewrite (m_part _ _ _ Hi) in E. cbn [negb] in E.
  apply st_bind_inv in E as (w1 & meta1 & Eg & E). apply st_bind_inv in E as (w2 & [] & _ & E).
  injection E as _ <-. unfold genPartialMeta in Eg.
  apply st_bind_inv in Eg as (w3 & pg & Epg & Eg). unfold pure in Epg. injection Epg as <- _.
  apply st_bind_inv in Eg as (w4 & bs & Ebs & Eg). unfold pure in Ebs. injection Ebs as <- Ebs.
  apply st_bind_inv in Eg as (w5 & oid & Eid & Eg). unfold pure in Eid. injection Eid as <- Eid.
  destruct (genPartialHash f w bs) as [w6 hash]. injection Eg as _ <-. simpl.
  destruct (part_blocks_spec w spec sent (partIDs w) Hi) as (bs' & Ebs' & HF).
  { intros id. apply (m_ids _ _ _ Hi). }
  rewrite Ebs in Ebs'. injection Ebs' as <-. split_and!; try done.
  - clear -HF. induction HF as [|id b ids bs (d & a & _ & _ & Hp & _) _ IH]; [done|]. csimpl. by rewrite Hp, IH.
  - clear -HF. induction HF as [|id b ids bs (d & a & Hd & _ & _ & _ & Hsz & _) _ IH]; [constructor|].
    csimpl. constructor; [by exists d|done].
  - clear. generalize 0. induction bs as [|b bs IH]; intros acc; [done|]. csimpl. apply IH.
Qed.

End msystem.

(** ** Properties *)

(** C24: a completed multipart upload is its parts. Parts may have been written
    in any order and rewritten, and their uploads may have run in any order and
    failed; when completion succeeds, the blocks of the metadata are one per part
    number ever written, in increasing order, each with the size of the data last
    written under that number, the object's size is their sum, and every part
    the caller named was waited for: its upload is over, and unless it failed its
    last stream carried exactly that data. *)
Theorem multipart_content `{HashRing, !HashRingOk, Digests}
    (f : Factory) (cp : ClusterPipelines) key p term s now submit parts w' etag meta :
  rtc (mstep f cp) (fresh_multipart key p term) s -> NoDup parts ->
  CloseMultiPart f now submit (mSt s).1 parts = (w', Ok (etag, meta)) ->
  let ids := PartId <$> Blocks meta in
  StronglySorted Z.lt ids /\ (forall id, id ∈ ids <-> is_Some (mParts s !! id)) /\
  Forall2 (fun id i => exists d, mParts s !! id = Some d /\ BI_BlockSize i = Z.of_nat (length d)) ids (Blocks meta) /\
  ObjSize meta = foldl (fun acc i => u64 (acc + BI_BlockSize i)) 0 (Blocks meta) /\
  GenObjectId (fBucket f) (wKey (mSt s).1) = Ok (ObjId meta) /\
  forall id, id ∈ parts -> exists d a b, mParts s !! id = Some d /\ blocks (mSt s).1 !! id = Some a /\
    heap (mSt s).1 !! a = Some b /\
    (status b = FAILED \/ status b = FINISHED /\ exists l node reqs,
      (a, l) ∈ mSent s /\ last l = Some (node, reqs) /\ stream_data reqs = d).
Proof.
  intros Hr Hnd E. pose proof (mreachable_inv f cp key p term s Hr) as Hi. unfold CloseMultiPart in E.
  rewrite (m_part _ _ _ Hi) in E. cbn [negb] in E. destruct (decide _); [done|].
  apply st_bind_inv in E as (w1 & [] & Ec & E). unfold pure in Ec. injection Ec as <- Ec.
  destruct (receive_parts _ _ _ _) as [ch r] eqn:Er.
  apply st_bind_inv in E as (w2 & [] & Er' & E). unfold pure in Er'. injection Er' as <- ->.
  apply st_bind_inv in E as (w3 & meta' & Em & E).
  assert (meta' = meta) as -> by (destruct (ObjectHashType (fConfig f)); simplify_eq; done).
  destruct (receive_parts_suffix _ _ _ _ _ _ Er) as [pre Hpre].
  pose proof (received_inv _ _ _ pre ch UPLOADING Hi Hpre) as Hi2.
  destruct (commit_partial_ok _ _ _ _ _ _ _ _ Hi2 Em) as (Hids & HF & Hsz & Hid). rewrite Hids.
  split_and!; try done.
  - apply Hi.
  - apply Hi.
  - intros id Hin. assert (size (list_to_set parts : gset Z) = length parts) as Hl by (by apply size_list_to_set).
    destruct (receive_parts_all _ _ _ _ _ Er (eq_sym Hl) id ltac:(by apply elem_of_list_to_set)) as (a & Ha & Hba).
    simpl in Ha, Hba. assert (is_Some (mParts s !! id)) as [d Hd].
    { rewrite <- elem_of_dom, <- (m_dom _ _ _ Hi). by apply elem_of_dom_2 in Hba. }
    destruct (m_blocks _ _ _ Hi id d Hd) as (a' & b & Ha' & Hb & _ & _ & _ & _ & Hcase).
    rewrite Hba in Ha'. injection Ha' as <-. exists d, a, b. split_and!; try done.
    destruct Hcase as [[Hu _]|[_ Hc]]; [|done].
    destruct (m_threads _ _ _ Hi) as [Hndt _]. apply NoDup_app in Hndt as (_ & Hdis & _). by destruct (Hdis a Hu).
Qed.

(** A run: part 2, part 1, the uploads in the other order. *)
Definition demo_job : EcosWriter := as_multipart (GetEcosWriter "big" demo_pool 7).

Definition no_deletion : Deletion := mkDeletion None (Ok (mkResult Result_OK 0 "")).

Definition hash_factory : Factory :=
  mkFactory 2 8 default_bucket (mkBucketConfig 5 4 false false false HT_SHA256 HT_SHA256).

Definition demo_part (id : string) (m : MState) (n : Z) (r : Reader) :=
  @WritePart length_ring demo_digests hash_factory demo_pipes id no_deletion m n r.

Definition demo_r1 : Reader := [([x01; x02], Some EEOF)].
Definition demo_r2 : Reader := [([x03; x04], None); ([x05], Some EEOF)].

Definition demo_m1 : MState := (demo_part "p2" (demo_job, []) 2 demo_r2).1.
Definition demo_m2 : MState := (demo_part "p1" demo_m1 1 demo_r1).1.
Definition demo_m3 := @uploadBlock length_ring demo_digests hash_factory "" (uploadByEdge demo_pipes good_peer) demo_m2.1 1.
Definition demo_m4 := @uploadBlock length_ring demo_digests hash_factory "" (uploadByEdge demo_pipes good_peer) demo_m3.1.1 0.

Definition demo_msys : MSys :=
  mkMSys (demo_m4.1.1, (demo_m3.1.1, demo_m2.2).2) (<[1 := reader_data demo_r1]> (<[2 := reader_data demo_r2]> ∅))
    (([] ++ [(1%nat, demo_m3.1.2)]) ++ [(0%nat, demo_m4.1.2)]).

Lemma demo_multipart_reachable :
  rtc (@mstep length_ring demo_digests hash_factory demo_pipes) (fresh_multipart "big" demo_pool 7) demo_msys.
Proof.
  eapply rtc_l.
  { apply (@mstep_part length_ring demo_digests hash_factory demo_pipes (demo_job, []) ∅ [] "p2" no_deletion 2
      demo_r2 demo_m1 "p2"); [|vm_compute; reflexivity].
    split_and!; [repeat constructor; simpl; lia|vm_compute; done|simpl; lia]. }
  eapply rtc_l.
  { apply (@mstep_part length_ring demo_digests hash_factory demo_pipes demo_m1 _ [] "p1" no_deletion 1
      demo_r1 demo_m2 "p1"); [|vm_compute; reflexivity].
    split_and!; [repeat constructor; simpl; lia|vm_compute; done|simpl; lia]. }
  eapply rtc_l.
  { apply (@mstep_upload length_ring demo_digests hash_factory demo_pipes demo_m2 _ [] 1 "" good_peer
      demo_m3.1.1 demo_m3.1.2); [|vm_compute; reflexivity].
    apply (bool_decide_unpack _). vm_compute. exact I. }
  eapply rtc_l.
  { apply (@mstep_upload length_ring demo_digests hash_factory demo_pipes (demo_m3.1.1, demo_m2.2) _ _ 0 "" good_peer
      demo_m4.1.1 demo_m4.1.2); [|vm_compute; reflexivity].
    apply (bool_decide_unpack _). vm_compute. exact I. }
  unfold demo_msys. apply rtc_refl.
Qed.

Abbreviation demo_closed :=
  (@CloseMultiPart length_ring demo_digests hash_factory (mkTimestamp 0 0) (fun _ => Ok tt) (mSt demo_msys).1 [1; 2]).

Lemma demo_parts_nodup : NoDup [1; 2].
Proof. apply (bool_decide_unpack _). vm_compute. exact I. Qed.

Lemma demo_closed_ok : match demo_closed.2 with Ok _ => true | _ => false end = true.
Proof. vm_compute. reflexivity. Qed.

Lemma multipart_content_witness :
  match demo_closed.2 with
  | Ok (_, meta) => StronglySorted Z.lt (PartId <$> Blocks meta) /\
      (forall id, id ∈ (PartId <$> Blocks meta) <-> is_Some (mParts demo_msys !! id))
  | _ => False
  end.
Proof.
  pose proof demo_closed_ok as Hok.
  pose proof (fun w' etag meta => @multipart_content length_ring length_ring_ok demo_digests hash_factory demo_pipes
    "big" demo_pool 7 demo_msys (mkTimestamp 0 0) (fun _ => Ok tt) [1; 2] w' etag meta
    demo_multipart_reachable demo_parts_nodup) as Hall.
  destruct demo_closed as [w' [[etag meta]| | |]]; [|discriminate Hok..].
  destruct (Hall w' etag meta eq_refl) as (H1 & H2 & _). exact (conj H1 H2).
Defined.

(** completing with a part number named twice never succeeds: the number of
    blocks waited for exceeds the set of parts that are counted. *)
Theorem duplicate_part_never_completes `{HashRing, Digests} (f : Factory) now submit w parts w' r :
  ~ NoDup parts -> CloseMultiPart f now submit w parts <> (w', Ok r).
Proof.
  intros Hd E. unfold CloseMultiPart in E. destruct (negb _); [done|]. destruct (decide _); [done|].
  apply st_bind_inv in E as (w1 & [] & Ec & E). unfold pure in Ec. injection Ec as <- Ec.
  destruct (receive_parts _ _ _ _) as [ch x] eqn:Er.
  apply st_bind_inv in E as (w2 & [] & Er' & _). unfold pure in Er'. injection Er' as <- ->.
  apply receive_parts_bound in Er. apply Hd. by apply list_to_set_NoDup.
Qed.

Lemma duplicate_part_witness :
  @CloseMultiPart length_ring demo_digests hash_factory (mkTimestamp 0 0) (fun _ => Ok tt) demo_job [1; 1]
    <> (demo_job, Ok ("", mkObjectMeta "" STATUS_UNKNOWN POSITION_UNKNOWN 0 None "" 0 [] 0 None)).
Proof.
  apply (@duplicate_part_never_completes length_ring demo_digests). intros [Hn _]%NoDup_cons. apply Hn. by left.
Defined.

(** a part whose reader failed can not be written again: the block it left has
    no placement group, and looking up the node to delete it from panics. *)
Theorem failed_part_poisons :
  let m1 := demo_part "p" (demo_job, []) 1 [([x01], Some (EExt "reset by peer"))] in
  let m2 := demo_part "q" m1.1 1 [([x01], Some EEOF)] in
  m1.2 = Err (EExt "reset by peer") /\ m2.2 = Panic /\
  match @genPartialMeta length_ring demo_digests hash_factory (mkTimestamp 0 0) m1.1.1 "big" with
  | (_, Ok meta) => BlockId <$> Blocks meta = [""] /\ ObjSize meta = 0
  | _ => False
  end.
Proof. vm_compute. repeat split. Qed.
