(* ===== verification/Gaia.v ===== *)
(** * Storing blocks: [src/edge-node/gaia/gaia.go], [src/shared/gaia/transporter.go]

    A node that receives a block writes it to a local file and forwards it to the
    other nodes of the block's pipeline. A node's disk is a map from paths to
    contents; the local writer is a [bufio.Writer] of 4096 bytes over the file. A
    remote writer collects the requests it sends over its stream. The network is
    a function [link] from nodes to their behaviour. *)

From S2P Require Import Prelude GoStd Errno Infos Object Pipeline GaiaMsg Block WriterProofs.

(** ** [bufio.Writer] *)

Definition bufSize : nat := 4096.

(** [Write] on a writer of capacity [bufSize]: what is in the file and what is
    still in the buffer. A write larger than an empty buffer goes straight to the
    file. *)
Definition bufio_write (s : bytes * bytes) (p : bytes) : bytes * bytes :=
  let '(file, buf) := s in
  if decide (length p <= bufSize - length buf)%nat then (file, buf ++ p)
  else if decide (buf = []) then (file ++ p, [])
  else
    let n := (bufSize - length buf)%nat in
    let file := file ++ buf ++ take n p in
    let p := drop n p in
    if decide (length p <= bufSize)%nat then (file, p) else (file ++ p, []).

Definition bufio_all (chunks : list bytes) : bytes * bytes := foldl bufio_write ([], []) chunks.

(** The disk of a node. *)
Abbreviation Disk := (gmap string bytes).

(** ** Links *)

(** Another node: whether the connection exists, the error of opening the stream,
    of the [k]-th send, the answer of [CloseAndRecv] to the requests sent, and that
    of [DeleteBlock]. *)
Record Link := mkLink {
  link_conn : bool;
  link_open : option error;
  link_send : nat -> option error;
  link_reply : list UploadBlockRequest -> res Result;
  link_delete : res Result
}.

(** ** Remote writers *)

Record RemoteWriter := mkRemoteWriter {
  rw_node : Z;
  rw_info : BlockInfo;
  rw_pipeline : Pipeline;
  rw_stream : option (list UploadBlockRequest)     (* nil before [init] *)
}.

Definition makeSingleNodePipeline (info : NodeInfo) (p : Pipeline) : Pipeline :=
  mkPipeline (P_PgId p) [RaftId info] Sync_STREAM 0.

Definition NewRemoteWriter (info : BlockInfo) (nodeInfo : option NodeInfo) (p : Pipeline) : res RemoteWriter :=
  n ← or_panic nodeInfo;
  Ok (mkRemoteWriter (RaftId n) info (makeSingleNodePipeline n p) None).

Definition getNodeInfo (c : ClusterInfo) (nodeID : Z) : option NodeInfo :=
  List.find (fun i => bool_decide (RaftId i = nodeID)) (NodesInfo c).

Section gaia.
Context (link : Z -> Link).

(** A send appends to the stream, also when it fails. *)
Definition stream_send (node : Z) (l : list UploadBlockRequest) (r : UploadBlockRequest)
    : list UploadBlockRequest * option error :=
  (l ++ [r], link_send (link node) (length l)).

Definition RW_init (w : RemoteWriter) : RemoteWriter * res unit :=
  let k := link (rw_node w) in
  if negb (link_conn k) then (w, Panic)
  else match link_open k with
       | Some e => (w, Err e)
       | None =>
           let '(l, e) := stream_send (rw_node w) []
             (Req_Message (mkControlMessage CM_BEGIN (rw_info w) (Some (rw_pipeline w)) 0)) in
           (mkRemoteWriter (rw_node w) (rw_info w) (rw_pipeline w) (Some l),
            match e with Some e => Err e | None => Ok tt end)
       end.

Definition RW_Write (w : RemoteWriter) (chunk : bytes) : RemoteWriter * res unit :=
  do w, _ <- match rw_stream w with None => RW_init w | Some _ => (w, Ok tt) end;
  match rw_stream w with
  | None => (w, Panic)
  | Some l =>
      let '(l, e) := stream_send (rw_node w) l (Req_Chunk chunk) in
      (mkRemoteWriter (rw_node w) (rw_info w) (rw_pipeline w) (Some l),
       match e with Some e => Err e | None => Ok tt end)
  end.

(** The error of the last send is overwritten by that of [CloseAndRecv]. *)
Definition RW_Close (w : RemoteWriter) : RemoteWriter * res unit :=
  match rw_stream w with
  | None => (w, Err (EErrno RemoteGaiaFail))
  | Some l =>
      let '(l, _) := stream_send (rw_node w) l (Req_Message (mkControlMessage CM_EOF (rw_info w) None 0)) in
      let w := mkRemoteWriter (rw_node w) (rw_info w) (rw_pipeline w) (Some l) in
      match link_reply (link (rw_node w)) l with
      | Ok r => if decide (R_Status r = Result_OK) then (w, Ok tt) else (w, Err (EErrno RemoteGaiaFail))
      | Err _ => (w, Err (EErrno RemoteGaiaFail))
      | Panic => (w, Panic)
      | Stuck => (w, Stuck)
      end
  end.

Definition RW_Delete (w : RemoteWriter) : res unit :=
  if negb (link_conn (link (rw_node w))) then Panic
  else match link_delete (link (rw_node w)) with
       | Ok _ => Ok tt
       | Err _ => Err (EErrno RemoteGaiaFail)
       | Panic => Panic
       | Stuck => Stuck
       end.

(** ** The transporter *)

Record PrimaryCopyTransporter := mkTransporter {
  t_info : option BlockInfo;
  t_base : string;
  localWriter : option bytes;          (* the unflushed buffer *)
  remoteWriters : list RemoteWriter
}.

(** [&PrimaryCopyTransporter{}]. *)
Definition zero_transporter : PrimaryCopyTransporter := mkTransporter None "" None [].

Fixpoint make_remotes (info : BlockInfo) (p : Pipeline) (selfID : Z) (c : ClusterInfo) (ids : list Z)
    : res (list RemoteWriter) :=
  match ids with
  | [] => Ok []
  | id :: ids' =>
      if decide (selfID = id) then make_remotes info p selfID c ids'
      else w ← NewRemoteWriter info (getNodeInfo c id) p;
           ws ← make_remotes info p selfID c ids';
           Ok (w :: ws)
  end.

Definition NewPrimaryCopyTransporter (info : BlockInfo) (p : option Pipeline) (selfID : Z) (c : ClusterInfo)
    (basePath : string) : res PrimaryCopyTransporter :=
  p ← or_panic p;
  ws ← make_remotes info p selfID c (P_RaftId p);
  Ok (mkTransporter (Some info) basePath None ws).

Definition GetStoragePath (t : PrimaryCopyTransporter) : res string :=
  info ← or_panic (t_info t);
  Ok (Join [t_base t; BlockId info]).

(** [create_err] is the error of [os.Create]. *)
Context (create_err : string -> option error).

Definition T_init (s : Disk * PrimaryCopyTransporter) : Disk * PrimaryCopyTransporter * res unit :=
  let '(d, t) := s in
  match GetStoragePath t with
  | Ok blockPath =>
      match create_err blockPath with
      | Some e => (d, t, Err e)
      | None => (<[blockPath := []]> d, mkTransporter (t_info t) (t_base t) (Some []) (remoteWriters t), Ok tt)
      end
  | _ => (d, t, Panic)
  end.

(** [io.MultiWriter]: one writer after the other, up to the first error. *)
Fixpoint write_remotes (ws : list RemoteWriter) (chunk : bytes) : list RemoteWriter * res unit :=
  match ws with
  | [] => ([], Ok tt)
  | w :: ws' =>
      match RW_Write w chunk with
      | (w, Ok _) => let '(ws', r) := write_remotes ws' chunk in (w :: ws', r)
      | (w, r) => (w :: ws', r)
      end
  end.

Definition T_Write (s : Disk * PrimaryCopyTransporter) (chunk : bytes) : Disk * PrimaryCopyTransporter * res unit :=
  do s, _ <- match localWriter s.2 with None => T_init s | Some _ => (s, Ok tt) end;
  let '(d, t) := s in
  let '(ws, r) := write_remotes (remoteWriters t) chunk in
  let t := mkTransporter (t_info t) (t_base t) (localWriter t) ws in
  do s, _ <- pure (d, t) r;
  match localWriter t, GetStoragePath t with
  | Some buf, Ok path =>
      let '(file, buf) := bufio_write (default [] (d !! path), buf) chunk in
      (<[path := file]> d, mkTransporter (t_info t) (t_base t) (Some buf) ws, Ok tt)
  | _, _ => (s, Panic)
  end.

Fixpoint close_remotes (ws : list RemoteWriter) : list RemoteWriter * res unit :=
  match ws with
  | [] => ([], Ok tt)
  | w :: ws' =>
      match RW_Close w with
      | (w, Ok _) => let '(ws', r) := close_remotes ws' in (w :: ws', r)
      | (w, r) => (w :: ws', r)
      end
  end.

(** [Close]: the local writer is a [*bufio.Writer], which the type switch does not
    name, so that nothing is flushed. *)
Definition T_Close (t : PrimaryCopyTransporter) : PrimaryCopyTransporter * res unit :=
  let '(ws, r) := close_remotes (remoteWriters t) in
  (mkTransporter (t_info t) (t_base t) (localWriter t) ws, r).

Fixpoint delete_remotes (ws : list RemoteWriter) : res unit :=
  match ws with
  | [] => Ok tt
  | w :: ws' => _ ← RW_Delete w; delete_remotes ws'
  end.

(** The remote copies first; [os.Remove] fails when there is no file. *)
Definition T_Delete (d : Disk) (t : PrimaryCopyTransporter) : Disk * res unit :=
  match GetStoragePath t with
  | Ok path =>
      match delete_remotes (remoteWriters t) with
      | Ok _ => match d !! path with
                | Some _ => (delete path d, Ok tt)
                | None => (d, Err (EExt "remove: no such file or directory"))
                end
      | r => (d, r)
      end
  | _ => (d, Panic)
  end.

(** ** The service *)

Record Gaia := mkGaia {
  g_self : Z;
  g_base : string;
  g_chunkSize : Z;
  g_closed : bool;                          (* the context is done *)
  g_cluster : Z -> res ClusterInfo          (* watcher.GetClusterInfoByTerm *)
}.

(** What handling one request does: go on, answer and go on, or end the call. *)
Inductive Reply :=
  | Continue
  | SendAndClose (r : Result)
  | Return (r : res unit).

Definition fail_result (code : Z) (msg : string) : Result := mkResult Result_FAIL code msg.

Definition processControlMessage (g : Gaia) (m : ControlMessage) (s : Disk * PrimaryCopyTransporter)
    : Disk * PrimaryCopyTransporter * Reply :=
  match CM_Code m with
  | CM_BEGIN =>
      match g_cluster g (CM_Term m) with
      | Ok c =>
          match NewPrimaryCopyTransporter (CM_Block m) (CM_Pipeline m) (g_self g) c (g_base g) with
          | Ok t => (s.1, t, Continue)
          | r => (s, Return (_ ← r; Ok tt))
          end
      | r => (s, Return (_ ← r; Ok tt))
      end
  | CM_EOF =>
      match T_Close s.2 with
      | (t, Ok _) => (s.1, t, SendAndClose (mkResult Result_OK 0 ""))
      | (t, Err e) => (s.1, t, SendAndClose (fail_result 0 (Error e)))
      | (t, r) => (s.1, t, Return r)
      end
  | CM_OTHER => (s, SendAndClose (fail_result 0 ""))
  end.

(** The transporter is never nil: a chunk before [BEGIN] meets the zero one. *)
Definition processChunk (content : bytes) (s : Disk * PrimaryCopyTransporter)
    : Disk * PrimaryCopyTransporter * Reply :=
  match T_Write s content with
  | (s, Ok _) => (s, Continue)
  | (s, Err e) =>
      (s, SendAndClose (fail_result (Code TransporterWriteFail) (Errno_Error TransporterWriteFail +:+ Error e)))
  | (s, r) => (s, Return r)
  end.

Definition handle_request (g : Gaia) (r : UploadBlockRequest) (s : Disk * PrimaryCopyTransporter)
    : Disk * PrimaryCopyTransporter * Reply :=
  match r with
  | Req_Message m => processControlMessage g m s
  | Req_Chunk content => processChunk content s
  | Req_None => (s, SendAndClose (fail_result 0 ""))
  end.

(** The loop of [UploadBlockData] over the requests of the stream, which then
    ends; the answers sent, and how the call ends. *)
Fixpoint serve (g : Gaia) (reqs : list UploadBlockRequest) (s : Disk * PrimaryCopyTransporter)
    : Disk * PrimaryCopyTransporter * list Result * res unit :=
  if g_closed g then (s, [fail_result (Code GaiaClosedErr) (Errno_Error GaiaClosedErr)], Ok tt)
  else match reqs with
       | [] => (s, [], Ok tt)
       | Req_None :: _ => (s, [fail_result 0 ""], Ok tt)
       | r :: reqs' =>
           match handle_request g r s with
           | (s, Continue) => serve g reqs' s
           | (s, SendAndClose x) => let '(s, l, e) := serve g reqs' s in (s, x :: l, e)
           | (s, Return e) => (s, [], e)
           end
       end.

Definition UploadBlockData (g : Gaia) (reqs : list UploadBlockRequest) (d : Disk)
    : Disk * PrimaryCopyTransporter * list Result * res unit :=
  serve g reqs (d, zero_transporter).

(** What [CloseAndRecv] gives the client: the first answer, or the error. *)
Definition client_reply (x : Disk * PrimaryCopyTransporter * list Result * res unit) : res Result :=
  match x with
  | (_, _, r :: _, _) => Ok r
  | (_, _, [], Ok _) => Err EEOF
  | (_, _, [], Err e) => Err (rpc_error e)
  | (_, _, [], Panic) => Err (EExt "rpc error: code = Unavailable")
  | (_, _, [], Stuck) => Stuck
  end.

(** ** Reading and deleting *)

(** The pieces [bufio.Reader.Read] returns for a buffer of [n] bytes: a large
    buffer is filled from the file directly. *)
Definition bufio_reads (n : nat) (content : bytes) : list bytes :=
  if decide (bufSize <= n)%nat then split_blocks n content
  else concat (split_blocks n <$> split_blocks bufSize content).

(** [send] is the error of the [k]-th [Send]. *)
Fixpoint send_pieces (send : nat -> option error) (k : nat) (l : list bytes) : list bytes * res unit :=
  match l with
  | [] => ([], Ok tt)
  | p :: l' =>
      match send k with
      | Some e => ([p], Err e)
      | None => let '(ps, r) := send_pieces send (S k) l' in (p :: ps, r)
      end
  end.

Definition GetBlockData (g : Gaia) (d : Disk) (blockID : string) (startChunk : Z) (send : nat -> option error)
    : list bytes * res unit :=
  match d !! Join [g_base g; blockID] with
  | None => ([], Err (EExt "open: no such file or directory"))
  | Some content =>
      if decide (g_chunkSize g = 0) then ([], if decide (content = []) then Ok tt else Stuck)
      else send_pieces send 0 (drop (Z.to_nat startChunk) (bufio_reads (Z.to_nat (g_chunkSize g)) content))
  end.

Definition DeleteBlock (g : Gaia) (d : Disk) (blockID : string) (p : option Pipeline) (term : Z)
    : Disk * res Result :=
  match g_cluster g term with
  | Ok c =>
      match NewPrimaryCopyTransporter (mkBlockInfo blockID 0 0 "" 0) p (g_self g) c (g_base g) with
      | Ok t => do d, _ <- T_Delete d t; (d, Ok (mkResult Result_OK 0 ""))
      | r => (d, _ ← r; Ok (mkResult Result_OK 0 ""))
      end
  | r => (d, _ ← r; Ok (mkResult Result_OK 0 ""))
  end.

End gaia.

(** ** The buffered file *)

Lemma bufio_write_spec file buf p file' buf' :
  (length buf <= bufSize)%nat -> bufio_write (file, buf) p = (file', buf') ->
  file' ++ buf' = file ++ buf ++ p /\ (length buf' <= bufSize)%nat.
Proof.
  intros Hb. unfold bufio_write. destruct (decide _) as [Hfit|Hfit].
  { intros [= <- <-]. split; [done|]. rewrite length_app. lia. }
  destruct (decide (buf = [])) as [->|Hne].
  { intros [= <- <-]. simpl. rewrite app_nil_r. split; [done|]. lia. }
  destruct (decide _) as [Hs|Hs]; intros [= <- <-].
  - split; [|done]. by rewrite <- !app_assoc, take_drop.
  - split; [|simpl; lia]. by rewrite app_nil_r, <- !app_assoc, take_drop.
Qed.

Lemma bufio_all_spec chunks :
  (bufio_all chunks).1 ++ (bufio_all chunks).2 = concat chunks /\ (length (bufio_all chunks).2 <= bufSize)%nat.
Proof.
  unfold bufio_all. assert (forall s, (length s.2 <= bufSize)%nat ->
    (foldl bufio_write s chunks).1 ++ (foldl bufio_write s chunks).2 = s.1 ++ s.2 ++ concat chunks /\
    (length (foldl bufio_write s chunks).2 <= bufSize)%nat) as Hgen.
  { induction chunks as [|c cs IH]; intros [file buf] Hb; cbn [foldl]; [by rewrite app_nil_r|].
    destruct (bufio_write (file, buf) c) as [file' buf'] eqn:E.
    destruct (bufio_write_spec _ _ _ _ _ Hb E) as [H1 H2].
    destruct (IH (file', buf') H2) as [H3 H4]. split; [|done]. cbn [fst snd] in *. rewrite H3, app_assoc, H1.
    cbn [concat]. by rewrite <- !app_assoc. }
  apply (Hgen ([], [])). simpl. lia.
Qed.

Lemma bufio_all_snoc cs c : bufio_all (cs ++ [c]) = bufio_write (bufio_all cs) c.
Proof. unfold bufio_all. by rewrite foldl_app. Qed.

(** ** Serving a stream over good links *)

Section serving.
Context (link : Z -> Link) (create_err : string -> option error).

Definition good_link (n : Z) : Prop :=
  link_conn (link n) = true /\ link_open (link n) = None /\ forall k, link_send (link n) k = None.

(** The stream of a remote writer that has forwarded the chunks [cs]. *)
Definition forwarded (w : RemoteWriter) (cs : list bytes) : list UploadBlockRequest :=
  Req_Message (mkControlMessage CM_BEGIN (rw_info w) (Some (rw_pipeline w)) 0) :: (Req_Chunk <$> cs).

Definition started (cs : list bytes) (w : RemoteWriter) : RemoteWriter :=
  mkRemoteWriter (rw_node w) (rw_info w) (rw_pipeline w)
    (match cs with [] => None | _ => Some (forwarded w cs) end).

Lemma RW_Write_good w cs c :
  good_link (rw_node w) -> RW_Write link (started cs w) c = (started (cs ++ [c]) w, Ok tt).
Proof.
  intros (Hc & Ho & Hs). destruct cs as [|c0 cs].
  - unfold RW_Write, RW_init. simpl. rewrite Hc, Ho. simpl. rewrite Hs. simpl. by rewrite Hs.
  - unfold RW_Write. simpl. rewrite Hs. unfold started, forwarded. simpl. do 4 f_equal.
    by rewrite fmap_app.
Qed.

Lemma write_remotes_good ws cs c :
  Forall (fun w => good_link (rw_node w)) ws ->
  write_remotes link (started cs <$> ws) c = (started (cs ++ [c]) <$> ws, Ok tt).
Proof.
  induction 1 as [|w ws Hw _ IH]; [done|]. csimpl. rewrite RW_Write_good by done. by rewrite IH.
Qed.

(** The state of the node after the chunks [cs]. *)
Definition received (d : Disk) (info : BlockInfo) (base : string) (ws : list RemoteWriter) (cs : list bytes)
    : Disk * PrimaryCopyTransporter :=
  match cs with
  | [] => (d, mkTransporter (Some info) base None (started [] <$> ws))
  | _ => (<[Join [base; BlockId info] := (bufio_all cs).1]> d,
          mkTransporter (Some info) base (Some (bufio_all cs).2) (started cs <$> ws))
  end.

Lemma T_Write_received d info base ws cs c :
  Forall (fun w => good_link (rw_node w)) ws -> create_err (Join [base; BlockId info]) = None ->
  T_Write link create_err (received d info base ws cs) c = (received d info base ws (cs ++ [c]), Ok tt).
Proof.
  intros Hws Hcr. destruct cs as [|c0 cs].
  - unfold T_Write, T_init, received, GetStoragePath. cbn [snd localWriter t_info t_base or_panic mbind res_bind].
    rewrite Hcr. cbn [st_bind remoteWriters t_base t_info localWriter].
    rewrite write_remotes_good by done. cbn [pure st_bind localWriter or_panic mbind res_bind t_info t_base].
    rewrite lookup_insert_eq. cbn [default from_option id].
    unfold bufio_all. cbn [app foldl].
    destruct (bufio_write ([], []) c) as [file buf]. cbn [fst snd]. by rewrite insert_insert_eq.
  - unfold T_Write, received, GetStoragePath.
    cbn [app snd localWriter t_info t_base st_bind remoteWriters or_panic mbind res_bind].
    rewrite (write_remotes_good ws (c0 :: cs)) by done.
    cbn [pure st_bind localWriter or_panic mbind res_bind t_info t_base].
    rewrite lookup_insert_eq. cbn [default from_option id].
    change (c0 :: cs ++ [c]) with ((c0 :: cs) ++ [c]). rewrite bufio_all_snoc.
    rewrite <- surjective_pairing.
    destruct (bufio_write (bufio_all (c0 :: cs)) c) as [file buf]. cbn [fst snd]. by rewrite insert_insert_eq.
Qed.

Lemma serve_chunks g d info base ws cs2 : forall cs1 rest,
  g_closed g = false -> Forall (fun w => good_link (rw_node w)) ws -> create_err (Join [base; BlockId info]) = None ->
  serve link create_err g ((Req_Chunk <$> cs2) ++ rest) (received d info base ws cs1) =
  serve link create_err g rest (received d info base ws (cs1 ++ cs2)).
Proof.
  induction cs2 as [|c cs2 IH]; intros cs1 rest Hg Hws Hcr; [by rewrite app_nil_r|].
  csimpl. rewrite Hg. unfold handle_request, processChunk.
  rewrite T_Write_received by done. rewrite IH by done. by rewrite <- app_assoc.
Qed.

(** Every other node of the pipeline gets a writer. *)
Lemma make_remotes_ok info p self c ids :
  (forall id, id ∈ ids -> exists n, n ∈ NodesInfo c /\ RaftId n = id) ->
  exists ws, make_remotes info p self c ids = Ok ws /\
    Forall (fun w => rw_info w = info /\ rw_stream w = None /\ P_RaftId (rw_pipeline w) = [rw_node w] /\
                     rw_node w ∈ ids /\ rw_node w <> self) ws /\
    (forall id, id ∈ ids -> id <> self -> exists w, w ∈ ws /\ rw_node w = id).
Proof.
  induction ids as [|id ids IH]; intros Hids; simpl.
  { exists []. split_and!; [done|done|]. intros id Hid. by apply not_elem_of_nil in Hid. }
  destruct IH as (ws & Ews & HF & Hall). { intros x Hx. apply Hids. by right. }
  assert (Forall (fun w => rw_info w = info /\ rw_stream w = None /\ P_RaftId (rw_pipeline w) = [rw_node w] /\
      rw_node w ∈ id :: ids /\ rw_node w <> self) ws) as HF'.
  { eapply Forall_impl; [exact HF|]. intros w (? & ? & ? & ? & ?). split_and!; try done. by right. }
  destruct (decide (self = id)) as [->|Hne].
  { exists ws. split; [done|]. split; [done|]. intros x [->|Hx]%elem_of_cons Hx'; [done|]. by apply Hall. }
  destruct (Hids id ltac:(left)) as (n & Hn & Hid).
  assert (exists n', getNodeInfo c id = Some n' /\ RaftId n' = id) as (n' & Hn' & Hid').
  { unfold getNodeInfo. destruct (List.find _ _) as [n'|] eqn:Ef.
    - exists n'. split; [done|]. apply List.find_some in Ef as [_ Ef]. by apply bool_decide_eq_true in Ef.
    - exfalso. apply list_elem_of_In in Hn. pose proof (List.find_none _ _ Ef n Hn) as Hx. simpl in Hx.
      by apply bool_decide_eq_false in Hx. }
  rewrite Hn'. cbn [NewRemoteWriter or_panic mbind res_bind]. unfold NewRemoteWriter. cbn [or_panic mbind res_bind].
  rewrite Ews. cbn [mbind res_bind]. eexists. split; [done|]. split.
  - constructor; [|done]. simpl. rewrite Hid'. split_and!; try done. by left.
  - intros x [->|Hx]%elem_of_cons Hx'.
    + exists (mkRemoteWriter (RaftId n') info (makeSingleNodePipeline n' p) None). split; [by left|done].
    + destruct (Hall x Hx Hx') as (w & Hw & ?). exists w. split; [by right|done].
Qed.

(** A closed remote writer whose node answers OK. *)
Definition finished (cs : list bytes) (w : RemoteWriter) : RemoteWriter :=
  mkRemoteWriter (rw_node w) (rw_info w) (rw_pipeline w)
    (Some (forwarded w cs ++ [Req_Message (mkControlMessage CM_EOF (rw_info w) None 0)])).

Lemma close_remotes_good ws cs : cs <> [] ->
  Forall (fun w => exists r, link_reply (link (rw_node w))
     (forwarded w cs ++ [Req_Message (mkControlMessage CM_EOF (rw_info w) None 0)]) = Ok r /\ R_Status r = Result_OK) ws ->
  close_remotes link (started cs <$> ws) = (finished cs <$> ws, Ok tt).
Proof.
  intros Hcs. induction 1 as [|w ws (r & Hr & Hst) _ IH]; [done|]. csimpl.
  unfold RW_Close. destruct cs as [|c0 cs]; [done|].
  cbn [started rw_stream stream_send rw_node rw_info rw_pipeline]. rewrite Hr.
  rewrite decide_True by done. rewrite IH. done.
Qed.

End serving.

(** ** Properties *)

(** The other nodes of the group run the same service: the answer of a link is
    that of the node's own [UploadBlockData]. *)
Definition peer_link (peer : Z -> Gaia) (disk : Z -> Disk) (id : Z) : Link :=
  mkLink true None (fun _ => None)
    (fun reqs => client_reply (UploadBlockData (fun _ => mkLink false None (fun _ => None) (fun _ => Stuck) Stuck)
                                 (fun _ => None) (peer id) reqs (disk id)))
    (Ok (mkResult Result_OK 0 "")).

Definition no_link (_ : Z) : Link := mkLink false None (fun _ => None) (fun _ => Stuck) Stuck.

Definition no_create_err (_ : string) : option error := None.

Definition block_path (g : Gaia) (info : BlockInfo) : string := Join [g_base g; BlockId info].

(** A replica given the forwarded stream. *)
Lemma replica_serves (g : Gaia) (d : Disk) c w cs :
  g_closed g = false -> g_cluster g 0 = Ok c -> P_RaftId (rw_pipeline w) = [g_self g] -> cs <> [] ->
  UploadBlockData no_link no_create_err g (forwarded w cs ++ [Req_Message (mkControlMessage CM_EOF (rw_info w) None 0)]) d
  = (<[block_path g (rw_info w) := (bufio_all cs).1]> d,
     mkTransporter (Some (rw_info w)) (g_base g) (Some (bufio_all cs).2) [], [mkResult Result_OK 0 ""], Ok tt).
Proof.
  intros Hg Hc Hp Hcs. unfold UploadBlockData, forwarded. rewrite <- app_comm_cons. cbn [serve]. rewrite Hg.
  unfold handle_request at 1, processControlMessage. cbn [CM_Code CM_Term CM_Block CM_Pipeline]. rewrite Hc.
  unfold NewPrimaryCopyTransporter. cbn [or_panic mbind res_bind]. rewrite Hp. cbn [make_remotes].
  rewrite decide_True by done. cbn [mbind res_bind].
  pose proof (serve_chunks no_link no_create_err g d (rw_info w) (g_base g) [] cs []
    [Req_Message (mkControlMessage CM_EOF (rw_info w) None 0)] Hg ltac:(constructor) eq_refl) as Hs.
  change (received d (rw_info w) (g_base g) [] []) with
    (d, mkTransporter (Some (rw_info w)) (g_base g) None []) in Hs. cbn [fst]. rewrite Hs. clear Hs.
  cbn [serve app]. rewrite Hg. destruct cs as [|c0 cs]; [done|]. reflexivity.
Qed.

(** The whole exchange: the node keeps the chunks and each remote writer has
    forwarded them to a node that does the same. *)
Lemma upload_served (g : Gaia) (peer : Z -> Gaia) (disk : Z -> Disk) (d : Disk)
    (info : BlockInfo) (p : Pipeline) (term : Z) (c : ClusterInfo) (cs : list bytes) :
  g_closed g = false -> g_cluster g term = Ok c -> cs <> [] ->
  (forall id, id ∈ P_RaftId p -> exists n, n ∈ NodesInfo c /\ RaftId n = id) ->
  (forall id, id ∈ P_RaftId p -> g_self (peer id) = id /\ g_closed (peer id) = false /\
     exists c', g_cluster (peer id) 0 = Ok c') ->
  exists ws,
    UploadBlockData (peer_link peer disk) no_create_err g (block_stream info p term cs) d =
      (<[block_path g info := (bufio_all cs).1]> d,
       mkTransporter (Some info) (g_base g) (Some (bufio_all cs).2) (finished cs <$> ws), [mkResult Result_OK 0 ""], Ok tt) /\
    (forall w, w ∈ ws -> rw_node w ∈ P_RaftId p /\ rw_node w <> g_self g /\ exists reqs t',
       rw_stream (finished cs w) = Some reqs /\ forall d',
       UploadBlockData no_link no_create_err (peer (rw_node w)) reqs d' =
         (<[block_path (peer (rw_node w)) info := (bufio_all cs).1]> d', t', [mkResult Result_OK 0 ""], Ok tt)) /\
    (forall id, id ∈ P_RaftId p -> id <> g_self g -> exists w, w ∈ ws /\ rw_node w = id).
Proof.
  intros Hg Hc Hcs Hids Hpeer.
  destruct (make_remotes_ok info p (g_self g) c (P_RaftId p) Hids) as (ws & Ews & HF & Hall).
  assert (Forall (fun w => good_link (peer_link peer disk) (rw_node w)) ws) as Hgood
    by (apply Forall_forall; done).
  assert (forall w, w ∈ ws -> exists t', forall d', UploadBlockData no_link no_create_err (peer (rw_node w))
     (forwarded w cs ++ [Req_Message (mkControlMessage CM_EOF (rw_info w) None 0)]) d' =
     (<[block_path (peer (rw_node w)) info := (bufio_all cs).1]> d', t', [mkResult Result_OK 0 ""], Ok tt)) as Hrep.
  { intros w Hw. rewrite Forall_forall in HF. destruct (HF w Hw) as (Hinfo & _ & Hpl & Hid & _).
    destruct (Hpeer _ Hid) as (Hself & Hcl & c' & Hc'). eexists. intros d'.
    rewrite (replica_serves (peer (rw_node w)) d' c' w cs); [by rewrite Hinfo|done|done|congruence|done]. }
  assert (started [] <$> ws = ws) as Hst.
  { clear -HF. induction HF as [|w ws (_ & Hs & _) _ IH]; [done|]. csimpl. rewrite IH. f_equal.
    destruct w. simpl in *. by rewrite Hs. }
  unfold block_stream, UploadBlockData. cbn [serve]. rewrite Hg. unfold handle_request at 1, processControlMessage.
  cbn [CM_Code CM_Term CM_Block CM_Pipeline]. rewrite Hc.
  unfold NewPrimaryCopyTransporter. cbn [or_panic mbind res_bind]. rewrite Ews. cbn [mbind res_bind fst].
  pose proof (serve_chunks (peer_link peer disk) no_create_err g d info (g_base g) ws cs []
    [Req_Message (mkControlMessage CM_EOF info (Some p) term)] Hg Hgood eq_refl) as Hs.
  unfold received at 1 in Hs. rewrite Hst in Hs. rewrite Hs. clear Hs.
  exists ws. split_and!; [..|exact Hall].
  - cbn [serve app]. rewrite Hg. unfold handle_request, processControlMessage. cbn [CM_Code].
    destruct cs as [|c0 cs]; [done|]. unfold received. cbn [snd fst T_Close remoteWriters]. unfold T_Close.
    cbn [remoteWriters]. rewrite (close_remotes_good (peer_link peer disk) ws (c0 :: cs)); [done|done|].
    apply Forall_forall. intros w Hw. destruct (Hrep w Hw) as [t' Et'].
    exists (mkResult Result_OK 0 ""). split; [|done]. simpl link_reply. unfold no_link, no_create_err in Et'.
    specialize (Et' (disk (rw_node w))). simpl in Et' |- *. by rewrite Et'.
  - intros w Hw. rewrite Forall_forall in HF. destruct (HF w Hw) as (_ & _ & _ & Hid & Hne).
    split; [done|]. split; [done|]. destruct (Hrep w Hw) as [t' Et']. eexists _, t'. split; [done|exact Et'].
Qed.

(** C13: replication. When the links work and every other node of the group runs
    the service, a block sent as [BEGIN], chunks, [EOF] is accepted with OK by the
    node it is sent to, and that node and every other node of the pipeline end
    with the same file: the chunks, as far as they have left the 4096-byte write
    buffer. *)
Theorem replicas_agree (g : Gaia) (peer : Z -> Gaia) (disk : Z -> Disk) (d : Disk)
    (info : BlockInfo) (p : Pipeline) (term : Z) (c : ClusterInfo) (cs : list bytes) :
  g_closed g = false -> g_cluster g term = Ok c -> cs <> [] ->
  (forall id, id ∈ P_RaftId p -> exists n, n ∈ NodesInfo c /\ RaftId n = id) ->
  (forall id, id ∈ P_RaftId p -> g_self (peer id) = id /\ g_closed (peer id) = false /\
     exists c', g_cluster (peer id) 0 = Ok c') ->
  exists t, UploadBlockData (peer_link peer disk) no_create_err g
      (Req_Message (mkControlMessage CM_BEGIN info (Some p) term) :: (Req_Chunk <$> cs) ++
       [Req_Message (mkControlMessage CM_EOF info (Some p) term)]) d =
    (<[block_path g info := (bufio_all cs).1]> d, t, [mkResult Result_OK 0 ""], Ok tt) /\
  forall id, id ∈ P_RaftId p -> id <> g_self g -> exists w reqs t',
    w ∈ remoteWriters t /\ rw_node w = id /\ rw_stream w = Some reqs /\
    UploadBlockData no_link no_create_err (peer id) reqs (disk id) =
      (<[block_path (peer id) info := (bufio_all cs).1]> (disk id), t', [mkResult Result_OK 0 ""], Ok tt).
Proof.
  intros Hg Hc Hcs Hids Hpeer.
  destruct (upload_served g peer disk d info p term c cs Hg Hc Hcs Hids Hpeer) as (ws & E & Hws & Hall).
  eexists. split; [exact E|]. intros id Hid Hne. destruct (Hall id Hid Hne) as (w & Hw & <-).
  destruct (Hws w Hw) as (_ & _ & reqs & t' & Hr & Eu). exists (finished cs w), reqs, t'. split_and!; try done.
  simpl. by apply list_elem_of_fmap_2.
Qed.

(** Two replicas, the second of which is down in the table only. *)
Definition demo_gaia (id : Z) : Gaia := mkGaia id "/data" 2 false (fun _ => Ok small_cluster).

Definition demo_info : BlockInfo := mkBlockInfo "blk" 0 5 "" 7.

Lemma replicas_agree_witness :
  exists t, UploadBlockData (peer_link demo_gaia (fun _ => ∅)) no_create_err (demo_gaia 3)
      (Req_Message (mkControlMessage CM_BEGIN demo_info (Some (mkPipeline 7 [3; 1] Sync_STREAM 7)) 7) ::
       (Req_Chunk <$> [[x01; x02; x03]; [x04; x05]]) ++
       [Req_Message (mkControlMessage CM_EOF demo_info (Some (mkPipeline 7 [3; 1] Sync_STREAM 7)) 7)]) ∅ =
    (<[block_path (demo_gaia 3) demo_info := (bufio_all [[x01; x02; x03]; [x04; x05]]).1]> ∅, t,
     [mkResult Result_OK 0 ""], Ok tt).
Proof.
  edestruct (replicas_agree (demo_gaia 3) demo_gaia (fun _ => ∅) ∅ demo_info (mkPipeline 7 [3; 1] Sync_STREAM 7) 7
    small_cluster [[x01; x02; x03]; [x04; x05]]) as (t & E & _).
  - reflexivity.
  - reflexivity.
  - discriminate.
  - intros id [->|[->|Hx%not_elem_of_nil]%elem_of_cons]%elem_of_cons; [| |done].
    + eexists. split; [left|done].
    + eexists. split; [right; right; left|done].
  - intros id Hid. split; [done|]. split; [done|]. by eexists.
  - exists t. exact E.
Defined.

(** the tail of a block is lost. [Close] does not flush the writer, so that the
    file an accepted upload leaves is the block without the last bytes that were
    still buffered, up to 4096 of them; a block of at most 4096 bytes in one chunk
    leaves an empty file. *)
Theorem accepted_block_truncated (cs : list bytes) :
  (exists lost, concat cs = (bufio_all cs).1 ++ lost /\ (length lost <= 4096)%nat) /\
  (forall c, cs = [c] -> (length c <= 4096)%nat -> (bufio_all cs).1 = []).
Proof.
  split.
  - exists (bufio_all cs).2. destruct (bufio_all_spec cs) as [H1 H2]. by split.
  - intros c -> Hl. unfold bufio_all, bufio_write. cbn [foldl]. rewrite decide_True; [done|]. unfold bufSize. simpl length. lia.
Qed.

Lemma accepted_block_truncated_witness : (bufio_all [[x01; x02]]).1 = [].
Proof. apply (proj2 (accepted_block_truncated [[x01; x02]]) [x01; x02] eq_refl). apply Nat.leb_le. vm_compute. reflexivity. Defined.

Lemma concat_bufio_reads n d : (0 < n)%nat -> concat (bufio_reads n d) = d.
Proof.
  intros Hn. unfold bufio_reads. destruct (decide _); [by apply concat_split_blocks|].
  rewrite <- (concat_split_blocks bufSize d) at 2 by (unfold bufSize; lia).
  generalize (split_blocks bufSize d). intros l. induction l as [|x l IH]; [done|].
  csimpl. rewrite concat_app, IH. by rewrite concat_split_blocks.
Qed.

Lemma send_pieces_ok l : forall k, send_pieces (fun _ => None) k l = (l, Ok tt).
Proof. induction l as [|x l IH]; intros k; [done|]. simpl. by rewrite IH. Qed.

(** what is stored is what is read. Over a working stream [GetBlockData] of a
    stored block succeeds and its pieces, in order, are the file; started at piece
    [k] it leaves out the first [k] pieces, no more. *)
Theorem block_read_back (g : Gaia) (d : Disk) (blockID : string) (content : bytes) (k : nat) :
  0 < g_chunkSize g -> d !! Join [g_base g; blockID] = Some content ->
  exists pieces, GetBlockData g d blockID 0 (fun _ => None) = (pieces, Ok tt) /\ concat pieces = content /\
    GetBlockData g d blockID (Z.of_nat k) (fun _ => None) = (drop k pieces, Ok tt).
Proof.
  intros Hc Hd. unfold GetBlockData. rewrite Hd. rewrite !decide_False by lia. rewrite !send_pieces_ok.
  change (Z.to_nat 0) with 0%nat. rewrite drop_0, Nat2Z.id.
  exists (bufio_reads (Z.to_nat (g_chunkSize g)) content). split; [reflexivity|]. split; [|reflexivity].
  apply concat_bufio_reads. lia.
Qed.

Lemma block_read_back_witness :
  exists pieces, GetBlockData (demo_gaia 1) {["/data/blk" := [x01; x02]]} "blk" 0 (fun _ => None) = (pieces, Ok tt) /\
    concat pieces = [x01; x02] /\
    GetBlockData (demo_gaia 1) {["/data/blk" := [x01; x02]]} "blk" 1 (fun _ => None) = (drop 1 pieces, Ok tt).
Proof.
  apply (block_read_back (demo_gaia 1) {["/data/blk" := [x01; x02]]} "blk" [x01; x02] 1); [simpl; lia|reflexivity].
Defined.

(** a stream that starts with a chunk crashes the handler: the check for a
    missing transporter looks for nil, but the handler starts with an empty one,
    which has no block. *)
Theorem chunk_before_begin_panics (link : Z -> Link) (create_err : string -> option error) (g : Gaia)
    (content : bytes) (reqs : list UploadBlockRequest) (d : Disk) :
  g_closed g = false ->
  (UploadBlockData link create_err g (Req_Chunk content :: reqs) d).2 = Panic.
Proof. intros Hg. unfold UploadBlockData. cbn [serve]. by rewrite Hg. Qed.

Lemma chunk_before_begin_panics_witness :
  (UploadBlockData no_link no_create_err (demo_gaia 1) [Req_Chunk [x01]] ∅).2 = Panic.
Proof. apply chunk_before_begin_panics. reflexivity. Defined.
