(* ===== verification/GaiaMove.v ===== *)
(** * Moving blocks: [transformBlocks] of [src/edge-node/gaia/gaia.go]

    After a change of the cluster the block server was to send every block it holds to
    the nodes of its new pipeline. The call is there, its registration with the watcher
    is commented out. The block is read from the file that the transporter, by its first
    write, makes anew. *)

From S2P Require Import Prelude GoStd Errno Infos Object Pipeline GaiaMsg Block WriterProofs Gaia.

Section move.
Context `{HR : HashRing, CR : Crush}.
Context (link : Z -> Link) (create_err : string -> option error).

Definition getBlockBasePath (g : Gaia) : string := Join [g_base g].

(** [NewGaia] *)
Definition NewGaia (self : Z) (base : string) (chunkSize : Z) (cluster : Z -> res ClusterInfo) : Gaia :=
  mkGaia self base chunkSize false cluster.

(** [io.CopyBuffer] from the open file at offset [off]: what is read is what the file
    holds by then. An error of the transporter ends the copy. *)
Fixpoint copy_file (fuel : nat) (chunkSize off : nat) (path : string) (s : Disk * PrimaryCopyTransporter)
    : Disk * PrimaryCopyTransporter * res unit :=
  match fuel with
  | O => (s, Stuck)
  | S fuel =>
      let piece := take chunkSize (drop off (default [] (s.1 !! path))) in
      if decide (piece = []) then (s, Ok tt)
      else do s, _ <- T_Write link create_err s piece; copy_file fuel chunkSize (off + length piece) path s
  end.

(** One file of the directory. [open_err]: the error of [os.Open]. A transporter is
    always made; the copy's error and that of [Close] are dropped. *)
Definition transform_file (fuel : nat) (g : Gaia) (c : ClusterInfo) (open_err : string -> bool) (d : Disk) (name : string)
    : Disk * res bool :=
  let filePath := Join [g_base g; name] in
  if open_err filePath then (d, Ok true)
  else
    do d, pgID <- pure d (GenBlockPgID name (BlockPgNum c));
    match NewClusterPipelines c with
    | Err _ => (d, Ok false)
    | Panic => (d, Panic)
    | Stuck => (d, Stuck)
    | Ok cp =>
        do d, p <- pure d (GetBlockPipeline cp pgID);
        do d, t <- pure d (NewPrimaryCopyTransporter (mkBlockInfo name 0 0 "" pgID) (Some p) (g_self g) c (g_base g));
        match copy_file fuel (Z.to_nat (g_chunkSize g)) 0 filePath (d, t) with
        | (d, _, Panic) => (d, Panic)
        | (d, _, Stuck) => (d, Stuck)
        | (d, t, _) =>
            match T_Close link t with
            | (_, Panic) => (d, Panic)
            | (_, Stuck) => (d, Stuck)
            | _ => (d, Ok true)
            end
        end
    end.

Fixpoint transform_files (fuel : nat) (g : Gaia) (c : ClusterInfo) (open_err : string -> bool) (files : list string) (d : Disk)
    : Disk * res unit :=
  match files with
  | [] => (d, Ok tt)
  | f :: files' =>
      do d, go_on <- transform_file fuel g c open_err d f;
      if go_on : bool then transform_files fuel g c open_err files' d else (d, Ok tt)
  end.

(** [files]: the plain files [ReadDir] lists. A copy with an empty buffer panics. *)
Definition transformBlocks (fuel : nat) (g : Gaia) (info : BaseInfo) (files : res (list string)) (open_err : string -> bool) (d : Disk)
    : Disk * res unit :=
  match files with
  | Ok files =>
      match files, GetClusterInfo info with
      | [], _ => (d, Ok tt)
      | _, None => (d, Panic)
      | _, Some c => if decide (g_chunkSize g = 0) then (d, Panic) else transform_files fuel g c open_err files d
      end
  | Err _ => (d, Ok tt)
  | Panic => (d, Panic)
  | Stuck => (d, Stuck)
  end.

(** ** What it leaves *)

(** The first piece is read before the file is made anew, and the writer keeps what
    fits its buffer. *)
Definition left_over (chunkSize : nat) (content : bytes) : bytes :=
  let piece := take chunkSize content in if decide (length piece <= bufSize)%nat then [] else piece.

Lemma left_over_short chunkSize content : (length (left_over chunkSize content) <= chunkSize)%nat.
Proof. unfold left_over. destruct (decide _); [simpl; lia|]. rewrite length_take. lia. Qed.

Context (Hcreate : forall p, create_err p = None).

Lemma copy_own_file fuel n info base name (d : Disk) content : (0 < n)%nat -> d !! Join [base; BlockId info] = Some content ->
  name = Join [base; BlockId info] ->
  exists t, copy_file (S (S fuel)) n 0 name (d, mkTransporter (Some info) base None []) =
    (<[name := left_over n content]> d, t, Ok tt) /\ remoteWriters t = [].
Proof.
  intros Hn Hd ->. set (path := Join [base; BlockId info]) in *. cbn [copy_file fst]. rewrite Hd. cbn [default from_option id]. rewrite drop_0.
  unfold left_over. set (piece := take n content). destruct (decide (piece = [])) as [Hz|Hz].
  { exists (mkTransporter (Some info) base None []). split; [|done]. rewrite Hz. cbn [length]. rewrite decide_True by lia. rewrite insert_id; [done|].
    assert (content = []) as ->; [|done]. unfold piece in Hz. destruct content; [done|]. destruct n; [lia|]. by simpl in Hz. }
  unfold T_Write. cbn [snd localWriter]. unfold T_init, GetStoragePath. cbn [t_info or_panic mbind res_bind t_base]. fold path.
  rewrite Hcreate. cbn [st_bind remoteWriters write_remotes pure localWriter t_info or_panic mbind res_bind t_base]. fold path.
  rewrite lookup_insert_eq. cbn [default from_option id]. unfold bufio_write. cbn [length]. rewrite Nat.sub_0_r.
  destruct (decide (length piece <= bufSize)%nat) as [Hs|Hs].
  - cbn [app]. rewrite insert_insert_eq. cbn [st_bind copy_file fst]. rewrite lookup_insert_eq. cbn [default from_option id].
    rewrite drop_nil, take_nil, decide_True by done. eexists. split; [reflexivity|done].
  - rewrite (decide_True (P:=[] = [])) by done. cbn [app]. rewrite insert_insert_eq. cbn [st_bind copy_file fst]. rewrite lookup_insert_eq.
    cbn [default from_option id]. rewrite (drop_ge piece) by lia. rewrite take_nil, decide_True by done. eexists. split; [reflexivity|done].
Qed.

End move.

(** moving a block destroys it. For a node that stays the only one of a block's
    pipeline, the block after [transformBlocks] is what its first chunk was, and empty
    if that is at most the 4096 bytes the local writer keeps in memory. *)
Theorem moving_truncates `{HR : HashRing, CR : Crush} link create_err (g : Gaia) c cp pg p name content d fuel :
  (forall p, create_err p = None) -> NewClusterPipelines c = Ok cp -> GenBlockPgID name (BlockPgNum c) = Ok pg ->
  GetBlockPipeline cp pg = Ok p -> P_RaftId p = [g_self g] -> 0 < g_chunkSize g -> d !! Join [g_base g; name] = Some content ->
  transform_file link create_err (S (S fuel)) g c (fun _ => false) d name =
    (<[Join [g_base g; name] := left_over (Z.to_nat (g_chunkSize g)) content]> d, Ok true).
Proof.
  intros Hcr Hcp Hpg Hp Hself Hn Hd. unfold transform_file. rewrite Hpg. cbn [pure st_bind]. rewrite Hcp. rewrite Hp. cbn [pure st_bind].
  unfold NewPrimaryCopyTransporter. cbn [or_panic mbind res_bind]. rewrite Hself. cbn [make_remotes]. rewrite decide_True by done.
  cbn [mbind res_bind pure st_bind].
  destruct (copy_own_file link create_err Hcr fuel (Z.to_nat (g_chunkSize g)) (mkBlockInfo name 0 0 "" pg) (g_base g) _ d content
    ltac:(lia) Hd eq_refl) as (t & E & Hr). cbn [BlockId] in E. rewrite E. unfold T_Close. rewrite Hr. done.
Qed.
