(* ===== verification/MetaStorage.v ===== *)
(** * Storages of object metadata

    [src/shared/alaya/meta_storage.go] declares [MetaStorage] and implements it in
    memory; [src/edge-node/alaya/rocksdb_meta_storage.go] implements it over a
    RocksDB column family per placement group. [MetaStorageLaws] is what the
    metadata service relies on: a storage is a map from object identifiers. *)

From S2P Require Import Prelude GoStd Errno Infos Rocks InfoStorage Object.

(** ** The interface *)

Class MetaStorage (S : Type) := {
  RecordMeta : S -> ObjectMeta -> S * res unit;
  GetMeta : S -> string -> res ObjectMeta;
  MetaStorage_List : S -> string -> res (list ObjectMeta);
  MetaStorage_Delete : S -> string -> S * res unit
}.

Class MetaStorageLaws (S : Type) `{MetaStorage S} := {
  metas : S -> gmap string ObjectMeta;
  metas_ok : S -> Prop;
  RecordMeta_law s m s' : metas_ok s -> RecordMeta s m = (s', Ok tt) ->
    metas_ok s' /\ metas s' = <[ObjId m := m]> (metas s);
  GetMeta_law s id : metas_ok s ->
    GetMeta s id = or_err (EErrno MetaNotExist) (metas s !! id);
  List_law s prefix : metas_ok s -> exists l, MetaStorage_List s prefix = Ok l /\
    forall m, m ∈ l <-> exists id, metas s !! id = Some m /\ HasPrefix id prefix = true;
  Delete_law s id s' : metas_ok s -> MetaStorage_Delete s id = (s', Ok tt) ->
    metas_ok s' /\ metas s' = delete id (metas s)
}.

(** ** In memory *)

Record MemoryMetaStorage := mkMemoryMetaStorage { MetaMap : gmap string ObjectMeta }.

Definition MemMeta_Record (s : MemoryMetaStorage) (m : ObjectMeta) : MemoryMetaStorage * res unit :=
  (mkMemoryMetaStorage (<[ObjId m := m]> (MetaMap s)), Ok tt).

Definition MemMeta_Get (s : MemoryMetaStorage) (id : string) : res ObjectMeta :=
  or_err (EErrno MetaNotExist) (MetaMap s !! id).

Definition MemMeta_List (s : MemoryMetaStorage) (prefix : string) : res (list ObjectMeta) :=
  Ok (snd <$> List.filter (fun kv =>
        if decide (String.length kv.1 < String.length prefix)%nat then false
        else HasPrefix kv.1 prefix) (map_to_list (MetaMap s))).

Definition MemMeta_Delete (s : MemoryMetaStorage) (id : string) : MemoryMetaStorage * res unit :=
  (mkMemoryMetaStorage (delete id (MetaMap s)), Ok tt).

#[export] Instance memory_meta : MetaStorage MemoryMetaStorage := {|
  RecordMeta := MemMeta_Record; GetMeta := MemMeta_Get;
  MetaStorage_List := MemMeta_List; MetaStorage_Delete := MemMeta_Delete
|}.

Lemma HasPrefix_length s p : HasPrefix s p = true -> (String.length p <= String.length s)%nat.
Proof.
  revert s. induction p as [|a p IH]; intros [|b s]; simpl; try done; [lia|].
  intros [_ Hp]%andb_true_iff. apply IH in Hp. lia.
Qed.

#[export] Instance memory_meta_laws : MetaStorageLaws MemoryMetaStorage.
Proof.
  refine {| metas := MetaMap; metas_ok := fun _ => True |}; simpl.
  - by intros s m s' _ [= <-].
  - done.
  - intros s prefix _. eexists. split; [done|]. intros m. rewrite list_elem_of_fmap. split.
    + intros ([k v] & -> & Hin). apply list_elem_of_In, filter_In in Hin as [Hin Hp]. simpl in *.
      destruct (decide _); [done|]. exists k. split; [|done].
      apply list_elem_of_In in Hin. by apply elem_of_map_to_list in Hin.
    + intros (k & Hk & Hp). exists (k, m). split; [done|]. apply list_elem_of_In, filter_In. simpl.
      split; [apply list_elem_of_In; by apply elem_of_map_to_list|].
      apply HasPrefix_length in Hp as Hl. by rewrite decide_False by lia.
  - by intros s id s' _ [= <-].
Defined.

(** ** In RocksDB *)

Section rocks.
Context {V : Type} `{RocksDB V, !Proto ObjectMeta V}.

Record RocksDBMetaStorage := mkRocksDBMetaStorage { mdb : DB; mCfName : string }.

Definition RocksMeta_Record (s : RocksDBMetaStorage) (m : ObjectMeta) : RocksDBMetaStorage * res unit :=
  match PutCF (mdb s) (mCfName s) (ObjId m) (Marshal m) with
  | Ok db => (mkRocksDBMetaStorage db (mCfName s), Ok tt)
  | Err e => (s, Err e) | Panic => (s, Panic) | Stuck => (s, Stuck)
  end.

Definition RocksMeta_Get (s : RocksDBMetaStorage) (id : string) : res ObjectMeta :=
  v ← or_err (EErrno MetaNotExist) (GetCF (mdb s) (mCfName s) id);
  or_err unmarshal_err (Unmarshal v).

(** The whole family is walked; only entries with the prefix are unmarshalled. *)
Fixpoint list_prefix (prefix : string) (l : list (string * V)) : res (list ObjectMeta) :=
  match l with
  | [] => Ok []
  | (k, v) :: l' =>
      if HasPrefix k prefix then
        m ← or_err unmarshal_err (Unmarshal v);
        rest ← list_prefix prefix l';
        Ok (m :: rest)
      else list_prefix prefix l'
  end.

Definition RocksMeta_List (s : RocksDBMetaStorage) (prefix : string) : res (list ObjectMeta) :=
  list_prefix prefix (IterCF (mdb s) (mCfName s)).

Definition RocksMeta_Delete (s : RocksDBMetaStorage) (id : string) : RocksDBMetaStorage * res unit :=
  match DeleteCF (mdb s) (mCfName s) id with
  | Ok db => (mkRocksDBMetaStorage db (mCfName s), Ok tt)
  | Err e => (s, Err e) | Panic => (s, Panic) | Stuck => (s, Stuck)
  end.

(** The snapshot message of one family has keys and values. *)
Definition RocksMeta_CreateSnapshot (s : RocksDBMetaStorage) : list string * list V :=
  let l := IterCF (mdb s) (mCfName s) in (l.*1, l.*2).

Definition RocksMeta_RecoverFromSnapshot (s : RocksDBMetaStorage) (snap : list string * list V)
    : RocksDBMetaStorage * res unit :=
  match put_all (mdb s) (mCfName s) snap.1 snap.2 with
  | Ok db => (mkRocksDBMetaStorage db (mCfName s), Ok tt)
  | Err e => (s, Err e) | Panic => (s, Panic) | Stuck => (s, Stuck)
  end.

#[export] Instance rocks_meta : MetaStorage RocksDBMetaStorage := {|
  RecordMeta := RocksMeta_Record; GetMeta := RocksMeta_Get;
  MetaStorage_List := RocksMeta_List; MetaStorage_Delete := RocksMeta_Delete
|}.

Context `{!RocksDBOk, !ProtoOk ObjectMeta V}.

Definition mfamily (s : RocksDBMetaStorage) : gmap string V := family_of (mdb s) (mCfName s).

Definition mreadable (s : RocksDBMetaStorage) : Prop := map_Forall (fun _ v => is_Some (Unmarshal v)) (mfamily s).

Definition rocks_metas (s : RocksDBMetaStorage) : gmap string ObjectMeta := omap Unmarshal (mfamily s).

Lemma list_prefix_ok prefix l : Forall (fun kv => is_Some (Unmarshal kv.2)) l ->
  exists r, list_prefix prefix l = Ok r /\
    forall m, m ∈ r <-> exists k v, (k, v) ∈ l /\ HasPrefix k prefix = true /\ Unmarshal v = Some m.
Proof.
  induction 1 as [|[k v] l [m0 Hm] _ (r & Er & Hr)].
  - exists []. split; [done|]. intros m. split; [intros Hx; by apply not_elem_of_nil in Hx|].
    intros (k & v & Hx & _). by apply not_elem_of_nil in Hx.
  - simpl in Hm. simpl. destruct (HasPrefix k prefix) eqn:Hp.
    + rewrite Hm. simpl. rewrite Er. simpl. eexists. split; [done|]. intros m. rewrite elem_of_cons, Hr. split.
      * intros [->|(k' & v' & Hin & ?)]; [exists k, v|exists k', v']; (split; [|done]); [by left|by right].
      * intros (k' & v' & Hin & Hp' & Hu). apply elem_of_cons in Hin as [[= -> ->]|Hin]; [left; congruence|right].
        by exists k', v'.
    + rewrite Er. eexists. split; [done|]. intros m. rewrite Hr. split.
      * intros (k' & v' & Hin & ?). exists k', v'. split; [by right|done].
      * intros (k' & v' & Hin & Hp' & Hu). apply elem_of_cons in Hin as [[= -> ->]|Hin]; [congruence|].
        by exists k', v'.
Qed.

#[export] Instance rocks_meta_laws : MetaStorageLaws RocksDBMetaStorage.
Proof.
  refine {| metas := rocks_metas; metas_ok := mreadable |}; simpl.
  - intros s m s' Hr E. unfold RocksMeta_Record in E. destruct (PutCF _ _ _ _) as [db| | |] eqn:Ep; try done.
    injection E as <-. apply PutCF_ok in Ep.
    assert (mfamily (mkRocksDBMetaStorage db (mCfName s)) = <[ObjId m := Marshal m]> (mfamily s)) as Ef.
    { unfold mfamily, family_of. simpl. by rewrite Ep, lookup_insert_eq. }
    unfold rocks_metas, mreadable. rewrite Ef. split.
    + apply map_Forall_insert_2; [|done]. rewrite Unmarshal_Marshal. by eexists.
    + apply omap_insert_Some, Unmarshal_Marshal.
  - intros s id Hr. unfold RocksMeta_Get. rewrite GetCF_ok. unfold rocks_metas. rewrite lookup_omap.
    fold (family_of (mdb s) (mCfName s)). fold (mfamily s).
    destruct (mfamily s !! id) as [v|] eqn:E; simpl; [|done]. by destruct (Hr id v E) as [m ->].
  - intros s prefix Hr. unfold RocksMeta_List.
    destruct (list_prefix_ok prefix (IterCF (mdb s) (mCfName s))) as (r & Er & Hin).
    { apply Forall_forall. intros [k v] Hk. rewrite IterCF_ok in Hk. apply elem_of_map_to_list in Hk. by eapply Hr. }
    exists r. split; [done|]. intros m. rewrite Hin. unfold rocks_metas. split.
    + intros (k & v & Hk & Hp & Hu). exists k. split; [|done]. rewrite IterCF_ok in Hk.
      apply elem_of_map_to_list in Hk. rewrite lookup_omap. unfold mfamily, family_of. by rewrite Hk.
    + intros (k & Hk & Hp). rewrite lookup_omap in Hk. destruct (mfamily s !! k) as [v|] eqn:E; [|done].
      exists k, v. split; [|done]. rewrite IterCF_ok. by apply elem_of_map_to_list.
  - intros s id s' Hr E. unfold RocksMeta_Delete in E. destruct (DeleteCF _ _ _) as [db| | |] eqn:Ep; try done.
    injection E as <-. apply DeleteCF_ok in Ep.
    assert (mfamily (mkRocksDBMetaStorage db (mCfName s)) = delete id (mfamily s)) as Ef.
    { unfold mfamily, family_of. simpl. by rewrite Ep, lookup_insert_eq. }
    unfold rocks_metas, mreadable. rewrite Ef. split; [by apply map_Forall_delete|]. apply omap_delete.
Defined.

(** Recovering unites the snapshot with what the storage has. *)
Lemma recover_metas s0 s s' : mreadable s0 ->
  RocksMeta_RecoverFromSnapshot s (RocksMeta_CreateSnapshot s0) = (s', Ok tt) ->
  rocks_metas s' = rocks_metas s0 ∪ rocks_metas s.
Proof.
  intros Hr E. unfold RocksMeta_RecoverFromSnapshot in E. simpl in E.
  destruct (put_all _ _ _ _) as [db| | |] eqn:Ep; try done. injection E as <-.
  destruct (put_all_contents _ _ _ _ Ep) as [Hc _].
  assert (family_of db (mCfName s) = mfamily s0 ∪ mfamily s) as Ef.
  { unfold mfamily. rewrite <- (iter_to_map (mdb s0)). unfold family_of at 1. rewrite Hc.
    destruct (IterCF (mdb s0) (mCfName s0)); [|done].
    change (list_to_map (reverse [])) with (∅ : gmap string V). by rewrite (left_id_L ∅ (∪)). }
  unfold rocks_metas. apply map_eq. intros k.
  rewrite lookup_union, !lookup_omap. unfold mfamily at 1. cbn [mdb mCfName]. rewrite Ef, lookup_union.
  destruct (mfamily s0 !! k) as [v|] eqn:E0.
  - destruct (Hr k v E0) as [m Hm]. destruct (mfamily s !! k) as [v'|]; simpl; rewrite Hm; simpl; [|done].
    by destruct (Unmarshal v').
  - destruct (mfamily s !! k) as [v'|]; simpl; [|done]. by destruct (Unmarshal v').
Qed.

End rocks.

Arguments RocksDBMetaStorage V {_}.

(** ** Registers: one storage per placement group *)

Section register.
Context {S : Type} `{MetaStorage S}.

(** [fresh]: a new storage, or the error of creating a column family. *)
Definition NewStorage (fresh : Z -> res S) (r : gmap Z S) (pgID : Z) : gmap Z S * res S :=
  match r !! pgID with
  | Some s => (r, Ok s)
  | None => match fresh pgID with
            | Ok s => (<[pgID := s]> r, Ok s)
            | x => (r, x)
            end
  end.

Definition Meta_GetStorage (r : gmap Z S) (pgID : Z) : res S := or_err (EErrno MetaStorageNotExist) (r !! pgID).

Definition GetAllStorage (r : gmap Z S) : list S := (map_to_list r).*2.

End register.
