(* ===== verification/RocksDisk.v ===== *)
(** * Metadata that outlives a process: opening a RocksDB database

    [src/edge-node/alaya/rocksdb_meta_storage.go] and the factory of
    [src/edge-node/infos/rocksdb_info_storage.go]: a database is opened with the
    column families it has, new families are made when a group or a type is first
    used. [RocksOpen] are the calls to open and close a database, [RocksOpenOk] what
    the documentation says of them: a directory keeps the families with their
    contents, and all of them have to be named to open it. *)

From S2P Require Import Prelude GoStd Errno Infos Rocks InfoStorage Object MetaStorage.

Class RocksOpen (V : Type) `{RocksDB V} := {
  Directory : Type;
  new_directory : Directory;
  ListColumnFamilies : Directory -> res (list string);
  OpenDbColumnFamilies : Directory -> list string -> res DB;
  db_Close : DB -> Directory
}.

Class RocksOpenOk (V : Type) `{RocksOpen V, !RocksDBOk} : Prop := {
  List_new : exists e, ListColumnFamilies new_directory = Err e;
  Open_new db : OpenDbColumnFamilies new_directory ["default"] = Ok db -> contents db = {["default" := ∅]};
  List_closed db : exists l, ListColumnFamilies (db_Close db) = Ok l /\ NoDup l /\ forall cf, cf ∈ l <-> is_Some (contents db !! cf);
  Open_closed db l db' : ListColumnFamilies (db_Close db) = Ok l -> OpenDbColumnFamilies (db_Close db) l = Ok db' ->
    contents db' = contents db
}.

Section disk.
Context {V : Type} `{RocksOpen V, !Proto ObjectMeta V}.

(** A directory without a database is opened with the default family. *)
Definition open_families (d : Directory) : res (DB * list string) :=
  let cfNames := match ListColumnFamilies d with Ok l => l | _ => [] end in
  let cfNames := if decide (length cfNames = 0%nat) then ["default"] else cfNames in
  db ← OpenDbColumnFamilies d cfNames;
  Ok (db, cfNames).

(** ** The register of metadata storages

    The storages are handles on one database: a storage in the register is the
    number of its group. *)

Record RocksDBMetaStorageRegister := mkMetaRegister {
  mr_db : DB;
  cfHandleMap : gset string;
  storageMap : gset Z
}.

Implicit Types r : RocksDBMetaStorageRegister.

Definition pgIdToStr (pgID : Z) : string := FormatUint pgID.

Definition newColumnFamily r (pgId : string) : RocksDBMetaStorageRegister * res unit :=
  match CreateCF (mr_db r) pgId with
  | Ok db => (mkMetaRegister db ({[pgId]} ∪ cfHandleMap r) (storageMap r), Ok tt)
  | Err e => (r, Err e)
  | Panic => (r, Panic)
  | Stuck => (r, Stuck)
  end.

Definition NewRocksDBMetaStorage r (cfName : string) : RocksDBMetaStorage V := mkRocksDBMetaStorage (mr_db r) cfName.

Definition MR_NewStorage r (pgID : Z) : RocksDBMetaStorageRegister * res (RocksDBMetaStorage V) :=
  let pgIDStr := pgIdToStr pgID in
  if decide (pgID ∈ storageMap r) then (r, Ok (NewRocksDBMetaStorage r pgIDStr))
  else
    do r, _ <- (if decide (pgIDStr ∈ cfHandleMap r) then (r, Ok tt) else newColumnFamily r pgIDStr);
    let r := mkMetaRegister (mr_db r) (cfHandleMap r) ({[pgID]} ∪ storageMap r) in
    (r, Ok (NewRocksDBMetaStorage r pgIDStr)).

Definition MR_GetStorage r (pgID : Z) : res (RocksDBMetaStorage V) :=
  if decide (pgID ∈ storageMap r) then Ok (NewRocksDBMetaStorage r (pgIdToStr pgID)) else Err (EErrno MetaStorageNotExist).

Definition MR_GetAllStorage r : list (RocksDBMetaStorage V) :=
  (fun pgID => NewRocksDBMetaStorage r (pgIdToStr pgID)) <$> elements (storageMap r).

Definition MR_Close r : Directory := db_Close (mr_db r).

Definition NewRocksDBMetaStorageRegister (d : Directory) : res RocksDBMetaStorageRegister :=
  x ← open_families d;
  Ok (mkMetaRegister x.1 (list_to_set x.2) ∅).

(** ** The factory of information storages

    Without a database the handles are missing, and taking the first one panics. *)
Definition NewRocksDBInfoStorageFactory (d : Directory) : res (RocksDBInfoStorageFactory (V := V)) :=
  match open_families d with
  | Ok x => Ok (mkRocksFactory x.1 x.2)
  | _ => Panic
  end.

Definition Factory_Close (f : RocksDBInfoStorageFactory (V := V)) : Directory := db_Close (fdb f).

(** ** Lives of a node *)

Inductive MetaEvent :=
  | ME_New (pgID : Z)
  | ME_Record (pgID : Z) (m : ObjectMeta)
  | ME_Delete (pgID : Z) (id : string)
  | ME_Restart.

(** What a storage does to the database, for the register. *)
Definition on_storage r (pgID : Z) (f : RocksDBMetaStorage V -> RocksDBMetaStorage V * res unit) : res RocksDBMetaStorageRegister :=
  s ← MR_GetStorage r pgID;
  let '(s, x) := f s in
  _ ← x;
  Ok (mkMetaRegister (mdb s) (cfHandleMap r) (storageMap r)).

Definition meta_event r (e : MetaEvent) : res RocksDBMetaStorageRegister :=
  match e with
  | ME_New pgID => let '(r, x) := MR_NewStorage r pgID in _ ← x; Ok r
  | ME_Record pgID m => on_storage r pgID (fun s => RecordMeta s m)
  | ME_Delete pgID id => on_storage r pgID (fun s => MetaStorage_Delete s id)
  | ME_Restart => NewRocksDBMetaStorageRegister (MR_Close r)
  end.

Fixpoint meta_run r (es : list MetaEvent) : res RocksDBMetaStorageRegister :=
  match es with
  | [] => Ok r
  | e :: es' => r ← meta_event r e; meta_run r es'
  end.

(** The specification: per group, a map; a restart is nothing. *)
Definition meta_spec (M : gmap Z (gmap string ObjectMeta)) (e : MetaEvent) : gmap Z (gmap string ObjectMeta) :=
  match e with
  | ME_Record pgID m => <[pgID := <[ObjId m := m]> (default ∅ (M !! pgID))]> M
  | ME_Delete pgID id => <[pgID := delete id (default ∅ (M !! pgID))]> M
  | _ => M
  end.

Definition event_pg (e : MetaEvent) : Z := match e with ME_New p | ME_Record p _ | ME_Delete p _ => p | ME_Restart => 0 end.

(** ** The register refines the specification *)

Context `{!RocksDBOk, !RocksOpenOk V, !ProtoOk ObjectMeta V}.

Definition family (db : DB) (pgID : Z) : gmap string V := family_of db (pgIdToStr pgID).

Record keeps_metas (M : gmap Z (gmap string ObjectMeta)) r : Prop := {
  km_readable : forall pg, 0 <= pg -> map_Forall (fun _ v => is_Some (Unmarshal v)) (family (mr_db r) pg);
  km_metas : forall pg, 0 <= pg -> omap Unmarshal (family (mr_db r) pg) = default ∅ (M !! pg);
  km_handles : forall cf, cf ∈ cfHandleMap r <-> is_Some (contents (mr_db r) !! cf);
  km_default : is_Some (contents (mr_db r) !! "default");
  km_storages : forall pg, pg ∈ storageMap r -> pgIdToStr pg ∈ cfHandleMap r
}.

Lemma pgIdToStr_inj p q : 0 <= p -> 0 <= q -> pgIdToStr p = pgIdToStr q -> p = q.
Proof. apply FormatUint_inj. Qed.

Lemma default_not_pg p : pgIdToStr p <> "default".
Proof. intros E. destruct (FormatUint_digits p) as [Hd _]. unfold pgIdToStr in E. by rewrite E in Hd. Qed.

(** Opening what was closed gives the same contents and all handles. *)
Lemma reopen_ok r r' : NewRocksDBMetaStorageRegister (MR_Close r) = Ok r' -> is_Some (contents (mr_db r) !! "default") ->
  contents (mr_db r') = contents (mr_db r) /\ forall cf, cf ∈ cfHandleMap r' <-> is_Some (contents (mr_db r) !! cf).
Proof.
  unfold NewRocksDBMetaStorageRegister, open_families, MR_Close. destruct (List_closed (mr_db r)) as (l & Hl & _ & Hin). rewrite Hl.
  intros E Hd. destruct (decide (length l = 0%nat)) as [Hz|_].
  { destruct l; [|done]. apply Hin in Hd. by apply elem_of_nil in Hd. }
  destruct (OpenDbColumnFamilies _ _) as [db| | |] eqn:Eo; try done. simpl in E. injection E as <-. simpl.
  split; [by eapply Open_closed|]. intros cf. by rewrite elem_of_list_to_set.
Qed.

Lemma open_new_ok r : NewRocksDBMetaStorageRegister new_directory = Ok r ->
  contents (mr_db r) = {["default" := ∅]} /\ cfHandleMap r = {["default"]}.
Proof.
  unfold NewRocksDBMetaStorageRegister, open_families. destruct List_new as [e ->]. simpl.
  destruct (OpenDbColumnFamilies _ _) as [db| | |] eqn:Eo; try done. intros E. injection E as <-. simpl.
  split; [by apply Open_new|set_solver].
Qed.

(** A change of one family. *)
Lemma keeps_change M r db pg fam metas' :
  keeps_metas M r -> 0 <= pg -> contents db = <[pgIdToStr pg := fam]> (contents (mr_db r)) ->
  map_Forall (fun _ v => is_Some (Unmarshal v)) fam -> omap Unmarshal fam = metas' -> pgIdToStr pg ∈ cfHandleMap r ->
  keeps_metas (<[pg := metas']> M) (mkMetaRegister db (cfHandleMap r) (storageMap r)).
Proof.
  intros [K1 K2 K3 K4 K5] Hpg Hc Hf Hm Hh.
  assert (forall p, 0 <= p -> family db p = if decide (p = pg) then fam else family (mr_db r) p) as Hfam.
  { intros p Hp. unfold family, family_of. rewrite Hc. destruct (decide (p = pg)) as [->|Hne]; [by rewrite lookup_insert_eq|].
    rewrite lookup_insert_ne; [done|]. intros E. by apply Hne, pgIdToStr_inj. }
  split; simpl.
  - intros p Hp. rewrite Hfam by done. destruct (decide (p = pg)); [done|by apply K1].
  - intros p Hp. rewrite Hfam by done. destruct (decide (p = pg)) as [->|Hne]; [by rewrite lookup_insert_eq|].
    rewrite lookup_insert_ne by done. by apply K2.
  - intros cf. rewrite Hc, K3, lookup_insert_is_Some. destruct (decide (pgIdToStr pg = cf)) as [<-|Hne].
    + split; [by left|]. intros _. by apply K3.
    + split; [by right|]. intros [?|[_ ?]]; done.
  - rewrite Hc. apply lookup_insert_is_Some. right. split; [apply default_not_pg|done].
  - done.
Qed.

Lemma keeps_record M r pg m r' :
  keeps_metas M r -> 0 <= pg -> on_storage r pg (fun s => RecordMeta s m) = Ok r' -> keeps_metas (meta_spec M (ME_Record pg m)) r'.
Proof.
  intros K Hpg. unfold on_storage, MR_GetStorage. destruct (decide _) as [Hin|]; [|done]. simpl. unfold RocksMeta_Record. simpl.
  destruct (PutCF _ _ _ _) as [db| | |] eqn:E; try done. simpl. intros R. injection R as <-. apply PutCF_ok in E.
  eapply (keeps_change M r db pg); try done; [| |by apply (km_storages _ _ K)].
  - apply map_Forall_insert_2; [rewrite Unmarshal_Marshal; by eexists|by apply (km_readable _ _ K)].
  - rewrite <- (km_metas _ _ K) by done. apply omap_insert_Some, Unmarshal_Marshal.
Qed.

Lemma keeps_delete M r pg id r' :
  keeps_metas M r -> 0 <= pg -> on_storage r pg (fun s => MetaStorage_Delete s id) = Ok r' ->
  keeps_metas (meta_spec M (ME_Delete pg id)) r'.
Proof.
  intros K Hpg. unfold on_storage, MR_GetStorage. destruct (decide _) as [Hin|]; [|done]. simpl. unfold RocksMeta_Delete. simpl.
  destruct (DeleteCF _ _ _) as [db| | |] eqn:E; try done. simpl. intros R. injection R as <-. apply DeleteCF_ok in E.
  eapply (keeps_change M r db pg); try done; [by apply map_Forall_delete, (km_readable _ _ K)| |by apply (km_storages _ _ K)].
  rewrite <- (km_metas _ _ K) by done. apply omap_delete.
Qed.

(** A storage that is made is empty or the one there was. *)
Lemma keeps_new M r pg r' s : keeps_metas M r -> 0 <= pg -> MR_NewStorage r pg = (r', Ok s) ->
  keeps_metas M r' /\ s = NewRocksDBMetaStorage r' (pgIdToStr pg) /\ pg ∈ storageMap r'.
Proof.
  intros K Hpg. unfold MR_NewStorage. destruct (decide _) as [Hin|Hout]; [intros E; by injection E as <- <-|].
  assert (forall r1, keeps_metas M r1 -> pgIdToStr pg ∈ cfHandleMap r1 ->
    keeps_metas M (mkMetaRegister (mr_db r1) (cfHandleMap r1) ({[pg]} ∪ storageMap r1))) as Hk.
  { intros r1 [K1 K2 K3 K4 K5] Hh. split; simpl; try done. intros p [->%elem_of_singleton|Hp]%elem_of_union; auto. }
  destruct (decide (pgIdToStr pg ∈ cfHandleMap r)) as [Hh|Hh].
  - intros E. injection E as <- <-. split; [by apply Hk|]. split; [done|set_solver].
  - unfold newColumnFamily. destruct (CreateCF _ _) as [db| | |] eqn:E; try done. intros R. injection R as <- <-.
    apply CreateCF_ok in E. split; [|split; [done|set_solver]]. pose proof (Hk (mkMetaRegister db ({[pgIdToStr pg]} ∪ cfHandleMap r) (storageMap r))) as Hk1. cbn [mr_db cfHandleMap storageMap] in Hk1. apply Hk1; [|set_solver].
    assert (contents (mr_db r) !! pgIdToStr pg = None) as Hn.
    { destruct (contents (mr_db r) !! pgIdToStr pg) eqn:En; [|done]. exfalso. apply Hh, K. by eexists. }
    assert (family (mr_db r) pg = ∅) as Hf by (unfold family, family_of; by rewrite Hn).
    assert (forall p, 0 <= p -> family db p = family (mr_db r) p) as Hfam.
    { intros p Hp. unfold family, family_of in *. rewrite E. destruct (decide (p = pg)) as [->|Hne].
      - by rewrite lookup_insert_eq, Hn.
      - rewrite lookup_insert_ne; [done|]. intros Eq. by apply Hne, pgIdToStr_inj. }
    destruct K as [K1 K2 K3 K4 K5]. split; simpl.
    + intros p Hp. rewrite Hfam by done. by apply K1.
    + intros p Hp. rewrite Hfam by done. by apply K2.
    + intros cf. rewrite elem_of_union, elem_of_singleton, E, lookup_insert_is_Some, K3.
      destruct (decide (pgIdToStr pg = cf)) as [<-|Hne]; [tauto|]. split; [intros [?|?]; [congruence|by right]|].
      intros [?|[_ ?]]; [congruence|by right].
    + rewrite E. apply lookup_insert_is_Some. right. split; [apply default_not_pg|done].
    + intros p Hp. apply K5 in Hp. set_solver.
Qed.

Lemma keeps_restart M r r' : keeps_metas M r -> NewRocksDBMetaStorageRegister (MR_Close r) = Ok r' -> keeps_metas M r'.
Proof.
  intros [K1 K2 K3 K4 K5] E. pose proof E as E'. apply reopen_ok in E as [Hc Hh]; [|done].
  unfold NewRocksDBMetaStorageRegister in E'. destruct (open_families _) as [x| | |]; try done. simpl in E'. injection E' as <-.
  simpl in *. split; simpl; unfold family, family_of in *; rewrite ?Hc; try done.
Qed.

Lemma keeps_event M r e r' : keeps_metas M r -> 0 <= event_pg e -> meta_event r e = Ok r' -> keeps_metas (meta_spec M e) r'.
Proof.
  intros K Hp E. destruct e as [pg|pg m|pg id|]; simpl in *.
  - destruct (MR_NewStorage r pg) as [r1 [s| | |]] eqn:En; try done. simpl in E. injection E as <-.
    by apply (keeps_new _ _ _ _ _ K Hp En).
  - by eapply keeps_record.
  - by eapply keeps_delete.
  - by eapply keeps_restart.
Qed.

Lemma keeps_run es : forall M r r', keeps_metas M r -> Forall (fun e => 0 <= event_pg e) es -> meta_run r es = Ok r' ->
  keeps_metas (foldl meta_spec M es) r'.
Proof.
  induction es as [|e es IH]; intros M r r' K He E; simpl in *; [by injection E as <-|]. inv He.
  destruct (meta_event r e) as [r1| | |] eqn:E1; try done. simpl in E. eapply IH; [|done|done]. by eapply keeps_event.
Qed.

Lemma keeps_fresh r : NewRocksDBMetaStorageRegister new_directory = Ok r -> keeps_metas ∅ r.
Proof.
  intros E. pose proof E as E'. apply open_new_ok in E as [Hc Hh].
  unfold NewRocksDBMetaStorageRegister in E'. destruct (open_families _) as [x| | |]; try done. simpl in E'. injection E' as <-.
  simpl in *.
  assert (forall pg, 0 <= pg -> family x.1 pg = ∅) as Hf.
  { intros pg Hp. unfold family, family_of. rewrite Hc, lookup_singleton_ne; [done|]. intros E. by apply (default_not_pg pg). }
  split; simpl; try done.
  - intros pg Hp. rewrite Hf by done. apply map_Forall_empty.
  - intros pg Hp. by rewrite Hf, lookup_empty, omap_empty by done.
  - intros cf. rewrite Hh, Hc, elem_of_singleton. split; [intros ->; rewrite lookup_singleton_eq; by eexists|].
    intros [y [Hy _]%lookup_singleton_Some]. done.
  - rewrite Hc, lookup_singleton_eq. by eexists.
Qed.

End disk.

(** C14: metadata is kept on disk. From an empty directory, let the groups of a node
    make their storages, record and delete, and let the process end and start again,
    in any order: a group's storage, made anew in the process that runs now, holds the
    map its recordings and deletions give, as if no process had ended. *)
Theorem restarts_keep_metadata {V : Type} `{RocksOpenOk V, !Proto ObjectMeta V, !ProtoOk ObjectMeta V} r0 es r pg r' s :
  NewRocksDBMetaStorageRegister new_directory = Ok r0 -> Forall (fun e => 0 <= event_pg e) es -> meta_run r0 es = Ok r ->
  0 <= pg -> MR_NewStorage r pg = (r', Ok s) ->
  metas_ok s /\ metas s = default ∅ (foldl meta_spec ∅ es !! pg) /\ MR_GetStorage r' pg = Ok s.
Proof.
  intros E0 He E Hp En. pose proof (keeps_run es ∅ r0 r (keeps_fresh r0 E0) He E) as K.
  destruct (keeps_new _ _ _ _ _ K Hp En) as (K' & -> & Hin). simpl.
  split; [by apply (km_readable _ _ K')|]. split; [by apply (km_metas _ _ K')|].
  unfold MR_GetStorage. by rewrite decide_True.
Qed.

(** Directories that are databases. *)
#[export] Instance MapDB_open (V : Type) : RocksOpen V := {|
  Directory := option (gmap string (gmap string V));
  new_directory := None;
  ListColumnFamilies d := match d with None => Err (EExt "No such file or directory") | Some db => Ok (map_to_list db).*1 end;
  OpenDbColumnFamilies d l := match d with None => Ok (list_to_map ((fun cf => (cf, ∅)) <$> l)) | Some db => Ok db end;
  db_Close db := Some db
|}.

#[export] Instance MapDB_open_ok (V : Type) : @RocksOpenOk V (MapDB V) (MapDB_open V) (MapDB_ok V).
Proof.
  split; simpl.
  - by eexists.
  - intros db E. by injection E as <-.
  - intros db. eexists. split; [done|]. split; [apply NoDup_fst_map_to_list|]. intros cf. rewrite list_elem_of_fmap. split.
    + intros ([k m] & -> & Hk%elem_of_map_to_list). by exists m.
    + intros [m Hm]. exists (cf, m). split; [done|]. by apply elem_of_map_to_list.
  - intros db l db' _ E. by injection E as <-.
Qed.

#[local] Instance proto_meta : Proto ObjectMeta ObjectMeta := {| Marshal b := b; Unmarshal b := Some b |}.

#[local] Instance proto_meta_ok : ProtoOk ObjectMeta ObjectMeta.
Proof. done. Qed.

Definition disk_meta (id : string) : ObjectMeta := mkObjectMeta id STATUS_OK POSITION_EDGE 1 None "" 7 [] 1 None.

Definition disk_events : list MetaEvent :=
  [ME_New 7; ME_Record 7 (disk_meta "a"); ME_New 8; ME_Record 8 (disk_meta "b"); ME_Restart; ME_New 7; ME_Delete 7 "a";
   ME_Record 7 (disk_meta "c"); ME_Restart].

Definition disk_register : RocksDBMetaStorageRegister (V := ObjectMeta) :=
  mkMetaRegister (V := ObjectMeta) {["default" := ∅]} {["default"]} ∅.

Definition disk_end : RocksDBMetaStorageRegister (V := ObjectMeta) :=
  match meta_run disk_register disk_events with Ok r => r | _ => disk_register end.

Lemma disk_run : meta_run disk_register disk_events = Ok disk_end.
Proof.
  assert (is_Ok (meta_run disk_register disk_events) = true) as Hok by (vm_compute; reflexivity).
  unfold disk_end. by destruct (meta_run disk_register disk_events).
Qed.

Lemma disk_new : exists s, MR_NewStorage disk_end 7 = ((MR_NewStorage disk_end 7).1, Ok s).
Proof.
  assert (is_Ok (MR_NewStorage disk_end 7).2 = true) as Hok by (vm_compute; reflexivity).
  destruct (MR_NewStorage disk_end 7) as [r [s| | |]]; try done. by exists s.
Qed.

Lemma restarts_keep_metadata_witness :
  exists s, metas_ok s /\ metas s !! "a" = None /\ metas s !! "c" = Some (disk_meta "c") /\
    MR_GetStorage (MR_NewStorage disk_end 7).1 7 = Ok s.
Proof.
  destruct disk_new as [s Hs]. exists s.
  destruct (restarts_keep_metadata disk_register disk_events disk_end 7 (MR_NewStorage disk_end 7).1 s) as (H1 & H2 & H3).
  - reflexivity.
  - repeat constructor; simpl; lia.
  - apply disk_run.
  - lia.
  - exact Hs.
  - split; [exact H1|]. split; [rewrite H2; vm_compute; reflexivity|]. split; [rewrite H2; vm_compute; reflexivity|exact H3].
Defined.
