(* ===== verification/InfoDisk.v ===== *)
(** * The register of information storages over one database

    [InfoStorage.v] gives every storage a database of its own. With the factory of
    [rocksdb_info_storage.go] they are handles on one database, which the factory
    also takes its snapshots from: here the register of
    [src/edge-node/infos/storage.go] is modelled that way, with the making of the
    storages, snapshots, closing and opening again, and it is shown to be one map
    from types and identifiers to information throughout. *)

From S2P Require Import Prelude GoStd Errno Infos Rocks InfoStorage RocksDisk.

Section disk.
Context {V : Type} `{RocksOpen V, !Proto BaseInfo V}.

(** A storage that is registered: its callbacks; the rest of it is the factory's
    database and the name of its family. *)
Record InfoDisk := mkInfoDisk {
  storageFactory : RocksDBInfoStorageFactory (V := V);
  registered : gmap InfoType (gset string)
}.

Implicit Types r : InfoDisk.

Definition family_handle r (t : InfoType) (calls : gset string) : RocksDBInfoStorage V :=
  mkRocksDBInfoStorage (fdb (storageFactory r)) (infoTypeToStr t) calls.

Definition put_back r (t : InfoType) (s : RocksDBInfoStorage V) : InfoDisk :=
  mkInfoDisk (mkRocksFactory (rdb s) (cfNames (storageFactory r))) (<[t := rOnUpdate s]> (registered r)).

Definition on_info_storage {A} r (t : InfoType) (f : RocksDBInfoStorage V -> RocksDBInfoStorage V * res A) : InfoDisk * res A :=
  match registered r !! t with
  | Some calls => let '(s, x) := f (family_handle r t calls) in (put_back r t s, x)
  | None => (r, Err (EErrno InfoTypeNotSupport))
  end.

Definition disk_Update r (info : Information) : InfoDisk * res (list string) :=
  on_info_storage r (GetInfoType info) (fun s => Rocks_Update s info).

Definition disk_Delete r (t : InfoType) (id : string) : InfoDisk * res unit :=
  on_info_storage r t (fun s => Rocks_Delete s id).

Definition disk_Get r (t : InfoType) (id : string) : res Information :=
  match registered r !! t with Some calls => Rocks_Get (family_handle r t calls) id | None => Err (EErrno InfoTypeNotSupport) end.

Definition disk_List r (t : InfoType) (prefix : string) : res (list Information) :=
  match registered r !! t with Some calls => Rocks_List (family_handle r t calls) prefix | None => Err (EErrno InfoTypeNotSupport) end.

(** [GetStorage(t).SetOnUpdate]; a missing storage is fatal. *)
Definition disk_SetOnUpdate r (t : InfoType) (name : string) : res InfoDisk :=
  calls ← or_panic (registered r !! t); Ok (put_back r t (Rocks_SetOnUpdate (family_handle r t calls) name)).

Definition Register_GetSnapshot r : list (CfContent (V := V)) := Factory_GetSnapshot (storageFactory r).

Definition Register_RecoverFromSnapshot r (snapshot : list (CfContent (V := V))) : res InfoDisk :=
  f ← Factory_RecoverFromSnapshot (storageFactory r) snapshot; Ok (mkInfoDisk f (registered r)).

(** The storages are forgotten, the database closed. *)
Definition disk_Close r : Directory := Factory_Close (storageFactory r).

(** ** The builder *)

Definition served : list InfoType := [IT_NODE_INFO; IT_CLUSTER_INFO; IT_USER_INFO; IT_BUCKET_INFO; IT_VOLUME_INFO].

Fixpoint register_types r (ts : list InfoType) : res InfoDisk :=
  match ts with
  | [] => Ok r
  | t :: ts' =>
      let '(f, x) := Factory_GetStorage (storageFactory r) t in
      s ← x;
      register_types (mkInfoDisk f (<[t := rOnUpdate s]> (registered r))) ts'
  end.

(** [NewStorageRegisterBuilder(factory).GetStorageRegister()] *)
Definition NewStorageRegister (d : Directory) : res InfoDisk :=
  f ← NewRocksDBInfoStorageFactory d;
  register_types (mkInfoDisk f ∅) served.

(** ** What a register goes through

    [directory_of r M]: [r] can have come about by operations that make [M] of the
    empty map. *)

Abbreviation Entries := (gmap (InfoType * string) BaseInfo).

Inductive directory_of : InfoDisk -> Entries -> Prop :=
  | D_new r : NewStorageRegister new_directory = Ok r -> directory_of r ∅
  | D_update r M info r' calls :
      directory_of r M -> disk_Update r info = (r', Ok calls) ->
      directory_of r' (<[(GetInfoType info, GetID info) := Information_BaseInfo info]> M)
  | D_delete r M t id r' :
      directory_of r M -> disk_Delete r t id = (r', Ok tt) -> directory_of r' (delete (t, id) M)
  | D_hook r M t name r' : directory_of r M -> disk_SetOnUpdate r t name = Ok r' -> directory_of r' M
  | D_recover r M src Msrc r' :
      directory_of r M -> directory_of src Msrc ->
      Register_RecoverFromSnapshot r (Register_GetSnapshot src) = Ok r' -> directory_of r' (Msrc ∪ M)
  | D_restart r M r' : directory_of r M -> NewStorageRegister (disk_Close r) = Ok r' -> directory_of r' M.

(** ** The invariant *)

Context `{!RocksDBOk, !RocksOpenOk V, !ProtoOk BaseInfo V}.

Record keeps_infos (M : Entries) (f : RocksDBInfoStorageFactory (V := V)) : Prop := {
  ki_names : forall cf, cf ∈ cfNames f <-> is_Some (contents (fdb f) !! cf);
  ki_nodup : NoDup (cfNames f);
  ki_default : is_Some (contents (fdb f) !! "default");
  ki_readable : forall t, t ∈ served -> map_Forall (fun _ v => is_Some (Unmarshal v)) (family_of (fdb f) (infoTypeToStr t));
  ki_view : forall t id, t ∈ served -> decode <$> (family_of (fdb f) (infoTypeToStr t) !! id) = M !! (t, id);
  ki_other : forall t id, t ∉ served -> M !! (t, id) = None
}.

Record holds (M : Entries) r : Prop := {
  h_types : forall t, is_Some (registered r !! t) <-> t ∈ served;
  h_families : forall t, t ∈ served -> infoTypeToStr t ∈ cfNames (storageFactory r);
  h_keeps : keeps_infos M (storageFactory r)
}.

Lemma infoTypeToStr_inj t t' : infoTypeToStr t = infoTypeToStr t' -> t = t'.
Proof. destruct t, t'; vm_compute; congruence. Qed.

Lemma infoTypeToStr_default t : infoTypeToStr t <> "default".
Proof. destruct t; vm_compute; congruence. Qed.

(** A change of one family. *)
Lemma keeps_infos_change M M' f db t fam :
  keeps_infos M f -> t ∈ served -> infoTypeToStr t ∈ cfNames f -> contents db = <[infoTypeToStr t := fam]> (contents (fdb f)) ->
  map_Forall (fun _ v => is_Some (Unmarshal v)) fam -> (forall id, decode <$> (fam !! id) = M' !! (t, id)) ->
  (forall t' id, t' <> t -> M' !! (t', id) = M !! (t', id)) ->
  keeps_infos M' (mkRocksFactory db (cfNames f)).
Proof.
  intros [K2 K3 K4 K6 K7 K8] Ht Hn Hc Hr Hm Ho.
  assert (forall t', family_of db (infoTypeToStr t') = if decide (t' = t) then fam else family_of (fdb f) (infoTypeToStr t')) as Hfam.
  { intros t'. unfold family_of. rewrite Hc. destruct (decide (t' = t)) as [->|Hne]; [by rewrite lookup_insert_eq|].
    rewrite lookup_insert_ne; [done|]. intros E. by apply Hne, infoTypeToStr_inj. }
  split; simpl; try done.
  - intros cf. rewrite Hc, K2, lookup_insert_is_Some. destruct (decide (infoTypeToStr t = cf)) as [<-|Hne]; [|tauto].
    split; [by left|]. intros _. by apply K2.
  - rewrite Hc. apply lookup_insert_is_Some. right. split; [apply infoTypeToStr_default|done].
  - intros t' Ht'. rewrite Hfam. destruct (decide (t' = t)); [done|by apply K6].
  - intros t' id Ht'. rewrite Hfam. destruct (decide (t' = t)) as [->|Hne]; [by apply Hm|]. rewrite Ho by done. by apply K7.
  - intros t' id Ht'. rewrite Ho by (intros ->; done). by apply K8.
Qed.

(** A storage after an operation on its family. *)
Lemma holds_put_back M M' r t calls calls' db fam :
  holds M r -> registered r !! t = Some calls ->
  contents db = <[infoTypeToStr t := fam]> (contents (fdb (storageFactory r))) ->
  map_Forall (fun _ v => is_Some (Unmarshal v)) fam -> (forall id, decode <$> (fam !! id) = M' !! (t, id)) ->
  (forall t' id, t' <> t -> M' !! (t', id) = M !! (t', id)) ->
  holds M' (put_back r t (mkRocksDBInfoStorage db (infoTypeToStr t) calls')).
Proof.
  intros [K1 K5 K] Ec Hc Hr Hm Ho. assert (t ∈ served) as Ht by (apply K1; by exists calls). split; simpl; try done.
  - intros t'. rewrite lookup_insert_is_Some, K1. destruct (decide (t = t')) as [<-|Hne]; tauto.
  - by eapply keeps_infos_change; try apply K5.
Qed.

Lemma holds_registered M r t calls : holds M r -> registered r !! t = Some calls ->
  map_Forall (fun _ v => is_Some (Unmarshal v)) (family_of (fdb (storageFactory r)) (infoTypeToStr t)) /\
  forall id, decode <$> (family_of (fdb (storageFactory r)) (infoTypeToStr t) !! id) = M !! (t, id).
Proof.
  intros [K1 _ K] E. assert (t ∈ served) as Ht by (apply K1; by exists calls).
  split; [by apply (ki_readable _ _ K)|]. intros id. by apply (ki_view _ _ K).
Qed.

Lemma holds_update M r info r' calls : holds M r -> disk_Update r info = (r', Ok calls) ->
  holds (<[(GetInfoType info, GetID info) := Information_BaseInfo info]> M) r'.
Proof.
  intros K. unfold disk_Update, on_info_storage, Rocks_Update. destruct (registered r !! GetInfoType info) as [cs|] eqn:Ec; [|done].
  destruct (holds_registered _ _ _ _ K Ec) as [Hr Hv]. simpl. destruct (PutCF _ _ _ _) as [db| | |] eqn:E; try done.
  intros [= <- <-]. apply PutCF_ok in E. fold (family_of (fdb (storageFactory r)) (infoTypeToStr (GetInfoType info))) in E.
  eapply (holds_put_back M); try done.
  - apply map_Forall_insert_2; [rewrite Unmarshal_Marshal; by eexists|done].
  - intros id. destruct (decide (id = GetID info)) as [->|Hne].
    + rewrite !lookup_insert_eq. simpl. unfold decode. by rewrite Unmarshal_Marshal.
    + rewrite !lookup_insert_ne by congruence. apply Hv.
  - intros t' id Hne. by rewrite lookup_insert_ne by congruence.
Qed.

Lemma holds_delete M r t id r' : holds M r -> disk_Delete r t id = (r', Ok tt) -> holds (delete (t, id) M) r'.
Proof.
  intros K. unfold disk_Delete, on_info_storage, Rocks_Delete. destruct (registered r !! t) as [cs|] eqn:Ec; [|done].
  destruct (holds_registered _ _ _ _ K Ec) as [Hr Hv]. simpl. destruct (DeleteCF _ _ _) as [db| | |] eqn:E; try done.
  intros [= <-]. apply DeleteCF_ok in E. fold (family_of (fdb (storageFactory r)) (infoTypeToStr t)) in E.
  eapply (holds_put_back M); try done.
  - by apply map_Forall_delete.
  - intros id'. destruct (decide (id' = id)) as [->|Hne]; [by rewrite !lookup_delete_eq|].
    rewrite !lookup_delete_ne by congruence. apply Hv.
  - intros t' id' Hne. by rewrite lookup_delete_ne by congruence.
Qed.

Lemma holds_hook M r t name r' : holds M r -> disk_SetOnUpdate r t name = Ok r' -> holds M r'.
Proof.
  intros [K1 K5 K]. unfold disk_SetOnUpdate. destruct (registered r !! t) as [cs|] eqn:Ec; [|done]. simpl. intros [= <-].
  assert (t ∈ served) as Ht by (apply K1; by exists cs). split; simpl; try done.
  - intros t'. rewrite lookup_insert_is_Some, K1. destruct (decide (t = t')) as [<-|Hne]; tauto.
  - by destruct K; split.
Qed.

(** ** Snapshots *)

Lemma recover_dom names db0 l : forall db db',
  recover_all names db ((fun name => mkCfContent name (IterCF db0 name).*1 (IterCF db0 name).*2) <$> l) = Ok db' ->
  (forall cf, cf ∈ names -> is_Some (contents db !! cf)) ->
  forall cf, is_Some (contents db' !! cf) <-> is_Some (contents db !! cf).
Proof.
  induction l as [|x l IH]; intros db db' E Hn cf; csimpl in E; [by injection E as <-|].
  destruct (decide (x ∈ names \/ _)) as [Hx|]; [|done].
  destruct (put_all _ _ _ _) as [db1| | |] eqn:Ep; try done. cbn [mbind res_bind] in E.
  destruct (put_all_contents _ _ _ _ Ep) as [Hc Ho].
  assert (forall cf, is_Some (contents db1 !! cf) <-> is_Some (contents db !! cf)) as Hd.
  { intros cf'. destruct (decide (cf' = x)) as [->|Hne]; [|by rewrite Ho]. rewrite Hc.
    destruct (IterCF db0 x) as [|y ys]; [done|]. destruct Hx as [Hx|]; [|done]. split; [|by eexists]. intros _. by apply Hn. }
  rewrite (IH db1 db' E); [by apply Hd|]. intros cf' Hcf. by apply Hd, Hn.
Qed.

Lemma holds_recover M Msrc r src r' : holds M r -> holds Msrc src ->
  Register_RecoverFromSnapshot r (Register_GetSnapshot src) = Ok r' -> holds (Msrc ∪ M) r'.
Proof.
  intros [K1 K5 K] [S1 S5 KS]. unfold Register_RecoverFromSnapshot, Factory_RecoverFromSnapshot.
  destruct (recover_all _ _ _) as [db| | |] eqn:E; try done. simpl. intros [= <-].
  pose proof (recover_dom _ _ _ _ _ E ltac:(intros cf; apply (ki_names _ _ K))) as Hd.
  pose proof (recover_contents _ _ _ _ _ (ki_nodup _ _ KS) E) as Hf.
  assert (forall t, t ∈ served -> family_of db (infoTypeToStr t) =
    family_of (fdb (storageFactory src)) (infoTypeToStr t) ∪ family_of (fdb (storageFactory r)) (infoTypeToStr t)) as Hu.
  { intros t Ht. rewrite Hf. by rewrite decide_True by (by apply S5). }
  split; simpl; try done. split; simpl.
  - intros cf. by rewrite Hd, (ki_names _ _ K).
  - apply (ki_nodup _ _ K).
  - apply Hd, (ki_default _ _ K).
  - intros t Ht. rewrite Hu by done. by apply map_Forall_union_2; [apply (ki_readable _ _ KS)|apply (ki_readable _ _ K)].
  - intros t id Ht. rewrite Hu by done. rewrite !lookup_union, <- (ki_view _ _ KS), <- (ki_view _ _ K) by done.
    by destruct (family_of (fdb (storageFactory src)) _ !! id), (family_of (fdb (storageFactory r)) _ !! id).
  - intros t id Ht. rewrite lookup_union, (ki_other _ _ KS), (ki_other _ _ K) by done. done.
Qed.

(** ** Opening *)

Lemma keeps_storage M f t f' s : keeps_infos M f -> Factory_GetStorage f t = (f', Ok s) ->
  keeps_infos M f' /\ infoTypeToStr t ∈ cfNames f' /\ cfNames f ⊆ cfNames f' /\ rOnUpdate s = ∅.
Proof.
  intros K. unfold Factory_GetStorage. destruct (decide _) as [Hin|Hnin]; [by intros [= <- <-]|].
  destruct (CreateCF _ _) as [db| | |] eqn:E; try done. intros [= <- <-]. apply CreateCF_ok in E.
  assert (contents (fdb f) !! infoTypeToStr t = None) as Hnone.
  { apply eq_None_not_Some. intros Hs. by apply Hnin, (ki_names _ _ K). }
  assert (forall cf, family_of db cf = family_of (fdb f) cf) as Hf.
  { intros cf. unfold family_of. rewrite E. destruct (decide (cf = infoTypeToStr t)) as [->|Hne].
    - by rewrite lookup_insert_eq, Hnone.
    - by rewrite lookup_insert_ne. }
  split; [|split_and!; simpl; set_solver]. destruct K as [K2 K3 K4 K6 K7 K8]. split; simpl; try done.
  - intros cf. rewrite elem_of_app, list_elem_of_singleton, K2, E, lookup_insert_is_Some.
    destruct (decide (infoTypeToStr t = cf)) as [<-|Hne]; [tauto|]. split; [intros [?|?]; [tauto|congruence]|intros [?|?]; [congruence|tauto]].
  - apply NoDup_app. split_and!; [done| |apply NoDup_singleton]. intros x Hx ->%list_elem_of_singleton. done.
  - rewrite E. apply lookup_insert_is_Some. right. split; [apply infoTypeToStr_default|done].
  - intros t' Ht'. rewrite Hf. by apply K6.
  - intros t' id Ht'. rewrite Hf. by apply K7.
Qed.

Lemma register_types_ok M ts : forall r r', keeps_infos M (storageFactory r) ->
  (forall t, is_Some (registered r !! t) -> infoTypeToStr t ∈ cfNames (storageFactory r)) -> register_types r ts = Ok r' ->
  keeps_infos M (storageFactory r') /\ (forall t, is_Some (registered r' !! t) -> infoTypeToStr t ∈ cfNames (storageFactory r')) /\
  forall t, is_Some (registered r' !! t) <-> is_Some (registered r !! t) \/ t ∈ ts.
Proof.
  induction ts as [|t ts IH]; intros r r' K Hr E; simpl in E.
  - injection E as <-. split_and!; try done. intros t. rewrite elem_of_nil. tauto.
  - destruct (Factory_GetStorage _ _) as [f [s| | |]] eqn:Eg; try done. simpl in E.
    destruct (keeps_storage _ _ _ _ _ K Eg) as (Kf & Hin & Hsub & _).
    destruct (IH (mkInfoDisk f (<[t := rOnUpdate s]> (registered r))) r' Kf ltac:(intros t'; simpl; rewrite lookup_insert_is_Some; intros [<-|[_ Ht']]; [done|by apply Hsub, Hr]) E) as (HA & HB & HC).
    split_and!; try done. intros t'. rewrite HC. simpl. rewrite lookup_insert_is_Some, elem_of_cons.
    destruct (decide (t = t')) as [->|Hne]; [tauto|]. split; [intros [[?|[? ?]]|?]|intros [?|[?|?]]]; tauto || congruence.
Qed.

Lemma NewStorageRegister_ok M d f r : NewRocksDBInfoStorageFactory d = Ok f -> keeps_infos M f -> NewStorageRegister d = Ok r -> holds M r.
Proof.
  intros Ef K. unfold NewStorageRegister. rewrite Ef. cbn [mbind res_bind]. intros E.
  apply (register_types_ok M) in E as (HA & HB & HC); [|done|intros t; cbn [registered]; rewrite lookup_empty; by intros [? ?]].
  assert (forall t, is_Some (registered r !! t) <-> t ∈ served) as Ht.
  { intros t. rewrite HC. simpl. rewrite lookup_empty. split; [intros [[? ?]|?]; done|by right]. }
  split; try done. intros t Hs. by apply HB, Ht.
Qed.

Lemma holds_new r : NewStorageRegister new_directory = Ok r -> holds ∅ r.
Proof.
  intros E. destruct (NewRocksDBInfoStorageFactory new_directory) as [f| | |] eqn:Ef;
    try (unfold NewStorageRegister in E; by rewrite Ef in E).
  eapply NewStorageRegister_ok; [done| |done]. unfold NewRocksDBInfoStorageFactory, open_families in Ef.
  destruct List_new as [e He]. rewrite He in Ef. simpl in Ef.
  destruct (OpenDbColumnFamilies _ _) as [db| | |] eqn:Eo; try done. injection Ef as <-. apply Open_new in Eo.
  assert (forall t, family_of db (infoTypeToStr t) = ∅) as Hf.
  { intros t. unfold family_of. rewrite Eo, lookup_singleton_ne; [done|]. intros Ed. by apply (infoTypeToStr_default t). }
  split; simpl.
  - intros cf. rewrite Eo, list_elem_of_singleton. split; [intros ->; rewrite lookup_singleton_eq; by eexists|].
    by intros [y [Hy _]%lookup_singleton_Some].
  - apply NoDup_singleton.
  - rewrite Eo, lookup_singleton_eq. by eexists.
  - intros t _. rewrite Hf. apply map_Forall_empty.
  - intros t id _. by rewrite Hf, !lookup_empty.
  - intros t id _. apply lookup_empty.
Qed.

Lemma holds_restart M r r' : holds M r -> NewStorageRegister (disk_Close r) = Ok r' -> holds M r'.
Proof.
  intros [_ _ K] E. destruct (NewRocksDBInfoStorageFactory (disk_Close r)) as [f| | |] eqn:Ef;
    try (unfold NewStorageRegister in E; by rewrite Ef in E).
  eapply NewStorageRegister_ok; [done| |done]. unfold NewRocksDBInfoStorageFactory, open_families, disk_Close, Factory_Close in Ef.
  destruct (List_closed (fdb (storageFactory r))) as (l & Hl & Hnd & Hin). rewrite Hl in Ef.
  destruct K as [K2 K3 K4 K6 K7 K8]. destruct (decide (length l = 0%nat)) as [Hz|_].
  { destruct l; [|done]. apply Hin in K4. by apply elem_of_nil in K4. }
  destruct (OpenDbColumnFamilies _ _) as [db| | |] eqn:Eo; try done. injection Ef as <-. apply (Open_closed _ _ _ Hl) in Eo.
  split; simpl; unfold family_of in *; rewrite ?Eo; try done.
Qed.

Lemma directory_of_holds r M : directory_of r M -> holds M r.
Proof.
  induction 1 as [r E|r M info r' calls _ IH E|r M t id r' _ IH E|r M t name r' _ IH E|r M src Msrc r' _ IH _ IHs E|r M r' _ IH E].
  - by apply holds_new.
  - by eapply holds_update.
  - by eapply holds_delete.
  - by eapply holds_hook.
  - by eapply holds_recover.
  - by eapply holds_restart.
Qed.

End disk.

Arguments InfoDisk V {_}.

(** C12: the directory on disk. Make a register of an empty directory, update, delete
    and set callbacks, load snapshots of registers made the same way, end the process
    and start again, in any order: [Get] answers for every type and identifier what
    the map does that these operations make of the empty one, in which a snapshot's
    entries replace those there were, and [List] gives what the map holds under a
    prefix. So the storages, handles on one database, do not disturb each other, and
    whoever starts from a snapshot has the directory it was taken of. *)
Theorem directory_kept {V : Type} `{RocksOpenOk V, !Proto BaseInfo V, !ProtoOk BaseInfo V} (r : InfoDisk V) M :
  directory_of r M ->
  (forall t id, match M !! (t, id) with
                | Some b => exists i, disk_Get r t id = Ok i /\ Information_BaseInfo i = b
                | None => exists e, disk_Get r t id = Err e
                end) /\
  (forall t prefix, t ∈ served -> exists l, disk_List r t prefix = Ok l /\
     forall b, b ∈ (Information_BaseInfo <$> l) <-> exists id, M !! (t, id) = Some b /\ HasPrefix id prefix = true).
Proof.
  intros K%directory_of_holds. split.
  - intros t id. unfold disk_Get. destruct (registered r !! t) as [calls|] eqn:Ec.
    + destruct (holds_registered _ _ _ _ K Ec) as [_ Hv]. rewrite <- Hv.
      pose proof (get_view (family_handle r t calls) id) as Hg. cbn in Hg. unfold family in Hg. cbn in Hg.
      rewrite lookup_fmap in Hg. exact Hg.
    + rewrite (ki_other _ _ (h_keeps _ _ K)); [by eexists|]. intros Ht. apply (h_types _ _ K) in Ht as [? Ht]. congruence.
  - intros t prefix Ht. unfold disk_List. destruct (proj2 (h_types _ _ K t) Ht) as [calls Ec]. rewrite Ec.
    destruct (holds_registered _ _ _ _ K Ec) as [Hr Hv].
    destruct (rocks_list_complete (family_handle r t calls) prefix Hr) as (l & El & Hl). exists l. split; [done|]. intros b. rewrite Hl.
    split; intros (id & Hid & Hp); exists id; (split; [|done]); rewrite <- Hid, <- Hv; cbn; by rewrite lookup_fmap.
Qed.

(** ** Two small nodes

    One registers a node; the other loads its snapshot and is started again. *)

#[local] Instance proto_info : Proto BaseInfo BaseInfo := {| Marshal b := b; Unmarshal b := Some b |}.

#[local] Instance proto_info_ok : ProtoOk BaseInfo BaseInfo.
Proof. done. Qed.

Definition value_of {A} (d : A) (r : res A) : A := match r with Ok x => x | _ => d end.

Lemma value_of_ok {A} (d : A) r : is_Ok r = true -> r = Ok (value_of d r).
Proof. by destruct r. Qed.

Definition new_disk : InfoDisk BaseInfo := value_of (mkInfoDisk (mkRocksFactory ∅ []) ∅) (NewStorageRegister new_directory).

Definition disk_node : NodeInfo := mkNodeInfo 3 "u3" "10.0.0.3" 3267 10 NS_ONLINE.

Definition filled_disk : InfoDisk BaseInfo := (disk_Update new_disk (Inf_Node disk_node)).1.

Definition loaded_disk : InfoDisk BaseInfo := value_of new_disk (Register_RecoverFromSnapshot new_disk (Register_GetSnapshot filled_disk)).

Definition started_disk : InfoDisk BaseInfo := value_of new_disk (NewStorageRegister (disk_Close loaded_disk)).

Lemma started_directory : directory_of started_disk (<[(IT_NODE_INFO, "3") := BI_NodeInfo disk_node]> ∅ ∪ ∅).
Proof.
  assert (directory_of new_disk ∅) as Hn by (apply D_new, value_of_ok; vm_compute; reflexivity).
  assert (directory_of filled_disk (<[(IT_NODE_INFO, "3") := BI_NodeInfo disk_node]> ∅)) as Hf.
  { apply (D_update new_disk ∅ (Inf_Node disk_node) filled_disk []); [done|]. unfold filled_disk.
    assert ((disk_Update new_disk (Inf_Node disk_node)).2 = Ok []) as Ex by (vm_compute; reflexivity).
    destruct (disk_Update _ _) as [r x]. cbn in Ex |- *. by subst x. }
  apply (D_restart loaded_disk); [|apply value_of_ok; vm_compute; reflexivity].
  apply (D_recover new_disk ∅ filled_disk); [done..|]. apply value_of_ok. vm_compute. reflexivity.
Qed.

Lemma directory_kept_witness : exists i, disk_Get started_disk IT_NODE_INFO "3" = Ok i /\ Information_BaseInfo i = BI_NodeInfo disk_node.
Proof. exact (proj1 (directory_kept started_disk _ started_directory) IT_NODE_INFO "3"). Defined.
