(* ===== verification/Alaya.v ===== *)
(** * The metadata service: [src/edge-node/alaya/alaya.go], [alaya_raft.go]

    Alaya keeps one raft node and one metadata storage per placement group this
    edge node is a member of. A write is proposed to the group and returns when
    the raft library has committed it and this node has applied it; reads are
    local. The raft library is outside the repository: a proposal has the outcome
    [Some l], the entries that are committed and applied up to and including this
    one (others may come first), or [None], never. The storage type is any
    instance of [MetaStorage]; the watcher and Moon are the functions of [Env]. *)

From S2P Require Import Prelude GoStd Errno Infos Rocks InfoStorage Object Pipeline MetaStorage.

(** ** Operations on metadata *)

Inductive MetaOp := MetaOperate_PUT | MetaOperate_DELETE | MetaOperate_OTHER.

Record MetaOperate := mkMetaOperate { OperateId : Z; Operate : MetaOp; Meta : ObjectMeta }.

(** [GetTermFromContext]: the term travels as decimal text. *)
Definition SetTermToContext (term : Z) : string := FormatUint term.

Definition GetTermFromContext (tag : string) : res Z := or_err (EErrno TermNotExist) (ParseUint tag).

Definition calDiff (a b : list Z) : list Z * list Z :=
  (elements (list_to_set a ∖ list_to_set b : gset Z), elements (list_to_set b ∖ list_to_set a : gset Z)).

Section alaya.
Context `{HR : HashRing}.
Context {S : Type} `{MetaStorage S}.

(** ** One raft group on this node *)

Record Raft := mkRaft {
  r_id : Z;                   (* the node *)
  r_pgID : Z;
  r_pipeline : Pipeline;
  r_peers : list Z;           (* the group it was started with *)
  r_voters : list Z;          (* Status().Config.Voters *)
  r_lead : Z;                 (* Status().Lead, 0 when there is none *)
  r_confVoters : list Z       (* ConfState.Voters, as of the last applied change *)
}.

Definition NewAlayaRaft (raftID : Z) (nowPipe : Pipeline) (oldP : option Pipeline) : Raft :=
  mkRaft raftID (P_PgId nowPipe) nowPipe
    (match oldP with Some o => P_RaftId o | None => P_RaftId nowPipe end) [] 0 [].

(** The pipeline is only ever replaced by one of a later term. *)
Definition setPipeline (r : Raft) (p : Pipeline) : Raft :=
  if decide (ClusterTerm (r_pipeline r) < ClusterTerm p)
  then mkRaft (r_id r) (r_pgID r) p (r_peers r) (r_voters r) (r_lead r) (r_confVoters r) else r.

Definition ProposeNewPipeline (r : Raft) (newP : Pipeline) : Raft := setPipeline r newP.

Definition isLeader (r : Raft) : bool := bool_decide (r_lead r = r_id r).

Definition pipelineReady (r : Raft) : bool :=
  forallb (fun id => bool_decide (id ∈ r_voters r)) (P_RaftId (r_pipeline r)).

(** One turn of [RunAskForLeader]: whether the node asks for the leadership. An
    empty pipeline has no first node. *)
Definition wantsLeadership (r : Raft) : res bool :=
  if bool_decide (r_lead r = 0) || bool_decide (r_lead r = r_id r) then Ok false
  else first ← or_panic (head (P_RaftId (r_pipeline r)));
       Ok (bool_decide (r_id r = first) && pipelineReady r).

(** One turn of [controlLoop] on a leader: the nodes to add and to remove. *)
Definition controlLoop (r : Raft) : option (list Z * list Z) :=
  if isLeader r then Some (calDiff (P_RaftId (r_pipeline r)) (r_confVoters r)) else None.

Inductive ConfChangeType := ConfChangeAddNode | ConfChangeRemoveNode.

#[global] Instance ConfChangeType_eq_dec : EqDecision ConfChangeType.
Proof. solve_decision. Defined.

(** [ProposeNewNodes] and [ProposeRemoveNodes]: the changes that are proposed, in
    order, until they take effect; the node itself goes last. *)
Definition ProposeNewNodes (r : Raft) (ids : list Z) : list (ConfChangeType * Z) :=
  (fun id => (ConfChangeAddNode, id)) <$> List.filter (fun id => negb (bool_decide (id ∈ r_voters r))) ids.

Definition ProposeRemoveNodes (r : Raft) (ids : list Z) : list (ConfChangeType * Z) :=
  (fun id => (ConfChangeRemoveNode, id)) <$>
    (List.filter (fun id => negb (bool_decide (id = r_id r))) ids ++
     (if decide (r_id r ∈ ids) then [r_id r] else [])).

(** A configuration change carries the pipeline it belongs to, if any. *)
Record ConfChange := mkConfChange { cc_type : ConfChangeType; cc_node : Z; cc_context : option Pipeline }.

(** [CheckConfChange]: the raft node, the waiter that is woken, and whether the
    node stops because it was removed. *)
Definition CheckConfChange (r : Raft) (c : ConfChange) : Raft * option Z * bool :=
  let stop := bool_decide (cc_node c = r_id r) && bool_decide (cc_type c = ConfChangeRemoveNode) in
  match cc_context c with
  | None => (r, None, stop)
  | Some p =>
      let r := setPipeline r p in
      if decide (ClusterTerm p < ClusterTerm (r_pipeline r)) then (r, None, false)
      else (r, Some (cc_node c), stop)
  end.

(** ** Applying committed entries: [readCommit] *)

Definition apply_op (s : S) (o : MetaOperate) : S * res unit :=
  match Operate o with
  | MetaOperate_PUT => RecordMeta s (Meta o)
  | MetaOperate_DELETE => MetaStorage_Delete s (ObjId (Meta o))
  | MetaOperate_OTHER => (s, Ok tt)
  end.

(** Errors of the storage are logged. *)
Definition apply_ops (s : S) (l : list MetaOperate) : S := foldl (fun s o => (apply_op s o).1) s l.

(** ** The service *)

Inductive AlayaState := INIT | READY | RUNNING | UPDATING | STOPPED.

#[global] Instance AlayaState_eq_dec : EqDecision AlayaState.
Proof. solve_decision. Defined.

Record Alaya := mkAlaya {
  a_self : Z;
  PGMessageChans : gset Z;
  PGRaftNode : gmap Z Raft;
  MetaStorageRegister : gmap Z S;
  a_state : AlayaState;
  clusterPipelines : option ClusterPipelines;
  a_outpost : option (ObjectMeta -> res bool)   (* o.Send and the status of its answer; nil *)
}.

Record Env := mkEnv {
  GetInfoDirect : InfoType -> string -> res Information;      (* moon *)
  GetClusterInfoByTerm : Z -> res ClusterInfo;                (* watcher *)
  GetCurrentTerm : Z
}.

Definition getRaftNode (a : Alaya) (pgID : Z) : option Raft := PGRaftNode a !! pgID.

Definition set_storage (a : Alaya) (pgID : Z) (s : S) : Alaya :=
  mkAlaya (a_self a) (PGMessageChans a) (PGRaftNode a) (<[pgID := s]> (MetaStorageRegister a))
    (a_state a) (clusterPipelines a) (a_outpost a).

(** Failures give the group 0, which no object belongs to. A bucket record that is
    not a bucket is dereferenced. *)
Definition calculateObjectPGID (e : Env) (term : Z) (objectID : string) : res Z :=
  match SplitID objectID with
  | Ok n =>
      match GetInfoDirect e IT_BUCKET_INFO (bucketID n) with
      | Ok info =>
          match GetClusterInfoByTerm e term with
          | Ok c =>
              b ← or_panic (GetBucketInfo (Information_BaseInfo info));
              GenObjPgID b (key n) (MetaPgNum c)
          | Err _ => Ok 0
          | Panic => Panic | Stuck => Stuck
          end
      | Err _ => Ok 0
      | Panic => Panic | Stuck => Stuck
      end
  | Err _ => Ok 0
  | Panic => Panic | Stuck => Stuck
  end.

Definition checkClientTerm (e : Env) (tag : string) : res Z :=
  clientTerm ← GetTermFromContext tag;
  if decide (clientTerm <> GetCurrentTerm e) then Err (EErrno TermNotMatch) else Ok clientTerm.

Definition with_id (m : ObjectMeta) (id : string) : ObjectMeta :=
  mkObjectMeta id (Status m) (Pos m) (ObjSize m) (UpdateTime m) (ObjHash m) (PgId m) (Blocks m) (OM_Term m) (MetaData m).

(** The metadata with its identifier cleaned, or [PgNotMatch]. *)
Definition checkObject (e : Env) (term : Z) (meta : ObjectMeta) : res ObjectMeta :=
  let meta := with_id meta (CleanObjectKey (ObjId meta)) in
  pgID ← calculateObjectPGID e term (ObjId meta);
  if decide (PgId meta <> pgID) then Err (EErrno PgNotMatch) else Ok meta.

(** [ProposeObjectMetaOperate]: apply what the group commits up to our entry. *)
Definition propose (a : Alaya) (pgID : Z) (o : MetaOperate) (before : option (list MetaOperate)) : Alaya * res unit :=
  match before with
  | None => (a, Stuck)
  | Some l =>
      match MetaStorageRegister a !! pgID with
      | Some s => (set_storage a pgID (apply_ops s (l ++ [o])), Ok tt)
      | None => (a, Panic)
      end
  end.

(** Whether the cloud has to drop its copy: the new version is on the edge only
    and the old one is not. *)
Definition needs_sync (a : Alaya) (meta : ObjectMeta) : res bool :=
  if decide (Pos meta = POSITION_EDGE) then
    s ← Meta_GetStorage (MetaStorageRegister a) (PgId meta);
    match GetMeta s (ObjId meta) with
    | Ok old => Ok (bool_decide (Pos old <> POSITION_EDGE))
    | Panic => Panic | Stuck => Stuck
    | Err _ => Ok false
    end
  else Ok false.

Definition sync_to_cloud (a : Alaya) (meta : ObjectMeta) : res unit :=
  send ← or_panic (a_outpost a);
  ok ← send meta;
  if ok : bool then Ok tt else Err (ENew "sync to cloud failed").

Definition RecordObjectMeta (e : Env) (a : Alaya) (tag : string) (cancelled : bool) (opID : Z)
    (before : option (list MetaOperate)) (meta : ObjectMeta) : Alaya * res unit :=
  do a, term <- pure a (checkClientTerm e tag);
  do a, meta <- pure a (checkObject e term meta);
  do a, syncToCloud <- pure a (needs_sync a meta);
  if cancelled then (a, Err (EExt "context canceled"))
  else match getRaftNode a (PgId meta) with
       | None => (a, Err (EErrno RaftNodeNotFound))
       | Some _ =>
           do a, _ <- propose a (PgId meta) (mkMetaOperate opID MetaOperate_PUT meta) before;
           if syncToCloud : bool then pure a (sync_to_cloud a meta) else (a, Ok tt)
       end.

Definition GetObjectMeta (e : Env) (a : Alaya) (tag : string) (objID : string) : res ObjectMeta :=
  term ← checkClientTerm e tag;
  let objID := CleanObjectKey objID in
  pgID ← calculateObjectPGID e term objID;
  s ← Meta_GetStorage (MetaStorageRegister a) pgID;
  GetMeta s objID.

(** The blocks handed to the cleaner are the second result. *)
Definition DeleteMeta (e : Env) (a : Alaya) (tag : string) (cancelled : bool) (opID : Z)
    (before : option (list MetaOperate)) (objID : string) : Alaya * res (list BlockInfo) :=
  do a, _ <- pure a (GetTermFromContext tag);
  let objID := CleanObjectKey objID in
  do a, objMeta <- pure a (GetObjectMeta e a tag objID);
  if cancelled then (a, Err (EExt "context canceled"))
  else match getRaftNode a (PgId objMeta) with
       | None => (a, Err (EErrno RaftNodeNotFound))
       | Some _ =>
           do a, _ <- propose a (PgId objMeta) (mkMetaOperate opID MetaOperate_DELETE objMeta) before;
           (a, Ok (Blocks objMeta))
       end.

(** Errors of single storages are dropped with their results. *)
Definition list_or_nil (s : S) (prefix : string) : list ObjectMeta :=
  match MetaStorage_List s prefix with Ok l => l | _ => [] end.

Definition ListMeta (a : Alaya) (tag : string) (prefix : string) : res (list ObjectMeta) :=
  _ ← GetTermFromContext tag;
  Ok (concat ((fun s => list_or_nil s (CleanObjectKey prefix)) <$> GetAllStorage (MetaStorageRegister a))).

(** The message is handed to the raft node, or refused. *)
Definition SendRaftMessage (a : Alaya) (cancelled : bool) (pgID : Z) : res unit :=
  if cancelled then Err (EExt "context canceled")
  else match PGRaftNode a !! pgID with
       | None => Err (EErrno PGNotExist)
       | Some _ => if decide (pgID ∈ PGMessageChans a) then Ok tt else Err (EErrno PGNotExist)
       end.

(** ** Following the cluster *)

(** A new raft node for a group; [fresh] makes its storage, whose failure is fatal. *)
Definition makeAlayaRaftInPipeline (fresh : Z -> res S) (a : Alaya) (p : Pipeline) (oldP : option Pipeline) : res Alaya :=
  let pgID := P_PgId p in
  match NewStorage fresh (MetaStorageRegister a) pgID with
  | (reg, Ok _) =>
      Ok (mkAlaya (a_self a) ({[pgID]} ∪ PGMessageChans a) (<[pgID := NewAlayaRaft (a_self a) p oldP]> (PGRaftNode a))
            reg (a_state a) (clusterPipelines a) (a_outpost a))
  | (_, _) => Panic
  end.

(** The first pass hands every raft node its group's new pipeline. *)
Definition update_rafts (pipelines : ClusterPipelines) (rafts : gmap Z Raft) : res (gmap Z Raft) :=
  if decide (map_Forall (fun pgID _ => is_Ok (pipeline_at (MetaPipelines pipelines) pgID) = true) rafts)
  then Ok (map_imap (fun pgID r =>
        match pipeline_at (MetaPipelines pipelines) pgID with
        | Ok p => Some (ProposeNewPipeline r p)
        | _ => None
        end) rafts)
  else Panic.

(** The second starts the groups this node is new in. *)
Fixpoint start_rafts (fresh : Z -> res S) (old : option ClusterPipelines) (ps : list Pipeline) (a : Alaya) : res Alaya :=
  match ps with
  | [] => Ok a
  | p :: ps' =>
      if decide (a_self a ∉ P_RaftId p \/ P_PgId p ∈ PGMessageChans a) then start_rafts fresh old ps' a
      else
        oldP ← match old with
               | Some o => p' ← pipeline_at (MetaPipelines o) (P_PgId p); Ok (Some p')
               | None => Ok None
               end;
        a' ← makeAlayaRaftInPipeline fresh a p oldP;
        start_rafts fresh old ps' a'
  end.

Definition ApplyNewPipelines (fresh : Z -> res S) (a : Alaya) (pipelines : ClusterPipelines)
    (old : option ClusterPipelines) : res Alaya :=
  rafts ← update_rafts pipelines (PGRaftNode a);
  start_rafts fresh old (MetaPipelines pipelines)
    (mkAlaya (a_self a) (PGMessageChans a) rafts (MetaStorageRegister a) (a_state a) (Some pipelines) (a_outpost a)).

Definition with_state (a : Alaya) (st : AlayaState) : Alaya :=
  mkAlaya (a_self a) (PGMessageChans a) (PGRaftNode a) (MetaStorageRegister a) st (clusterPipelines a) (a_outpost a).

Context `{CR : Crush}.

(** A nil cluster info is dereferenced before it is tested. *)
Definition ApplyNewClusterInfo (fresh : Z -> res S) (e : Env) (a : Alaya) (clusterInfo : option ClusterInfo) : res Alaya :=
  c ← or_panic clusterInfo;
  let a := with_state a UPDATING in
  let old :=
    if decide (LastTerm c <> 0) then
      match GetClusterInfoByTerm e (LastTerm c) with
      | Ok o => match NewClusterPipelines o with Ok p => Some p | _ => None end
      | _ => None
      end
    else clusterPipelines a in
  if decide (NodesInfo c = []) then Ok a
  else match NewClusterPipelines c with
       | Ok p => a' ← ApplyNewPipelines fresh a p old; Ok (with_state a' RUNNING)
       | Err _ => Ok a
       | Panic => Panic
       | Stuck => Stuck
       end.

(** A new service follows the current cluster at once; nothing sets its outpost. *)
Definition NewAlaya (fresh : Z -> res S) (e : Env) (self : Z) (storages : gmap Z S) (current : ClusterInfo) : res Alaya :=
  a ← ApplyNewClusterInfo fresh e (mkAlaya self ∅ ∅ storages INIT None None) (Some current);
  Ok (with_state a READY).

(** [Run], up to its loop, whose two cases follow. *)
Definition Alaya_Run (a : Alaya) : Alaya := with_state a RUNNING.

(** A raft node that stopped by itself leaves the tables. *)
Definition raft_stopped (a : Alaya) (pgID : Z) : Alaya :=
  mkAlaya (a_self a) (PGMessageChans a ∖ {[pgID]}) (delete pgID (PGRaftNode a)) (MetaStorageRegister a)
    (a_state a) (clusterPipelines a) (a_outpost a).

Definition cleanup (a : Alaya) : Alaya := with_state a STOPPED.

(** ** Reports *)

Inductive PipelineState := PR_UNKNOWN | PR_OK | PR_DOWN_GRADE | PR_ERROR | PR_CHANGING.

#[global] Instance PipelineState_eq_dec : EqDecision PipelineState.
Proof. solve_decision. Defined.

Record PipelineReport := mkPipelineReport { pr_pg : Z; pr_nodes : list Z; pr_leader : Z; pr_state : PipelineState }.

Inductive AlayaReport := ReportADD (r : PipelineReport) | ReportDELETE (pgID : Z).

Definition getPipelineReport (a : Alaya) (pgID : Z) : res AlayaReport :=
  match PGRaftNode a !! pgID with
  | None => Ok (ReportDELETE pgID)
  | Some node =>
      state ←
        (if decide (r_lead node = 0) then Ok PR_ERROR
         else if decide (length (r_voters node) < length (P_RaftId (r_pipeline node)))%nat then Ok PR_DOWN_GRADE
         else first ← or_panic (head (P_RaftId (r_pipeline node)));
              if decide (r_lead node <> first) then Ok PR_CHANGING else Ok PR_OK);
      Ok (ReportADD (mkPipelineReport pgID (r_voters node) (r_lead node) state))
  end.

Fixpoint reports_of (a : Alaya) (pgs : list Z) : res (list AlayaReport) :=
  match pgs with
  | [] => Ok []
  | pg :: pgs' => r ← getPipelineReport a pg; l ← reports_of a pgs'; Ok (r :: l)
  end.

Definition GetReports (a : Alaya) : res (list AlayaReport) := reports_of a (map_to_list (PGRaftNode a)).*1.

(** [IsAllPipelinesOK]: running, at the current term, and every raft node is led by
    the first node of its pipeline with as many voters as the pipeline has nodes. *)
Definition raft_ok (r : Raft) : bool :=
  bool_decide (head (P_RaftId (r_pipeline r)) = Some (r_lead r)) &&
  bool_decide (length (r_voters r) = length (P_RaftId (r_pipeline r))).

Definition IsAllPipelinesOK (e : Env) (a : Alaya) : res bool :=
  cp ← or_panic (clusterPipelines a);
  if bool_decide (MetaPipelines cp = []) || bool_decide (a_state a <> RUNNING) ||
     bool_decide (CP_Term cp <> GetCurrentTerm e)
  then Ok false
  else Ok (forallb (fun kr => raft_ok kr.2) (map_to_list (PGRaftNode a))).

End alaya.

Arguments Alaya S : clear implicits.
