(* ===== verification/AlayaProofs.v ===== *)
(** * The metadata service keeps what it acknowledges

    Proofs about [Alaya.v], for any storage that satisfies [MetaStorageLaws]: the
    refinement of a replica to a map that the log of the group determines, reads
    after writes, agreement of client and server on placement, and the upkeep of
    the raft nodes when the cluster changes. *)

From S2P Require Import Prelude GoStd Errno Infos Rocks InfoStorage Object Pipeline MetaStorage Alaya.

(** A storage whose writes do not fail. *)
Class MetaStorageTotal (S : Type) `{MetaStorage S} : Prop := {
  RecordMeta_total s m : exists s', RecordMeta s m = (s', Ok tt);
  Delete_total s id : exists s', MetaStorage_Delete s id = (s', Ok tt)
}.

#[export] Instance memory_meta_total : MetaStorageTotal MemoryMetaStorage.
Proof. constructor; intros; by eexists. Qed.

(** ** Specification: the map a log determines *)

Definition op_view (m : gmap string ObjectMeta) (o : MetaOperate) : gmap string ObjectMeta :=
  match Operate o with
  | MetaOperate_PUT => <[ObjId (Meta o) := Meta o]> m
  | MetaOperate_DELETE => delete (ObjId (Meta o)) m
  | MetaOperate_OTHER => m
  end.

Definition log_view (m : gmap string ObjectMeta) (l : list MetaOperate) : gmap string ObjectMeta := foldl op_view m l.

Section storage.
Context {S : Type} `{MetaStorageLaws S, !MetaStorageTotal S}.

Lemma apply_op_view s o : metas_ok s -> metas_ok (apply_op s o).1 /\ metas (apply_op s o).1 = op_view (metas s) o.
Proof.
  intros Hs. unfold apply_op, op_view. destruct (Operate o).
  - destruct (RecordMeta_total s (Meta o)) as [s' E]. rewrite E. by eapply RecordMeta_law.
  - destruct (Delete_total s (ObjId (Meta o))) as [s' E]. rewrite E. by eapply Delete_law.
  - done.
Qed.

Lemma apply_ops_view l : forall s, metas_ok s ->
  metas_ok (apply_ops s l) /\ metas (apply_ops s l) = log_view (metas s) l.
Proof.
  induction l as [|o l IH]; intros s Hs; [done|].
  destruct (apply_op_view s o Hs) as [H1 H2]. unfold apply_ops, log_view in *. simpl.
  destruct (IH _ H1) as [H3 H4]. split; [done|]. by rewrite H4, H2.
Qed.

End storage.

(** ** Reads after writes *)

Section service.
Context `{HR : HashRing} {S : Type} `{MetaStorageLaws S, !MetaStorageTotal S}.

Definition storages_ok (a : Alaya S) : Prop := forall pg s, MetaStorageRegister a !! pg = Some s -> metas_ok s.

Lemma propose_ok (a a' : Alaya S) pg o before :
  storages_ok a -> propose a pg o before = (a', Ok tt) ->
  exists s s', MetaStorageRegister a !! pg = Some s /\ a' = set_storage a pg s' /\ metas_ok s' /\
    metas s' = op_view (log_view (metas s) (default [] before)) o.
Proof.
  intros Ha E. unfold propose in E. destruct before as [l|]; [|done].
  destruct (MetaStorageRegister a !! pg) as [s|] eqn:Es; [|done]. injection E as <-.
  destruct (apply_ops_view (l ++ [o]) s (Ha pg s Es)) as [H1 H2].
  exists s, (apply_ops s (l ++ [o])). split_and!; try done. rewrite H2. unfold log_view. by rewrite foldl_app.
Qed.

(** An acknowledged write passed every check. *)
Lemma RecordObjectMeta_ok e (a a' : Alaya S) tag cancelled opID before meta :
  RecordObjectMeta e a tag cancelled opID before meta = (a', Ok tt) ->
  exists term meta', checkClientTerm e tag = Ok term /\ checkObject e term meta = Ok meta' /\
    cancelled = false /\ is_Some (getRaftNode a (PgId meta')) /\
    propose a (PgId meta') (mkMetaOperate opID MetaOperate_PUT meta') before = (a', Ok tt).
Proof.
  unfold RecordObjectMeta. intros E.
  apply st_bind_inv in E as (a1 & term & Et & E). unfold pure in Et. injection Et as <- Et.
  apply st_bind_inv in E as (a2 & meta' & Em & E). unfold pure in Em. injection Em as <- Em.
  apply st_bind_inv in E as (a3 & sync & Es & E). unfold pure in Es. injection Es as <- Es.
  destruct cancelled; [done|]. destruct (getRaftNode a (PgId meta')) as [r|] eqn:Er; [|done].
  apply st_bind_inv in E as (a4 & [] & Ep & E). exists term, meta'. split_and!; try done.
  destruct sync; [|by injection E as <-].
  unfold pure in E. by injection E as <- _.
Qed.

Lemma checkObject_inv e term meta meta' : checkObject e term meta = Ok meta' ->
  meta' = with_id meta (CleanObjectKey (ObjId meta)) /\ calculateObjectPGID e term (ObjId meta') = Ok (PgId meta').
Proof.
  unfold checkObject. intros E. destruct (calculateObjectPGID _ _ _) as [pg| | |] eqn:Ec; try done.
  simpl in E. destruct (decide _) as [|Hp%dec_stable]; [done|]. injection E as <-. split; [done|].
  simpl in *. by rewrite Ec, Hp.
Qed.

Lemma GetObjectMeta_same e (a : Alaya S) tag term meta' objID s :
  checkClientTerm e tag = Ok term -> CleanObjectKey objID = ObjId meta' ->
  calculateObjectPGID e term (ObjId meta') = Ok (PgId meta') -> storages_ok a ->
  MetaStorageRegister a !! PgId meta' = Some s ->
  GetObjectMeta e a tag objID = or_err (EErrno MetaNotExist) (metas s !! ObjId meta').
Proof.
  intros Ht Hid Hc Ha Hs. unfold GetObjectMeta. rewrite Ht. cbn [mbind res_bind]. rewrite Hid, Hc.
  cbn [mbind res_bind]. unfold Meta_GetStorage. rewrite Hs. cbn [or_err mbind res_bind].
  apply GetMeta_law. by eapply Ha.
Qed.

Lemma DeleteMeta_ok e (a a' : Alaya S) tag cancelled opID before objID bs :
  DeleteMeta e a tag cancelled opID before objID = (a', Ok bs) ->
  exists m, GetObjectMeta e a tag (CleanObjectKey objID) = Ok m /\ bs = Blocks m /\
    propose a (PgId m) (mkMetaOperate opID MetaOperate_DELETE m) before = (a', Ok tt).
Proof.
  unfold DeleteMeta. intros E.
  apply st_bind_inv in E as (a1 & term & Et & E). unfold pure in Et. injection Et as <- Et.
  apply st_bind_inv in E as (a2 & m & Em & E). unfold pure in Em. injection Em as <- Em.
  destruct cancelled; [done|]. destruct (getRaftNode a (PgId m)) as [r|]; [|done].
  apply st_bind_inv in E as (a4 & [] & Ep & E). injection E as <- <-. by exists m.
Qed.

(** What is acknowledged is found. *)
Lemma recorded_found e (a a' : Alaya S) tag cancelled opID before meta :
  storages_ok a -> RecordObjectMeta e a tag cancelled opID before meta = (a', Ok tt) ->
  GetObjectMeta e a' tag (ObjId meta) = Ok (with_id meta (CleanObjectKey (ObjId meta))) /\
  forall pg, pg <> PgId meta -> MetaStorageRegister a' !! pg = MetaStorageRegister a !! pg.
Proof.
  intros Ha E. destruct (RecordObjectMeta_ok _ _ _ _ _ _ _ _ E) as (term & meta' & Ht & Hc & _ & _ & Hp).
  destruct (checkObject_inv _ _ _ _ Hc) as [-> Hpg]. set (m := with_id meta _) in *.
  destruct (propose_ok _ _ _ _ _ Ha Hp) as (s & s' & Hs & -> & Hok & Hm). split.
  - rewrite (GetObjectMeta_same e _ tag term m (ObjId meta) s' Ht eq_refl Hpg).
    + rewrite Hm. unfold op_view. cbn [Operate Meta]. by rewrite lookup_insert_eq.
    + intros pg s0. simpl. destruct (decide (pg = PgId m)) as [->|Hne].
      * rewrite lookup_insert_eq. by intros [= <-].
      * rewrite lookup_insert_ne by done. apply Ha.
    + simpl. by rewrite lookup_insert_eq.
  - intros pg Hne. simpl. by rewrite lookup_insert_ne.
Qed.

(** What passes the checks, and needs no copy to the cloud, is acknowledged. *)
Lemma RecordObjectMeta_accepts e (a : Alaya S) tag term opID l meta meta' r s :
  checkClientTerm e tag = Ok term -> checkObject e term meta = Ok meta' -> storages_ok a ->
  PGRaftNode a !! PgId meta' = Some r -> MetaStorageRegister a !! PgId meta' = Some s ->
  (forall old, metas s !! ObjId meta' = Some old -> Pos old = POSITION_EDGE) ->
  exists s', metas_ok s' /\
    RecordObjectMeta e a tag false opID (Some l) meta = (set_storage a (PgId meta') s', Ok tt).
Proof.
  intros Ht Hc Ha Hr Hs Hold. eexists (apply_ops s (l ++ [mkMetaOperate opID MetaOperate_PUT meta'])).
  split; [by apply apply_ops_view, (Ha _ _ Hs)|]. unfold RecordObjectMeta. rewrite Ht. cbn [pure st_bind]. rewrite Hc. cbn [pure st_bind].
  assert (needs_sync a meta' = Ok false) as ->.
  { unfold needs_sync. destruct (decide _); [|done]. unfold Meta_GetStorage. rewrite Hs. cbn [or_err mbind res_bind].
    rewrite (GetMeta_law s _ (Ha _ _ Hs)). destruct (metas s !! ObjId meta') as [old|]; [|done]. cbn [or_err].
    rewrite (Hold old eq_refl). by rewrite bool_decide_false by (intros Hn; by apply Hn). }
  cbn [pure st_bind]. unfold getRaftNode. rewrite Hr. unfold propose. rewrite Hs. done.
Qed.

End service.

(** ** Properties *)

(** read your writes. When a write of metadata is acknowledged, a read of the
    same object at the same node and term returns exactly that metadata (under its
    cleaned name), whatever other writes the group committed before it; and the
    storages of all other groups are as they were. *)
Theorem record_then_get `{HR : HashRing} {S : Type} `{MetaStorageLaws S, !MetaStorageTotal S}
    e (a a' : Alaya S) tag cancelled opID before meta :
  storages_ok a -> RecordObjectMeta e a tag cancelled opID before meta = (a', Ok tt) ->
  GetObjectMeta e a' tag (ObjId meta) = Ok (with_id meta (CleanObjectKey (ObjId meta))) /\
  forall pg, pg <> PgId meta -> MetaStorageRegister a' !! pg = MetaStorageRegister a !! pg.
Proof. apply recorded_found. Qed.

(** An environment with one bucket, one cluster, and this node in group 7. *)
Definition demo_env : Env :=
  mkEnv (fun t id => if decide (t = IT_BUCKET_INFO /\ id = BucketInfo_GetID default_bucket)
                     then Ok (Inf_Base (BI_BucketInfo default_bucket)) else Err (EErrno InfoNotFound))
        (fun t => if decide (t = 7) then Ok small_cluster else Err (EErrno InfoNotFound)) 7.

Definition demo_pg : Z := match @GenObjPgID length_ring default_bucket "k" 10 with Ok pg => pg | _ => 0 end.

Definition demo_id : string := match @GenObjectId length_ring default_bucket "k" with Ok i => i | _ => "" end.

Definition demo_meta (pos : Position) : ObjectMeta :=
  mkObjectMeta demo_id STATUS_OK pos 3 None "" demo_pg [mkBlockInfo "b1" 0 3 "" 4] 7 None.

Definition demo_alaya (m : gmap string ObjectMeta) : Alaya MemoryMetaStorage :=
  mkAlaya 3 {[demo_pg]} {[demo_pg := NewAlayaRaft 3 (mkPipeline demo_pg [3; 1] Sync_RAFT 7) None]}
    {[demo_pg := mkMemoryMetaStorage m]} RUNNING None None.

Lemma demo_storages_ok m : storages_ok (demo_alaya m).
Proof. done. Qed.

Definition demo_record (pos : Position) (m : gmap string ObjectMeta) :=
  @RecordObjectMeta length_ring MemoryMetaStorage _ demo_env (demo_alaya m) "7" false 1 (Some []) (demo_meta pos).

Lemma demo_record_ok : (demo_record POSITION_EDGE ∅).2 = Ok tt.
Proof. vm_compute. reflexivity. Qed.

Lemma record_then_get_witness :
  @GetObjectMeta length_ring MemoryMetaStorage _ demo_env (demo_record POSITION_EDGE ∅).1 "7" demo_id =
    Ok (with_id (demo_meta POSITION_EDGE) (CleanObjectKey demo_id)).
Proof.
  refine (proj1 (@record_then_get length_ring MemoryMetaStorage _ _ _ demo_env (demo_alaya ∅) (demo_record POSITION_EDGE ∅).1
    "7" false 1 (Some []) (demo_meta POSITION_EDGE) (demo_storages_ok ∅) _)).
  rewrite <- demo_record_ok. apply surjective_pairing.
Defined.


Definition demo_delete :=
  @DeleteMeta length_ring MemoryMetaStorage _ demo_env (demo_alaya {[demo_id := demo_meta POSITION_EDGE]}) "7" false 2 (Some []) demo_id.

Lemma demo_delete_ok : demo_delete.2 = Ok [mkBlockInfo "b1" 0 3 "" 4].
Proof. vm_compute. reflexivity. Qed.


(** ** Clients and servers agree on placement *)

Lemma client_agrees `{HR : HashRing, !HashRingOk} e term b key info c oid pg meta :
  bucket_ok b -> key_ok key = true ->
  GetInfoDirect e IT_BUCKET_INFO (BucketInfo_GetID b) = Ok info ->
  GetBucketInfo (Information_BaseInfo info) = Some b ->
  GetClusterInfoByTerm e term = Ok c ->
  GenObjectId b key = Ok oid -> GenObjPgID b key (MetaPgNum c) = Ok pg ->
  ObjId meta = oid -> PgId meta = pg ->
  checkObject e term meta = Ok (with_id meta oid) /\ calculateObjectPGID e term oid = Ok pg.
Proof.
  intros Hb Hk Hi Hgb Hc Hoid Hpg Hm Hp.
  destruct (SplitID_GenObjectId b key Hb Hk) as (cfg & slot & oid' & _ & _ & Hoid' & Hclean & Hsplit).
  rewrite Hoid in Hoid'. injection Hoid' as <-.
  assert (calculateObjectPGID e term oid = Ok pg) as Hcalc.
  { unfold calculateObjectPGID. rewrite Hsplit. cbn [bucketID Object.key]. rewrite Hi, Hc, Hgb.
    cbn [or_panic mbind res_bind]. rewrite CleanObjectKey_ok by done. by rewrite GenObjPgID_clean. }
  split; [|done]. unfold checkObject. rewrite Hm, Hclean. cbn [with_id ObjId]. rewrite Hcalc.
  cbn [mbind res_bind]. rewrite decide_False; [done|]. simpl. intros Hne. by apply Hne.
Qed.

(** C11: a server accepts every object name a client makes. When the bucket is
    registered, names and buckets are well formed, and the client used the number
    of placement groups of the server's term, the metadata passes the placement
    check, and the server looks for the object in the group the client chose. *)
Theorem client_server_agree `{HR : HashRing, !HashRingOk} e term b key info c oid pg meta :
  bucket_ok b -> key_ok key = true ->
  GetInfoDirect e IT_BUCKET_INFO (BucketInfo_GetID b) = Ok info ->
  GetBucketInfo (Information_BaseInfo info) = Some b ->
  GetClusterInfoByTerm e term = Ok c ->
  GenObjectId b key = Ok oid -> GenObjPgID b key (MetaPgNum c) = Ok pg ->
  ObjId meta = oid -> PgId meta = pg ->
  checkObject e term meta = Ok (with_id meta oid) /\ calculateObjectPGID e term oid = Ok pg.
Proof. apply client_agrees. Qed.

Lemma client_server_agree_witness :
  @calculateObjectPGID length_ring demo_env 7 demo_id = Ok demo_pg.
Proof.
  refine (proj2 (@client_server_agree length_ring length_ring_ok demo_env 7 default_bucket "k"
    (Inf_Base (BI_BucketInfo default_bucket)) small_cluster demo_id demo_pg (demo_meta POSITION_EDGE)
    default_bucket_ok _ _ _ _ _ _ _ _)); vm_compute; reflexivity.
Defined.

(** ** Replicas that lag behind *)

(** what a replica holds after it has applied the log up to [l1] and then
    received the snapshot a replica at [l1 ++ l2] took: everything the newer one
    has, and besides it every entry of its own that [l2] deleted. So the two agree
    exactly when [l2] deletes nothing that was there at [l1]. *)
Theorem snapshot_lag {V : Type} `{RocksDB V, !RocksDBOk, !Proto ObjectMeta V, !ProtoOk ObjectMeta V}
    (newer lagging restored : RocksDBMetaStorage V) (l1 l2 : list MetaOperate) :
  mreadable newer -> rocks_metas newer = log_view ∅ (l1 ++ l2) -> rocks_metas lagging = log_view ∅ l1 ->
  RocksMeta_RecoverFromSnapshot lagging (RocksMeta_CreateSnapshot newer) = (restored, Ok tt) ->
  rocks_metas restored = rocks_metas newer ∪ log_view ∅ l1 /\
  (rocks_metas restored = rocks_metas newer <->
   forall id, is_Some (log_view ∅ l1 !! id) -> is_Some (log_view ∅ (l1 ++ l2) !! id)).
Proof.
  intros Hr Hn Hl E. rewrite (recover_metas newer lagging restored Hr E), Hl, Hn. split; [done|].
  set (m := log_view ∅ (l1 ++ l2)). set (m1 := log_view ∅ l1). split.
  - intros Heq id Hid. rewrite <- Heq, lookup_union_is_Some. by right.
  - intros Hd. apply map_eq. intros id. rewrite lookup_union. specialize (Hd id).
    destruct (m !! id); [by destruct (m1 !! id)|]. destruct (m1 !! id); [|done].
    destruct Hd as [? ?]; [by eexists|done].
Qed.

#[export] Instance meta_proto : Proto ObjectMeta ObjectMeta := {| Marshal := id; Unmarshal := Some |}.

#[export] Instance meta_proto_ok : ProtoOk ObjectMeta ObjectMeta.
Proof. by intros a. Qed.

Abbreviation meta_disk m :=
  (@mkRocksDBMetaStorage ObjectMeta (MapDB ObjectMeta) (<["1" := m]> ∅ : gmap string (gmap string ObjectMeta)) "1").

Definition demo_restore (l1 l2 : list MetaOperate) :=
  @RocksMeta_RecoverFromSnapshot ObjectMeta (MapDB ObjectMeta) (meta_disk (log_view ∅ l1))
    (@RocksMeta_CreateSnapshot ObjectMeta (MapDB ObjectMeta) (meta_disk (log_view ∅ (l1 ++ l2)))).

(** An object is stored, and deleted while the replica is away. *)
Definition demo_put := mkMetaOperate 1 MetaOperate_PUT (demo_meta POSITION_EDGE).
Definition demo_del := mkMetaOperate 2 MetaOperate_DELETE (demo_meta POSITION_EDGE).

Lemma demo_restore_ok : (demo_restore [demo_put] [demo_del]).2 = Ok tt.
Proof. vm_compute. reflexivity. Qed.

Lemma meta_disk_metas m :
  @rocks_metas ObjectMeta (MapDB ObjectMeta) _ (MapDB_ok ObjectMeta) (meta_disk m) = m.
Proof.
  unfold rocks_metas, mfamily, family_of. cbn [mdb mCfName contents MapDB_ok].
  rewrite lookup_insert_eq. cbn [default from_option id]. apply map_eq. intros k. rewrite lookup_omap.
  by destruct (m !! k).
Qed.

Lemma snapshot_lag_witness :
  @rocks_metas ObjectMeta (MapDB ObjectMeta) _ (MapDB_ok ObjectMeta) (demo_restore [demo_put] [demo_del]).1 =
    @rocks_metas ObjectMeta (MapDB ObjectMeta) _ (MapDB_ok ObjectMeta)
      (meta_disk (log_view ∅ [demo_put; demo_del])) ∪ log_view ∅ [demo_put].
Proof.
  refine (proj1 (@snapshot_lag ObjectMeta (MapDB ObjectMeta) (MapDB_ok ObjectMeta) _ _
    (meta_disk (log_view ∅ ([demo_put] ++ [demo_del]))) (meta_disk (log_view ∅ [demo_put]))
    (demo_restore [demo_put] [demo_del]).1 [demo_put] [demo_del] _ _ _ _)).
  - intros k v _. by eexists.
  - apply meta_disk_metas.
  - apply meta_disk_metas.
  - rewrite <- demo_restore_ok. apply surjective_pairing.
Defined.

(** ** Raft groups follow the cluster *)


Definition demo_raft : Raft := mkRaft 1 7 (mkPipeline 7 [1; 2; 4] Sync_RAFT 8) [1; 2; 3] [1; 2; 3] 1 [1; 2; 3].


Section follow.
Context {S : Type} `{MetaStorage S}.

(** The tables of the service belong together: a group has a raft node exactly
    when it has a message channel, and then it has a storage and its own number. *)
Definition alaya_wf (a : Alaya S) : Prop :=
  PGMessageChans a = dom (PGRaftNode a) /\ dom (PGRaftNode a) ⊆ dom (MetaStorageRegister a) /\
  map_Forall (fun pg r => r_pgID r = pg /\ P_PgId (r_pipeline r) = pg) (PGRaftNode a).

Lemma setPipeline_ClusterTerm r p : ClusterTerm (r_pipeline r) <= ClusterTerm (r_pipeline (setPipeline r p)) /\
  ClusterTerm p <= ClusterTerm (r_pipeline (setPipeline r p)).
Proof. unfold setPipeline. destruct (decide _); simpl; lia. Qed.

Lemma setPipeline_pg r p pg : P_PgId p = pg -> P_PgId (r_pipeline r) = pg -> P_PgId (r_pipeline (setPipeline r p)) = pg.
Proof. unfold setPipeline. by destruct (decide _). Qed.

(** What every step of following a table of pipelines keeps and brings about. *)
Definition followed (ps : list Pipeline) (a : Alaya S) : Prop :=
  alaya_wf a /\ forall p, p ∈ ps -> a_self a ∈ P_RaftId p ->
    exists r, PGRaftNode a !! P_PgId p = Some r /\ r_pipeline r = p.

Lemma update_rafts_lookup cp rafts : 
  (forall pg, pg ∈ dom rafts -> is_Ok (pipeline_at (MetaPipelines cp) pg) = true) ->
  exists rafts', update_rafts cp rafts = Ok rafts' /\ dom rafts' = dom rafts /\
    forall pg r, rafts' !! pg = Some r -> exists r0 p, rafts !! pg = Some r0 /\
      pipeline_at (MetaPipelines cp) pg = Ok p /\ r = setPipeline r0 p.
Proof.
  intros Hd. unfold update_rafts. rewrite decide_True; [|intros pg r Hr; apply Hd, elem_of_dom; by eexists].
  eexists. split; [done|]. split.
  - apply set_eq. intros pg. rewrite !elem_of_dom, map_lookup_imap. specialize (Hd pg).
    rewrite elem_of_dom in Hd. destruct (rafts !! pg) as [r|]; simpl; [|done].
    specialize (Hd (mk_is_Some (Some r) r eq_refl)). destruct (pipeline_at _ pg); try done.
  - intros pg r Hr. rewrite map_lookup_imap in Hr. destruct (rafts !! pg) as [r0|]; [|done]. simpl in Hr.
    destruct (pipeline_at _ pg) as [p| | |]; try done. injection Hr as <-. by exists r0, p.
Qed.

Lemma makeAlayaRaft_ok fresh (a : Alaya S) p oldP :
  is_Ok (fresh (P_PgId p)) = true -> alaya_wf a ->
  exists a', makeAlayaRaftInPipeline fresh a p oldP = Ok a' /\ alaya_wf a' /\ a_self a' = a_self a /\
    clusterPipelines a' = clusterPipelines a /\
    PGRaftNode a' = <[P_PgId p := NewAlayaRaft (a_self a) p oldP]> (PGRaftNode a).
Proof.
  intros Hfresh (H1 & H2 & H3). unfold makeAlayaRaftInPipeline.
  assert (exists reg s, NewStorage fresh (MetaStorageRegister a) (P_PgId p) = (reg, Ok s) /\
            dom (MetaStorageRegister a) ⊆ dom reg /\ P_PgId p ∈ dom reg) as (reg & s & -> & Hd & Hp).
  { unfold NewStorage. destruct (MetaStorageRegister a !! P_PgId p) as [s|] eqn:Es.
    - exists (MetaStorageRegister a), s. split_and!; try done. apply elem_of_dom. by eexists.
    - destruct (fresh _) as [s| | |]; try done. eexists _, s. split; [done|]. rewrite dom_insert. split.
      + apply union_subseteq_r.
      + apply elem_of_union_l, elem_of_singleton. done. }
  eexists. split_and!; try done. split_and!; simpl.
  - by rewrite dom_insert_L, H1.
  - rewrite dom_insert. apply union_subseteq. split; [|by etrans].
    intros x Hx. apply elem_of_singleton in Hx as ->. done.
  - by apply map_Forall_insert_2.
Qed.

(** The second pass reaches every pipeline of the table. *)
Lemma start_rafts_followed fresh old ps : forall dps (a : Alaya S),
  (forall p, p ∈ ps -> is_Ok (fresh (P_PgId p)) = true) ->
  (forall o p, old = Some o -> p ∈ ps -> is_Ok (pipeline_at (MetaPipelines o) (P_PgId p)) = true) ->
  followed dps a ->
  (forall p, p ∈ ps -> P_PgId p ∈ PGMessageChans a ->
     exists r, PGRaftNode a !! P_PgId p = Some r /\ r_pipeline r = p) ->
  NoDup (P_PgId <$> ps) ->
  exists a', start_rafts fresh old ps a = Ok a' /\ followed (dps ++ ps) a' /\ a_self a' = a_self a /\
    clusterPipelines a' = clusterPipelines a.
Proof.
  induction ps as [|p ps IH]; intros dps a Hfresh Hop Hf Hold Hnd.
  { exists a. by rewrite app_nil_r. }
  simpl in Hnd. apply NoDup_cons in Hnd as [Hnp Hnd]. destruct Hf as [Hwf Hf]. simpl.
  replace (dps ++ p :: ps) with ((dps ++ [p]) ++ ps) by by rewrite <- app_assoc.
  assert (forall q, q ∈ ps -> q ∈ p :: ps) as Hsub by (intros; by right).
  destruct (decide _) as [Hskip|Hstart].
  { apply (IH (dps ++ [p]) a); try (eauto; done). split; [done|]. intros q Hq Hself.
    apply elem_of_app in Hq as [Hq|Hq]; [by apply Hf|]. apply list_elem_of_singleton in Hq as ->.
    destruct Hskip as [?|Hc]; [done|]. apply Hold; [by left|done]. }
  assert (exists oldP, match old with
               | Some o => p' ← pipeline_at (MetaPipelines o) (P_PgId p); Ok (Some p')
               | None => Ok None end = Ok oldP) as [oldP ->].
  { destruct old as [o|]; [|by eexists]. specialize (Hop o p eq_refl ltac:(left)).
    destruct (pipeline_at _ _); try done. by eexists. }
  destruct (makeAlayaRaft_ok fresh a p oldP (Hfresh p ltac:(left)) Hwf) as (a1 & E1 & Hwf1 & Hs1 & Hc1 & Hr1).
  cbn [mbind res_bind]. rewrite E1. cbn [mbind res_bind].
  assert (PGRaftNode a !! P_PgId p = None) as Hnone.
  { apply not_elem_of_dom. destruct Hwf as [<- _]. tauto. }
  destruct (IH (dps ++ [p]) a1) as (a' & E' & Hf' & Hs' & Hc'); try (eauto; done).
  - split; [done|]. rewrite Hs1, Hr1. intros q Hq Hself. apply elem_of_app in Hq as [Hq|Hq].
    + destruct (Hf q Hq Hself) as (r & Hr & Ht). exists r. split; [|done].
      rewrite lookup_insert_ne; [done|]. intros Heq. rewrite Heq in Hnone. congruence.
    + apply list_elem_of_singleton in Hq as ->. rewrite lookup_insert_eq. by eexists.
  - intros q Hq Hc. rewrite Hr1. destruct (decide (P_PgId q = P_PgId p)) as [Heq|Hne].
    + exfalso. apply Hnp. rewrite <- Heq. by apply list_elem_of_fmap_2.
    + rewrite lookup_insert_ne by done. apply Hold; [by right|].
      destruct Hwf1 as [Hd1 _], Hwf as [Hd0 _]. rewrite Hd1, Hr1, dom_insert in Hc. rewrite Hd0.
      apply elem_of_union in Hc as [Hc%elem_of_singleton|Hc]; done.
  - exists a'. split_and!; try done; congruence.
Qed.

(** The raft nodes there are after the groups were started. *)
Lemma start_rafts_rafts fresh old ps : forall (a a' : Alaya S), start_rafts fresh old ps a = Ok a' ->
  forall pg r, PGRaftNode a' !! pg = Some r ->
    PGRaftNode a !! pg = Some r \/ exists p, p ∈ ps /\ P_PgId p = pg /\ r_pipeline r = p.
Proof.
  induction ps as [|p ps IH]; intros a a' E pg r Hr; cbn [start_rafts] in E; [injection E as <-; by left|].
  assert (forall a1 : Alaya S, PGRaftNode a1 !! pg = Some r \/ (exists q, q ∈ ps /\ P_PgId q = pg /\ r_pipeline r = q) ->
    (PGRaftNode a1 !! pg = Some r -> PGRaftNode a !! pg = Some r \/ P_PgId p = pg /\ r_pipeline r = p) ->
    PGRaftNode a !! pg = Some r \/ exists q, q ∈ p :: ps /\ P_PgId q = pg /\ r_pipeline r = q) as Hc.
  { intros a1 [Ha|(q & Hq & Hx)] Ha1; [|right; exists q; split; [by right|done]].
    destruct (Ha1 Ha) as [?|[? ?]]; [by left|right; exists p; split; [by left|done]]. }
  destruct (decide _); [apply (Hc a); [by eapply IH|by left]|].
  destruct (match old with Some _ => _ | None => _ end) as [oldP| | |]; try done. cbn [mbind res_bind] in E.
  destruct (makeAlayaRaftInPipeline fresh a p oldP) as [a1| | |] eqn:Em; try done. cbn [mbind res_bind] in E.
  apply (Hc a1); [by eapply IH|]. unfold makeAlayaRaftInPipeline in Em.
  destruct (NewStorage _ _ _) as [reg [s| | |]]; try done. injection Em as <-. cbn [PGRaftNode].
  intros [[<- <-]|[_ Ha]]%lookup_insert_Some; [by right|by left].
Qed.

(** Storages are only added, and they are fresh ones. *)
Lemma start_rafts_storages (P : S -> Prop) fresh old ps : (forall pg s, fresh pg = Ok s -> P s) -> forall (a a' : Alaya S),
  start_rafts fresh old ps a = Ok a' -> map_Forall (fun _ => P) (MetaStorageRegister a) -> map_Forall (fun _ => P) (MetaStorageRegister a').
Proof.
  intros Hf. induction ps as [|p ps IH]; intros a a' E Ha; cbn [start_rafts] in E; [by injection E as <-|].
  destruct (decide _); [by eapply IH|]. destruct (match old with Some _ => _ | None => _ end) as [oldP| | |]; try done. cbn [mbind res_bind] in E.
  destruct (makeAlayaRaftInPipeline fresh a p oldP) as [a1| | |] eqn:Em; try done. cbn [mbind res_bind] in E.
  apply (IH a1 a' E). unfold makeAlayaRaftInPipeline, NewStorage in Em. destruct (MetaStorageRegister a !! P_PgId p).
  - by injection Em as <-.
  - destruct (fresh (P_PgId p)) as [s0| | |] eqn:Ef; try done. injection Em as <-. cbn [MetaStorageRegister].
    apply map_Forall_insert_2; [by eapply Hf|done].
Qed.

Lemma ApplyNewClusterInfo_storages `{Crush} (P : S -> Prop) fresh e c : (forall pg s, fresh pg = Ok s -> P s) -> forall (a a' : Alaya S),
  ApplyNewClusterInfo fresh e a c = Ok a' -> map_Forall (fun _ => P) (MetaStorageRegister a) -> map_Forall (fun _ => P) (MetaStorageRegister a').
Proof.
  intros Hf a a' E Ha. unfold ApplyNewClusterInfo in E. destruct c as [c|]; [|done]. cbn [or_panic mbind res_bind] in E.
  destruct (decide (NodesInfo c = [])); [by injection E as <-|]. destruct (NewClusterPipelines c) as [cp| | |]; try done; [|by injection E as <-].
  unfold ApplyNewPipelines in E. destruct (update_rafts _ _) as [rafts| | |]; try done. cbn [mbind res_bind] in E.
  destruct (start_rafts _ _ _ _) as [a1| | |] eqn:E1; try done. injection E as <-. cbn [with_state MetaStorageRegister].
  by apply (start_rafts_storages P _ _ _ Hf _ _ E1).
Qed.

End follow.


(** Applying a table of pipelines: what the next claim says, where its raft nodes come
    from, and that the node stays itself. *)
Lemma apply_followed `{CR : Crush, !CrushOk} {S : Type} `{MetaStorage S} fresh (a : Alaya S) c cp old :
  cluster_wf c -> NewClusterPipelines c = Ok cp -> alaya_wf a ->
  (forall pg r, PGRaftNode a !! pg = Some r -> 1 <= pg <= MetaPgNum c /\ ClusterTerm (r_pipeline r) < Term c) ->
  (forall pg, 1 <= pg <= MetaPgNum c -> is_Ok (fresh pg) = true) ->
  (forall o pg, old = Some o -> 1 <= pg <= MetaPgNum c -> is_Ok (pipeline_at (MetaPipelines o) pg) = true) ->
  exists a', ApplyNewPipelines fresh a cp old = Ok a' /\ alaya_wf a' /\ clusterPipelines a' = Some cp /\ a_self a' = a_self a /\
    (forall pg r, PGRaftNode a' !! pg = Some r -> 1 <= pg <= MetaPgNum c /\ ClusterTerm (r_pipeline r) = Term c) /\
    forall p, p ∈ MetaPipelines cp -> a_self a ∈ P_RaftId p ->
      exists r, PGRaftNode a' !! P_PgId p = Some r /\ r_pipeline r = p.
Proof.
  intros Hc Hcp (Hw1 & Hw2 & Hw3) Hold Hfresh Hop.
  destruct (NewClusterPipelines_spec c Hc) as [(_ & _ & cp' & Hcp' & _ & Hm & _)|[_ Herr]]; [|congruence].
  rewrite Hcp in Hcp'. injection Hcp' as <-. destruct Hc as (_ & _ & Hmn & _).
  assert (Hp : forall p, p ∈ MetaPipelines cp -> 1 <= P_PgId p <= MetaPgNum c /\ ClusterTerm p = Term c /\
            pipeline_at (MetaPipelines cp) (P_PgId p) = Ok p).
  { intros p [i Hi]%list_elem_of_lookup.
    by destruct (pipelines_wf_lookup _ _ _ _ _ _ (proj2 Hmn) Hm Hi) as (_ & H1 & H2 & H3). }
  destruct (update_rafts_lookup cp (PGRaftNode a)) as (rafts & Er & Hdom & Hr).
  { intros pg [r Hr]%elem_of_dom. destruct (Hold pg r Hr) as [Hpg _]. destruct Hm as [_ Hm].
    by destruct (Hm pg Hpg) as (p & -> & _). }
  unfold ApplyNewPipelines. rewrite Er. cbn [mbind res_bind]. set (a0 := mkAlaya _ _ rafts _ _ _ _).
  destruct (start_rafts_followed fresh old (MetaPipelines cp) [] a0) as (a' & E' & [Hwf' Hf'] & Hs' & Hc').
  - intros p Hin. by apply Hfresh, Hp.
  - intros o p Ho Hin. apply (Hop o _ Ho). by apply Hp.
  - split; [|intros p Hin; by apply not_elem_of_nil in Hin]. split_and!; simpl; [congruence|by rewrite Hdom|].
    intros pg r Hpg. destruct (Hr pg r Hpg) as (r0 & p & Hr0 & Hat & ->). destruct (Hw3 pg r0 Hr0) as [Hid Hpid].
    destruct (Hold pg r0 Hr0) as [Hrange _]. destruct Hm as [_ Hm]. destruct (Hm pg Hrange) as (p' & Hat' & Hpp & _).
    rewrite Hat in Hat'. injection Hat' as <-. split; [|by apply setPipeline_pg].
    unfold setPipeline. by destruct (decide _).
  - intros p Hin Hch. simpl in Hch. rewrite Hw1, <- Hdom in Hch. apply elem_of_dom in Hch as [r Hrr].
    exists r. split; [done|]. destruct (Hr _ _ Hrr) as (r0 & p' & Hr0 & Hat & ->).
    destruct (Hp p Hin) as (_ & Ht & Hat'). rewrite Hat' in Hat. injection Hat as <-.
    unfold setPipeline. destruct (Hold _ _ Hr0) as [_ Hlt]. by rewrite decide_True by lia.
  - eapply (pipelines_wf_NoDup c (MetaPgNum c)); [lia|exact Hm].
  - exists a'. split_and!; try done; [|intros p Hin Hself; apply Hf'; [done|]; by rewrite Hs'].
    intros pg r Hpg. destruct (start_rafts_rafts fresh old _ _ _ E' pg r Hpg) as [Ha|(p & Hin & <- & ->)]; [|by destruct (Hp p Hin) as (? & ? & _)].
    destruct (Hr pg r Ha) as (r0 & p & Hr0 & Hat & ->). destruct (Hold pg r0 Hr0) as [Hrange Hlt]. split; [done|].
    destruct Hm as [_ Hm]. destruct (Hm pg Hrange) as (p' & Hat' & _ & Ht & _). rewrite Hat in Hat'. injection Hat' as <-.
    unfold setPipeline. by rewrite decide_True by lia.
Qed.

(** a node follows the cluster. When the cluster information of a newer term
    has its pipelines, applying it does not fail, keeps the tables of the service
    together, and leaves a raft node with exactly the new pipeline for every
    placement group this node is a member of; groups it was in before keep their
    raft node, to be removed by the group itself. *)
Theorem cluster_change_followed `{CR : Crush, !CrushOk} {S : Type} `{MetaStorage S} fresh (a : Alaya S) c cp old :
  cluster_wf c -> NewClusterPipelines c = Ok cp -> alaya_wf a ->
  (forall pg r, PGRaftNode a !! pg = Some r -> 1 <= pg <= MetaPgNum c /\ ClusterTerm (r_pipeline r) < Term c) ->
  (forall pg, 1 <= pg <= MetaPgNum c -> is_Ok (fresh pg) = true) ->
  (forall o pg, old = Some o -> 1 <= pg <= MetaPgNum c -> is_Ok (pipeline_at (MetaPipelines o) pg) = true) ->
  exists a', ApplyNewPipelines fresh a cp old = Ok a' /\ alaya_wf a' /\ clusterPipelines a' = Some cp /\
    forall p, p ∈ MetaPipelines cp -> a_self a ∈ P_RaftId p ->
      exists r, PGRaftNode a' !! P_PgId p = Some r /\ r_pipeline r = p.
Proof.
  intros Hc Hcp Hw Hold Hfresh Hop.
  destruct (apply_followed fresh a c cp old Hc Hcp Hw Hold Hfresh Hop) as (a' & E & Hw' & Hc' & _ & _ & Hp). by exists a'.
Qed.

(** A node that is in group 2 of an older term. *)
Definition demo_old_alaya : Alaya MemoryMetaStorage :=
  mkAlaya 3 {[2]} {[2 := NewAlayaRaft 3 (mkPipeline 2 [3; 2] Sync_RAFT 6) None]}
    {[2 := mkMemoryMetaStorage ∅]} RUNNING None None.

Definition fresh_memory (pgID : Z) : res MemoryMetaStorage := Ok (mkMemoryMetaStorage ∅).

Lemma cluster_change_followed_witness :
  exists cp, @NewClusterPipelines first_crush small_cluster = Ok cp /\
    exists a', ApplyNewPipelines fresh_memory demo_old_alaya cp None = Ok a' /\ alaya_wf a' /\
      clusterPipelines a' = Some cp /\ forall p, p ∈ MetaPipelines cp -> 3 ∈ P_RaftId p ->
        exists r, PGRaftNode a' !! P_PgId p = Some r /\ r_pipeline r = p.
Proof.
  eexists. split; [vm_compute; reflexivity|].
  refine (@cluster_change_followed first_crush first_crush_ok MemoryMetaStorage memory_meta fresh_memory demo_old_alaya
    small_cluster _ None small_cluster_wf _ _ _ _ _).
  - vm_compute. reflexivity.
  - unfold demo_old_alaya, alaya_wf. simpl. rewrite !dom_singleton_L. split_and!; try done.
    apply map_Forall_singleton. done.
  - intros pg r Hr. unfold demo_old_alaya in Hr. cbn [PGRaftNode] in Hr. apply lookup_singleton_Some in Hr as [<- <-]. simpl. lia.
  - done.
  - done.
Defined.

(** ** Refusals, and the path that was not finished *)

(** a request of another term changes nothing. A write or a deletion whose
    term tag is missing, unreadable, or not the server's current term fails,
    leaves every storage as it was, and the error is [TermNotExist] or
    [TermNotMatch]; and the tag a client writes is read back as its term. *)
Theorem stale_term_refused `{HR : HashRing} {S : Type} `{MetaStorage S} e (a : Alaya S) tag cancelled opID before meta objID term :
  is_u64 term -> ParseUint tag <> Some (GetCurrentTerm e) ->
  (exists err, RecordObjectMeta e a tag cancelled opID before meta = (a, Err err) /\
     (err = EErrno TermNotExist \/ err = EErrno TermNotMatch)) /\
  (exists err, DeleteMeta e a tag cancelled opID before objID = (a, Err err) /\
     (err = EErrno TermNotExist \/ err = EErrno TermNotMatch)) /\
  GetTermFromContext (SetTermToContext term) = Ok term.
Proof.
  intros Hu Ht. unfold GetTermFromContext at 1, SetTermToContext. rewrite ParseUint_FormatUint by done.
  unfold RecordObjectMeta, DeleteMeta, GetObjectMeta, checkClientTerm, GetTermFromContext.
  destruct (ParseUint tag) as [t|]; cbn [or_err mbind res_bind pure st_bind].
  - rewrite decide_True by congruence. cbn [mbind res_bind pure st_bind]. split_and!; eauto.
  - split_and!; eauto.
Qed.

Lemma stale_term_refused_witness :
  GetTermFromContext (SetTermToContext 8) = Ok 8 /\
  exists err, @RecordObjectMeta length_ring MemoryMetaStorage _ demo_env (demo_alaya ∅) "8" false 1 (Some [])
    (demo_meta POSITION_EDGE) = (demo_alaya ∅, Err err) /\ (err = EErrno TermNotExist \/ err = EErrno TermNotMatch).
Proof.
  split; [reflexivity|].
  refine (proj1 (@stale_term_refused length_ring MemoryMetaStorage _ demo_env (demo_alaya ∅) "8" false 1 (Some [])
    (demo_meta POSITION_EDGE) demo_id 8 _ _)); [unfold is_u64; lia|vm_compute; discriminate].
Defined.

(** overwriting an object that has a copy in the cloud by one that has none
    crashes the node after the write is committed: the code would tell the cloud,
    but nothing ever sets the outpost it would tell it through. *)
Theorem cloud_overwrite_panics `{HR : HashRing} {S : Type} `{MetaStorageLaws S, !MetaStorageTotal S}
    e (a : Alaya S) tag opID l term meta meta' s old r :
  storages_ok a -> a_outpost a = None -> checkClientTerm e tag = Ok term -> checkObject e term meta = Ok meta' ->
  getRaftNode a (PgId meta') = Some r -> MetaStorageRegister a !! PgId meta' = Some s ->
  Pos meta' = POSITION_EDGE -> metas s !! ObjId meta' = Some old -> Pos old <> POSITION_EDGE ->
  exists a' s', RecordObjectMeta e a tag false opID (Some l) meta = (a', Panic) /\
    MetaStorageRegister a' !! PgId meta' = Some s' /\ metas s' !! ObjId meta' = Some meta'.
Proof.
  intros Ha Ho Ht Hc Hr Hs Hp Hold Hpo. unfold RecordObjectMeta. rewrite Ht. cbn [pure st_bind]. rewrite Hc.
  unfold needs_sync, Meta_GetStorage. cbn [pure st_bind]. rewrite decide_True by done. rewrite Hs.
  cbn [or_err mbind res_bind]. rewrite GetMeta_law by by eapply Ha. rewrite Hold. cbn [or_err].
  rewrite bool_decide_true by done. cbn [st_bind]. rewrite Hr. unfold propose. rewrite Hs. cbn [st_bind].
  eexists _, _. split.
  { unfold pure, sync_to_cloud. simpl. by rewrite Ho. }
  simpl. rewrite lookup_insert_eq. split; [done|].
  destruct (apply_ops_view (l ++ [mkMetaOperate opID MetaOperate_PUT meta']) s (Ha _ s Hs)) as [_ ->].
  unfold log_view. rewrite foldl_app. simpl. unfold op_view. cbn [Operate Meta]. by rewrite lookup_insert_eq.
Qed.

Lemma cloud_overwrite_panics_witness :
  exists a' s', @RecordObjectMeta length_ring MemoryMetaStorage _ demo_env
    (demo_alaya {[demo_id := demo_meta POSITION_CLOUD]}) "7" false 1 (Some []) (demo_meta POSITION_EDGE) = (a', Panic) /\
    MetaStorageRegister a' !! demo_pg = Some s' /\ metas s' !! demo_id = Some (demo_meta POSITION_EDGE).
Proof.
  refine (@cloud_overwrite_panics length_ring MemoryMetaStorage _ _ _ demo_env
    (demo_alaya {[demo_id := demo_meta POSITION_CLOUD]}) "7" 1 [] 7 (demo_meta POSITION_EDGE) (demo_meta POSITION_EDGE)
    (mkMemoryMetaStorage {[demo_id := demo_meta POSITION_CLOUD]}) (demo_meta POSITION_CLOUD)
    (NewAlayaRaft 3 (mkPipeline demo_pg [3; 1] Sync_RAFT 7) None) (demo_storages_ok _) _ _ _ _ _ _ _ _);
    [vm_compute; reflexivity..|vm_compute; discriminate].
Defined.
