(* ===== verification/Monitor.v ===== *)
(** * Watching the nodes: [src/edge-node/watcher/monitor.go], [status_reporter.go]

    The leader's monitor asks every node for its report once a second; a node that
    does not answer is offline. An event tells the watcher that the cluster has to
    be described anew. Reports hold what each component of a node says about
    itself. Operations return the events they send, in order; the channel they go
    through has room for five, and a sender waits when it is full. The loops,
    the channel and the figures of a machine are in [MonitorLoop.v]; Prometheus is left
    out. *)

From S2P Require Import Prelude GoStd Errno Infos InfoStorage Object Pipeline MetaStorage Alaya.

(** ** Reports *)

Record NodeStatusReport := mkNodeStatusReport {
  nr_NodeId : Z;
  nr_NodeUuid : string;
  nr_State : NodeState;
  nr_Pipelines : list PipelineReport
}.

Inductive ReportType := ReportTypeADD | ReportTypeUPDATE | ReportTypeDELETE.

Record Report := mkReport {
  rp_ReportType : ReportType;
  rp_NodeReport : option NodeStatusReport;
  rp_PipelineReport : option PipelineReport
}.

(** The reports of the metadata service, and of the status reporter. *)
Definition report_of_alaya (r : AlayaReport) : Report :=
  match r with
  | ReportADD p => mkReport ReportTypeADD None (Some p)
  | ReportDELETE pg => mkReport ReportTypeDELETE None (Some (mkPipelineReport pg [] 0 PR_UNKNOWN))
  end.

Definition StatusReporter_GetReports (self : NodeInfo) : list Report :=
  [mkReport ReportTypeUPDATE (Some (mkNodeStatusReport (RaftId self) (Uuid self) NS_ONLINE [])) None].

Inductive ClusterState := CR_UNKNOWN | HEALTH_OK | HEALTH_WARN | HEALTH_ERR.

Record ClusterReport := mkClusterReport {
  cr_State : ClusterState;
  cr_ClusterInfo : ClusterInfo;
  cr_Nodes : list NodeStatusReport;
  cr_Pipelines : list PipelineReport
}.

(** ** State *)

(** A timer of [reportTimers] is running or has fired. *)
Record NodeMonitor := mkNodeMonitor {
  nodeStatusMap : gmap Z NodeStatusReport;
  clusterPipeline : gmap Z PipelineReport;
  reportTimers : gmap Z bool;
  selfNodeStatus : option NodeStatusReport;
  selfPipeline : gmap Z PipelineReport;
  reporters : gset string
}.

Definition NewMonitor : NodeMonitor := mkNodeMonitor ∅ ∅ ∅ None ∅ ∅.

Definition Monitor_Register (m : NodeMonitor) (name : string) : NodeMonitor * res unit :=
  if decide (name ∈ reporters m) then (m, Err (ENew "reporter already registered"))
  else (mkNodeMonitor (nodeStatusMap m) (clusterPipeline m) (reportTimers m) (selfNodeStatus m) (selfPipeline m)
          ({[name]} ∪ reporters m), Ok tt).

Definition with_nr_state (r : NodeStatusReport) (s : NodeState) : NodeStatusReport :=
  mkNodeStatusReport (nr_NodeId r) (nr_NodeUuid r) s (nr_Pipelines r).

Definition set_status (m : NodeMonitor) (id : Z) (r : NodeStatusReport) : NodeMonitor :=
  mkNodeMonitor (<[id := r]> (nodeStatusMap m)) (clusterPipeline m) (reportTimers m) (selfNodeStatus m) (selfPipeline m) (reporters m).

Definition store_report (m : NodeMonitor) (r : NodeStatusReport) : NodeMonitor :=
  mkNodeMonitor (<[nr_NodeId r := r]> (nodeStatusMap m))
    (foldl (fun cp p => <[pr_pg p := p]> cp) (clusterPipeline m) (nr_Pipelines r))
    (reportTimers m) (selfNodeStatus m) (selfPipeline m) (reporters m).

(** ** Pulling reports: [collectNodes] *)

(** The goroutine for one node; [None] is no answer within ten seconds. *)
Definition collect_node (m : NodeMonitor) (nodeInfo : NodeInfo) (answer : option NodeStatusReport)
    : NodeMonitor * list NodeStatusReport :=
  match answer with
  | None =>
      match nodeStatusMap m !! RaftId nodeInfo with
      | None => (m, [])
      | Some r =>
          if decide (nr_State r = NS_OFFLINE) then (m, [])
          else let r := with_nr_state r NS_OFFLINE in (set_status m (RaftId nodeInfo) r, [r])
      end
  | Some report =>
      (store_report m report, match nodeStatusMap m !! nr_NodeId report with None => [report] | Some _ => [] end)
  end.

(** One round, the goroutines in the order of the list. *)
Fixpoint collectNodes (m : NodeMonitor) (answers : list (NodeInfo * option NodeStatusReport))
    : NodeMonitor * list NodeStatusReport :=
  match answers with
  | [] => (m, [])
  | (n, a) :: rest =>
      let '(m, evs) := collect_node m n a in
      let '(m, evs') := collectNodes m rest in
      (m, evs ++ evs')
  end.

(** When the timer ticks; only the leader asks. *)
Definition collect_round (m : NodeMonitor) (isLeader : bool) (answers : list (NodeInfo * option NodeStatusReport))
    : NodeMonitor * list NodeStatusReport :=
  if isLeader then collectNodes m answers else (m, []).

(** ** Pushing reports: [Report] *)

Definition set_timer (m : NodeMonitor) (id : Z) (running : bool) : NodeMonitor :=
  mkNodeMonitor (nodeStatusMap m) (clusterPipeline m) (<[id := running]> (reportTimers m)) (selfNodeStatus m) (selfPipeline m) (reporters m).

(** A timer of [AfterFunc] has no channel: draining one that fired blocks. *)
Definition Report_ (m : NodeMonitor) (isLeader : bool) (report : NodeStatusReport)
    : NodeMonitor * res (list NodeStatusReport) :=
  if isLeader then
    match reportTimers m !! nr_NodeId report with
    | Some false => (m, Stuck)
    | _ =>
        let m := set_timer m (nr_NodeId report) true in
        (store_report m report, Ok (match nodeStatusMap m !! nr_NodeId report with None => [report] | Some _ => [] end))
    end
  else (m, Err (ENew "not leader")).

(** The timer of a node fires. *)
Definition report_timeout (m : NodeMonitor) (stopped : bool) (id : Z) : NodeMonitor * res (list NodeStatusReport) :=
  let m := set_timer m id false in
  if stopped then (m, Ok [])
  else match nodeStatusMap m !! id with
       | None => (m, Panic)
       | Some r => let r := with_nr_state r NS_OFFLINE in (set_status m id r, Ok [r])
       end.

(** ** Reading *)

Definition report_le (a b : NodeStatusReport) : Prop := nr_NodeId a <= nr_NodeId b.

#[global] Instance report_le_dec a b : Decision (report_le a b).
Proof. unfold report_le. apply _. Defined.

Definition GetAllNodeReports (m : NodeMonitor) : list NodeStatusReport :=
  merge_sort report_le (map_to_list (nodeStatusMap m)).*2.

Definition GetNodeReport (m : NodeMonitor) (id : Z) : option NodeStatusReport := nodeStatusMap m !! id.

Definition GetClusterReport (m : NodeMonitor) (c : ClusterInfo) : ClusterReport :=
  let pipelines := (map_to_list (clusterPipeline m)).*2 in
  mkClusterReport (if forallb (fun p => bool_decide (pr_state p = PR_OK)) pipelines then HEALTH_OK else HEALTH_ERR)
    c (GetAllNodeReports m) pipelines.

(** ** The node's own report *)

Definition take_report (m : NodeMonitor) (r : Report) : NodeMonitor :=
  mkNodeMonitor (nodeStatusMap m) (clusterPipeline m) (reportTimers m)
    (match rp_NodeReport r with Some n => Some n | None => selfNodeStatus m end)
    (match rp_PipelineReport r with Some p => <[pr_pg p := p]> (selfPipeline m) | None => selfPipeline m end)
    (reporters m).

(** What one changed reporter says; the table of pipelines starts anew, and the
    type of a report is not looked at. *)
Definition take_reports (m : NodeMonitor) (reports : list Report) : NodeMonitor :=
  foldl take_report
    (mkNodeMonitor (nodeStatusMap m) (clusterPipeline m) (reportTimers m) (selfNodeStatus m) ∅ (reporters m)) reports.

Definition getAllPipelineReports (m : NodeMonitor) : list PipelineReport := (map_to_list (selfPipeline m)).*2.

(** The reporters in the order the map is walked in, each with whether it changed. *)
Definition collectReports (m : NodeMonitor) (said : list (bool * list Report)) : NodeMonitor * res unit :=
  let m := foldl (fun m br => if br.1 : bool then take_reports m br.2 else m) m said in
  match selfNodeStatus m with
  | None => (m, Panic)
  | Some r =>
      (mkNodeMonitor (nodeStatusMap m) (clusterPipeline m) (reportTimers m)
         (Some (mkNodeStatusReport (nr_NodeId r) (nr_NodeUuid r) (nr_State r) (getAllPipelineReports m)))
         (selfPipeline m) (reporters m), Ok tt)
  end.

Definition Monitor_Get (m : NodeMonitor) (said : list (bool * list Report)) : NodeMonitor * res NodeStatusReport :=
  match selfNodeStatus m with
  | Some r => (m, Ok r)
  | None => do m, _ <- collectReports m said; (m, or_panic (selfNodeStatus m))
  end.

(** ** Facts *)

Lemma GetAllNodeReports_sorted m :
  StronglySorted report_le (GetAllNodeReports m) /\ GetAllNodeReports m ≡ₚ (map_to_list (nodeStatusMap m)).*2.
Proof.
  split; [|apply merge_sort_Permutation]. apply StronglySorted_merge_sort.
  - intros x y z. unfold report_le. lia.
  - intros x y. unfold report_le. lia.
Qed.

(** A round changes only the nodes that were asked, and sends an event exactly for
    a node that is heard of for the first time or goes silent. *)
Lemma collect_node_events m n a m' evs : collect_node m n a = (m', evs) ->
  match a with
  | Some r => evs = [] <-> is_Some (nodeStatusMap m !! nr_NodeId r)
  | None => evs = [] <-> forall r, nodeStatusMap m !! RaftId n = Some r -> nr_State r = NS_OFFLINE
  end.
Proof.
  unfold collect_node. destruct a as [r|].
  - intros [= <- <-]. destruct (nodeStatusMap m !! nr_NodeId r); by split.
  - destruct (nodeStatusMap m !! RaftId n) as [r|] eqn:E.
    + destruct (decide _) as [Hs|Hs]; intros [= <- <-]; split; try done; [by intros _ r0 [= <-]|].
      intros Hr. by specialize (Hr r eq_refl).
    + intros [= <- <-]. by split.
Qed.

(** Pipeline reports only fill the table. *)
Definition pipeline_reports (ps : list PipelineReport) : list Report := report_of_alaya ∘ ReportADD <$> ps.

Lemma take_pipelines ps : forall m, foldl take_report m (pipeline_reports ps) =
  mkNodeMonitor (nodeStatusMap m) (clusterPipeline m) (reportTimers m) (selfNodeStatus m)
    (foldl (fun cp p => <[pr_pg p := p]> cp) (selfPipeline m) ps) (reporters m).
Proof. induction ps as [|p ps IH]; intros m; [by destruct m|]. unfold pipeline_reports in *. cbn. by rewrite IH. Qed.

Lemma table_values ps : forall acc : gmap Z PipelineReport, NoDup (pr_pg <$> ps) -> (forall p, p ∈ ps -> acc !! pr_pg p = None) ->
  (map_to_list (foldl (fun cp p => <[pr_pg p := p]> cp) acc ps)).*2 ≡ₚ ps ++ (map_to_list acc).*2.
Proof.
  induction ps as [|p ps IH]; intros acc Hnd Hacc; [done|]. simpl in *. apply NoDup_cons in Hnd as [Hp Hnd]. rewrite IH.
  - rewrite map_to_list_insert by (apply Hacc; by left). simpl. by rewrite Permutation_middle.
  - done.
  - intros q Hq. rewrite lookup_insert_ne; [apply Hacc; by right|]. intros Heq. apply Hp. rewrite Heq.
    by apply list_elem_of_fmap_2.
Qed.

(** ** Properties *)

(** a node that comes back is not noticed. After a node has been silent for a
    round, its next answer makes it online for the monitor but sends no event, so
    the watcher does not describe the cluster anew: the node stays offline in the
    cluster information. *)
Theorem return_sends_no_event (m : NodeMonitor) (n : NodeInfo) (r answer : NodeStatusReport) :
  nodeStatusMap m !! RaftId n = Some r -> nr_State r = NS_ONLINE ->
  nr_NodeId answer = RaftId n -> nr_State answer = NS_ONLINE ->
  let lost := (collect_node m n None).1 in
  let back := (collect_node lost n (Some answer)).1 in
  (exists off, (collect_node m n None).2 = [off] /\ GetNodeReport lost (RaftId n) = Some off /\ nr_State off = NS_OFFLINE) /\
  (collect_node lost n (Some answer)).2 = [] /\ GetNodeReport back (RaftId n) = Some answer.
Proof.
  intros Hr Hs Hid Ha. unfold collect_node at 1 2 3. rewrite Hr. rewrite decide_False by congruence.
  cbn [fst snd]. unfold GetNodeReport. split_and!.
  - eexists. split; [done|]. cbn [set_status nodeStatusMap]. by rewrite lookup_insert_eq.
  - unfold collect_node. cbn [fst snd set_status nodeStatusMap]. by rewrite Hid, lookup_insert_eq.
  - unfold collect_node. cbn [fst snd store_report set_status nodeStatusMap]. by rewrite Hid, lookup_insert_eq.
Qed.

Definition demo_monitor : NodeMonitor :=
  mkNodeMonitor {[3 := mkNodeStatusReport 3 "u" NS_ONLINE []]} ∅ ∅ None ∅ ∅.

Lemma return_sends_no_event_witness :
  let n := mkNodeInfo 3 "u" "10.0.0.1" 3267 10 NS_ONLINE in
  (collect_node (collect_node demo_monitor n None).1 n (Some (mkNodeStatusReport 3 "u" NS_ONLINE []))).2 = [].
Proof.
  exact (proj1 (proj2 (@return_sends_no_event demo_monitor (mkNodeInfo 3 "u" "10.0.0.1" 3267 10 NS_ONLINE)
    (mkNodeStatusReport 3 "u" NS_ONLINE []) (mkNodeStatusReport 3 "u" NS_ONLINE []) eq_refl eq_refl eq_refl eq_refl))).
Defined.

(** whether a node reports its pipelines depends on the order its reporters are
    walked in. With the metadata service last the report holds a pipeline for
    every group; with the status reporter last it holds none. *)
Theorem reporter_order_matters (m : NodeMonitor) (self : NodeInfo) (ps : list PipelineReport) :
  NoDup (pr_pg <$> ps) ->
  let alaya := (true, pipeline_reports ps) in
  let status := (true, StatusReporter_GetReports self) in
  (exists m' r, collectReports m [status; alaya] = (m', Ok tt) /\ selfNodeStatus m' = Some r /\ nr_Pipelines r ≡ₚ ps) /\
  (exists m' r, collectReports m [alaya; status] = (m', Ok tt) /\ selfNodeStatus m' = Some r /\ nr_Pipelines r = []).
Proof.
  intros Hnd alaya status. unfold collectReports, alaya, status. cbn [foldl fst snd]. unfold take_reports. rewrite !take_pipelines.
  cbn [StatusReporter_GetReports foldl take_report selfNodeStatus selfPipeline rp_NodeReport rp_PipelineReport
       nodeStatusMap clusterPipeline reportTimers reporters]. split.
  - eexists _, _. split; [done|]. split; [done|]. cbn [nr_Pipelines]. unfold getAllPipelineReports. cbn [selfPipeline].
    rewrite table_values by (done || intros; apply lookup_empty). by rewrite map_to_list_empty, app_nil_r.
  - eexists _, _. split; [done|]. split; [done|]. unfold getAllPipelineReports. cbn [nr_Pipelines selfPipeline].
    reflexivity.
Qed.

Lemma reporter_order_matters_witness :
  exists m' r, collectReports NewMonitor [(true, pipeline_reports [mkPipelineReport 4 [1; 2] 1 PR_OK]);
      (true, StatusReporter_GetReports (mkNodeInfo 3 "u" "10.0.0.1" 3267 10 NS_ONLINE))] = (m', Ok tt) /\
    selfNodeStatus m' = Some r /\ nr_Pipelines r = [].
Proof.
  exact (proj2 (@reporter_order_matters NewMonitor (mkNodeInfo 3 "u" "10.0.0.1" 3267 10 NS_ONLINE)
    [mkPipelineReport 4 [1; 2] 1 PR_OK] (NoDup_singleton 4))).
Defined.
