(* ===== verification/MonitorLoop.v ===== *)
(** * The loops of the monitor: [src/edge-node/watcher/monitor.go], [status_reporter.go]

    [Run] starts three goroutines, which collect reports from the nodes, renew the
    node's own report, and push metrics. All three wait for the one ticker; a tick goes
    to one of them. The events they send go through a channel with room for five. The
    figures the status reporter adds are here, too: the libraries that measure the
    machine are an argument. *)

From S2P Require Import Prelude GoStd Errno Infos InfoStorage Object Pipeline MetaStorage Alaya Monitor.

(** ** Ticks *)

(** Who takes a tick, with what it meets: whether the node leads and what the nodes
    answer; what the reporters say; nothing for metrics. *)
Inductive Tick :=
  | T_Collect (isLeader : bool) (answers : list (NodeInfo * option NodeStatusReport))
  | T_Report (said : list (bool * list Report))
  | T_Push.

(** One turn of [runReport]; asking for the leader has no consequence. *)
Definition runReport (m : NodeMonitor) (said : list (bool * list Report)) : NodeMonitor * res unit := collectReports m said.

Definition monitor_tick (m : NodeMonitor) (t : Tick) : NodeMonitor * list NodeStatusReport * res unit :=
  match t with
  | T_Collect isLeader answers => (collect_round m isLeader answers, Ok tt)
  | T_Report said => let '(m, r) := runReport m said in (m, [], r)
  | T_Push => (m, [], Ok tt)
  end.

(** [Run] until the monitor is stopped; the events, in order. *)
Fixpoint Monitor_Run (m : NodeMonitor) (ticks : list Tick) : NodeMonitor * list NodeStatusReport * res unit :=
  match ticks with
  | [] => (m, [], Ok tt)
  | t :: ticks' =>
      match monitor_tick m t with
      | (m, evs, Ok _) => let '(m, evs', r) := Monitor_Run m ticks' in (m, evs ++ evs', r)
      | (m, evs, r) => (m, evs, r)
      end
  end.

(** ** The channel of events

    A sender waits when there are five; the watcher takes the oldest. *)

Record EventChannel := mkEventChannel { ec_buffer : list NodeStatusReport; ec_waiting : list NodeStatusReport }.

Definition event_cap : nat := 5.

Definition event_send (ch : EventChannel) (ev : NodeStatusReport) : EventChannel :=
  if decide (length (ec_buffer ch) < event_cap)%nat then mkEventChannel (ec_buffer ch ++ [ev]) (ec_waiting ch)
  else mkEventChannel (ec_buffer ch) (ec_waiting ch ++ [ev]).

Definition event_receive (ch : EventChannel) : EventChannel * option NodeStatusReport :=
  match ec_buffer ch with
  | [] => (ch, None)
  | ev :: buf =>
      (match ec_waiting ch with
       | [] => mkEventChannel buf []
       | w :: ws => mkEventChannel (buf ++ [w]) ws
       end, Some ev)
  end.

Definition channel_ok (ch : EventChannel) : Prop :=
  (length (ec_buffer ch) <= event_cap)%nat /\ (ec_waiting ch <> [] -> length (ec_buffer ch) = event_cap).

(** Nothing is lost, and what is sent first arrives first. *)
Lemma event_send_ok ch ev : channel_ok ch -> channel_ok (event_send ch ev) /\
  ec_buffer (event_send ch ev) ++ ec_waiting (event_send ch ev) = ec_buffer ch ++ ec_waiting ch ++ [ev].
Proof.
  intros [Hl Hw]. unfold event_send, channel_ok. destruct (decide _) as [Hlt|Hge]; cbn [ec_buffer ec_waiting].
  - destruct (ec_waiting ch) as [|w ws]; [|specialize (Hw ltac:(done)); lia]. rewrite length_app. simpl.
    split; [split; [lia|done]|]. by rewrite app_nil_r.
  - split; [|done]. split; [done|]. intros _. lia.
Qed.

Lemma event_receive_ok ch ch' ev : channel_ok ch -> event_receive ch = (ch', Some ev) ->
  channel_ok ch' /\ ec_buffer ch ++ ec_waiting ch = ev :: ec_buffer ch' ++ ec_waiting ch'.
Proof.
  intros [Hl Hw]. unfold event_receive, channel_ok. destruct (ec_buffer ch) as [|x buf]; [done|].
  destruct (ec_waiting ch) as [|w ws]; intros [= <- <-]; cbn [ec_buffer ec_waiting].
  - split; [split; [simpl in Hl; lia|done]|done].
  - specialize (Hw ltac:(done)). rewrite length_app. simpl in *. split; [split; [lia|intros _; lia]|]. by rewrite <- app_assoc.
Qed.

(** ** The figures of the machine *)

Section status.
Context {F : Type} (per_second : Z -> Z -> F) (to_u64 : F -> Z).

(** What the libraries measure; a failure leaves nil, or an empty list. *)
Record Host := mkHost {
  h_disk : option (Z * Z);                   (* total, free *)
  h_mem : option (Z * Z);                    (* total, used *)
  h_net : list (Z * Z);                      (* bytes sent, received *)
  h_cpu : list F;
  h_goroutines : Z
}.

Record NodeStatus := mkNodeStatus {
  ns_DiskTotal : Z; ns_DiskAvailable : Z; ns_MemoryTotal : Z; ns_MemoryUsage : Z;
  ns_NetworkSpeedSend : Z; ns_NetworkSpeedRecv : Z; ns_CpuPercent : F; ns_GoroutineCount : Z;
  ns_MetaPipelineCount : Z; ns_MetaCount : Z; ns_BlockCount : Z
}.

Record StatusReporter := mkStatusReporter { lastReportTime : Z; lastNetBytesSent : Z; lastNetBytesRecv : Z }.

Definition NewStatusReporter : StatusReporter := mkStatusReporter 0 0 0.

Definition StatusReporter_IsChanged (s : StatusReporter) : bool := true.

(** [counters]: pipelines, metas, blocks. The errors are dropped, and what they come
    with is used. *)
Definition node_status (s : StatusReporter) (now : Z) (h : Host) (counters : Z * Z * Z) : StatusReporter * res NodeStatus :=
  do s, d <- pure s (or_panic (h_disk h));
  do s, m <- pure s (or_panic (h_mem h));
  do s, n <- pure s (or_panic (head (h_net h)));
  let sent := per_second (u64 (n.1 - lastNetBytesSent s)) (now - lastReportTime s) in
  let recv := per_second (u64 (n.2 - lastNetBytesRecv s)) (now - lastReportTime s) in
  let s := mkStatusReporter now n.1 n.2 in
  do s, cpu <- pure s (or_panic (head (h_cpu h)));
  let '(pipelines, metas, blocks) := counters in
  (s, Ok (mkNodeStatus d.1 d.2 m.1 m.2 (to_u64 sent) (to_u64 recv) cpu (h_goroutines h) (u64 pipelines) (u64 metas) (u64 blocks))).

End status.

(** ** What the shared ticker does

    Asked or not, a silent node is noticed once. *)

Definition silent_round (n : NodeInfo) (t : Tick) : bool :=
  match t with T_Collect true answers => existsb (fun a => bool_decide (a.1 = n)) answers | _ => false end.

(** The node never answers and no other node is asked. *)
Definition only_silent (n : NodeInfo) (t : Tick) : Prop :=
  match t with
  | T_Collect _ answers => Forall (fun a => a = (n, None)) answers
  | T_Report said => False
  | T_Push => True
  end.

Lemma collectNodes_offline n r answers : forall m, nodeStatusMap m !! RaftId n = Some r -> nr_State r = NS_OFFLINE ->
  Forall (fun a => a = (n, None)) answers -> collectNodes m answers = (m, []).
Proof.
  intros m Hr Hs Ha. induction Ha as [|a answers -> _ IH]; [done|]. cbn [collectNodes]. unfold collect_node. rewrite Hr, decide_True by done.
  by rewrite IH.
Qed.

Lemma run_offline n r ticks : forall m, nodeStatusMap m !! RaftId n = Some r -> nr_State r = NS_OFFLINE ->
  Forall (only_silent n) ticks -> Monitor_Run m ticks = (m, [], Ok tt).
Proof.
  intros m Hr Hs Ht. induction Ht as [|t ticks Ht _ IH]; [done|]. destruct t as [[] answers|said|]; cbn [Monitor_Run monitor_tick collect_round only_silent] in *.
  - rewrite (collectNodes_offline n r answers m) by done. by rewrite IH.
  - by rewrite IH.
  - done.
  - by rewrite IH.
Qed.

(** a node that goes silent is noticed exactly once, by the first tick that the
    collecting goroutine of the leader gets; the ticks that others take pass it by, and
    if they take all of them the node stays online for ever. *)
Theorem silent_noticed_once (m : NodeMonitor) n r ticks :
  nodeStatusMap m !! RaftId n = Some r -> nr_State r = NS_ONLINE -> Forall (only_silent n) ticks ->
  let seen := existsb (silent_round n) ticks in
  exists m', Monitor_Run m ticks = (m', if seen then [with_nr_state r NS_OFFLINE] else [], Ok tt) /\
    nodeStatusMap m' !! RaftId n = Some (if seen then with_nr_state r NS_OFFLINE else r).
Proof.
  intros Hr Hs. revert m Hr. induction ticks as [|t ticks IH]; intros m Hr Ht; [by exists m|].
  inv Ht. destruct t as [[] [|a answers]|said|]; cbn [Monitor_Run monitor_tick collect_round collectNodes existsb silent_round only_silent orb] in *.
  - destruct (IH m Hr) as (m' & -> & Hm); [done|]. by exists m'.
  - apply Forall_cons in H1 as [-> Ha]. cbn [fst]. rewrite bool_decide_true by done. cbn [orb].
    unfold collect_node. rewrite Hr, decide_False by congruence.
    assert (Hoff : nodeStatusMap (set_status m (RaftId n) (with_nr_state r NS_OFFLINE)) !! RaftId n = Some (with_nr_state r NS_OFFLINE))
      by (cbn; by rewrite lookup_insert_eq).
    rewrite (collectNodes_offline n _ _ _ Hoff) by done. rewrite (run_offline n _ _ _ Hoff) by done. by eexists.
  - destruct (IH m Hr) as (m' & -> & Hm); [done|]. by exists m'.
  - destruct (IH m Hr) as (m' & -> & Hm); [done|]. by exists m'.
  - done.
  - destruct (IH m Hr) as (m' & -> & Hm); [done|]. by exists m'.
Qed.

Lemma silent_noticed_once_witness :
  let n := mkNodeInfo 3 "u" "10.0.0.1" 3267 10 NS_ONLINE in
  exists m', Monitor_Run demo_monitor [T_Push; T_Collect false []; T_Push; T_Collect true [(n, None)]; T_Collect true [(n, None)]] =
    (m', [mkNodeStatusReport 3 "u" NS_OFFLINE []], Ok tt).
Proof.
  destruct (silent_noticed_once demo_monitor (mkNodeInfo 3 "u" "10.0.0.1" 3267 10 NS_ONLINE) (mkNodeStatusReport 3 "u" NS_ONLINE [])
    [T_Push; T_Collect false []; T_Push; T_Collect true [(mkNodeInfo 3 "u" "10.0.0.1" 3267 10 NS_ONLINE, None)];
     T_Collect true [(mkNodeInfo 3 "u" "10.0.0.1" 3267 10 NS_ONLINE, None)]] eq_refl eq_refl) as (m' & E & _).
  - by repeat constructor.
  - exists m'. exact E.
Defined.
