(* ===== verification/Sun.v ===== *)
(** * The registration service: [src/cloud/sun/sun.go]

    Edge nodes register in the cloud: each gets a raft number, once per UUID, and
    the cluster's leader. The first node to register is the leader; the record of
    the leader is the same object as the record of that node, so it shows the
    number the node gets a few lines later. *)

From S2P Require Import Prelude GoStd Errno Infos.

Record Sun := mkSun {
  leaderInfo : option NodeInfo;
  clusterInfo : option ClusterInfo;     (* nil after a report of nil *)
  lastRaftID : Z;
  cachedInfo : gmap string NodeInfo
}.

Record RegisterResult := mkRegisterResult {
  rr_RaftId : Z;
  rr_HasLeader : bool;
  rr_ClusterInfo : option ClusterInfo
}.

Definition empty_cluster : ClusterInfo := mkClusterInfo 0 None [] None 0 0 0 0 0.

Definition NewSun : Sun := mkSun None (Some empty_cluster) 0 ∅.

Definition with_raft_id (n : NodeInfo) (id : Z) : NodeInfo :=
  mkNodeInfo id (Uuid n) (IpAddr n) (RpcPort n) (Capacity n) (State n).

Definition with_leader (c : ClusterInfo) (l : option NodeInfo) : ClusterInfo :=
  mkClusterInfo (Term c) l (NodesInfo c) (UpdateTimestamp c) (MetaPgNum c) (MetaPgSize c) (BlockPgNum c) (BlockPgSize c) (LastTerm c).

(** The log line at the end dereferences the leader of the cluster. *)
Definition MoonRegister (s : Sun) (nodeInfo : NodeInfo) : Sun * res RegisterResult :=
  let hasLeader := bool_decide (is_Some (leaderInfo s)) in
  let raftID := u64 (lastRaftID s + 1) in
  let cached := cachedInfo s !! Uuid nodeInfo in
  let registered := match cached with Some _ => nodeInfo | None => with_raft_id nodeInfo raftID end in
  match (match leaderInfo s with
         | Some _ => Ok (leaderInfo s, clusterInfo s)
         | None => c ← or_panic (clusterInfo s); Ok (Some registered, Some (with_leader c (Some registered)))
         end) with
  | Ok (leader, cluster) =>
      match cached with
      | Some info => (mkSun leader cluster (lastRaftID s) (cachedInfo s), Ok (mkRegisterResult (RaftId info) hasLeader cluster))
      | None =>
          (mkSun leader cluster raftID (<[Uuid nodeInfo := registered]> (cachedInfo s)),
           c ← or_panic cluster; _ ← or_panic (LeaderInfo c); Ok (mkRegisterResult raftID hasLeader cluster))
      end
  | Err e => (s, Err e)
  | Panic => (s, Panic)
  | Stuck => (s, Stuck)
  end.

Definition GetLeaderInfo (s : Sun) : res (option NodeInfo) := c ← or_panic (clusterInfo s); Ok (LeaderInfo c).

Definition ReportClusterInfo (s : Sun) (c : option ClusterInfo) : Sun :=
  mkSun (leaderInfo s) c (lastRaftID s) (cachedInfo s).

(** A sequence of registrations. *)
Fixpoint register_all (s : Sun) (nodes : list NodeInfo) : Sun * res (list RegisterResult) :=
  match nodes with
  | [] => (s, Ok [])
  | n :: nodes' =>
      do s, r <- MoonRegister s n;
      do s, rs <- register_all s nodes';
      (s, Ok (r :: rs))
  end.

(** ** Facts *)

(** Numbers are given out from 1 on, one per UUID; there is a leader as soon as
    there is a node, and the cluster shows it. *)
Definition sun_ok (s : Sun) : Prop :=
  0 <= lastRaftID s /\
  map_Forall (fun uuid n => Uuid n = uuid /\ 1 <= RaftId n <= lastRaftID s) (cachedInfo s) /\
  (forall u v n m, cachedInfo s !! u = Some n -> cachedInfo s !! v = Some m -> RaftId n = RaftId m -> u = v) /\
  match leaderInfo s with
  | None => cachedInfo s = ∅ /\ clusterInfo s = Some empty_cluster
  | Some l => cachedInfo s !! Uuid l = Some l /\ clusterInfo s = Some (with_leader empty_cluster (Some l))
  end.

Lemma NewSun_ok : sun_ok NewSun.
Proof. split_and!; simpl; try done. Qed.

(** One registration in a good state. *)
Lemma MoonRegister_ok s n : sun_ok s -> lastRaftID s < 2 ^ 63 ->
  exists s' r, MoonRegister s n = (s', Ok r) /\ sun_ok s' /\ cachedInfo s ⊆ cachedInfo s' /\
    lastRaftID s <= lastRaftID s' <= lastRaftID s + 1 /\
    (exists m, cachedInfo s' !! Uuid n = Some m /\ RaftId m = rr_RaftId r) /\
    rr_HasLeader r = bool_decide (is_Some (leaderInfo s)) /\
    (exists l, leaderInfo s' = Some l /\ rr_ClusterInfo r = Some (with_leader empty_cluster (Some l)) /\
      (forall l0, leaderInfo s = Some l0 -> l = l0)).
Proof.
  intros (H0 & Hf & Hinj & Hl) Hb. unfold MoonRegister. rewrite (u64_id (lastRaftID s + 1)) by (unfold is_u64; lia).
  set (id := lastRaftID s + 1). set (reg := with_raft_id n id).
  assert (Hnew : cachedInfo s !! Uuid n = None ->
    map_Forall (fun uuid m => Uuid m = uuid /\ 1 <= RaftId m <= id) (<[Uuid n := reg]> (cachedInfo s)) /\
    (forall u v m m', <[Uuid n := reg]> (cachedInfo s) !! u = Some m -> <[Uuid n := reg]> (cachedInfo s) !! v = Some m' ->
       RaftId m = RaftId m' -> u = v)).
  { intros Hnone. split.
    - apply map_Forall_insert_2; [split; [done|simpl; lia]|]. eapply map_Forall_impl; [exact Hf|]. simpl. unfold id. intros i x [? ?]. split; [done|lia].
    - assert (Hne : forall u m, u <> Uuid n -> <[Uuid n := reg]> (cachedInfo s) !! u = Some m -> RaftId m < id).
      { intros u m Hu Hm. rewrite lookup_insert_ne in Hm by done. destruct (Hf u m Hm). unfold id. lia. }
      intros u v m m' Hu Hv Heq. destruct (decide (u = Uuid n)) as [->|Hun], (decide (v = Uuid n)) as [->|Hvn]; try done.
      + rewrite lookup_insert_eq in Hu. injection Hu as <-. specialize (Hne v m' Hvn Hv). simpl in Heq. lia.
      + rewrite lookup_insert_eq in Hv. injection Hv as <-. specialize (Hne u m Hun Hu). simpl in Heq. lia.
      + rewrite lookup_insert_ne in Hu by done. rewrite lookup_insert_ne in Hv by done. by eapply Hinj. }
  destruct (leaderInfo s) as [l|] eqn:El; destruct Hl as [Hl1 Hl2].
  - destruct (cachedInfo s !! Uuid n) as [m|] eqn:Em.
    + eexists _, _. split; [done|]. split_and!; simpl; try done; try lia.
      * by exists m.
      * exists l. split_and!; [done..|]. by intros ? [= ->].
    + destruct (Hnew eq_refl) as [Hf' Hinj']. rewrite Hl2. simpl. eexists _, _. split; [done|].
      assert (Uuid l <> Uuid n) as Hne by congruence.
      split_and!; simpl; try done; try (unfold id; lia).
      * split_and!; simpl; try done; [unfold id; lia|by rewrite lookup_insert_ne].
      * by apply insert_subseteq.
      * exists reg. by rewrite lookup_insert_eq.
      * exists l. split_and!; [done..|]. by intros ? [= ->].
  - rewrite Hl1, lookup_empty, Hl2. simpl. eexists _, _. split; [done|].
    destruct (Hnew) as [Hf' Hinj']; [by rewrite Hl1|]. rewrite Hl1 in Hf', Hinj'.
    split_and!; simpl; try done; try (unfold id; lia).
    + split_and!; simpl; try done; [unfold id; lia|by rewrite lookup_insert_eq].
    + apply map_empty_subseteq.
    + exists reg. by rewrite lookup_insert_eq.
    + by exists reg.
Qed.

Lemma register_all_ok nodes : forall s, sun_ok s -> lastRaftID s + Z.of_nat (length nodes) < 2 ^ 63 ->
  exists s' rs, register_all s nodes = (s', Ok rs) /\ sun_ok s' /\ cachedInfo s ⊆ cachedInfo s' /\
    Forall2 (fun n r => exists m, cachedInfo s' !! Uuid n = Some m /\ RaftId m = rr_RaftId r) nodes rs /\
    (forall l0, leaderInfo s = Some l0 -> leaderInfo s' = Some l0) /\
    Forall (fun r => exists l, leaderInfo s' = Some l /\ rr_ClusterInfo r = Some (with_leader empty_cluster (Some l))) rs /\
    (lastRaftID s' <= lastRaftID s + Z.of_nat (length nodes)).
Proof.
  induction nodes as [|n nodes IH]; intros s Hs Hb.
  - exists s, []. split_and!; try done. simpl. lia.
  - simpl in Hb. destruct (MoonRegister_ok s n Hs) as (s1 & r & E & Hs1 & Hsub & Hlast & (m & Hm & Hid) & _ & (l & Hl & Hrc & Hkeep)); [lia|].
    destruct (IH s1 Hs1) as (s2 & rs & E2 & Hs2 & Hsub2 & Hall & Hkeep2 & Hcl & Hlast2); [lia|].
    exists s2, (r :: rs). cbn [register_all]. rewrite E. cbn [st_bind]. rewrite E2. cbn [st_bind].
    split_and!; try done.
    + by etrans.
    + constructor; [|done]. exists m. split; [|done]. by eapply lookup_weaken.
    + intros l0 Hl0. apply Hkeep2. rewrite Hl. f_equal. by apply Hkeep.
    + constructor; [|done]. exists l. split; [by apply Hkeep2|done].
    + simpl. lia.
Qed.

(** ** Properties *)

(** C21: raft numbers identify nodes. For every sequence of registrations two
    registrations get the same number exactly when they have the same UUID, all
    numbers are between 1 and the number of registrations, and everyone is told
    the same leader. *)
Theorem raft_ids_identify_nodes (nodes : list NodeInfo) : Z.of_nat (length nodes) < 2 ^ 63 ->
  exists s rs, register_all NewSun nodes = (s, Ok rs) /\ length rs = length nodes /\
    (forall i j n m r q, nodes !! i = Some n -> nodes !! j = Some m -> rs !! i = Some r -> rs !! j = Some q ->
       (rr_RaftId r = rr_RaftId q <-> Uuid n = Uuid m)) /\
    Forall (fun r => 1 <= rr_RaftId r <= Z.of_nat (length nodes)) rs /\
    (forall r q, r ∈ rs -> q ∈ rs -> rr_ClusterInfo r = rr_ClusterInfo q).
Proof.
  intros Hb. destruct (register_all_ok nodes NewSun NewSun_ok) as (s & rs & E & Hs & _ & Hall & _ & Hcl & Hlast); [simpl; lia|].
  simpl in Hlast. exists s, rs. split; [done|]. split; [symmetry; by eapply Forall2_length|]. destruct Hs as (_ & Hf & Hinj & _). split_and!.
  - intros i j n m r q Hi Hj Hri Hqj.
    destruct (Forall2_lookup_lr _ _ _ _ _ _ Hall Hi Hri) as (x & Hx & Hxr).
    destruct (Forall2_lookup_lr _ _ _ _ _ _ Hall Hj Hqj) as (y & Hy & Hyq). split.
    + intros Heq. eapply (Hinj _ _ x y); [done|done|lia].
    + intros Heq. rewrite Heq in Hx. rewrite Hx in Hy. injection Hy as ->. lia.
  - apply Forall_lookup_2. intros i r Hr. destruct (Forall2_lookup_r _ _ _ _ _ Hall Hr) as (n & Hn & m & Hm & Hid).
    destruct (Hf _ _ Hm). lia.
  - intros r q Hr Hq. rewrite List.Forall_forall in Hcl.
    destruct (Hcl r) as (l & Hl & ->); [by apply list_elem_of_In|].
    destruct (Hcl q) as (l' & Hl' & ->); [by apply list_elem_of_In|]. congruence.
Qed.

Definition sun_demo : list NodeInfo :=
  let n u := mkNodeInfo 0 u "10.0.0.1" 3267 10 NS_UNKNOWN in [n "a"; n "b"; n "a"].

Lemma raft_ids_identify_nodes_witness :
  exists s rs, register_all NewSun sun_demo = (s, Ok rs) /\ length rs = 3%nat /\
    (forall r q, rs !! 0%nat = Some r -> rs !! 2%nat = Some q -> rr_RaftId r = rr_RaftId q).
Proof.
  destruct (@raft_ids_identify_nodes sun_demo ltac:(simpl; lia)) as (s & rs & E & Hl & H & _).
  exists s, rs. split; [exact E|]. split; [exact Hl|]. intros r q Hr Hq.
  exact (proj2 (H 0%nat 2%nat _ _ r q eq_refl eq_refl Hr Hq) eq_refl).
Defined.
