(* ===== verification/Moon.v ===== *)
(** * The directory of cluster information: [src/edge-node/moon/moon.go]

    Every edge node runs a Moon; together they are one raft group that replicates
    the information storages. A proposal returns when the node has applied it. The
    raft library decides what is committed: an outcome is [Some l], the requests
    applied before ours, or [None], never. The callbacks a storage runs on an
    update are named in the result of applying a request; the watcher runs them. *)

From S2P Require Import Prelude GoStd Errno Infos InfoStorage.

Inductive InfoOp := ProposeInfoRequest_ADD | ProposeInfoRequest_UPDATE | ProposeInfoRequest_DELETE | ProposeInfoRequest_OTHER.

#[global] Instance InfoOp_eq_dec : EqDecision InfoOp.
Proof. solve_decision. Defined.

(** The [BaseInfo] of a message can be missing. *)
Record ProposeInfoRequest := mkProposeInfoRequest {
  pi_Operate : InfoOp;
  pi_Id : string;
  pi_BaseInfo : option BaseInfo
}.

Inductive MoonStatus := StatusInit | StatusRegistering | StatusOK.

Section moon.
Context {S : Type} `{Storage S}.

(** The raft node of a Moon: who leads, as the library reports it. *)
Record MoonRaft := mkMoonRaft { mr_peers : list Z; mr_lead : Z }.

Record Moon := mkMoon {
  m_id : Z;
  m_raft : option MoonRaft;
  SelfInfo : NodeInfo;
  m_stopped : bool;
  infoMap : gmap Z NodeInfo;
  m_leaderID : Z;
  infoStorageRegister : StorageRegister S;
  m_status : MoonStatus
}.

Definition set_register (m : Moon) (r : StorageRegister S) : Moon :=
  mkMoon (m_id m) (m_raft m) (SelfInfo m) (m_stopped m) (infoMap m) (m_leaderID m) r (m_status m).

Definition set_infoMap (m : Moon) (im : gmap Z NodeInfo) : Moon :=
  mkMoon (m_id m) (m_raft m) (SelfInfo m) (m_stopped m) im (m_leaderID m) (infoStorageRegister m) (m_status m).

(** [NewMoon]: the leader and the nodes of the configuration are known. *)
Definition NewMoon (selfInfo : NodeInfo) (conf : ClusterInfo) (register : StorageRegister S) : Moon :=
  let known := match LeaderInfo conf with Some l => {[RaftId l := l]} | None => ∅ end in
  mkMoon 0 None selfInfo false (foldl (fun im n => <[RaftId n := n]> im) known (NodesInfo conf))
    (match LeaderInfo conf with Some l => RaftId l | None => 0 end) register StatusInit.

(** ** Applying: [readCommits] *)

(** [GetID] of a message's information, where the program calls it: a missing one,
    or a nil cluster info, is dereferenced. *)
Definition info_id (i : option BaseInfo) : res string :=
  match i with
  | None | Some BI_NilClusterInfo => Panic
  | Some b => Ok (BaseInfo_GetID b)
  end.

(** The state, and the callbacks to run with the information. *)
Definition apply_request (m : Moon) (req : ProposeInfoRequest) : Moon * res (list string) :=
  let update :=
    do m, b <- pure m (or_panic (pi_BaseInfo req));
    do m, _ <- pure m (if decide (BaseInfo_GetInfoType b ∈ dom (storageMap (infoStorageRegister m)))
                       then info_id (Some b) else Ok "");
    match Register_Update (infoStorageRegister m) (Inf_Base b) with
    | (r, Ok calls) => (set_register m r, Ok calls)
    | (r, Err _) => (set_register m r, Ok [])
    | (r, Panic) => (set_register m r, Panic)
    | (r, Stuck) => (set_register m r, Stuck)
    end in
  match pi_Operate req with
  | ProposeInfoRequest_ADD => do m, _ <- pure m (info_id (pi_BaseInfo req)); update
  | ProposeInfoRequest_UPDATE => update
  | ProposeInfoRequest_DELETE =>
      do m, b <- pure m (or_panic (pi_BaseInfo req));
      match Register_Delete (infoStorageRegister m) (BaseInfo_GetInfoType b) (pi_Id req) with
      | (r, Panic) => (set_register m r, Panic)
      | (r, Stuck) => (set_register m r, Stuck)
      | (r, _) => (set_register m r, Ok [])
      end
  | ProposeInfoRequest_OTHER => (m, Ok [])
  end.

(** ** Reading *)

Definition GetInfoDirect (m : Moon) (infoType : InfoType) (id : string) : res Information :=
  if m_stopped m then Err (ENew "moon is stopped") else Register_Get (infoStorageRegister m) infoType id.

Definition GetInfo (m : Moon) (infoType : InfoType) (id : string) : res BaseInfo :=
  info ← GetInfoDirect m infoType id; Ok (Information_BaseInfo info).

Definition ListInfo (m : Moon) (infoType : InfoType) (prefix : string) : res (list BaseInfo) :=
  if m_stopped m then Err (ENew "moon is stopped")
  else l ← Register_List (infoStorageRegister m) infoType prefix; Ok (fmap (M:=list) Information_BaseInfo l).

(** ** Membership *)

Definition NodeInfoChanged (m : Moon) (n : NodeInfo) : Moon := set_infoMap m (<[RaftId n := n]> (infoMap m)).

Definition IsLeader (m : Moon) : bool :=
  match m_raft m with Some r => bool_decide (mr_lead r = m_id m) | None => false end.

(** [GetLeaderID] spins until the raft node is ready. *)
Definition GetLeaderID (m : Moon) : res Z :=
  match m_raft m with Some r => Ok (mr_lead r) | None => Stuck end.

(** A node that joins starts with the leader as its only peer; the first node with
    every node it knows, itself included. *)
Definition Set_ (m : Moon) (selfInfo : NodeInfo) (leaderInfo : option NodeInfo) (peersInfo : list NodeInfo) : Moon :=
  let im := foldl (fun im n => <[RaftId n := n]> im) (infoMap m) peersInfo in
  let im := match leaderInfo with Some l => <[RaftId l := l]> im | None => im end in
  let im := <[RaftId selfInfo := selfInfo]> im in
  let peers := match leaderInfo with Some l => [RaftId l] | None => RaftId <$> (map_to_list im).*2 end in
  mkMoon (RaftId selfInfo) (Some (mkMoonRaft peers 0)) selfInfo (m_stopped m) im (m_leaderID m)
    (infoStorageRegister m) StatusRegistering.

Definition SendRaftMessage (m : Moon) : res unit :=
  match m_raft m with
  | None => Err (ENew ("moon" +:+ FormatUint (m_id m) +:+ ": raft is not ready"))
  | Some _ => Ok tt
  end.

(** Whom a raft message goes to: the map first, then the storage. *)
Definition message_target (m : Moon) (to : Z) : res NodeInfo :=
  match infoMap m !! to with
  | Some n => Ok n
  | None =>
      s ← GetStorage (infoStorageRegister m) IT_NODE_INFO;
      info ← Storage_Get s (FormatUint to);
      or_panic (GetNodeInfo (Information_BaseInfo info))
  end.

Definition cleanup (m : Moon) : Moon := set_register m (Register_Close (infoStorageRegister m)).

Definition Stop (m : Moon) : Moon :=
  mkMoon (m_id m) (m_raft m) (SelfInfo m) true (infoMap m) (m_leaderID m) (infoStorageRegister m) (m_status m).

(** The proposal a Moon makes about itself when it starts. *)
Definition reportSelfInfo (m : Moon) : ProposeInfoRequest :=
  mkProposeInfoRequest ProposeInfoRequest_UPDATE (FormatUint (RaftId (SelfInfo m))) (Some (BI_NodeInfo (SelfInfo m))).

End moon.

Arguments Moon S : clear implicits.
