(* ===== verification/Watcher.v ===== *)
(** * Membership and the cluster's description: [src/edge-node/watcher/watcher.go]

    The watcher of the leader describes the cluster (which nodes there are, which
    answer, a new term) and proposes the description to the directory ([Moon.v]);
    every watcher takes over a description when its directory applies it. The two
    are one machine here: applying a request runs the callbacks the watcher set on
    the storages of node and cluster information. The clock is the argument [now].
    [Watcher_Env] is the watcher as the metadata service sees it. *)

From S2P Require Import Prelude GoStd Errno Infos InfoStorage Object Pipeline MetaStorage Alaya Monitor Sun Moon.

Section watcher.
Context {S : Type} `{Storage S}.

(** ** State *)

(** [w_timer]: the timer that will describe the cluster anew is running.
    [w_init]: goroutines of [initCluster] that have not run yet. *)
Record Watcher := mkWatcher {
  w_self : NodeInfo;
  w_moon : Moon S;
  w_monitor : NodeMonitor;
  w_timer : bool;
  w_init : nat;
  w_current : ClusterInfo;
  w_done : bool
}.

Definition set_moon (w : Watcher) (m : Moon S) : Watcher :=
  mkWatcher (w_self w) m (w_monitor w) (w_timer w) (w_init w) (w_current w) (w_done w).
Definition set_monitor (w : Watcher) (m : NodeMonitor) : Watcher :=
  mkWatcher (w_self w) (w_moon w) m (w_timer w) (w_init w) (w_current w) (w_done w).
Definition set_wtimer (w : Watcher) (t : bool) : Watcher :=
  mkWatcher (w_self w) (w_moon w) (w_monitor w) t (w_init w) (w_current w) (w_done w).
Definition set_current (w : Watcher) (c : ClusterInfo) (n : nat) : Watcher :=
  mkWatcher (w_self w) (w_moon w) (w_monitor w) (w_timer w) n c (w_done w).
Definition set_self (w : Watcher) (n : NodeInfo) : Watcher :=
  mkWatcher n (w_moon w) (w_monitor w) (w_timer w) (w_init w) (w_current w) (w_done w).

Definition w_register (w : Watcher) : StorageRegister S := infoStorageRegister (w_moon w).

(** The name both callbacks are set under. *)
Definition hook_name (self : NodeInfo) : string := "watcher-" +:+ Uuid self.

(** The callbacks are set on the storages the watcher shares with the directory. *)
Definition set_hook (r : StorageRegister S) (t : InfoType) (name : string) : res (StorageRegister S) :=
  s ← GetStorage r t; Ok (Register r t (Storage_SetOnUpdate s name)).

Definition NewWatcher (self : NodeInfo) (m : Moon S) : res Watcher :=
  r ← set_hook (infoStorageRegister m) IT_NODE_INFO (hook_name self);
  r ← set_hook r IT_CLUSTER_INFO (hook_name self);
  Ok (mkWatcher self (set_register m r) (Monitor_Register NewMonitor "status_reporter").1 false 0 empty_cluster false).

(** ** Looking up *)

Definition GetCurrentTerm (w : Watcher) : Z := Term (w_current w).

Definition GetClusterInfoByTerm (w : Watcher) (term : Z) : res ClusterInfo :=
  if decide (term = 0) then
    if decide (Term (w_current w) = 0) then Err (EErrno InfoNotFound) else Ok (w_current w)
  else
    s ← GetStorage (w_register w) IT_CLUSTER_INFO;
    info ← Storage_Get s (FormatUint term);
    or_panic (GetClusterInfo (Information_BaseInfo info)).

Definition node_ge (a b : NodeInfo) : Prop := RaftId b <= RaftId a.

#[export] Instance node_ge_dec a b : Decision (node_ge a b).
Proof. unfold node_ge. apply _. Defined.

(** The nodes among a list of information; another kind is a nil pointer. *)
Fixpoint node_infos (l : list Information) : res (list NodeInfo) :=
  match l with
  | [] => Ok []
  | i :: l' => n ← or_panic (GetNodeInfo (Information_BaseInfo i)); ns ← node_infos l'; Ok (n :: ns)
  end.

(** Sorted from the highest number down. An error is logged: no peers. *)
Definition getCurrentPeerInfo (w : Watcher) : res (list NodeInfo) :=
  s ← GetStorage (w_register w) IT_NODE_INFO;
  match Storage_GetAll s with
  | Ok l => ns ← node_infos l; Ok (merge_sort node_ge ns)
  | Err _ => Ok []
  | Panic => Panic
  | Stuck => Stuck
  end.

(** ** Describing the cluster *)

Definition with_node_state (n : NodeInfo) (s : NodeState) : NodeInfo :=
  mkNodeInfo (RaftId n) (Uuid n) (IpAddr n) (RpcPort n) (Capacity n) s.

Definition node_state (w : Watcher) (n : NodeInfo) : NodeState :=
  match GetNodeReport (w_monitor w) (RaftId n) with Some r => nr_State r | None => NS_OFFLINE end.

(** [None] is nil: the nodes or the leader cannot be read. *)
Definition genNewClusterInfo (w : Watcher) (now : Z) : res (option ClusterInfo) :=
  s ← GetStorage (w_register w) IT_NODE_INFO;
  match Storage_GetAll s with
  | Ok l =>
      ns ← node_infos l;
      let clusterNodes := merge_sort node_ge ((fun n => with_node_state n (node_state w n)) <$> ns) in
      leaderID ← GetLeaderID (w_moon w);
      match Storage_Get s (FormatUint leaderID) with
      | Ok leader =>
          Ok (Some (mkClusterInfo (u64 now) (GetNodeInfo (Information_BaseInfo leader)) clusterNodes None 10 3 100 3 (GetCurrentTerm w)))
      | Err _ => Ok None
      | Panic => Panic
      | Stuck => Stuck
      end
  | Err _ => Ok None
  | Panic => Panic
  | Stuck => Stuck
  end.

(** ** Callbacks *)

(** A running timer is restarted, otherwise a new one is made: either way it runs. *)
Definition nodeInfoChanged (w : Watcher) : Watcher :=
  if IsLeader (w_moon w) then set_wtimer w true else w.

Definition clusterInfoChanged (w : Watcher) (info : Information) : Watcher * res unit :=
  let n := if bool_decide (Term (w_current w) = 0) && IsLeader (w_moon w) then Datatypes.S (w_init w) else w_init w in
  match GetClusterInfo (Information_BaseInfo info) with
  | Some c => (set_current w c n, Ok tt)
  | None => (w, Panic)
  end.

Definition run_callback (w : Watcher) (t : InfoType) (info : Information) (name : string) : Watcher * res unit :=
  if decide (name = hook_name (w_self w)) then
    match t with
    | IT_NODE_INFO => (nodeInfoChanged w, Ok tt)
    | IT_CLUSTER_INFO => clusterInfoChanged w info
    | _ => (w, Ok tt)
    end
  else (w, Ok tt).

Fixpoint run_callbacks (w : Watcher) (t : InfoType) (info : Information) (names : list string) : Watcher * res unit :=
  match names with
  | [] => (w, Ok tt)
  | n :: names' => do w, _ <- run_callback w t info n; run_callbacks w t info names'
  end.

(** The directory applies a request: one iteration of [readCommits]. *)
Definition watcher_apply (w : Watcher) (req : ProposeInfoRequest) : Watcher * res unit :=
  match apply_request (w_moon w) req with
  | (m, Ok calls) =>
      match pi_BaseInfo req with
      | Some b => run_callbacks (set_moon w m) (BaseInfo_GetInfoType b) (Inf_Base b) calls
      | None => (set_moon w m, Ok tt)
      end
  | (m, Err e) => (set_moon w m, Err e)
  | (m, Panic) => (set_moon w m, Panic)
  | (m, Stuck) => (set_moon w m, Stuck)
  end.

Fixpoint apply_all (w : Watcher) (reqs : list ProposeInfoRequest) : Watcher * res unit :=
  match reqs with
  | [] => (w, Ok tt)
  | r :: reqs' => do w, _ <- watcher_apply w r; apply_all w reqs'
  end.

(** [Moon.ProposeInfo]: what is applied up to our request, or never. *)
Definition ProposeInfo (w : Watcher) (before : option (list ProposeInfoRequest)) (req : ProposeInfoRequest) : Watcher * res unit :=
  if decide (pi_Id req = "") then (w, Err (ENew "info key is empty"))
  else match before with
       | None => (w, Stuck)
       | Some l => apply_all w (l ++ [req])
       end.

(** ** The watcher's own proposals *)

Definition cluster_request (c : ClusterInfo) : ProposeInfoRequest :=
  mkProposeInfoRequest ProposeInfoRequest_ADD (FormatUint (Term c)) (Some (BI_ClusterInfo c)).

(** An error is logged. *)
Definition proposeClusterInfo (w : Watcher) (before : option (list ProposeInfoRequest)) (c : ClusterInfo) : Watcher * res unit :=
  if IsLeader (w_moon w) then
    match ProposeInfo w before (cluster_request c) with
    | (w, Err _) => (w, Ok tt)
    | r => r
    end
  else (w, Ok tt).

(** The timer fires. *)
Definition timer_fired (w : Watcher) (now : Z) (before : option (list ProposeInfoRequest)) : Watcher * res unit :=
  let w := set_wtimer w false in
  if w_done w then (w, Ok tt)
  else
    do w, c <- pure w (genNewClusterInfo w now);
    match c with
    | None => (w, Ok tt)
    | Some c => proposeClusterInfo w before c
    end.

(** [initCluster]: the default bucket, once; an error of the proposal is logged. *)
Definition initCluster (w : Watcher) (before : option (list ProposeInfoRequest)) : Watcher * res unit :=
  do w, b <- pure w (or_panic (GenBucketInfo "root" "default" "root"));
  match GetInfoDirect (w_moon w) IT_BUCKET_INFO (BucketInfo_GetID b) with
  | Ok _ => (w, Ok tt)
  | Err _ =>
      match ProposeInfo w before (mkProposeInfoRequest ProposeInfoRequest_ADD (BucketInfo_GetID b) (Some (BI_BucketInfo b))) with
      | (w, Err _) => (w, Ok tt)
      | r => r
      end
  | Panic => (w, Panic)
  | Stuck => (w, Stuck)
  end.

(** A node joins. [conf]: whether the configuration change is applied (or never). *)
Definition AddNewNodeToCluster (w : Watcher) (before : option (list ProposeInfoRequest)) (conf : bool) (info : NodeInfo)
    : Watcher * res (list NodeInfo) :=
  do w, peers <- pure w (getCurrentPeerInfo w);
  do w, _ <- (if decide (RaftId info ∈ RaftId <$> peers) then (set_moon w (NodeInfoChanged (w_moon w) info), Ok tt)
              else
                do w, _ <- ProposeInfo w before (mkProposeInfoRequest ProposeInfoRequest_ADD (FormatUint (RaftId info)) (Some (BI_NodeInfo info)));
                if conf : bool then (w, Ok tt) else (w, Stuck));
  pure w (getCurrentPeerInfo w).

(** ** Joining *)

(** [reply]: what the leader's [AddNewNodeToCluster] returns. *)
Definition RequestJoinCluster (w : Watcher) (leaderInfo : option NodeInfo) (reply : res (list NodeInfo)) : Watcher * res unit :=
  match leaderInfo with
  | None => (set_moon w (Set_ (w_moon w) (w_self w) leaderInfo []), Ok tt)
  | Some l =>
      if decide (RaftId l = RaftId (w_self w)) then (set_moon w (Set_ (w_moon w) (w_self w) leaderInfo []), Ok tt)
      else do w, peers <- pure w reply; (set_moon w (Set_ (w_moon w) (w_self w) leaderInfo peers), Ok tt)
  end.

(** Asking the cloud for a number and the leader; [None] is no address. *)
Definition AskSky (w : Watcher) (register : option (NodeInfo -> res RegisterResult)) : Watcher * res (option NodeInfo) :=
  match register with
  | None => (w, Err (EErrno ConnectSunFail))
  | Some f =>
      do w, r <- pure w (f (w_self w));
      let w := set_self w (with_raft_id (w_self w) (rr_RaftId r)) in
      do w, c <- pure w (or_panic (rr_ClusterInfo r));
      (w, Ok (LeaderInfo c))
  end.

(** [Run]: failures are logged, but a leader that is nil is dereferenced in the log. *)
Definition Watcher_Run (w : Watcher) (register : option (NodeInfo -> res RegisterResult)) (reply : res (list NodeInfo))
    : Watcher * res unit :=
  match AskSky w register with
  | (w, Err _) => (w, Ok tt)
  | (w, Ok None) => (w, Panic)
  | (w, Ok (Some l)) =>
      match RequestJoinCluster w (Some l) reply with
      | (w, Err _) => (w, Ok tt)
      | r => r
      end
  | (w, Panic) => (w, Panic)
  | (w, Stuck) => (w, Stuck)
  end.

(** [processMonitor] on an event, and [Stop]. *)
Definition processMonitor (w : Watcher) : Watcher := if w_done w then w else nodeInfoChanged w.

Definition Watcher_Stop (w : Watcher) : Watcher :=
  mkWatcher (w_self w) (Stop (w_moon w)) (w_monitor w) (w_timer w) (w_init w) (w_current w) true.

(** One turn of [WaitClusterOK]. *)
Definition cluster_ok (w : Watcher) : option bool :=
  if w_done w then Some false
  else if decide (Term (w_current w) <> 0 /\ RaftId (w_self w) <> 0) then Some true else None.

(** ** What the metadata service is given *)

Definition Watcher_Env (w : Watcher) : Env := mkEnv (GetInfoDirect (w_moon w)) (GetClusterInfoByTerm w) (GetCurrentTerm w).

End watcher.

Arguments Watcher S : clear implicits.
