(* ===== verification/Cleaner.v ===== *)
(** * Freeing blocks: [src/edge-node/cleaner/cleaner.go]

    When the metadata of an object is deleted its blocks are removed from the block
    servers, one after the other, the first node of each pipeline being asked for the
    whole pipeline. The pipelines are those of the current cluster, also for the
    blocks of an older term. [Replicas] are the block servers of a cluster, with the
    service of [Gaia.v] on each, and what a deletion does to their disks. *)

From S2P Require Import Prelude GoStd Errno Infos InfoStorage Object Pipeline GaiaMsg Gaia MetaStorage Alaya Moon Watcher.

(** ** The cleaner *)

Section cleaner.
Context `{HR : HashRing, CR : Crush}.
Context {S : Type} `{Storage S}.

(** The disks of the cluster, and what a block server does when asked. *)
Context {W : Type} (connect : NodeInfo -> option error)
  (delete_block : W -> NodeInfo -> string -> Pipeline -> Z -> W * res unit).

(** The error of the pipelines is dropped, and a nil table used. *)
Definition RemoveBlock (w : Watcher S) (x : W) (term : Z) (b : BlockInfo) : W * res unit :=
  let c := w_current w in
  do x, pgID <- pure x (GenBlockPgID (BlockId b) (BlockPgNum c));
  do x, cp <- pure x (match NewClusterPipelines c with Err _ => Panic | r => r end);
  do x, ids <- pure x (GetBlockPG cp pgID);
  do x, gaiaID <- pure x (or_panic (head ids));
  do x, info <- pure x (GetInfoDirect (w_moon w) IT_NODE_INFO (FormatUint gaiaID));
  do x, n <- pure x (or_panic (GetNodeInfo (Information_BaseInfo info)));
  match connect n with
  | Some e => (x, Err e)
  | None =>
      do x, p <- pure x (GetBlockPipeline cp pgID);
      delete_block x n (BlockId b) p term
  end.

Fixpoint remove_blocks (w : Watcher S) (x : W) (term : Z) (bs : list BlockInfo) : W * res unit :=
  match bs with
  | [] => (x, Ok tt)
  | b :: bs' => do x, _ <- RemoveBlock w x term b; remove_blocks w x term bs'
  end.

Definition RemoveObjectBlocks (w : Watcher S) (x : W) (meta : ObjectMeta) : W * res unit :=
  remove_blocks w x (OM_Term meta) (Blocks meta).

End cleaner.

(** ** The block servers of a cluster *)

Section replicas.
Context (gaia : Z -> Gaia).

Abbreviation Replicas := (Z -> Disk).

Definition set_disk (ds : Replicas) (id : Z) (d : Disk) : Replicas := fun i => if decide (i = id) then d else ds i.

(** A server that is asked by another one: its pipeline is itself. *)
Definition deletes_copy (ds : Replicas) (blockID : string) (pg id : Z) : Disk * res Result :=
  DeleteBlock no_link (gaia id) (ds id) blockID (Some (mkPipeline pg [id] Sync_STREAM 0)) 0.

Definition delete_link (ds : Replicas) (blockID : string) (pg id : Z) : Link :=
  mkLink true None (fun _ => None) (fun _ => Stuck) (deletes_copy ds blockID pg id).2.

(** The copies go first, up to the first failure. *)
Fixpoint delete_copies (ds : Replicas) (blockID : string) (pg : Z) (ids : list Z) : Replicas :=
  match ids with
  | [] => ds
  | id :: ids' =>
      let '(d, r) := deletes_copy ds blockID pg id in
      let ds := set_disk ds id d in
      match r with Ok _ => delete_copies ds blockID pg ids' | _ => ds end
  end.

(** [Gaia.DeleteBlock] of a node, and what becomes of every disk. *)
Definition cluster_delete (ds : Replicas) (n : NodeInfo) (blockID : string) (p : Pipeline) (term : Z) : Replicas * res unit :=
  let id := RaftId n in
  let '(d, r) := DeleteBlock (delete_link ds blockID (P_PgId p)) (gaia id) (ds id) blockID (Some p) term in
  (set_disk (delete_copies ds blockID (P_PgId p) (filter (fun i => i <> id) (P_RaftId p))) id d, _ ← r; Ok tt).

End replicas.
