(* ===== verification/CloudGaia.v ===== *)
(** * The block service of the cloud: [src/cloud/rainbow/cloud_gaia.go]

    The cloud keeps every block on itself. Its handlers are those of the edge
    ([Gaia.v]) written again for a pipeline of one node, number 0, and a directory of
    their own; [as_edge] is the edge node it stands for. *)

From S2P Require Import Prelude GoStd Errno Infos InfoStorage Object Pipeline GaiaMsg Gaia MetaStorage Alaya Monitor Sun Moon Watcher.

Record CloudConfig := mkCloudConfig { cc_BasePath : string; cc_ChunkSize : Z }.

(** [cg_closed]: the context is done. *)
Record CloudGaia := mkCloudGaia { cg_closed : bool; cg_conf : CloudConfig }.

Definition cloud_blocks (g : CloudGaia) : string := Join [cc_BasePath (cg_conf g); "gaia"; "blocks"].

(** The pipeline of the message is not used. *)
Definition cloud_pipeline : Pipeline := mkPipeline 0 [0] Sync_RAFT 0.

Section cloud_gaia.
Context (create_err : string -> option error).

(** The description of the cluster is nil: there is no other node to look up. *)
Definition cloud_processControlMessage (g : CloudGaia) (m : ControlMessage) (s : Disk * PrimaryCopyTransporter)
    : Disk * PrimaryCopyTransporter * Reply :=
  match CM_Code m with
  | CM_BEGIN =>
      match NewPrimaryCopyTransporter (CM_Block m) (Some cloud_pipeline) 0 empty_cluster (cloud_blocks g) with
      | Ok t => (s.1, t, Continue)
      | r => (s, Return (_ ← r; Ok tt))
      end
  | CM_EOF =>
      match T_Close no_link s.2 with
      | (t, Err e) => (s.1, t, SendAndClose (fail_result 0 (Error e)))
      | (t, Ok _) => (s.1, t, SendAndClose (mkResult Result_OK 0 ""))
      | (t, r) => (s.1, t, Return r)
      end
  | CM_OTHER => (s, SendAndClose (fail_result 0 ""))
  end.

(** The transporter is never nil. *)
Definition cloud_processChunk (content : bytes) (s : Disk * PrimaryCopyTransporter) : Disk * PrimaryCopyTransporter * Reply :=
  match T_Write no_link create_err s content with
  | (s, Ok _) => (s, Continue)
  | (s, Err e) => (s, SendAndClose (fail_result (Code TransporterWriteFail) (Errno_Error TransporterWriteFail +:+ Error e)))
  | (s, r) => (s, Return r)
  end.

Fixpoint cloud_serve (g : CloudGaia) (reqs : list UploadBlockRequest) (s : Disk * PrimaryCopyTransporter)
    : Disk * PrimaryCopyTransporter * list Result * res unit :=
  if cg_closed g then (s, [fail_result (Code GaiaClosedErr) (Errno_Error GaiaClosedErr)], Ok tt)
  else match reqs with
       | [] => (s, [], Ok tt)
       | r :: reqs' =>
           match (match r with
                  | Req_Message m => cloud_processControlMessage g m s
                  | Req_Chunk content => cloud_processChunk content s
                  | Req_None => (s, SendAndClose (fail_result 0 ""))
                  end) with
           | (s, Continue) => cloud_serve g reqs' s
           | (s, SendAndClose x) =>
               match r with
               | Req_None => (s, [x], Ok tt)
               | _ => let '(s, l, e) := cloud_serve g reqs' s in (s, x :: l, e)
               end
           | (s, Return e) => (s, [], e)
           end
       end.

Definition cloud_UploadBlockData (g : CloudGaia) (reqs : list UploadBlockRequest) (d : Disk)
    : Disk * PrimaryCopyTransporter * list Result * res unit := cloud_serve g reqs (d, zero_transporter).

Definition cloud_GetBlockData (g : CloudGaia) (d : Disk) (blockID : string) (startChunk : Z) (send : nat -> option error)
    : list bytes * res unit :=
  match d !! Join [cc_BasePath (cg_conf g); "gaia"; "blocks"; blockID] with
  | None => ([], Err (EExt "open: no such file or directory"))
  | Some content =>
      let chunkSize := cc_ChunkSize (cg_conf g) in
      if decide (chunkSize = 0) then ([], if decide (content = []) then Ok tt else Stuck)
      else send_pieces send 0 (drop (Z.to_nat startChunk) (bufio_reads (Z.to_nat chunkSize) content))
  end.

(** [DeleteBlock] panics with "implement me". *)
Definition cloud_DeleteBlock : res Result := Panic.

(** ** The edge node it stands for *)

Definition as_edge (g : CloudGaia) : Gaia :=
  mkGaia 0 (cloud_blocks g) (cc_ChunkSize (cg_conf g)) (cg_closed g) (fun _ => Ok empty_cluster).

Definition own_pipeline (r : UploadBlockRequest) : UploadBlockRequest :=
  match r with
  | Req_Message (mkControlMessage CM_BEGIN info _ term) => Req_Message (mkControlMessage CM_BEGIN info (Some cloud_pipeline) term)
  | r => r
  end.

Lemma cloud_serve_as_edge g reqs : forall s, cloud_serve g reqs s = serve no_link create_err (as_edge g) (own_pipeline <$> reqs) s.
Proof.
  induction reqs as [|r reqs IH]; intros s; [done|]. rewrite fmap_cons. cbn [cloud_serve serve].
  change (g_closed (as_edge g)) with (cg_closed g). destruct (cg_closed g); [done|].
  destruct r as [m|c|]; [| |done].
  - destruct m as [[] info p term]; cbn [own_pipeline handle_request]; unfold cloud_processControlMessage, processControlMessage;
      cbn [CM_Code CM_Block CM_Pipeline CM_Term].
    + cbn [as_edge g_cluster g_self g_base]. by destruct (NewPrimaryCopyTransporter _ _ _ _ _).
    + destruct (T_Close no_link s.2) as [t []]; try done; by rewrite IH.
    + by rewrite IH.
  - cbn [own_pipeline handle_request]. unfold cloud_processChunk, processChunk.
    destruct (T_Write no_link create_err s c) as [s' []]; try done; by rewrite IH.
Qed.

(** Neither the pipeline nor the term of a message matters. *)
Definition blank (r : UploadBlockRequest) : UploadBlockRequest :=
  match r with
  | Req_Message m => Req_Message (mkControlMessage (CM_Code m) (CM_Block m) None 0)
  | r => r
  end.

Lemma cloud_serve_blank g reqs : forall s, cloud_serve g (blank <$> reqs) s = cloud_serve g reqs s.
Proof.
  induction reqs as [|r reqs IH]; intros s; [done|]. rewrite fmap_cons. cbn [cloud_serve]. destruct (cg_closed g); [done|].
  destruct r as [m|c|]; cbn [blank]; [| |done].
  - change (cloud_processControlMessage g (mkControlMessage (CM_Code m) (CM_Block m) None 0) s) with (cloud_processControlMessage g m s).
    destruct (cloud_processControlMessage g m s) as [s' []]; by rewrite ?IH.
  - destruct (cloud_processChunk c s) as [s' []]; by rewrite ?IH.
Qed.

End cloud_gaia.

(** ** Paths *)

Lemma Split_app_sep s t : Split sep (s +:+ String sep t) = Split sep s ++ Split sep t.
Proof.
  induction s as [|a s IH].
  - rewrite str_nil_app. cbn [Split]. by rewrite decide_True.
  - change (String a s +:+ String sep t) with (String a (s +:+ String sep t)). cbn [Split]. rewrite IH.
    destruct (decide (a = sep)); [done|]. pose proof (Split_nonnil s) as Hs. by destruct (Split sep s).
Qed.

(** A directory without dot-dot components that go above it. *)
Definition dir_ok (base : string) : Prop :=
  base <> "" /\ Forall (fun e => good e = true) (norm (is_rooted base) (Split sep base)).

Definition at_root (rooted : bool) (l : list string) : string := if rooted then String sep (join l) else join l.

Lemma Join_under base rest : dir_ok base -> rest <> [] -> Forall (fun e => good e = true) rest ->
  Join (base :: rest) = at_root (is_rooted base) (norm (is_rooted base) (Split sep base) ++ rest).
Proof.
  intros [Hne Hg] Hrest Hr. cbn [Join]. rewrite decide_False by done.
  assert (join (base :: rest) = base +:+ String sep (join rest)) as Ej by (rewrite join_cons; by destruct rest).
  assert (is_rooted (join (base :: rest)) = is_rooted base) as Er by (rewrite Ej; by destruct base).
  unfold Clean. rewrite decide_False by (rewrite Ej; by destruct base). rewrite Er, Ej, Split_app_sep.
  rewrite Split_join by (try done; by apply Forall_good_nosep).
  assert (norm (is_rooted base) (Split sep base ++ rest) = norm (is_rooted base) (Split sep base) ++ rest) as En.
  { unfold norm. rewrite fold_left_app, norm_fold_good by done. by rewrite rev_app_distr, rev_involutive. }
  rewrite En. unfold at_root. destruct (is_rooted base); [done|]. rewrite decide_False; [done|].
  apply join_nonempty; [by destruct (norm false (Split sep base)), rest|]. by apply Forall_app.
Qed.

Lemma dir_ok_under rooted l : l <> [] -> Forall (fun e => good e = true) l ->
  dir_ok (at_root rooted l) /\ is_rooted (at_root rooted l) = rooted /\ norm rooted (Split sep (at_root rooted l)) = l.
Proof.
  intros Hl Hg. assert (is_rooted (at_root rooted l) = rooted) as Hr.
  { unfold at_root. destruct rooted; [done|]. by apply is_rooted_join. }
  assert (norm rooted (Split sep (at_root rooted l)) = l) as Hn.
  { unfold at_root. destruct rooted; [rewrite Split_rooted, norm_skip_empty|]; rewrite Split_join by (try done; by apply Forall_good_nosep); by apply norm_good. }
  split_and!; [|done|done]. split; [|by rewrite Hr, Hn]. unfold at_root. destruct rooted; [done|]. by apply join_nonempty.
Qed.

(** The file a block is written to is the file it is read from. *)
Lemma Join_nested base rest name : dir_ok base -> rest <> [] -> Forall (fun e => good e = true) rest -> good name = true ->
  Join [Join (base :: rest); name] = Join (base :: rest ++ [name]).
Proof.
  intros Hb Hne Hr Hn. assert (Forall (fun e => good e = true) [name]) as Hname by by constructor.
  rewrite (Join_under base rest) by done. rewrite (Join_under base (rest ++ [name])); [|done|by destruct rest|by apply Forall_app].
  destruct (dir_ok_under (is_rooted base) (norm (is_rooted base) (Split sep base) ++ rest)) as (Hd & Hroot & Hnorm).
  - by destruct (norm (is_rooted base) (Split sep base)), rest.
  - apply Forall_app. split; [apply Hb|done].
  - rewrite (Join_under _ [name]) by done. rewrite Hroot, Hnorm. by rewrite <-app_assoc.
Qed.

(** ** Properties *)

(** the cloud's block service is the edge's on a node of its own: whatever requests
    a stream brings, it answers, stores and fails as the edge node number 0 with the
    same directory does for the pipeline of that node alone. *)
Theorem cloud_serves_as_edge (create_err : string -> option error) (g : CloudGaia) (reqs : list UploadBlockRequest) (d : Disk) :
  cloud_UploadBlockData create_err g reqs d = UploadBlockData no_link create_err (as_edge g) (own_pipeline <$> reqs) d.
Proof. apply cloud_serve_as_edge. Qed.

(** C36: a block the cloud accepts is read back up to its buffered tail. A block sent as
    [BEGIN], chunks and [EOF] is accepted; what is then read over a working stream is
    the block without its last bytes, at most 4096 of them, which were still in the
    writer that is never flushed. *)
Theorem cloud_block_round_trip (g : CloudGaia) (info : BlockInfo) (p p' : option Pipeline) (term term' : Z) (cs : list bytes) (d : Disk) :
  cg_closed g = false -> 0 < cc_ChunkSize (cg_conf g) -> dir_ok (cc_BasePath (cg_conf g)) -> good (BlockId info) = true -> cs <> [] ->
  exists d' t pieces lost,
    cloud_UploadBlockData no_create_err g (Req_Message (mkControlMessage CM_BEGIN info p term) :: (Req_Chunk <$> cs) ++
      [Req_Message (mkControlMessage CM_EOF info p' term')]) d = (d', t, [mkResult Result_OK 0 ""], Ok tt) /\
    cloud_GetBlockData g d' (BlockId info) 0 (fun _ => None) = (pieces, Ok tt) /\
    concat pieces ++ lost = concat cs /\ (length lost <= 4096)%nat.
Proof.
  intros Hg Hcs Hdir Hid Hne.
  pose proof (replica_serves (as_edge g) d empty_cluster (mkRemoteWriter 0 info cloud_pipeline None) cs Hg eq_refl eq_refl Hne) as Hup.
  cbn [rw_info rw_pipeline forwarded] in Hup. destruct (bufio_all_spec cs) as [Hfile Hlost].
  eexists _, _, (bufio_reads (Z.to_nat (cc_ChunkSize (cg_conf g))) (bufio_all cs).1), (bufio_all cs).2. split_and!; [|  |by rewrite concat_bufio_reads by lia|exact Hlost].
  - unfold cloud_UploadBlockData. rewrite <-cloud_serve_blank. etransitivity; [|exact Hup].
    transitivity (cloud_serve no_create_err g (blank <$> (forwarded (mkRemoteWriter 0 info cloud_pipeline None) cs ++
      [Req_Message (mkControlMessage CM_EOF info None 0)])) (d, zero_transporter)).
    + unfold forwarded. by rewrite <-app_comm_cons, !fmap_cons, !fmap_app.
    + rewrite cloud_serve_blank, cloud_serve_as_edge. unfold forwarded, UploadBlockData. rewrite <-app_comm_cons, fmap_cons, fmap_app, <-list_fmap_compose.
      reflexivity.
  - unfold cloud_GetBlockData, block_path, cloud_blocks. cbn [as_edge g_base].
    rewrite (Join_nested (cc_BasePath (cg_conf g)) ["gaia"; "blocks"]) by (done || by repeat constructor).
    cbn [app]. rewrite lookup_insert_eq. rewrite decide_False by lia. change (Z.to_nat 0) with 0%nat. by rewrite drop_0, send_pieces_ok.
Qed.

Definition demo_cloud : CloudGaia := mkCloudGaia false (mkCloudConfig "./ecos-data/cloud/" 1048576).

Lemma cloud_block_round_trip_witness :
  exists d' t pieces lost,
    cloud_UploadBlockData no_create_err demo_cloud (Req_Message (mkControlMessage CM_BEGIN demo_info None 7) ::
      (Req_Chunk <$> [[x01; x02]; [x03]]) ++ [Req_Message (mkControlMessage CM_EOF demo_info None 7)]) ∅ =
      (d', t, [mkResult Result_OK 0 ""], Ok tt) /\
    cloud_GetBlockData demo_cloud d' "blk" 0 (fun _ => None) = (pieces, Ok tt) /\
    concat pieces ++ lost = [x01; x02; x03] /\ (length lost <= 4096)%nat.
Proof.
  apply (cloud_block_round_trip demo_cloud demo_info None None 7 7 [[x01; x02]; [x03]] ∅);
    [reflexivity|reflexivity| |reflexivity|discriminate].
  split; [discriminate|]. vm_compute. by repeat constructor.
Defined.
