(* ===== verification/WatcherProofs.v ===== *)
(** * The watcher describes and follows the cluster

    Proofs about [Watcher.v] for any storage with [StorageLaws]: a description is
    well formed and therefore has its pipelines; a description that is applied is
    the current one and earlier terms stay available; a node that joins is a peer;
    and with a watcher behind it the metadata service accepts what clients send. *)

From S2P Require Import Prelude GoStd Errno Infos InfoStorage Object Pipeline MetaStorage Alaya AlayaProofs Monitor Sun Moon Watcher.

(** A storage whose updates do not fail and whose contents can be read. *)
Class StorageTotal (S : Type) `{Storage S} : Prop := {
  Update_total s i : exists s' calls, Storage_Update s i = (s', Ok calls);
  GetAll_total s : exists l, Storage_GetAll s = Ok l
}.

#[export] Instance memory_total : StorageTotal MemoryInfoStorage.
Proof. constructor; intros; eexists; [by eexists|done]. Qed.

Section proofs.
Context {S : Type} `{StorageLaws S, !StorageTotal S}.

(** ** What the storages of a watcher hold *)

Definition storage_of (w : Watcher S) (t : InfoType) : option S := storageMap (w_register w) !! t.

(** Information is stored under its own identifier. *)
Definition node_entry (id : string) (b : BaseInfo) : Prop :=
  exists n, b = BI_NodeInfo n /\ id = FormatUint (RaftId n) /\ is_u64 (RaftId n).

Definition cluster_entry (id : string) (b : BaseInfo) : Prop :=
  exists c, b = BI_ClusterInfo c /\ id = FormatUint (Term c) /\ is_u64 (Term c).

Definition hooked (w : Watcher S) (t : InfoType) (P : string -> BaseInfo -> Prop) : Prop :=
  exists s, storage_of w t = Some s /\ storage_ok s /\ hook_name (w_self w) ∈ hooks s /\ map_Forall P (view s).

Definition watcher_wf (w : Watcher S) : Prop :=
  hooked w IT_NODE_INFO node_entry /\ hooked w IT_CLUSTER_INFO cluster_entry /\
  (Term (w_current w) <> 0 -> exists s, storage_of w IT_CLUSTER_INFO = Some s /\
     view s !! FormatUint (Term (w_current w)) = Some (BI_ClusterInfo (w_current w))) /\
  is_u64 (Term (w_current w)).

(** ** The nodes *)

Lemma node_infos_ok l : Forall (fun b => exists n, b = BI_NodeInfo n) (Information_BaseInfo <$> l) ->
  exists ns, node_infos l = Ok ns /\ BI_NodeInfo <$> ns = Information_BaseInfo <$> l.
Proof.
  induction l as [|i l IH]; intros Hl; [by exists []|]. inv Hl. destruct H3 as [n Hn].
  destruct IH as (ns & E & Hns); [done|]. exists (n :: ns). split; [simpl; rewrite Hn; simpl; by rewrite E|]. by rewrite !fmap_cons, Hns, Hn.
Qed.

(** The node storage lists its nodes, each number once. *)
Lemma stored_nodes s : storage_ok s -> map_Forall node_entry (view s) ->
  exists l ns, Storage_GetAll s = Ok l /\ node_infos l = Ok ns /\ NoDup (RaftId <$> ns) /\
    (forall n, n ∈ ns <-> view s !! FormatUint (RaftId n) = Some (BI_NodeInfo n) /\ is_u64 (RaftId n)) /\
    Forall (fun n => is_u64 (RaftId n)) ns.
Proof.
  intros Hok Hv. destruct (GetAll_total s) as [l El]. pose proof (getall_view s l Hok El) as Hperm.
  assert (Hent : forall b, b ∈ (map_to_list (view s)).*2 <-> exists id, view s !! id = Some b).
  { intros b. rewrite list_elem_of_fmap. split.
    - intros ([id b'] & -> & Hin). apply elem_of_map_to_list in Hin. by exists id.
    - intros [id Hid]. exists (id, b). split; [done|]. by apply elem_of_map_to_list. }
  destruct (node_infos_ok l) as (ns & Ens & Hns).
  { rewrite Hperm. apply List.Forall_forall. intros b Hb%list_elem_of_In. apply Hent in Hb as [id Hid].
    destruct (Hv id b Hid) as (n & -> & _). by exists n. }
  rewrite <- Hns in Hperm.
  assert (Hin : forall n, n ∈ ns <-> view s !! FormatUint (RaftId n) = Some (BI_NodeInfo n) /\ is_u64 (RaftId n)).
  { intros n. assert (n ∈ ns <-> BI_NodeInfo n ∈ BI_NodeInfo <$> ns) as ->.
    { rewrite list_elem_of_fmap. split; [intros Hn; by exists n|by intros (n' & [= ->] & Hn)]. }
    rewrite Hperm, Hent. split; [|intros [Hn _]; by eexists]. intros [id Hid].
    destruct (Hv id _ Hid) as (n' & [= ->] & -> & Hu). done. }
  exists l, ns. split_and!; try done.
  - assert (NoDup (map_to_list (view s)).*1) as Hk by apply NoDup_fst_map_to_list.
    assert ((map_to_list (view s)).*1 ≡ₚ (fun n => FormatUint (RaftId n)) <$> ns) as Hkeys.
    { assert (Hids : (map_to_list (view s)).*1 = BaseInfo_GetID <$> (map_to_list (view s)).*2).
      { rewrite <- list_fmap_compose. apply list_fmap_ext. intros i [id b] Hi. apply list_elem_of_lookup_2, elem_of_map_to_list in Hi.
        destruct (Hv id b Hi) as (n & -> & -> & _). done. }
      rewrite Hids, <- Hperm, <- list_fmap_compose. done. }
    rewrite Hkeys in Hk. rewrite (list_fmap_compose RaftId FormatUint) in Hk. by apply NoDup_fmap_1 in Hk.
  - apply List.Forall_forall. intros n Hn%list_elem_of_In. by apply Hin in Hn as [_ ?].
Qed.

Lemma node_sort_ok ns : StronglySorted node_ge (merge_sort node_ge ns) /\ merge_sort node_ge ns ≡ₚ ns.
Proof.
  split; [|apply merge_sort_Permutation]. apply StronglySorted_merge_sort.
  - intros x y z. unfold node_ge. lia.
  - intros x y. unfold node_ge. lia.
Qed.

Lemma GetStorage_of w t s : storage_of w t = Some s -> GetStorage (w_register w) t = Ok s.
Proof. unfold storage_of, GetStorage. by intros ->. Qed.

(** ** The description *)

Lemma genNewClusterInfo_spec w now c : watcher_wf w -> genNewClusterInfo w now = Ok (Some c) ->
  NoDup (RaftId <$> NodesInfo c) /\ StronglySorted node_ge (NodesInfo c) /\
  (exists s ns, storage_of w IT_NODE_INFO = Some s /\
     (forall n, n ∈ ns <-> view s !! FormatUint (RaftId n) = Some (BI_NodeInfo n) /\ is_u64 (RaftId n)) /\
     NodesInfo c ≡ₚ (fun n => with_node_state n (node_state w n)) <$> ns) /\
  Term c = u64 now /\ LastTerm c = GetCurrentTerm w /\
  (MetaPgNum c, MetaPgSize c, BlockPgNum c, BlockPgSize c) = (10, 3, 100, 3).
Proof.
  intros ((s & Hs & Hok & _ & Hv) & _) E. unfold genNewClusterInfo in E. rewrite (GetStorage_of w _ s Hs) in E. simpl in E.
  destruct (stored_nodes s Hok Hv) as (l & ns & El & Ens & Hnd & Hin & _). rewrite El, Ens in E. simpl in E.
  destruct (GetLeaderID (w_moon w)); try done. simpl in E. destruct (Storage_Get s _) as [leader| | |]; try done.
  injection E as <-. cbn [NodesInfo Term LastTerm MetaPgNum MetaPgSize BlockPgNum BlockPgSize].
  destruct (node_sort_ok ((fun n => with_node_state n (node_state w n)) <$> ns)) as [Hsort Hp].
  split_and!; try done.
  - rewrite Hp, <- list_fmap_compose. exact Hnd.
  - by exists s, ns.
Qed.

(** ** Applying requests *)

Lemma run_callbacks_spec (w : Watcher S) t b names : NoDup names -> hook_name (w_self w) ∈ names ->
  run_callbacks w t (Inf_Base b) names = run_callback w t (Inf_Base b) (hook_name (w_self w)).
Proof.
  intros Hnd Hin. revert Hin. induction Hnd as [|n names Hn Hnd IH]; intros Hin; [by apply not_elem_of_nil in Hin|].
  cbn [run_callbacks]. destruct (decide (n = hook_name (w_self w))) as [->|Hne].
  - destruct (run_callback w t (Inf_Base b) (hook_name (w_self w))) as [w' r] eqn:E.
    assert (w_self w' = w_self w) as Hself.
    { unfold run_callback in E. rewrite decide_True in E by done. destruct t; simplify_eq/=; try done.
      - unfold nodeInfoChanged. by destruct (IsLeader _).
      - unfold clusterInfoChanged in E. destruct (GetClusterInfo _); by simplify_eq/=. }
    destruct r as [[]| | |]; try done. cbn [st_bind]. clear IH Hnd Hin. induction names as [|m names IHn]; [done|].
    cbn [run_callbacks]. unfold run_callback at 1. rewrite decide_False.
    + cbn [st_bind]. apply IHn. intros Hi. apply Hn. by right.
    + rewrite Hself. intros ->. apply Hn. by left.
  - unfold run_callback at 1. rewrite decide_False by done. cbn [st_bind]. apply IH.
    apply elem_of_cons in Hin as [?|?]; [congruence|done].
Qed.

(** The register after an update. *)
Lemma Register_Update_total (r : StorageRegister S) b s : storageMap r !! BaseInfo_GetInfoType b = Some s ->
  exists s' calls, Register_Update r (Inf_Base b) = (Register r (BaseInfo_GetInfoType b) s', Ok calls) /\
    (storage_ok s -> storage_ok s') /\ view s' = <[BaseInfo_GetID b := b]> (view s) /\ hooks s' = hooks s /\
    NoDup calls /\ (forall n, n ∈ calls <-> n ∈ hooks s).
Proof.
  intros Hs. unfold Register_Update. cbn [GetInfoType]. rewrite Hs.
  destruct (Update_total s (Inf_Base b)) as (s' & calls & E). rewrite E.
  destruct (update_view _ _ _ _ E) as (H1 & H2 & H3 & H4 & H5). by exists s', calls.
Qed.

(** A description is applied. *)
Lemma apply_cluster w c : watcher_wf w -> is_u64 (Term c) ->
  exists w' s s', watcher_apply w (cluster_request c) = (w', Ok tt) /\ w_current w' = c /\
    storage_of w IT_CLUSTER_INFO = Some s /\ storage_of w' IT_CLUSTER_INFO = Some s' /\
    view s' = <[FormatUint (Term c) := BI_ClusterInfo c]> (view s) /\ storage_ok s' /\ hooks s' = hooks s /\
    w_self w' = w_self w /\ (forall t, t <> IT_CLUSTER_INFO -> storage_of w' t = storage_of w t) /\
    m_stopped (w_moon w') = m_stopped (w_moon w).
Proof.
  intros (_ & (s & Hs & Hok & Hh & Hv) & _) Hu. unfold watcher_apply, apply_request, cluster_request.
  cbn [pi_Operate pi_BaseInfo info_id pure st_bind or_panic BaseInfo_GetInfoType]. unfold storage_of, w_register in Hs.
  rewrite decide_True by (apply elem_of_dom; by eexists). cbn [st_bind].
  destruct (Register_Update_total (infoStorageRegister (w_moon w)) (BI_ClusterInfo c) s Hs) as (s' & calls & -> & H1 & H2 & H3 & H4 & H5).
  rewrite run_callbacks_spec; [|done|by apply H5]. unfold run_callback. rewrite decide_True by done.
  unfold clusterInfoChanged. cbn [Information_BaseInfo GetClusterInfo]. eexists _, s, s'. split; [done|].
  split_and!; try done; [|by apply H1|].
  - unfold storage_of, w_register. cbn. by rewrite lookup_insert_eq.
  - intros t Ht. unfold storage_of, w_register. cbn. by rewrite lookup_insert_ne.
Qed.

Lemma apply_cluster_wf w w' c s s' : watcher_wf w -> is_u64 (Term c) -> w_current w' = c ->
  storage_of w IT_CLUSTER_INFO = Some s -> storage_of w' IT_CLUSTER_INFO = Some s' ->
  view s' = <[FormatUint (Term c) := BI_ClusterInfo c]> (view s) -> storage_ok s' -> hooks s' = hooks s ->
  w_self w' = w_self w -> (forall t, t <> IT_CLUSTER_INFO -> storage_of w' t = storage_of w t) -> watcher_wf w'.
Proof.
  intros ((sn & Hn1 & Hn2 & Hn3 & Hn4) & (s0 & Hs0 & Hok & Hh & Hv) & _) Hu Hc Hs Hs' Hview Hok' Hhooks Hself Hother.
  rewrite Hs in Hs0. injection Hs0 as <-. split_and!.
  - exists sn. rewrite Hother by done. rewrite Hself. by split_and!.
  - exists s'. rewrite Hself, Hhooks, Hview. split_and!; try done. apply map_Forall_insert_2; [|done]. by exists c.
  - intros _. exists s'. split; [done|]. rewrite Hc, Hview. by rewrite lookup_insert_eq.
  - by rewrite Hc.
Qed.

Lemma GetClusterInfoByTerm_stored w s term c : storage_of w IT_CLUSTER_INFO = Some s -> term <> 0 ->
  view s !! FormatUint term = Some (BI_ClusterInfo c) -> GetClusterInfoByTerm w term = Ok c.
Proof.
  intros Hs Ht Hv. unfold GetClusterInfoByTerm. rewrite decide_False by done. rewrite (GetStorage_of w _ s Hs). simpl.
  pose proof (get_view s (FormatUint term)) as Hg. rewrite Hv in Hg. destruct Hg as (i & -> & Hi). simpl. by rewrite Hi.
Qed.

Lemma GetClusterInfoByTerm_inv w s term c : storage_of w IT_CLUSTER_INFO = Some s -> term <> 0 ->
  GetClusterInfoByTerm w term = Ok c -> view s !! FormatUint term = Some (BI_ClusterInfo c).
Proof.
  intros Hs Ht E. unfold GetClusterInfoByTerm in E. rewrite decide_False in E by done. rewrite (GetStorage_of w _ s Hs) in E. simpl in E.
  pose proof (get_view s (FormatUint term)) as Hg. destruct (view s !! FormatUint term) as [b|].
  - destruct Hg as (i & Ei & Hi). rewrite Ei in E. simpl in E. rewrite Hi in E. destruct b; try done. by injection E as ->.
  - destruct Hg as (e & Ee). by rewrite Ee in E.
Qed.

(** A node is added. *)
Lemma apply_node_frame w n : watcher_wf w -> is_u64 (RaftId n) ->
  exists w' s s', watcher_apply w (mkProposeInfoRequest ProposeInfoRequest_ADD (FormatUint (RaftId n)) (Some (BI_NodeInfo n))) = (w', Ok tt) /\
    storage_of w IT_NODE_INFO = Some s /\ storage_of w' IT_NODE_INFO = Some s' /\
    view s' = <[FormatUint (RaftId n) := BI_NodeInfo n]> (view s) /\ watcher_wf w' /\
    w_current w' = w_current w /\ w_self w' = w_self w /\ forall t, t <> IT_NODE_INFO -> storage_of w' t = storage_of w t.
Proof.
  intros ((s & Hs & Hok & Hh & Hv) & Hcl & Hcur & Hterm) Hu. unfold watcher_apply, apply_request.
  cbn [pi_Operate pi_BaseInfo info_id pure st_bind or_panic BaseInfo_GetInfoType]. unfold storage_of, w_register in Hs.
  rewrite decide_True by (apply elem_of_dom; by eexists). cbn [st_bind].
  destruct (Register_Update_total (infoStorageRegister (w_moon w)) (BI_NodeInfo n) s Hs) as (s' & calls & -> & H1 & H2 & H3 & H4 & H5).
  rewrite run_callbacks_spec; [|done|by apply H5]. unfold run_callback. rewrite decide_True by done.
  set (w1 := set_moon w _). eexists _, s, s'. split; [done|].
  assert (forall t, storage_of (nodeInfoChanged w1) t = storageMap (Register (infoStorageRegister (w_moon w)) IT_NODE_INFO s') !! t) as Hst.
  { intros t. unfold nodeInfoChanged. by destruct (IsLeader _). }
  assert (w_current (nodeInfoChanged w1) = w_current w /\ w_self (nodeInfoChanged w1) = w_self w) as [Hc Hself].
  { unfold nodeInfoChanged. by destruct (IsLeader _). }
  assert (storage_of (nodeInfoChanged w1) IT_NODE_INFO = Some s') as Hs' by (rewrite Hst; cbn; by rewrite lookup_insert_eq).
  assert (forall t, t <> IT_NODE_INFO -> storage_of (nodeInfoChanged w1) t = storage_of w t) as Hother.
  { intros t Ht. rewrite Hst. cbn. by rewrite lookup_insert_ne. }
  split; [done|]. split; [done|]. split; [done|]. split; [|split_and!; done]. split_and!.
  - exists s'. rewrite Hself, H3, H2. split_and!; try done; [by apply H1|].
    apply map_Forall_insert_2; [|done]. by exists n.
  - destruct Hcl as (sc & Hc1 & Hc2). exists sc. rewrite Hother, Hself by done. done.
  - rewrite Hc, Hother by done. done.
  - by rewrite Hc.
Qed.

Lemma apply_node w n : watcher_wf w -> is_u64 (RaftId n) ->
  exists w' s s', watcher_apply w (mkProposeInfoRequest ProposeInfoRequest_ADD (FormatUint (RaftId n)) (Some (BI_NodeInfo n))) = (w', Ok tt) /\
    storage_of w IT_NODE_INFO = Some s /\ storage_of w' IT_NODE_INFO = Some s' /\
    view s' = <[FormatUint (RaftId n) := BI_NodeInfo n]> (view s) /\ watcher_wf w'.
Proof. intros Hwf Hu. destruct (apply_node_frame w n Hwf Hu) as (w' & s & s' & E & H1 & H2 & H3 & H4 & _). by exists w', s, s'. Qed.

Lemma getCurrentPeerInfo_ok w : watcher_wf w ->
  exists s ps, storage_of w IT_NODE_INFO = Some s /\ getCurrentPeerInfo w = Ok ps /\ NoDup (RaftId <$> ps) /\
    StronglySorted node_ge ps /\ forall n, n ∈ ps <-> view s !! FormatUint (RaftId n) = Some (BI_NodeInfo n) /\ is_u64 (RaftId n).
Proof.
  intros ((s & Hs & Hok & _ & Hv) & _). destruct (stored_nodes s Hok Hv) as (l & ns & El & Ens & Hnd & Hin & _).
  destruct (node_sort_ok ns) as [Hsort Hp]. exists s, (merge_sort node_ge ns). unfold getCurrentPeerInfo.
  rewrite (GetStorage_of w _ s Hs). cbn [mbind res_bind]. rewrite El, Ens. split_and!; try done.
  - by rewrite Hp.
  - intros n. by rewrite Hp.
Qed.

Lemma genNewClusterInfo_total w now lead n : watcher_wf w -> GetLeaderID (w_moon w) = Ok lead ->
  (exists s, storage_of w IT_NODE_INFO = Some s /\ view s !! FormatUint lead = Some (BI_NodeInfo n)) ->
  exists c, genNewClusterInfo w now = Ok (Some c) /\ LeaderInfo c = Some n.
Proof.
  intros ((s & Hs & Hok & _ & Hv) & _) Hl (s0 & Hs0 & Hn). rewrite Hs in Hs0. injection Hs0 as <-.
  destruct (stored_nodes s Hok Hv) as (l & ns & El & Ens & _). unfold genNewClusterInfo.
  rewrite (GetStorage_of w _ s Hs). cbn [mbind res_bind]. rewrite El, Ens. cbn [mbind res_bind]. rewrite Hl. cbn [mbind res_bind].
  pose proof (get_view s (FormatUint lead)) as Hg. rewrite Hn in Hg. destruct Hg as (i & -> & Hi).
  eexists. split; [done|]. cbn. by rewrite Hi.
Qed.

End proofs.

(** ** Properties *)

(** C19: a new term. When the timer of the leader's watcher fires, the cluster is
    described anew and the description is adopted: it has the new term, lists
    exactly the stored nodes with the states the monitor knows, is found by its
    term and as the current one, and refers to the term before it, whose
    description is still found. *)
Theorem new_term_adopted {S : Type} `{StorageLaws S, !StorageTotal S} (w : Watcher S) now lead n :
  watcher_wf w -> IsLeader (w_moon w) = true -> w_done w = false -> 0 < now < 2 ^ 64 -> now <> Term (w_current w) ->
  GetLeaderID (w_moon w) = Ok lead ->
  (exists s, storage_of w IT_NODE_INFO = Some s /\ view s !! FormatUint lead = Some (BI_NodeInfo n)) ->
  exists w' c, timer_fired w now (Some []) = (w', Ok tt) /\ watcher_wf w' /\ w_current w' = c /\
    Term c = now /\ LastTerm c = Term (w_current w) /\ LeaderInfo c = Some n /\
    GetClusterInfoByTerm w' now = Ok c /\ GetClusterInfoByTerm w' 0 = Ok c /\
    (Term (w_current w) <> 0 -> GetClusterInfoByTerm w' (LastTerm c) = Ok (w_current w)) /\
    (exists s, storage_of w IT_NODE_INFO = Some s /\
       forall m, is_u64 (RaftId m) -> view s !! FormatUint (RaftId m) = Some (BI_NodeInfo m) ->
         with_node_state m (node_state w m) ∈ NodesInfo c).
Proof.
  intros Hwf Hlead Hdone Hnow Hne Hl Hleader. set (w0 := set_wtimer w false).
  assert (Hwf0 : watcher_wf w0) by exact Hwf.
  destruct (genNewClusterInfo_total w0 now lead n Hwf0 Hl Hleader) as (c & Egen & Hln).
  destruct (genNewClusterInfo_spec w0 now c Hwf0 Egen) as (_ & _ & (s & ns & Hs & Hin & Hp) & Ht & Hlast & _).
  rewrite u64_id in Ht by (unfold is_u64; lia).
  destruct (apply_cluster w0 c Hwf0) as (w' & sc & sc' & Ea & Hcur & Hsc & Hsc' & Hview & Hok & Hhooks & Hself & Hother & _);
    [rewrite Ht; unfold is_u64; lia|].
  assert (Hwf' : watcher_wf w') by (eapply apply_cluster_wf; try done; rewrite Ht; unfold is_u64; lia).
  assert (Hstored : GetClusterInfoByTerm w' now = Ok c).
  { apply (GetClusterInfoByTerm_stored w' sc'); [done|lia|]. rewrite Hview, Ht. by rewrite lookup_insert_eq. }
  exists w', c. split_and!; try done.
  - unfold timer_fired. fold w0. rewrite (Hdone : w_done w0 = false). cbn [pure st_bind]. rewrite Egen. cbn [st_bind].
    unfold proposeClusterInfo. rewrite (Hlead : IsLeader (w_moon w0) = true). unfold ProposeInfo, cluster_request. cbn [pi_Id].
    rewrite decide_False by (apply (proj2 (FormatUint_digits (Term c)))). cbn [app apply_all]. fold (cluster_request c).
    by rewrite Ea.
  - unfold GetClusterInfoByTerm. rewrite decide_True by done. rewrite Hcur, decide_False by lia. done.
  - intros Hold. rewrite Hlast. destruct Hwf0 as (_ & _ & Hcw & Hcu). destruct (Hcw Hold) as (sc0 & Hsc0 & Hv0).
    rewrite Hsc in Hsc0. injection Hsc0 as <-. apply (GetClusterInfoByTerm_stored w' sc'); [done|done|].
    rewrite Hview, lookup_insert_ne; [exact Hv0|]. intros Heq. apply FormatUint_inj in Heq; [|lia|exact (proj1 Hcu)].
    apply Hne. rewrite <- Ht. exact Heq.
  - exists s. split; [done|]. intros m Hm Hvm. rewrite Hp. apply list_elem_of_fmap. exists m. split; [done|]. by apply Hin.
Qed.

(** C20: descriptions are well formed: a description lists every node once, from the
    highest number down, so it has its pipelines as soon as three of the nodes are
    not offline, and is refused otherwise. *)
Theorem description_has_pipelines `{CR : Crush, !CrushOk} {S : Type} `{StorageLaws S, !StorageTotal S} (w : Watcher S) now c :
  watcher_wf w -> genNewClusterInfo w now = Ok (Some c) -> Z.of_nat (length (NodesInfo c)) < 2 ^ 63 ->
  cluster_wf c /\ StronglySorted node_ge (NodesInfo c) /\
  ((3 <= length (healthyNodes c))%nat -> exists cp, NewClusterPipelines c = Ok cp /\ CP_Term cp = u64 now /\
     pipelines_wf c 10 3 (MetaPipelines cp) /\ pipelines_wf c 100 3 (BlockPipelines cp)) /\
  ((length (healthyNodes c) < 3)%nat -> NewClusterPipelines c = Err (EErrno ClusterNotOK)).
Proof.
  intros Hwf E Hlen. destruct (genNewClusterInfo_spec w now c Hwf E) as (Hnd & Hsort & _ & Ht & _ & Hn).
  injection Hn as Hmn Hms Hbn Hbs.
  assert (Hc : cluster_wf c) by (unfold cluster_wf; rewrite Hmn, Hms, Hbn, Hbs; split_and!; try done; lia).
  split; [done|]. split; [done|].
  destruct (NewClusterPipelines_spec c Hc) as [(Hs1 & Hs2 & cp & Ecp & Htm & Hm & Hb)|[Hlt Eerr]]; rewrite Hms, Hbs in *.
  - split; [|lia]. intros _. exists cp. rewrite Hmn in Hm. rewrite Hbn in Hb. split_and!; try done. congruence.
  - split; [lia|done].
Qed.

(** a node that asks to join is a peer afterwards. Joining never fails in a
    well-formed state; the answer lists every node once, from the highest number
    down, and holds the new node; a node whose number is already known does not
    change what is stored. *)
Theorem joined_node_is_peer {S : Type} `{StorageLaws S, !StorageTotal S} (w : Watcher S) (info : NodeInfo) :
  watcher_wf w -> is_u64 (RaftId info) ->
  exists w' peers, AddNewNodeToCluster w (Some []) true info = (w', Ok peers) /\ watcher_wf w' /\
    NoDup (RaftId <$> peers) /\ StronglySorted node_ge peers /\ RaftId info ∈ RaftId <$> peers /\
    exists old, getCurrentPeerInfo w = Ok old /\
      (RaftId info ∈ RaftId <$> old -> peers = old) /\
      (RaftId info ∉ RaftId <$> old -> peers ≡ₚ info :: old).
Proof.
  intros Hwf Hu. destruct (getCurrentPeerInfo_ok w Hwf) as (s & old & Hs & Eold & Hnd & Hsort & Hin).
  unfold AddNewNodeToCluster. rewrite Eold. cbn [pure st_bind]. destruct (decide _) as [Hk|Hk].
  - assert (Hwf' : watcher_wf (set_moon w (NodeInfoChanged (w_moon w) info))) by exact Hwf.
    cbn [st_bind]. exists (set_moon w (NodeInfoChanged (w_moon w) info)), old.
    assert (getCurrentPeerInfo (set_moon w (NodeInfoChanged (w_moon w) info)) = Ok old) as -> by exact Eold.
    split_and!; try done. by exists old.
  - unfold ProposeInfo. cbn [pi_Id]. rewrite decide_False by (apply (proj2 (FormatUint_digits (RaftId info)))).
    cbn [app apply_all]. destruct (apply_node w info Hwf Hu) as (w' & s0 & s' & Ea & Hs0 & Hs' & Hview & Hwf').
    rewrite Hs in Hs0. injection Hs0 as <-. rewrite Ea. cbn [st_bind].
    destruct (getCurrentPeerInfo_ok w' Hwf') as (s2 & ps & Hs2 & Eps & Hnd' & Hsort' & Hin').
    rewrite Hs' in Hs2. injection Hs2 as <-. rewrite Eps. exists w', ps.
    assert (Hmem : forall m, m ∈ ps <-> m = info \/ m ∈ old).
    { intros m. rewrite Hin', Hin, Hview. destruct (decide (0 <= RaftId m < 2 ^ 64)) as [Hm|Hm].
      2:{ split; [intros [_ Hc]; exfalso; apply Hm; exact Hc|]. intros [->|[_ Hc]]; exfalso; apply Hm; [exact Hu|exact Hc]. }
      destruct (decide (RaftId m = RaftId info)) as [Heq|Hne].
      - rewrite Heq, lookup_insert_eq. split.
        + intros [[= ->] _]. by left.
        + intros [->|[Hv _]]; [done|]. exfalso. apply Hk. rewrite <- Heq. apply list_elem_of_fmap_2. apply Hin.
          rewrite Heq. done.
      - rewrite lookup_insert_ne.
        + split; [by right|]. intros [->|?]; done.
        + intros Hf. apply Hne. symmetry. apply FormatUint_inj; [unfold is_u64 in *; lia..|done]. }
    split_and!; try done.
    + apply list_elem_of_fmap. exists info. split; [done|]. apply Hmem. by left.
    + exists old. split; [done|]. split; [done|]. intros _. apply NoDup_Permutation.
      * by apply NoDup_fmap_1 in Hnd'.
      * constructor; [|by apply NoDup_fmap_1 in Hnd]. intros Hi. apply Hk. by apply list_elem_of_fmap_2.
      * intros m. rewrite Hmem, elem_of_cons. done.
Qed.

(** ** A cluster of three nodes, and one of two, led by node 1 *)

Definition demo_node (k : Z) : NodeInfo := mkNodeInfo k ("u" +:+ FormatUint k) "10.0.0.1" 3267 10 NS_ONLINE.

Definition demo_nodes (ks : list Z) : gmap string Information :=
  list_to_map ((fun k => (FormatUint k, Inf_Base (BI_NodeInfo (demo_node k)))) <$> ks).

Definition demo_hooks : gset string := {[hook_name (demo_node 1)]}.

Lemma demo_hooked : hook_name (demo_node 1) ∈ demo_hooks.
Proof. by apply elem_of_singleton. Qed.

Definition demo_cluster : ClusterInfo := mkClusterInfo 7 (Some (demo_node 1)) (demo_node <$> [3; 2; 1]) None 10 3 100 3 0.

Definition demo_storages (ks : list Z) : StorageRegister MemoryInfoStorage :=
  mkStorageRegister (<[IT_BUCKET_INFO := mkMemoryInfoStorage {[BucketInfo_GetID default_bucket := Inf_Base (BI_BucketInfo default_bucket)]} ∅]>
    (<[IT_NODE_INFO := mkMemoryInfoStorage (demo_nodes ks) demo_hooks]>
    (<[IT_CLUSTER_INFO := mkMemoryInfoStorage {["7" := Inf_Base (BI_ClusterInfo demo_cluster)]} demo_hooks]> ∅))).

Definition demo_watcher (ks : list Z) : Watcher MemoryInfoStorage :=
  mkWatcher (demo_node 1)
    (mkMoon 1 (Some (mkMoonRaft [1; 2; 3] 1)) (demo_node 1) false ∅ 1 (demo_storages ks) StatusOK)
    (mkNodeMonitor (list_to_map ((fun k => (k, mkNodeStatusReport k ("u" +:+ FormatUint k) NS_ONLINE [])) <$> ks)) ∅ ∅ None ∅ ∅)
    true 0 demo_cluster false.

Lemma demo_nodes_entries ks : Forall is_u64 ks -> map_Forall node_entry (view (mkMemoryInfoStorage (demo_nodes ks) demo_hooks)).
Proof.
  intros Hks. cbn [view memory_laws kvStorage]. unfold demo_nodes.
  induction Hks as [|k ks Hk Hks IH]; [intros i x Hi; simpl in Hi; by rewrite lookup_fmap, lookup_empty in Hi|].
  rewrite fmap_cons, list_to_map_cons, fmap_insert. apply map_Forall_insert_2; [|done]. by exists (demo_node k).
Qed.

Lemma demo_watcher_wf ks : Forall is_u64 ks -> watcher_wf (demo_watcher ks).
Proof.
  intros Hks. split_and!.
  - exists (mkMemoryInfoStorage (demo_nodes ks) demo_hooks). split_and!; [done|done|apply demo_hooked|by apply demo_nodes_entries].
  - exists (mkMemoryInfoStorage {["7" := Inf_Base (BI_ClusterInfo demo_cluster)]} demo_hooks).
    split_and!; [done|done|apply demo_hooked|]. cbn [view memory_laws kvStorage]. rewrite map_fmap_singleton.
    apply map_Forall_singleton. by exists demo_cluster.
  - intros _. eexists. split; done.
  - done.
Qed.

Lemma new_term_adopted_witness :
  exists w' c, timer_fired (demo_watcher [1; 2; 3]) 8 (Some []) = (w', Ok tt) /\ Term c = 8 /\
    GetClusterInfoByTerm w' 8 = Ok c /\ GetClusterInfoByTerm w' 7 = Ok demo_cluster.
Proof.
  destruct (new_term_adopted (demo_watcher [1; 2; 3]) 8 1 (demo_node 1)) as (w' & c & E & _ & _ & Ht & Hl & _ & Hc & _ & Ho & _).
  - apply demo_watcher_wf. repeat constructor; unfold is_u64; lia.
  - reflexivity.
  - reflexivity.
  - lia.
  - simpl. lia.
  - reflexivity.
  - eexists. split; reflexivity.
  - exists w', c. split_and!; [exact E|exact Ht|exact Hc|]. rewrite Hl in Ho. by apply Ho.
Defined.

Lemma description_has_pipelines_witness :
  exists c cp, genNewClusterInfo (demo_watcher [1; 2; 3]) 8 = Ok (Some c) /\ @NewClusterPipelines first_crush c = Ok cp /\ CP_Term cp = 8.
Proof.
  eexists. destruct (@description_has_pipelines first_crush first_crush_ok MemoryInfoStorage _ _ _ (demo_watcher [1; 2; 3]) 8 _
    (demo_watcher_wf [1; 2; 3] ltac:(repeat constructor; unfold is_u64; lia)) ltac:(vm_compute; reflexivity) ltac:(simpl; lia))
    as (_ & _ & H1 & _).
  destruct (H1 ltac:(vm_compute; lia)) as (cp & Ecp & Ht & _). exists cp. split_and!; [vm_compute; reflexivity|exact Ecp|exact Ht].
Defined.

Lemma joined_node_is_peer_witness :
  exists w' peers, AddNewNodeToCluster (demo_watcher [1; 2]) (Some []) true (demo_node 3) = (w', Ok peers) /\ 3 ∈ RaftId <$> peers.
Proof.
  destruct (joined_node_is_peer (demo_watcher [1; 2]) (demo_node 3)) as (w' & ps & E & _ & _ & _ & Hin & _).
  - apply demo_watcher_wf. repeat constructor; unfold is_u64; lia.
  - unfold is_u64. simpl. lia.
  - exists w', ps. split; [exact E|exact Hin].
Defined.

(** C16: the watcher and the metadata service fit. A client that knows the current
    description and a registered bucket has its metadata accepted; once the
    watcher has adopted another description the client's old term is refused, and
    the same metadata is accepted again under the new one when it keeps the number
    of placement groups, as the watcher's own descriptions do. *)
Theorem watcher_serves_clients `{HR : HashRing, !HashRingOk} {S : Type} `{StorageLaws S, !StorageTotal S}
    (w : Watcher S) s b key oid pg meta :
  watcher_wf w -> m_stopped (w_moon w) = false -> Term (w_current w) <> 0 ->
  storage_of w IT_BUCKET_INFO = Some s -> view s !! BucketInfo_GetID b = Some (BI_BucketInfo b) ->
  bucket_ok b -> key_ok key = true ->
  GenObjectId b key = Ok oid -> GenObjPgID b key (MetaPgNum (w_current w)) = Ok pg -> ObjId meta = oid -> PgId meta = pg ->
  checkClientTerm (Watcher_Env w) (SetTermToContext (Term (w_current w))) = Ok (Term (w_current w)) /\
  checkObject (Watcher_Env w) (Term (w_current w)) meta = Ok (with_id meta oid) /\
  forall c, is_u64 (Term c) -> Term c <> 0 -> Term c <> Term (w_current w) ->
    exists w', watcher_apply w (cluster_request c) = (w', Ok tt) /\
      checkClientTerm (Watcher_Env w') (SetTermToContext (Term (w_current w))) = Err (EErrno TermNotMatch) /\
      checkClientTerm (Watcher_Env w') (SetTermToContext (Term c)) = Ok (Term c) /\
      (MetaPgNum c = MetaPgNum (w_current w) -> checkObject (Watcher_Env w') (Term c) meta = Ok (with_id meta oid)).
Proof.
  intros Hwf Hrun Hcur Hs Hv Hb Hk Hoid Hpg Hm Hp.
  assert (Hpass : forall v, is_u64 v -> forall e : Env, Alaya.GetCurrentTerm e = v -> checkClientTerm e (SetTermToContext v) = Ok v).
  { intros v Hu e He. unfold checkClientTerm, GetTermFromContext, SetTermToContext. rewrite ParseUint_FormatUint by done.
    cbn [or_err mbind res_bind]. by rewrite decide_False by (rewrite He; intros Hn; by apply Hn). }
  assert (Hbucket : forall w' : Watcher S, m_stopped (w_moon w') = false -> storage_of w' IT_BUCKET_INFO = Some s ->
    exists info, GetInfoDirect (w_moon w') IT_BUCKET_INFO (BucketInfo_GetID b) = Ok info /\ GetBucketInfo (Information_BaseInfo info) = Some b).
  { intros w' Hr Hs'. unfold GetInfoDirect, Register_Get. rewrite Hr. unfold storage_of, w_register in Hs'. rewrite Hs'.
    pose proof (get_view s (BucketInfo_GetID b)) as Hg. rewrite Hv in Hg. destruct Hg as (i & -> & Hi). exists i. by rewrite Hi. }
  destruct (Hwf) as (_ & _ & Hcw & Hcu). destruct (Hcw Hcur) as (sc & Hsc & Hvc). split_and!.
  - by apply Hpass.
  - destruct (Hbucket w Hrun Hs) as (info & Hi & Hgb).
    apply (client_agrees (Watcher_Env w) (Term (w_current w)) b key info (w_current w) oid pg meta); try done.
    by apply (GetClusterInfoByTerm_stored w sc).
  - intros c Hu Hc0 Hne. destruct (apply_cluster w c Hwf Hu) as (w' & s0 & s' & Ea & Hc' & _ & Hs' & Hview & _ & _ & _ & Hother & Hst).
    exists w'. split; [done|]. split_and!.
    + unfold checkClientTerm, GetTermFromContext, SetTermToContext. rewrite ParseUint_FormatUint by done.
      cbn [or_err mbind res_bind Alaya.GetCurrentTerm Watcher_Env]. unfold GetCurrentTerm. by rewrite Hc', decide_True by done.
    + apply Hpass; [done|]. cbn. unfold GetCurrentTerm. by rewrite Hc'.
    + intros Hpgn. destruct (Hbucket w') as (info & Hi & Hgb); [congruence|by rewrite Hother|].
      apply (client_agrees (Watcher_Env w') (Term c) b key info c oid pg meta); try done; [|congruence].
      apply (GetClusterInfoByTerm_stored w' s'); [done|done|]. by rewrite Hview, lookup_insert_eq.
Qed.

Lemma watcher_serves_clients_witness :
  @checkObject length_ring (Watcher_Env (demo_watcher [1; 2; 3])) 7 (demo_meta POSITION_EDGE) =
    Ok (with_id (demo_meta POSITION_EDGE) demo_id).
Proof.
  refine (proj1 (proj2 (@watcher_serves_clients length_ring length_ring_ok MemoryInfoStorage _ _ _ (demo_watcher [1; 2; 3])
    (mkMemoryInfoStorage {[BucketInfo_GetID default_bucket := Inf_Base (BI_BucketInfo default_bucket)]} ∅)
    default_bucket "k" demo_id demo_pg (demo_meta POSITION_EDGE)
    (demo_watcher_wf [1; 2; 3] ltac:(repeat constructor; unfold is_u64; lia)) eq_refl ltac:(simpl; lia) eq_refl _
    default_bucket_ok eq_refl _ _ eq_refl eq_refl))); vm_compute; reflexivity.
Defined.
