(* ===== verification/CleanerProofs.v ===== *)
(** * What the cleaner frees

    A deleted object whose blocks were placed by the current cluster leaves no block
    behind: [Cleaner.v] with the block servers of [Gaia.v] on every node. *)

From S2P Require Import Prelude GoStd Errno Infos InfoStorage Object Pipeline GaiaMsg Gaia MetaStorage Alaya Moon Watcher Cleaner AlayaProofs WatcherProofs.

Section servers.
Context (gaia : Z -> Gaia).

Definition copy_path (id : Z) (blockID : string) : string := Join [g_base (gaia id); blockID].

(** The server of a node knows the cluster and itself. *)
Definition server_ok (c : ClusterInfo) (id : Z) : Prop := g_self (gaia id) = id /\ forall term, g_cluster (gaia id) term = Ok c.

Lemma DeleteBlock_copy c ds blockID pg id : server_ok c id -> is_Some (ds id !! copy_path id blockID) ->
  deletes_copy gaia ds blockID pg id = (delete (copy_path id blockID) (ds id), Ok (mkResult Result_OK 0 "")).
Proof.
  intros [Hself Hc] [f Hf]. unfold deletes_copy, DeleteBlock. rewrite Hc. unfold NewPrimaryCopyTransporter.
  cbn [or_panic mbind res_bind P_RaftId make_remotes]. rewrite decide_True by done. cbn [mbind res_bind].
  unfold T_Delete, GetStoragePath. cbn [t_info or_panic mbind res_bind t_base BlockId remoteWriters delete_remotes].
  fold (copy_path id blockID). rewrite Hf. done.
Qed.

(** What removing a block from some nodes leaves. *)
Definition freed (ds ds' : Z -> Disk) (blockID : string) (ids : list Z) : Prop :=
  forall i, ds' i = if decide (i ∈ ids) then delete (copy_path i blockID) (ds i) else ds i.

Lemma delete_copies_freed c blockID pg ids : forall ds, NoDup ids -> Forall (server_ok c) ids ->
  Forall (fun id => is_Some (ds id !! copy_path id blockID)) ids -> freed ds (delete_copies gaia ds blockID pg ids) blockID ids.
Proof.
  induction ids as [|id ids IH]; intros ds Hnd Hs Hf i; [by rewrite decide_False by apply not_elem_of_nil|].
  inversion Hnd as [|? ? Hnin Hnd']; subst. inversion Hs as [|? ? Hid Hs']; subst. inversion Hf as [|? ? Hfid Hf']; subst.
  cbn [delete_copies]. rewrite (DeleteBlock_copy c) by done. rewrite IH; [|done|done|].
  - unfold set_disk. destruct (decide (i = id)) as [->|Hne].
    + rewrite decide_False by done. by rewrite decide_True by by left.
    + destruct (decide (i ∈ ids)) as [Hin|Hin]; [by rewrite decide_True by by right|].
      rewrite decide_False; [done|]. by intros [?|?]%elem_of_cons.
  - apply List.Forall_forall. intros j Hj%list_elem_of_In. unfold set_disk. rewrite decide_False by (intros ->; done).
    rewrite List.Forall_forall in Hf'. apply Hf'. by apply list_elem_of_In.
Qed.

Lemma Forall_keep {A} (P Q : A -> Prop) `{!forall x, Decision (Q x)} l : Forall P l -> Forall P (filter Q l).
Proof. rewrite !List.Forall_forall. intros HP x Hx%list_elem_of_In%list_elem_of_filter. apply HP, list_elem_of_In, Hx. Qed.

Lemma delete_remotes_ok link ws : Forall (fun w => link_conn (link (rw_node w)) = true /\ exists r, link_delete (link (rw_node w)) = Ok r) ws ->
  delete_remotes link ws = Ok tt.
Proof. induction 1 as [|w ws [Hc [r Hr]] _ IH]; [done|]. cbn [delete_remotes]. unfold RW_Delete. rewrite Hc, Hr. exact IH. Qed.

Lemma cluster_delete_freed c ds n blockID p term : NoDup (P_RaftId p) -> RaftId n ∈ P_RaftId p ->
  Forall (server_ok c) (P_RaftId p) -> (forall id, id ∈ P_RaftId p -> exists n, n ∈ NodesInfo c /\ RaftId n = id) ->
  Forall (fun id => is_Some (ds id !! copy_path id blockID)) (P_RaftId p) ->
  exists ds', cluster_delete gaia ds n blockID p term = (ds', Ok tt) /\ freed ds ds' blockID (P_RaftId p).
Proof.
  intros Hnd Hin Hs Hnodes Hf. pose proof Hs as Hs'. rewrite List.Forall_forall in Hs'.
  pose proof Hf as Hf'. rewrite List.Forall_forall in Hf'.
  destruct (Hs' (RaftId n)) as [Hself Hc]; [by apply list_elem_of_In|].
  destruct (make_remotes_ok (mkBlockInfo blockID 0 0 "" 0) p (RaftId n) c (P_RaftId p) Hnodes) as (ws & Ews & HF & _).
  destruct (Hf' (RaftId n)) as [f Ef]; [by apply list_elem_of_In|].
  unfold cluster_delete, DeleteBlock. rewrite Hc. unfold NewPrimaryCopyTransporter. cbn [or_panic mbind res_bind].
  rewrite Hself, Ews. cbn [mbind res_bind]. unfold T_Delete, GetStoragePath. cbn [t_info or_panic mbind res_bind t_base BlockId remoteWriters].
  rewrite delete_remotes_ok.
  - fold (copy_path (RaftId n) blockID). rewrite Ef. cbn [st_bind]. eexists. split; [reflexivity|]. intros i. unfold set_disk.
    destruct (decide (i = RaftId n)) as [->|Hne]; [by rewrite decide_True|].
    rewrite (delete_copies_freed c); [|by apply NoDup_filter|by apply Forall_keep|by apply Forall_keep].
    destruct (decide (i ∈ P_RaftId p)) as [Hi|Hi]; [by rewrite decide_True by by apply list_elem_of_filter|].
    rewrite decide_False; [done|]. by intros [_ ?]%list_elem_of_filter.
  - eapply Forall_impl; [exact HF|]. intros w (_ & _ & _ & Hw & Hne). split; [done|]. cbn [delete_link link_delete].
    rewrite (DeleteBlock_copy c); [by eexists|apply Hs'; by apply list_elem_of_In|apply Hf'; by apply list_elem_of_In].
Qed.

End servers.

(** ** The blocks of an object *)

Section cleaning.
Context `{HR : HashRing, CR : Crush, !HashRingOk, !CrushOk}.
Context {S : Type} `{Storage S}.
Context (gaia : Z -> Gaia) (connect : NodeInfo -> option error) (w : Watcher S).

(** The nodes the current cluster keeps a block on. *)
Definition replicas_of (blockID : string) (ids : list Z) : Prop :=
  exists cp pg, NewClusterPipelines (w_current w) = Ok cp /\ GenBlockPgID blockID (BlockPgNum (w_current w)) = Ok pg /\
    GetBlockPG cp pg = Ok ids.

(** Every node of the cluster is known, reachable and serves blocks. *)
Record cluster_serves : Prop := {
  serves_wf : cluster_wf (w_current w);
  serves_pipelines : exists cp, NewClusterPipelines (w_current w) = Ok cp;
  serves_known : forall n, n ∈ NodesInfo (w_current w) -> exists info n', 
    GetInfoDirect (w_moon w) IT_NODE_INFO (FormatUint (RaftId n)) = Ok info /\
    GetNodeInfo (Information_BaseInfo info) = Some n' /\ RaftId n' = RaftId n /\ connect n' = None;
  serves_blocks : forall n, n ∈ NodesInfo (w_current w) -> server_ok gaia (w_current w) (RaftId n)
}.

(** Every replica holds the block. *)
Definition held (ds : Z -> Disk) (blockID : string) : Prop :=
  forall ids id, replicas_of blockID ids -> id ∈ ids -> is_Some (ds id !! copy_path gaia id blockID).

Lemma RemoveBlock_frees ds term b : cluster_serves -> held ds (BlockId b) ->
  exists ids ds', replicas_of (BlockId b) ids /\ RemoveBlock connect (cluster_delete gaia) w ds term b = (ds', Ok tt) /\
    freed gaia ds ds' (BlockId b) ids.
Proof.
  intros [Hwf [cp Hcp] Hknown Hblocks] Hheld.
  destruct (NewClusterPipelines_spec _ Hwf) as [(_ & _ & cp' & Hcp' & _ & _ & Hn & Hbl)|[_ Herr]]; [|congruence].
  rewrite Hcp in Hcp'. injection Hcp' as <-. destruct Hwf as (_ & _ & _ & _ & Hbn & Hbs).
  destruct (GenBlockPgID_range (BlockId b) (BlockPgNum (w_current w)) Hbn) as (pg & Hpg & Hr).
  destruct (Hbl pg Hr) as (p & Hp & _ & _ & Hlen & Hnd & Hin).
  assert (GetBlockPG cp pg = Ok (P_RaftId p)) as Hids by (unfold GetBlockPG; by rewrite Hp).
  assert (replicas_of (BlockId b) (P_RaftId p)) as Hrep by by exists cp, pg.
  destruct (P_RaftId p) as [|id rest] eqn:Er; [cbn in Hlen; lia|]. rewrite <-Er in *.
  assert (forall i, i ∈ P_RaftId p -> exists n, n ∈ NodesInfo (w_current w) /\ RaftId n = i) as Hnodes.
  { intros i Hi. destruct (Hin i Hi) as (n & ? & ? & _). by exists n. }
  destruct (Hnodes id) as (n & Hni & Hid); [rewrite Er; by left|].
  destruct (Hknown n Hni) as (info & n' & Hinfo & Hn' & Hid' & Hc).
  destruct (cluster_delete_freed gaia (w_current w) ds n' (BlockId b) p term Hnd) as (ds' & Hdel & Hfreed).
  - rewrite Hid', Hid, Er. by left.
  - apply List.Forall_forall. intros i Hi%list_elem_of_In. destruct (Hnodes i Hi) as (m & Hm & <-). by apply Hblocks.
  - done.
  - apply List.Forall_forall. intros i Hi%list_elem_of_In. by apply (Hheld (P_RaftId p)).
  - exists (P_RaftId p), ds'. split_and!; [done| |done].
    unfold RemoveBlock, pure. rewrite Hpg. cbn [st_bind]. rewrite Hcp. cbn [st_bind]. rewrite Hids. cbn [st_bind].
    rewrite Er. cbn [head or_panic st_bind]. rewrite <-Hid, Hinfo. cbn [st_bind]. rewrite Hn'. cbn [or_panic st_bind].
    rewrite Hc. unfold GetBlockPipeline. rewrite Hp. exact Hdel.
Qed.

Lemma remove_blocks_frees bs term : cluster_serves -> (forall id, NoDup ((fun b => copy_path gaia id (BlockId b)) <$> bs)) ->
  forall ds, (forall b, b ∈ bs -> held ds (BlockId b)) ->
  exists ds', remove_blocks connect (cluster_delete gaia) w ds term bs = (ds', Ok tt) /\
    (forall b ids id, b ∈ bs -> replicas_of (BlockId b) ids -> id ∈ ids -> ds' id !! copy_path gaia id (BlockId b) = None) /\
    (forall id path, (forall b, b ∈ bs -> path <> copy_path gaia id (BlockId b)) -> ds' id !! path = ds id !! path).
Proof.
  intros Hc. induction bs as [|b bs IH]; intros Hnd ds Hheld.
  - exists ds. split_and!; [done| |done]. intros b ids id Hb. by apply not_elem_of_nil in Hb.
  - destruct (RemoveBlock_frees ds term b Hc) as (ids & ds1 & Hids & E1 & Hfreed); [apply Hheld; by left|].
    assert (forall id path, path <> copy_path gaia id (BlockId b) -> ds1 id !! path = ds id !! path) as Hkeep.
    { intros id path Hne. rewrite (Hfreed id). destruct (decide _); [by rewrite lookup_delete_ne|done]. }
    assert (forall id b', b' ∈ bs -> copy_path gaia id (BlockId b') <> copy_path gaia id (BlockId b)) as Hother.
    { intros id b' Hb' Heq. specialize (Hnd id). rewrite fmap_cons in Hnd. inversion Hnd as [|? ? Hnin _]; subst.
      apply Hnin. rewrite <-Heq. apply (list_elem_of_fmap_2 (fun b => copy_path gaia id (BlockId b))), Hb'. }
    destruct (IH ltac:(intros id; specialize (Hnd id); by inversion Hnd) ds1) as (ds' & E & Hgone & Hrest).
    { intros b' Hb' ids' id Hr Hid. rewrite Hkeep by by apply Hother. apply (Hheld b' ltac:(by right) ids' id Hr Hid). }
    exists ds'. split_and!.
    + cbn [remove_blocks]. rewrite E1. exact E.
    + intros b' ids' id [->|Hb']%elem_of_cons Hr Hid; [|by eapply Hgone].
      rewrite Hrest by (intros b' Hb'; apply not_eq_sym, Hother, Hb').
      rewrite (Hfreed id). destruct Hids as (cp & pg & Ecp & Epg & Eids), Hr as (cp' & pg' & Ecp' & Epg' & Eids').
      rewrite decide_True; [by rewrite lookup_delete_eq|]. congruence.
    + intros id path Hne. rewrite Hrest by (intros b' Hb'; apply Hne; by right). apply Hkeep, Hne. by left.
Qed.

End cleaning.


Definition cleaner_gaia (id : Z) : Gaia := mkGaia id "/data" 2 false (fun _ => Ok demo_cluster).

Definition cleaner_disks : Z -> Disk := fun _ => {["/data/blk" := [x61]; "/data/other" := [x62]]}.

Definition cleaner_meta : ObjectMeta := mkObjectMeta "root/default/1/k" STATUS_OK POSITION_EDGE 1 None "" 1 [mkBlockInfo "blk" 0 1 "" 4] 7 None.

Lemma cleaner_serves : @cluster_serves first_crush _ _ cleaner_gaia (fun _ => None) (demo_watcher [3; 2; 1]).
Proof.
  constructor.
  - split_and!; simpl; try lia. apply (bool_decide_unpack (NoDup [3; 2; 1])). vm_compute. exact I.
  - eexists. vm_compute. reflexivity.
  - intros n Hn. cbn [demo_watcher w_current demo_cluster NodesInfo] in Hn. rewrite !fmap_cons in Hn.
    repeat (apply elem_of_cons in Hn as [->|Hn]; [eexists _, _; split_and!; vm_compute; reflexivity|]). by apply not_elem_of_nil in Hn.
  - intros n Hn. by split.
Qed.

