(* ===== verification/RaftNode.v ===== *)
(** * The driver of the raft library: [src/edge-node/raft-node/raft_node.go]

    The library hands over batches ([Ready]) of committed entries and snapshots;
    the driver gives the entries' data to the state machine over [CommitC], once
    each and in order, applies configuration changes, and takes a snapshot of the
    state machine every [snapCount] entries. The state machine applies a commit
    while the driver goes on: the driver waits for it only where it sends the next
    commit, and before a snapshot when the batch itself had data. The write-ahead
    log and the library's storage are outside; an error of theirs is a panic. *)

From S2P Require Import Prelude GoStd Errno GaiaMsg.

Inductive EntryType := EntryNormal | EntryConfChange.

Record Entry := mkEntry { e_Index : Z; e_Type : EntryType; e_Data : bytes }.

Section raft_node.

(** A configuration change, the configuration state, and what the library does
    with one. *)
Context {CC CS : Type} (unmarshal_cc : bytes -> option CC) (ApplyConfChange : CS -> CC -> CS).

Record RaftNode := mkRaftNode {
  rn_ConfState : CS;
  snapshotIndex : Z;
  appliedIndex : Z;
  snapCount : Z
}.

Definition set_conf (rc : RaftNode) (cs : CS) : RaftNode :=
  mkRaftNode cs (snapshotIndex rc) (appliedIndex rc) (snapCount rc).

Definition set_applied (rc : RaftNode) (i : Z) : RaftNode :=
  mkRaftNode (rn_ConfState rc) (snapshotIndex rc) i (snapCount rc).

(** What the upper layer sees. [Ev_Commit None] tells it to load the snapshot. *)
Inductive Event :=
  | Ev_Commit (c : option (list bytes))
  | Ev_ConfChange (cc : CC).

Definition entriesToApply (rc : RaftNode) (ents : list Entry) : res (list Entry) :=
  match ents with
  | [] => Ok []
  | e :: _ =>
      if decide (u64 (appliedIndex rc + 1) < e_Index e) then Panic
      else
        let k := u64 (u64 (appliedIndex rc - e_Index e) + 1) in
        if decide (k < Z.of_nat (length ents)) then Ok (drop (Z.to_nat k) ents) else Ok []
  end.

(** The loop of [publishEntries]: the data, and the changes as they are applied. *)
Fixpoint publish_loop (rc : RaftNode) (ents : list Entry) : RaftNode * list CC * res (list bytes) :=
  match ents with
  | [] => (rc, [], Ok [])
  | e :: ents' =>
      match e_Type e with
      | EntryNormal =>
          let '(rc', ccs, r) := publish_loop rc ents' in
          (rc', ccs, ds ← r; Ok (if decide (e_Data e = []) then ds else e_Data e :: ds))
      | EntryConfChange =>
          match unmarshal_cc (e_Data e) with
          | None => (rc, [], Panic)
          | Some cc =>
              let '(rc', ccs, r) := publish_loop (set_conf rc (ApplyConfChange (rn_ConfState rc) cc)) ents' in
              (rc', cc :: ccs, r)
          end
      end
  end.

(** [stopped]: the context is done before the state machine takes the commit. The
    result is whether there is a commit to wait for, [None] when the node stops. *)
Definition publishEntries (stopped : bool) (rc : RaftNode) (ents : list Entry)
    : RaftNode * list Event * res (option bool) :=
  match last ents with
  | None => (rc, [], Ok (Some false))
  | Some e =>
      match publish_loop rc ents with
      | (rc, ccs, Ok data) =>
          let evs := Ev_ConfChange <$> ccs in
          match data with
          | [] => (set_applied rc (e_Index e), evs, Ok (Some false))
          | _ => if stopped then (rc, evs, Ok None)
                 else (set_applied rc (e_Index e), evs ++ [Ev_Commit (Some data)], Ok (Some true))
          end
      | (rc, ccs, Err e) => (rc, Ev_ConfChange <$> ccs, Err e)
      | (rc, ccs, Panic) => (rc, Ev_ConfChange <$> ccs, Panic)
      | (rc, ccs, Stuck) => (rc, Ev_ConfChange <$> ccs, Stuck)
      end
  end.

(** Index 0 marks the empty snapshot. *)
Definition publishSnapshot (rc : RaftNode) (snapshot : Z * CS) : RaftNode * list Event * res unit :=
  if decide (snapshot.1 = 0) then (rc, [], Ok tt)
  else if decide (snapshot.1 <= appliedIndex rc) then (rc, [], Panic)
  else (mkRaftNode snapshot.2 snapshot.1 snapshot.1 (snapCount rc), [Ev_Commit None], Ok tt).

Definition snapshotCatchUpEntriesN : Z := 2000.
Definition defaultSnapshotCount : Z := 2000.

(** What a snapshot leaves behind: its index and the index the log is cut at. *)
Definition compactIndex (rc : RaftNode) : Z :=
  if decide (snapshotCatchUpEntriesN < appliedIndex rc) then appliedIndex rc - snapshotCatchUpEntriesN else 1.

Definition needs_snapshot (rc : RaftNode) : bool :=
  negb (bool_decide (u64 (appliedIndex rc - snapshotIndex rc) <= snapCount rc)).

Definition maybeTriggerSnapshot (rc : RaftNode) : RaftNode * option (Z * Z) :=
  if needs_snapshot rc
  then (mkRaftNode (rn_ConfState rc) (appliedIndex rc) (appliedIndex rc) (snapCount rc), Some (appliedIndex rc, compactIndex rc))
  else (rc, None).

Record Ready := mkReady { rd_Snapshot : Z * CS; rd_CommittedEntries : list Entry }.

(** One turn of [serveChannels] on a [Ready]: the node, the events, and the
    snapshot taken. [None] is a node that has stopped. *)
Definition serve_ready (stopped : bool) (rc : RaftNode) (rd : Ready)
    : RaftNode * list Event * res (option (bool * option (Z * Z))) :=
  match publishSnapshot rc (rd_Snapshot rd) with
  | (rc, evs, Ok _) =>
      match entriesToApply rc (rd_CommittedEntries rd) with
      | Ok ents =>
          match publishEntries stopped rc ents with
          | (rc, evs', Ok (Some waits)) =>
              let '(rc, snap) := maybeTriggerSnapshot rc in
              (rc, evs ++ evs', Ok (Some (waits, snap)))
          | (rc, evs', Ok None) => (rc, evs ++ evs', Ok None)
          | (rc, evs', Err e) => (rc, evs ++ evs', Err e)
          | (rc, evs', Panic) => (rc, evs ++ evs', Panic)
          | (rc, evs', Stuck) => (rc, evs ++ evs', Stuck)
          end
      | Err e => (rc, evs, Err e)
      | Panic => (rc, evs, Panic)
      | Stuck => (rc, evs, Stuck)
      end
  | (rc, evs, Err e) => (rc, evs, Err e)
  | (rc, evs, Panic) => (rc, evs, Panic)
  | (rc, evs, Stuck) => (rc, evs, Stuck)
  end.

(** ** The driver and the state machine side by side

    [applied] is what the state machine has applied, [pending] the rest of the
    commit it is busy with. *)

Record Running := mkRunning {
  node : RaftNode;
  applied : list bytes;
  pending : list bytes;
  snapshots : list (Z * list bytes)     (* the snapshots taken, latest first *)
}.

Definition commits (evs : list Event) : list bytes :=
  flat_map (fun ev => match ev with Ev_Commit (Some ds) => ds | _ => [] end) evs.

(** [made]: the batches the library makes for a node in this state. *)
Inductive run_step (made : RaftNode -> Ready -> Prop) : Running -> Running -> Prop :=
  (* the state machine applies one entry *)
  | R_apply n a d ds ss : run_step made (mkRunning n a (d :: ds) ss) (mkRunning n (a ++ [d]) ds ss)
  (* a batch without data: nothing is waited for *)
  | R_quiet n a ds ss rd n' evs snap :
      made n rd -> serve_ready false n rd = (n', evs, Ok (Some (false, snap))) -> commits evs = [] ->
      run_step made (mkRunning n a ds ss)
        (mkRunning n' a ds (match snap with Some (i, _) => (i, a) :: ss | None => ss end))
  (* a batch with data is taken by an idle state machine *)
  | R_commit n a ss rd n' evs :
      made n rd -> serve_ready false n rd = (n', evs, Ok (Some (true, None))) ->
      run_step made (mkRunning n a [] ss) (mkRunning n' a (commits evs) ss)
  (* and a snapshot after it waits until it is applied *)
  | R_commit_snapshot n a ss rd n' evs i c :
      made n rd -> serve_ready false n rd = (n', evs, Ok (Some (true, Some (i, c)))) ->
      run_step made (mkRunning n a [] ss) (mkRunning n' (a ++ commits evs) [] ((i, a ++ commits evs) :: ss)).

End raft_node.

Arguments RaftNode CS : clear implicits.
Arguments Ready CS : clear implicits.
Arguments Running CS : clear implicits.
