(* ===== verification/RaftNodeProofs.v ===== *)
(** * Committed entries reach the state machine once and in order

    Proofs about [RaftNode.v] for the batches the raft library makes from a log:
    contiguous, and never beginning beyond the next entry. *)

From S2P Require Import Prelude GoStd Errno GaiaMsg RaftNode.

Section proofs.
Context {CC CS : Type} (unmarshal_cc : bytes -> option CC) (ApplyConfChange : CS -> CC -> CS).

(** ** The log *)

(** Entry [i] of the list has index [i + 1]; configuration changes can be read. *)
Definition log_wf (log : list Entry) : Prop :=
  Z.of_nat (length log) < 2 ^ 62 /\
  (forall i e, log !! i = Some e -> e_Index e = Z.of_nat i + 1) /\
  (forall e, e ∈ log -> e_Type e = EntryConfChange -> is_Some (unmarshal_cc (e_Data e))).

Definition slice (log : list Entry) (a b : nat) : list Entry := take (b - a) (drop a log).

(** The data of the entries, as the state machine sees it. *)
Definition data_of (ents : list Entry) : list bytes :=
  omap (fun e => match e_Type e with
                 | EntryNormal => if decide (e_Data e = []) then None else Some (e_Data e)
                 | EntryConfChange => None
                 end) ents.

(** The configuration after them. *)
Definition conf_of (cs : CS) (ents : list Entry) : CS :=
  foldl (fun cs e => match e_Type e with
                     | EntryNormal => cs
                     | EntryConfChange => match unmarshal_cc (e_Data e) with Some cc => ApplyConfChange cs cc | None => cs end
                     end) cs ents.

(** The batches the library makes: no snapshot, entries [f + 1] to [l] of the log,
    not beyond the next one. *)
Definition batch (log : list Entry) (rc : RaftNode CS) (rd : Ready CS) : Prop :=
  (rd_Snapshot rd).1 = 0 /\ exists f l, rd_CommittedEntries rd = slice log f l /\ (f <= l <= length log)%nat /\
    Z.of_nat f <= appliedIndex rc.

Lemma slice_length log a b : (a <= b <= length log)%nat -> length (slice log a b) = (b - a)%nat.
Proof. intros H. unfold slice. rewrite length_take, length_drop. lia. Qed.

Lemma slice_lookup log a b i : (a <= b <= length log)%nat -> (i < b - a)%nat -> slice log a b !! i = log !! (a + i)%nat.
Proof. intros H Hi. unfold slice. rewrite lookup_take_lt by lia. by rewrite lookup_drop. Qed.

Lemma slice_drop log a b k : (a + k <= b)%nat -> drop k (slice log a b) = slice log (a + k) b.
Proof. intros H. unfold slice. rewrite skipn_firstn_comm, drop_drop. f_equal. lia. Qed.

Lemma slice_app log a b c : (a <= b <= c)%nat -> slice log a c = slice log a b ++ slice log b c.
Proof.
  intros H. unfold slice. replace (c - a)%nat with ((b - a) + (c - b))%nat by lia.
  rewrite <- take_take_drop, drop_drop. by replace (a + (b - a))%nat with b by lia.
Qed.

Lemma slice_self log a : slice log a a = [].
Proof. unfold slice. by rewrite Nat.sub_diag. Qed.

Lemma slice_take log a : slice log 0 a = take a log.
Proof. unfold slice. by rewrite Nat.sub_0_r. Qed.

(** ** One batch *)

Lemma entriesToApply_ok log (rc : RaftNode CS) a f l : log_wf log -> appliedIndex rc = Z.of_nat a -> (a <= length log)%nat ->
  (f <= l <= length log)%nat -> (f <= a)%nat ->
  entriesToApply rc (slice log f l) = Ok (slice log a (Nat.max a l)).
Proof.
  intros (Hb & Hidx & _) Ha Hal Hl Hf. unfold entriesToApply.
  destruct (slice log f l) as [|e es] eqn:E.
  - apply (f_equal length) in E. rewrite slice_length in E by done. simpl in E.
    replace (Nat.max a l) with a by lia. by rewrite slice_self.
  - assert (e_Index e = Z.of_nat f + 1) as He.
    { apply Hidx. rewrite <- (Nat.add_0_r f). rewrite <- (slice_lookup log f l); [by rewrite E|done|].
      rewrite <- (slice_length log f l), E by done. simpl. lia. }
    rewrite <- E. rewrite slice_length by done. rewrite Ha, He.
    rewrite decide_False by (rewrite u64_id by (unfold is_u64; lia); lia).
    assert (u64 (u64 (Z.of_nat a - (Z.of_nat f + 1)) + 1) = Z.of_nat (a - f)) as ->.
    { unfold u64. rewrite Zplus_mod_idemp_l. rewrite Z.mod_small; lia. }
    destruct (decide _) as [Hlt|Hge].
    + rewrite Nat2Z.id, slice_drop by lia. do 2 f_equal; lia.
    + replace (Nat.max a l) with a by lia. by rewrite slice_self.
Qed.

Lemma publish_loop_ok ents : forall rc : RaftNode CS,
  (forall e, e ∈ ents -> e_Type e = EntryConfChange -> is_Some (unmarshal_cc (e_Data e))) ->
  exists ccs, publish_loop unmarshal_cc ApplyConfChange rc ents =
    (set_conf rc (conf_of (rn_ConfState rc) ents), ccs, Ok (data_of ents)).
Proof.
  induction ents as [|e ents IH]; intros rc Hcc; [exists []; by destruct rc|].
  assert (forall e', e' ∈ ents -> e_Type e' = EntryConfChange -> is_Some (unmarshal_cc (e_Data e'))) as Hcc'
    by (intros e' He'; apply Hcc; by right).
  simpl. specialize (Hcc e ltac:(left)). destruct (e_Type e) eqn:Et.
  - destruct (IH rc Hcc') as (ccs & ->). exists ccs. by destruct (decide _).
  - destruct (Hcc eq_refl) as [cc Ec]. rewrite Ec.
    destruct (IH (set_conf rc (ApplyConfChange (rn_ConfState rc) cc)) Hcc') as (ccs & ->). exists (cc :: ccs).
    done.
Qed.

Lemma commits_conf (ccs : list CC) evs : commits ((Ev_ConfChange <$> ccs) ++ evs) = commits evs.
Proof. induction ccs; done. Qed.

Lemma slice_last log a b e : log_wf log -> (a < b <= length log)%nat -> last (slice log a b) = Some e -> e_Index e = Z.of_nat b.
Proof.
  intros (_ & Hidx & _) Hb He. rewrite last_lookup, slice_length, slice_lookup in He by lia.
  rewrite (Hidx _ _ He). lia.
Qed.

(** What one batch does. *)
Lemma serve_ready_at log (rc : RaftNode CS) (rd : Ready CS) a f l : log_wf log ->
  (rd_Snapshot rd).1 = 0 -> rd_CommittedEntries rd = slice log f l -> (f <= l <= length log)%nat -> (f <= a)%nat ->
  appliedIndex rc = Z.of_nat a -> (a <= length log)%nat -> 0 <= snapshotIndex rc <= Z.of_nat a ->
  let b := Nat.max a l in
  exists rc' evs w snap, serve_ready unmarshal_cc ApplyConfChange false rc rd = (rc', evs, Ok (Some (w, snap))) /\
    appliedIndex rc' = Z.of_nat b /\
    commits evs = data_of (slice log a b) /\ rn_ConfState rc' = conf_of (rn_ConfState rc) (slice log a b) /\
    (w = false <-> commits evs = []) /\ snapCount rc' = snapCount rc /\
    snap = (if decide (snapCount rc < Z.of_nat b - snapshotIndex rc) then Some (Z.of_nat b, compactIndex rc') else None) /\
    snapshotIndex rc' = (if decide (snapCount rc < Z.of_nat b - snapshotIndex rc) then Z.of_nat b else snapshotIndex rc).
Proof.
  intros Hwf Hs Hents Hfl Hf Ha Hal Hsi b. pose proof Hwf as (Hb & _ & Hcc).
  unfold serve_ready, publishSnapshot. rewrite decide_True by done. rewrite Hents.
  rewrite (entriesToApply_ok log rc a f l) by (done || lia). fold b.
  assert (Hend : forall rc0 : RaftNode CS, appliedIndex rc0 = Z.of_nat b -> snapshotIndex rc0 = snapshotIndex rc -> snapCount rc0 = snapCount rc ->
    exists rc' snap, maybeTriggerSnapshot rc0 = (rc', snap) /\ appliedIndex rc' = Z.of_nat b /\
      rn_ConfState rc' = rn_ConfState rc0 /\ snapCount rc' = snapCount rc /\
      snap = (if decide (snapCount rc < Z.of_nat b - snapshotIndex rc) then Some (Z.of_nat b, compactIndex rc') else None) /\
      snapshotIndex rc' = (if decide (snapCount rc < Z.of_nat b - snapshotIndex rc) then Z.of_nat b else snapshotIndex rc)).
  { intros rc0 H1 H2 H3. unfold maybeTriggerSnapshot, needs_snapshot. rewrite H1, H2, H3.
    rewrite u64_id by (unfold is_u64; lia). destruct (decide _).
    - rewrite bool_decide_false by lia. simpl. eexists _, _. split_and!; try done. unfold compactIndex. simpl. by rewrite H1.
    - rewrite bool_decide_true by lia. simpl. exists rc0, None. split_and!; done. }
  assert (Hab : (a <= b <= length log)%nat) by lia.
  destruct (decide (a = b)) as [Heq|Hne].
  - clearbody b. subst b. rewrite slice_self. cbn [publishEntries last].
    destruct (Hend rc) as (rc' & snap & -> & H1 & H2 & H3 & H4 & H5); [congruence|done|done|].
    exists rc', ([] ++ []), false, snap. by split_and!.
  - unfold publishEntries. destruct (last (slice log a b)) as [e|] eqn:El.
    2:{ apply last_None, (f_equal length) in El. rewrite slice_length in El by lia. simpl in El. lia. }
    destruct (publish_loop_ok (slice log a b) rc) as (ccs & ->).
    { intros e' He'. apply Hcc. unfold slice in He'. apply list_elem_of_In in He'.
      apply list_elem_of_In. rewrite <- (take_drop a log). apply in_or_app. right.
      rewrite <- (take_drop (b - a) (drop a log)). apply in_or_app. by left. }
    rewrite (slice_last log a b e Hwf ltac:(lia) El).
    destruct (data_of (slice log a b)) as [|d ds] eqn:Ed.
    + destruct (Hend (set_applied (set_conf rc (conf_of (rn_ConfState rc) (slice log a b))) (Z.of_nat b)))
        as (rc' & snap & -> & H1 & H2 & H3 & H4 & H5); try done.
      eexists rc', _, false, snap. split; [done|]. split; [done|].
      assert (commits ([] ++ (Ev_ConfChange <$> ccs)) = []) as Hc.
      { simpl. rewrite <- (app_nil_r (Ev_ConfChange <$> ccs)). by rewrite commits_conf. }
      by split_and!.
    + destruct (Hend (set_applied (set_conf rc (conf_of (rn_ConfState rc) (slice log a b))) (Z.of_nat b)))
        as (rc' & snap & -> & H1 & H2 & H3 & H4 & H5); try done.
      eexists rc', _, true, snap. split; [done|]. split; [done|].
      simpl app. rewrite commits_conf. simpl. rewrite app_nil_r. by split_and!.
Qed.

Lemma serve_ready_ok log (rc : RaftNode CS) (rd : Ready CS) a : log_wf log -> batch log rc rd ->
  appliedIndex rc = Z.of_nat a -> (a <= length log)%nat -> 0 <= snapshotIndex rc <= Z.of_nat a ->
  exists rc' evs w snap b, serve_ready unmarshal_cc ApplyConfChange false rc rd = (rc', evs, Ok (Some (w, snap))) /\
    (a <= b <= length log)%nat /\ appliedIndex rc' = Z.of_nat b /\
    commits evs = data_of (slice log a b) /\ rn_ConfState rc' = conf_of (rn_ConfState rc) (slice log a b) /\
    (w = false <-> commits evs = []) /\ snapCount rc' = snapCount rc /\
    snap = (if decide (snapCount rc < Z.of_nat b - snapshotIndex rc) then Some (Z.of_nat b, compactIndex rc') else None) /\
    snapshotIndex rc' = (if decide (snapCount rc < Z.of_nat b - snapshotIndex rc) then Z.of_nat b else snapshotIndex rc).
Proof.
  intros Hwf (Hs & f & l & Hents & Hfl & Hf) Ha Hal Hsi.
  destruct (serve_ready_at log rc rd a f l) as (rc' & evs & w & snap & H); try done; try lia.
  exists rc', evs, w, snap, (Nat.max a l). destruct H as (H1 & H2). split; [done|]. split; [lia|done].
Qed.

(** ** Runs *)

Lemma data_of_app l1 l2 : data_of (l1 ++ l2) = data_of l1 ++ data_of l2.
Proof. apply omap_app. Qed.

Lemma data_of_take log a b : (a <= b)%nat -> data_of (take b log) = data_of (take a log) ++ data_of (slice log a b).
Proof. intros H. rewrite <- !slice_take, (slice_app log 0 a b) by lia. apply data_of_app. Qed.

(** What holds in every state of a run. *)
Definition run_inv (log : list Entry) (cs0 : CS) (k : Z) (R : Running CS) : Prop :=
  exists a, (a <= length log)%nat /\ appliedIndex (node R) = Z.of_nat a /\ snapCount (node R) = k /\
    applied R ++ pending R = data_of (take a log) /\ rn_ConfState (node R) = conf_of cs0 (take a log) /\
    0 <= snapshotIndex (node R) <= Z.of_nat a /\ Z.of_nat a - snapshotIndex (node R) <= k /\
    Forall (fun snap => exists j, (j <= a)%nat /\ snap.1 = Z.of_nat j /\ snap.2 `prefix_of` data_of (take j log)) (snapshots R).

Lemma run_inv_step log cs0 k R R' : log_wf log -> 0 <= k ->
  run_step unmarshal_cc ApplyConfChange (batch log) R R' -> run_inv log cs0 k R -> run_inv log cs0 k R'.
Proof.
  intros Hwf Hk Hstep (a & Ha & Hai & Hc & Hd & Hcs & Hsi & Hbd & Hss).
  assert (Hmono : forall b ss, (a <= b)%nat ->
    Forall (fun snap : Z * list bytes => exists j, (j <= a)%nat /\ snap.1 = Z.of_nat j /\ snap.2 `prefix_of` data_of (take j log)) ss ->
    Forall (fun snap : Z * list bytes => exists j, (j <= b)%nat /\ snap.1 = Z.of_nat j /\ snap.2 `prefix_of` data_of (take j log)) ss).
  { intros b ss Hb Hf. eapply Forall_impl; [exact Hf|]. intros snap (j & H1 & H2). exists j. split; [lia|done]. }
  assert (Hconf : forall b, (a <= b)%nat -> conf_of (conf_of cs0 (take a log)) (slice log a b) = conf_of cs0 (take b log)).
  { intros b Hb. rewrite <- !slice_take, (slice_app log 0 a b) by lia. unfold conf_of. by rewrite foldl_app. }
  inv Hstep; cbn [node applied pending snapshots] in *.
  - exists a. cbn [node applied pending snapshots] in *. rewrite <- app_assoc. split_and!; try done; lia.
  - destruct (serve_ready_ok log n rd a Hwf H Hai Ha) as (rc' & evs' & w & snap' & b & E & Hb & Hbi & Hce & Hcf & _ & Hk' & Hsn & Hsi');
      [lia|]. rewrite E in H0. injection H0 as <- <- -> <-. exists b. cbn [node applied pending snapshots]. rewrite H1 in Hce.
    rewrite Hcs, Hconf in Hcf by lia. rewrite Hsi', Hk'. rewrite (data_of_take log a b), <- Hce, app_nil_r, Hd by lia.
    split_and!; try done; try lia; try (destruct (decide _); lia).
    rewrite Hsn. destruct (decide _); [|by apply (Hmono b); [lia|]].
    constructor; [|by apply (Hmono b); [lia|]]. exists b. split; [lia|]. split; [done|]. simpl.
    rewrite (data_of_take log a b), <- Hce, app_nil_r, <- Hd by lia. by eexists.
  - destruct (serve_ready_ok log n rd a Hwf H Hai Ha) as (rc' & evs' & w & snap' & b & E & Hb & Hbi & Hce & Hcf & _ & Hk' & Hsn & Hsi');
      [lia|]. rewrite E in H0. injection H0 as <- <- -> ->. exists b. cbn [node applied pending snapshots].
    rewrite Hcs, Hconf in Hcf by lia. rewrite Hsi', Hk'. rewrite (data_of_take log a b), <- Hce, <- Hd, app_nil_r by lia.
    split_and!; try done; try lia; try (destruct (decide _); lia). by apply (Hmono b); [lia|].
  - destruct (serve_ready_ok log n rd a Hwf H Hai Ha) as (rc' & evs' & w & snap' & b & E & Hb & Hbi & Hce & Hcf & _ & Hk' & Hsn & Hsi');
      [lia|]. rewrite E in H0. injection H0 as <- <- -> ->. exists b. cbn [node applied pending snapshots].
    rewrite Hcs, Hconf in Hcf by lia. rewrite app_nil_r in Hd |- *.
    rewrite Hsi', Hk'. rewrite (data_of_take log a b), <- Hce, <- Hd by lia.
    split_and!; try done; try lia; try (destruct (decide _); lia).
    destruct (decide _); [|done]. injection Hsn as -> ->.
    constructor; [|by apply (Hmono b); [lia|]]. exists b. split; [lia|]. split; [done|]. simpl.
    by rewrite (data_of_take log a b), <- Hce, <- Hd by lia.
Qed.

Definition start (cs0 : CS) (k : Z) : Running CS := mkRunning (mkRaftNode cs0 0 0 k) [] [] [].

Lemma run_inv_start log cs0 k : 0 <= k -> run_inv log cs0 k (start cs0 k).
Proof. intros Hk. exists 0%nat. simpl. split_and!; try done; lia. Qed.

End proofs.

(** ** Properties *)


(** [n] entries with data, then an empty one (the library makes one per term). *)
Definition race_log (n : nat) : list Entry :=
  ((fun i => mkEntry (Z.of_nat i + 1) EntryNormal [x01]) <$> seq 0 n) ++ [mkEntry (Z.of_nat n + 1) EntryNormal []].

Definition no_cc (b : bytes) : option unit := None.

Lemma race_log_wf n : Z.of_nat n < 2 ^ 61 -> log_wf no_cc (race_log n).
Proof.
  intros Hn. unfold race_log. split; [rewrite length_app, length_fmap, length_seq; simpl; lia|]. split.
  - intros i e He. apply lookup_app_Some in He as [He|[Hi He]].
    + apply list_lookup_fmap_Some in He as (j & -> & Hj). apply lookup_seq in Hj as [-> _]. simpl. lia.
    + rewrite length_fmap, length_seq in *. apply list_lookup_singleton_Some in He as [Hz <-]. simpl. lia.
  - intros e He Ht. apply elem_of_app in He as [He|He].
    + apply list_elem_of_fmap in He as (j & -> & _). done.
    + apply list_elem_of_singleton in He as ->. done.
Qed.

Lemma race_log_data n : data_of (take n (race_log n)) = replicate n [x01].
Proof.
  unfold race_log. rewrite take_app_le, take_ge by (rewrite ?length_fmap, ?length_seq; lia).
  generalize 0%nat. induction n as [|n IH]; intros k; [done|]. simpl. f_equal. apply IH.
Qed.

(** a snapshot can miss what it is labelled with. When the entry that makes a
    snapshot due comes in a batch without data, the driver does not wait for the
    commit the state machine is still busy with: there is a run of [snapCount + 1]
    entries in which the snapshot taken at the last index holds none of the data. *)
Theorem snapshot_misses_pending (n : nat) : (0 < n)%nat -> Z.of_nat n < 2 ^ 61 ->
  exists R, rtc (run_step no_cc (fun _ _ => tt) (batch (race_log n))) (start tt (Z.of_nat n)) R /\
    appliedIndex (node R) = Z.of_nat n + 1 /\ snapshots R = [(Z.of_nat n + 1, [])] /\
    applied R = [] /\ pending R = replicate n [x01] /\ data_of (race_log n) = replicate n [x01].
Proof.
  intros Hn Hb. pose proof (race_log_wf n Hb) as Hwf.
  assert (Hlen : length (race_log n) = S n) by (unfold race_log; rewrite length_app, length_fmap, length_seq; simpl; lia).
  assert (Hfull : data_of (race_log n) = replicate n [x01]).
  { rewrite <- (race_log_data n). unfold race_log at 1. rewrite data_of_app. simpl. rewrite app_nil_r.
    unfold race_log. rewrite take_app_le, take_ge by (rewrite ?length_fmap, ?length_seq; lia). done. }
  assert (H2 : data_of (slice (race_log n) n (S n)) = []).
  { pose proof (data_of_take (race_log n) n (S n) ltac:(lia)) as He. rewrite (take_ge (race_log n) (S n)), Hfull, race_log_data in He by lia.
    apply (f_equal length) in He. rewrite length_app, length_replicate in He. destruct (data_of (slice _ _ _)); [done|simpl in He; lia]. }
  set (rc0 := mkRaftNode tt 0 0 (Z.of_nat n)).
  set (rd1 := mkReady (0, tt) (slice (race_log n) 0 n)). set (rd2 := mkReady (0, tt) (slice (race_log n) n (S n))).
  destruct (serve_ready_at no_cc (fun _ _ => tt) (race_log n) rc0 rd1 0 0 n Hwf)
    as (rc1 & ev1 & w1 & s1 & E1 & Ha1 & Hc1 & _ & Hw1 & Hk1 & Hs1 & Hsi1); try done; try lia.
  destruct (serve_ready_at no_cc (fun _ _ => tt) (race_log n) rc1 rd2 n n (S n) Hwf)
    as (rc2 & ev2 & w2 & s2 & E2 & Ha2 & Hc2 & _ & Hw2 & Hk2 & Hs2 & Hsi2); try done; try lia.
  { rewrite Hsi1. cbn [snapCount snapshotIndex rc0]. destruct (decide _); lia. }
  rewrite Nat.max_r in * by lia. rewrite slice_take, race_log_data in Hc1. rewrite H2 in Hc2.
  unfold rc0 in Hs1, Hsi1, Hk1. cbn [snapCount snapshotIndex] in Hs1, Hsi1, Hk1.
  destruct (decide (Z.of_nat n < Z.of_nat n - 0)); [lia|].
  rewrite Hk1, Hsi1, decide_True in Hs2 by lia.
  assert (w1 = true) as -> by (destruct w1; [done|]; destruct Hw1 as [Hw1 _]; rewrite Hw1 in Hc1 by done; destruct n; [lia|done]).
  assert (w2 = false) as -> by by apply Hw2.
  exists (mkRunning rc2 [] (replicate n [x01]) [(Z.of_nat n + 1, [])]). split.
  - apply (rtc_l _ _ (mkRunning rc1 [] (commits ev1) [])).
    { subst s1. apply (R_commit _ _ _ rc0 [] [] rd1 rc1 ev1); [|exact E1].
      split; [done|]. exists 0%nat, n. split_and!; try done; lia. }
    apply (rtc_l _ _ (mkRunning rc2 [] (commits ev1) [(Z.of_nat (S n), [])])).
    { subst s2. refine (R_quiet _ _ _ rc1 [] (commits ev1) [] rd2 rc2 ev2 (Some (Z.of_nat (S n), compactIndex rc2)) _ E2 Hc2).
      split; [done|]. exists n, (S n). split_and!; try done; lia. }
    rewrite Hc1. replace (Z.of_nat (S n)) with (Z.of_nat n + 1) by lia. apply rtc_refl.
  - cbn [node snapshots applied pending]. split_and!; try done. lia.
Qed.

Lemma snapshot_misses_pending_witness :
  exists R, rtc (run_step no_cc (fun _ _ => tt) (batch (race_log 2000))) (start tt defaultSnapshotCount) R /\
    appliedIndex (node R) = 2001 /\ snapshots R = [(2001, [])] /\
    applied R = [] /\ pending R = replicate 2000 [x01] /\ data_of (race_log 2000) = replicate 2000 [x01].
Proof. exact (@snapshot_misses_pending 2000 ltac:(lia) ltac:(vm_compute; reflexivity)). Defined.

