(* ===== verification/RaftDisk.v ===== *)
(** * The driver's disk and its restart: [src/edge-node/raft-node/raft_node.go]

    What [RaftNode.v] leaves out: the write-ahead log, the snapshot files, the
    library's storage in memory, and starting from them. The three are libraries of
    etcd: classes of operations, whose laws state what their documentation says.
    The goroutine that proposes and [cleanup] only call the library and are left
    out. *)

From S2P Require Import Prelude GoStd Errno GaiaMsg RaftNode.

(** ** The libraries *)

(** The metadata of a snapshot, which is also what the log records of one. *)
Record SnapMeta (CS : Type) := mkSnapMeta { sm_Index : Z; sm_Term : Z; sm_Conf : CS }.
Record Snapshot (CS : Type) := mkSnapshot { sp_Meta : SnapMeta CS; sp_Data : bytes }.
Record HardState := mkHardState { hs_Term : Z; hs_Vote : Z; hs_Commit : Z }.

Arguments mkSnapMeta {CS}. Arguments sm_Index {CS}. Arguments sm_Term {CS}. Arguments sm_Conf {CS}.
Arguments mkSnapshot {CS}. Arguments sp_Meta {CS}. Arguments sp_Data {CS}.

#[global] Instance HardState_eq_dec : EqDecision HardState.
Proof. solve_decision. Defined.

Definition emptyHardState : HardState := mkHardState 0 0 0.

Definition IsEmptySnap {CS} (s : Snapshot CS) : bool := bool_decide (sm_Index (sp_Meta s) = 0).

(** The log in its directory, by term and index. *)
Class Wal (CS W : Type) := {
  wal_Create : option W;
  wal_Save : W -> HardState -> list Entry -> W * option error;
  wal_SaveSnapshot : W -> SnapMeta CS -> W * option error;
  wal_ReleaseLockTo : W -> Z -> W * option error;
  wal_ValidSnapshotEntries : W -> res (list (SnapMeta CS));
  wal_ReadAll : W -> Z * Z -> res (HardState * list Entry)      (* [Open] at index and term, then [ReadAll] *)
}.

Class Snapshotter (CS D : Type) := {
  SaveSnap : D -> Snapshot CS -> D * option error;
  LoadNewestAvailable : D -> list (SnapMeta CS) -> res (option (Snapshot CS));   (* None: ErrNoSnapshot *)
  Snapshotter_Load : D -> res (option (Snapshot CS))
}.

Class MemoryStorage (CS M : Type) := {
  NewMemoryStorage : M;
  ms_ApplySnapshot : M -> Snapshot CS -> M * option error;
  ms_SetHardState : M -> HardState -> M * option error;
  ms_Append : M -> list Entry -> M * option error;
  ms_CreateSnapshot : M -> Z -> CS -> bytes -> M * res (Snapshot CS);
  ms_Compact : M -> Z -> M * option error;
  ms_Snapshot : M -> res (Snapshot CS)
}.

(** *** Laws

    The log keeps what was saved: entries replace what stood at their index and
    after it. A snapshot record is valid up to the commit index. *)
Class WalOk (CS W : Type) `{Wal CS W} := {
  w_log : W -> list Entry;
  w_state : W -> HardState;
  w_snaps : W -> list (SnapMeta CS);
  wal_Create_ok w : wal_Create = Some w -> w_log w = [] /\ w_state w = emptyHardState /\
    Forall (fun m => sm_Index m = 0) (w_snaps w);
  wal_Save_ok w hs ents w' f : wal_Save w hs ents = (w', None) ->
    (f <= length (w_log w))%nat -> (forall e, head ents = Some e -> e_Index e = Z.of_nat f + 1) ->
    w_log w' = (if decide (ents = []) then w_log w else take f (w_log w) ++ ents) /\
    w_state w' = (if decide (hs = emptyHardState) then w_state w else hs) /\ w_snaps w' = w_snaps w;
  wal_SaveSnapshot_ok w m w' : wal_SaveSnapshot w m = (w', None) ->
    w_log w' = w_log w /\ w_state w' = w_state w /\ w_snaps w' = w_snaps w ++ [m];
  wal_ReleaseLockTo_ok w i w' : wal_ReleaseLockTo w i = (w', None) ->
    w_log w' = w_log w /\ w_state w' = w_state w /\ w_snaps w' = w_snaps w;
  wal_ValidSnapshotEntries_ok w l : wal_ValidSnapshotEntries w = Ok l ->
    l = List.filter (fun m => bool_decide (sm_Index m <= hs_Commit (w_state w))) (w_snaps w);
  wal_ReadAll_ok w i t hs ents : wal_ReadAll w (i, t) = Ok (hs, ents) ->
    hs = w_state w /\ ents = drop (Z.to_nat i) (w_log w)
}.

(** A file is only loaded if the log has a record of it; the newest one is. *)
Class SnapshotterOk (CS D : Type) `{Snapshotter CS D} := {
  d_files : D -> list (Snapshot CS);
  SaveSnap_ok d s d' : SaveSnap d s = (d', None) -> d_files d' = d_files d ++ (if IsEmptySnap s then [] else [s]);
  LoadNewestAvailable_ok d l o : LoadNewestAvailable d l = Ok o ->
    let known s := exists m, m ∈ l /\ sm_Index m = sm_Index (sp_Meta s) /\ sm_Term m = sm_Term (sp_Meta s) in
    match o with
    | Some s => s ∈ d_files d /\ known s /\
        forall s', s' ∈ d_files d -> known s' -> sm_Index (sp_Meta s') <= sm_Index (sp_Meta s)
    | None => forall s, s ∈ d_files d -> ~ known s
    end
}.

(** A snapshot made is labelled with the index and configuration it is made for; a
    new storage takes a snapshot and then the entries that follow it. *)
Class MemoryStorageOk (CS M : Type) `{MemoryStorage CS M} := {
  m_snap : M -> option (Snapshot CS);
  m_state : M -> HardState;
  m_ents : M -> list Entry;
  NewMemoryStorage_ok : m_snap NewMemoryStorage = None /\ m_ents NewMemoryStorage = [];
  ms_ApplySnapshot_ok m s m' e : m_snap m = None -> m_ents m = [] -> ms_ApplySnapshot m s = (m', e) ->
    m_snap m' = (if IsEmptySnap s then None else Some s) /\ m_ents m' = [];
  ms_SetHardState_ok m hs m' : ms_SetHardState m hs = (m', None) ->
    m_snap m' = m_snap m /\ m_state m' = hs /\ m_ents m' = m_ents m;
  ms_Append_ok m ents m' : m_ents m = [] -> ms_Append m ents = (m', None) ->
    m_snap m' = m_snap m /\ m_state m' = m_state m /\ m_ents m' = ents;
  ms_CreateSnapshot_ok m i cs data m' s : ms_CreateSnapshot m i cs data = (m', Ok s) ->
    sm_Index (sp_Meta s) = i /\ sm_Conf (sp_Meta s) = cs /\ sp_Data s = data;
  ms_Snapshot_ok m s : ms_Snapshot m = Ok s ->
    match m_snap m with Some s' => s = s' | None => sm_Index (sp_Meta s) = 0 end
}.

Section driver.
Context {CC CS Msg : Type} (unmarshal_cc : bytes -> option CC) (ApplyConfChange : CS -> CC -> CS).
Context {W D M : Type} `{Wal CS W, Snapshotter CS D, MemoryStorage CS M}.

Record Driver := mkDriver { drv : RaftNode CS; d_wal : W; d_snaps : D; d_mem : M }.

Definition set_drv (d : Driver) (rc : RaftNode CS) : Driver := mkDriver rc (d_wal d) (d_snaps d) (d_mem d).
Definition set_wal (d : Driver) (w : W) : Driver := mkDriver (drv d) w (d_snaps d) (d_mem d).
Definition set_snaps (d : Driver) (s : D) : Driver := mkDriver (drv d) (d_wal d) s (d_mem d).
Definition set_mem (d : Driver) (m : M) : Driver := mkDriver (drv d) (d_wal d) (d_snaps d) m.

(** ** Saving a snapshot: the file first, then its record *)

Definition saveSnap (d : Driver) (snap : Snapshot CS) : Driver * option error :=
  match SaveSnap (d_snaps d) snap with
  | (s, Some e) => (set_snaps d s, Some e)
  | (s, None) =>
      let d := set_snaps d s in
      match wal_SaveSnapshot (d_wal d) (sp_Meta snap) with
      | (w, Some e) => (set_wal d w, Some e)
      | (w, None) =>
          let '(w, e) := wal_ReleaseLockTo w (sm_Index (sp_Meta snap)) in (set_wal d w, e)
      end
  end.

(** ** Starting *)

(** A directory without a log gives the empty snapshot; errors are fatal. *)
Definition loadSnapshot (none : CS) (w : option W) (s : D) : res (option (Snapshot CS)) :=
  match w with
  | None => Ok (Some (mkSnapshot (mkSnapMeta 0 0 none) []))
  | Some w =>
      match wal_ValidSnapshotEntries w with
      | Ok walSnaps => match LoadNewestAvailable s walSnaps with Ok o => Ok o | _ => Panic end
      | _ => Panic
      end
  end.

(** A log that cannot be created is closed through a nil pointer. *)
Definition openWAL (w : option W) : res W :=
  match w with Some w => Ok w | None => or_panic wal_Create end.

Definition fatal {A} (p : A * option error) : res A := match p with (a, None) => Ok a | (_, Some _) => Panic end.

(** The log, and the storage filled from the snapshot and the log. A snapshot the
    storage refuses is only reported. *)
Definition replayWAL (none : CS) (w : option W) (s : D) : res (W * M) :=
  snapshot ← loadSnapshot none w s;
  w ← openWAL w;
  let at_ := match snapshot with Some sp => (sm_Index (sp_Meta sp), sm_Term (sp_Meta sp)) | None => (0, 0) end in
  match wal_ReadAll w at_ with
  | Ok (st, ents) =>
      let m := match snapshot with Some sp => (ms_ApplySnapshot NewMemoryStorage sp).1 | None => NewMemoryStorage end in
      m ← fatal (ms_SetHardState m st);
      m ← fatal (ms_Append m ents);
      Ok (w, m)
  | _ => Panic
  end.

(** [startRaft] up to the loop of [serveChannels]: the node stands at the snapshot.
    [none] is the zero configuration. Nothing tells the upper layer to load it. *)
Definition startRaft (none : CS) (snapCount : Z) (w : option W) (s : D) : res Driver :=
  wm ← replayWAL none w s;
  let '(w, m) := wm in
  match ms_Snapshot m with
  | Ok sp => Ok (mkDriver (mkRaftNode (sm_Conf (sp_Meta sp)) (sm_Index (sp_Meta sp)) (sm_Index (sp_Meta sp)) snapCount) w s m)
  | _ => Panic
  end.

(** ** One turn of [serveChannels] on a batch *)

Record FullReady := mkFullReady {
  fr_HardState : HardState;
  fr_Entries : list Entry;
  fr_Snapshot : Snapshot CS;
  fr_Committed : list Entry;
  fr_Messages : list Msg
}.

(** The part of a batch that [RaftNode.v] looks at. *)
Definition ready_of (rd : FullReady) : Ready CS :=
  mkReady (sm_Index (sp_Meta (fr_Snapshot rd)), sm_Conf (sp_Meta (fr_Snapshot rd))) (fr_Committed rd).

(** Taking a snapshot that is due: any error is fatal. [getSnapshot] is the state
    machine's, at this moment; [cancelled]: the context ends while it applies. *)
Definition takeSnapshot (cancelled : bool) (getSnapshot : res bytes) (d : Driver) : Driver * res (option (Z * Z)) :=
  if negb (needs_snapshot (drv d)) then (d, Ok None)
  else if cancelled then (d, Ok None)
  else
    match getSnapshot with
    | Ok data =>
        match ms_CreateSnapshot (d_mem d) (appliedIndex (drv d)) (rn_ConfState (drv d)) data with
        | (m, Ok snap) =>
            let d := set_mem d m in
            match saveSnap d snap with
            | (d, Some _) => (d, Panic)
            | (d, None) =>
                match ms_Compact (d_mem d) (compactIndex (drv d)) with
                | (m, Some _) => (set_mem d m, Panic)
                | (m, None) =>
                    let rc := drv d in
                    (mkDriver (mkRaftNode (rn_ConfState rc) (appliedIndex rc) (appliedIndex rc) (snapCount rc))
                       (d_wal d) (d_snaps d) m, Ok (Some (appliedIndex rc, compactIndex rc)))
                end
            end
        | (m, _) => (set_mem d m, Panic)
        end
    | _ => (d, Panic)
    end.

(** Before anything is published: the batch goes to the log and to the storage.
    Errors of both are only reported. *)
Definition persist (d : Driver) (rd : FullReady) : Driver :=
  let d := set_wal d (wal_Save (d_wal d) (fr_HardState rd) (fr_Entries rd)).1 in
  if IsEmptySnap (fr_Snapshot rd) then d
  else let d := (saveSnap d (fr_Snapshot rd)).1 in
       set_mem d (ms_ApplySnapshot (d_mem d) (fr_Snapshot rd)).1.

(** The driver, the events, the messages handed over, and as in [serve_ready]
    whether a commit is waited for and the snapshot taken. *)
Definition serve_turn (stopped cancelled : bool) (getSnapshot : res bytes) (d : Driver) (rd : FullReady)
    : Driver * list Event * list Msg * res (option (bool * option (Z * Z))) :=
  let d := persist d rd in
  match publishSnapshot (drv d) (rd_Snapshot (ready_of rd)) with
  | (rc, evs, Ok _) =>
      let d := set_mem (set_drv d rc) (ms_Append (d_mem d) (fr_Entries rd)).1 in
      let msgs := fr_Messages rd in
      match entriesToApply rc (fr_Committed rd) with
      | Ok ents =>
          match publishEntries unmarshal_cc ApplyConfChange stopped rc ents with
          | (rc, evs', Ok (Some waits)) =>
              match takeSnapshot (waits && cancelled) getSnapshot (set_drv d rc) with
              | (d, Ok snap) => (d, evs ++ evs', msgs, Ok (Some (waits, snap)))
              | (d, Err e) => (d, evs ++ evs', msgs, Err e)
              | (d, Panic) => (d, evs ++ evs', msgs, Panic)
              | (d, Stuck) => (d, evs ++ evs', msgs, Stuck)
              end
          | (rc, evs', Ok None) => (set_drv d rc, evs ++ evs', msgs, Ok None)
          | (rc, evs', Err e) => (set_drv d rc, evs ++ evs', msgs, Err e)
          | (rc, evs', Panic) => (set_drv d rc, evs ++ evs', msgs, Panic)
          | (rc, evs', Stuck) => (set_drv d rc, evs ++ evs', msgs, Stuck)
          end
      | Err e => (d, evs, msgs, Err e)
      | Panic => (d, evs, msgs, Panic)
      | Stuck => (d, evs, msgs, Stuck)
      end
  | (rc, evs, Err e) => (set_drv d rc, evs, [], Err e)
  | (rc, evs, Panic) => (set_drv d rc, evs, [], Panic)
  | (rc, evs, Stuck) => (set_drv d rc, evs, [], Stuck)
  end.

(** ** The loop *)

(** What wakes the loop, and what it asks of the library; [Act_Events] are the
    events of a batch for the upper layer, and its messages. The result of a step is
    the library's. *)
Inductive LoopEvent := LE_Tick | LE_Ready (stopped cancelled : bool) (rd : FullReady) (getSnapshot : res bytes)
  | LE_Step (m : Msg) (r : option error) | LE_Done.

Inductive LoopAction :=
  | Act_Tick | Act_Step (m : Msg) | Act_Events (evs : list (Event (CC:=CC))) (msgs : list Msg) | Act_Advance | Act_Cancel
  | Act_Cleanup.

(** The loop ends when the library refuses a message, when the node is stopped
    ([LE_Done]: [cleanup] stops the library and closes the log and the channels), or
    when a commit finds nobody ([Ok None]). *)
Fixpoint serve_loop (d : Driver) (evs : list LoopEvent) : Driver * list LoopAction * res unit :=
  match evs with
  | [] => (d, [], Stuck)
  | LE_Tick :: evs' => let '(d, acts, r) := serve_loop d evs' in (d, Act_Tick :: acts, r)
  | LE_Step m (Some _) :: _ => (d, [Act_Step m], Ok tt)
  | LE_Step m None :: evs' => let '(d, acts, r) := serve_loop d evs' in (d, Act_Step m :: acts, r)
  | LE_Done :: _ => (d, [Act_Cleanup], Ok tt)
  | LE_Ready stopped cancelled rd gs :: evs' =>
      match serve_turn stopped cancelled gs d rd with
      | (d, up, msgs, Ok (Some _)) =>
          let '(d, acts, r) := serve_loop d evs' in (d, Act_Events up msgs :: Act_Advance :: acts, r)
      | (d, up, msgs, Ok None) => (d, [Act_Events up msgs; Act_Cancel], Ok tt)
      | (d, up, msgs, Err e) => (d, [Act_Events up msgs], Err e)
      | (d, up, msgs, Panic) => (d, [Act_Events up msgs], Panic)
      | (d, up, msgs, Stuck) => (d, [Act_Events up msgs], Stuck)
      end
  end.

(** The goroutine beside it hands proposals to the library until one of its
    channels is closed; errors are only reported. *)
Inductive ProposeEvent := PE_Propose (data : bytes) | PE_ConfChange (cc : CC) | PE_Closed | PE_Done.

Fixpoint propose_loop (evs : list ProposeEvent) : list (bytes + CC) :=
  match evs with
  | PE_Propose data :: evs' => inl data :: propose_loop evs'
  | PE_ConfChange cc :: evs' => inr cc :: propose_loop evs'
  | _ => []
  end.

(** ** A node that can crash

    The driver, its state machine, and the rest of the commit the state machine is
    busy with. A crash loses the driver's memory and that rest; [survives] is what
    it leaves of the state machine. *)

Context {St : Type} (apply : St -> bytes -> St) (getSnapshot : St -> res bytes) (survives : St -> St).

Record Node := mkNode { n_drv : Driver; n_st : St; n_pending : list bytes }.

Definition apply_all (s : St) (l : list bytes) : St := foldl apply s l.

(** [drained]: a snapshot is only taken of a state machine that has nothing left to
    apply, which the driver does not see to (it waits for the commit of the same
    batch only). *)
Inductive node_step (drained : bool) (none : CS) (made : Driver -> FullReady -> Prop) : Node -> Node -> Prop :=
  | N_apply d s x xs : node_step drained none made (mkNode d s (x :: xs)) (mkNode d (apply s x) xs)
  | N_quiet d s xs rd d' evs msgs snap :
      made d rd -> serve_turn false false (getSnapshot s) d rd = (d', evs, msgs, Ok (Some (false, snap))) ->
      commits evs = [] -> (drained = true -> snap = None \/ xs = []) ->
      node_step drained none made (mkNode d s xs) (mkNode d' s xs)
  | N_commit d s rd d' evs msgs :
      made d rd -> serve_turn false false (getSnapshot s) d rd = (d', evs, msgs, Ok (Some (true, None))) ->
      node_step drained none made (mkNode d s []) (mkNode d' s (commits evs))
  | N_commit_snapshot d s rd d' evs msgs i c :
      made d rd ->
      serve_turn false false (getSnapshot (apply_all s (commits evs))) d rd = (d', evs, msgs, Ok (Some (true, Some (i, c)))) ->
      node_step drained none made (mkNode d s []) (mkNode d' (apply_all s (commits evs)) [])
  | N_crash d s xs d' :
      startRaft none (snapCount (drv d)) (Some (d_wal d)) (d_snaps d) = Ok d' ->
      node_step drained none made (mkNode d s xs) (mkNode d' (survives s) [])
  (* in the middle of a turn: the batch is in the log, nothing is published *)
  | N_crash_saved d s xs rd d' :
      made d rd -> startRaft none (snapCount (drv d)) (Some (d_wal (persist d rd))) (d_snaps d) = Ok d' ->
      node_step drained none made (mkNode d s xs) (mkNode d' (survives s) [])
  (* or a snapshot file is written, but the log has no record of it *)
  | N_crash_file d s xs rd d1 evs msgs waits i c d' :
      made d rd ->
      serve_turn false false (getSnapshot (apply_all s (commits evs))) d rd = (d1, evs, msgs, Ok (Some (waits, Some (i, c)))) ->
      (drained = true \/ waits = true -> xs = []) ->
      startRaft none (snapCount (drv d)) (Some (d_wal (persist d rd))) (d_snaps d1) = Ok d' ->
      node_step drained none made (mkNode d s xs) (mkNode d' (survives (apply_all s (commits evs))) []).

End driver.

Arguments Driver CS W D M : clear implicits.
Arguments FullReady CS Msg : clear implicits.
Arguments Node CS W D M St : clear implicits.
