(* ===== verification/RaftDiskProofs.v ===== *)
(** * A node that crashes catches up

    Proofs about [RaftDisk.v]: what a start finds on disk, and that a state machine
    whose storage survives a crash ends with what the log says, since applying the
    log again from an earlier index changes nothing in the end. *)

From S2P Require Import Prelude GoStd Errno GaiaMsg RaftNode RaftNodeProofs RaftDisk.

(** ** Writes to a map *)

Section writes.
Context `{Countable K} {X : Type}.

(** A key and what it is set to; [None] deletes it. *)
Definition Write : Type := K * option X.

Definition write (m : gmap K X) (o : option Write) : gmap K X :=
  match o with
  | Some (k, Some v) => <[k := v]> m
  | Some (k, None) => delete k m
  | None => m
  end.

Definition writes (k : K) (o : option Write) : Prop := exists v, o = Some (k, v).

Definition write_all (m : gmap K X) (l : list (option Write)) : gmap K X := foldl write m l.

Lemma write_written m m' o k : writes k o -> write m o !! k = write m' o !! k.
Proof.
  intros [[v|] ->]; simpl; [by rewrite !lookup_insert_eq|by rewrite !lookup_delete_eq].
Qed.

Lemma write_other m o k : ~ writes k o -> write m o !! k = m !! k.
Proof.
  intros Hk. destruct o as [[k' v]|]; [|done]. assert (k' <> k) by (intros ->; apply Hk; by exists v).
  destruct v; simpl; [by rewrite lookup_insert_ne|by rewrite lookup_delete_ne].
Qed.

#[export] Instance writes_dec (k : K) (o : option Write) : Decision (writes k o).
Proof.
  destruct o as [[k' v]|]; [|right; intros [v ?]; done].
  destruct (decide (k' = k)) as [->|Hne]; [left; by exists v|right; intros [v' ?]; congruence].
Defined.

(** Whatever comes before, a list that does not write the key leaves it. *)
Lemma write_all_other l : forall m k, Forall (fun o => ~ writes k o) l -> write_all m l !! k = m !! k.
Proof.
  induction l as [|o l IH]; intros m k Hl; [done|]. inv Hl. unfold write_all in *. simpl.
  rewrite IH by done. by apply write_other.
Qed.

(** *** Falling behind

    [m] has, for every key, the value that [hist] gives it, unless [later], which
    [m] may already have seen, writes the key again. *)
Definition agrees (m : gmap K X) (hist later : list (option Write)) : Prop :=
  forall k, m !! k = write_all ∅ hist !! k \/ Exists (writes k) later.

Lemma agrees_write m hist o : agrees m hist [] -> agrees (write m o) (hist ++ [o]) [].
Proof.
  intros Ha k. left. unfold write_all. rewrite foldl_app. simpl. destruct (decide (writes k o)) as [Hw|Hw].
  - by apply write_written.
  - rewrite !write_other by done. destruct (Ha k) as [?|?%Exists_nil]; done.
Qed.

Lemma agrees_again m hist o later : agrees m hist (o :: later) -> agrees (write m o) (hist ++ [o]) later.
Proof.
  intros Ha k. unfold write_all. rewrite foldl_app. simpl. destruct (decide (writes k o)) as [Hw|Hw].
  - left. by apply write_written.
  - destruct (Ha k) as [Hk|[?|?]%Exists_cons]; [left|done|by right]. by rewrite !write_other.
Qed.

(** Going back: what was already known becomes later. *)
Lemma agrees_back m hist mid later : agrees m (hist ++ mid) later -> agrees m hist (mid ++ later).
Proof.
  intros Ha k. destruct (decide (Exists (writes k) mid)) as [Hw|Hw].
  - right. apply Exists_app. by left.
  - destruct (Ha k) as [Hk|Hk]; [left|right; apply Exists_app; by right].
    unfold write_all in *. rewrite foldl_app in Hk. rewrite Hk. apply write_all_other.
    by apply not_Exists_Forall in Hw; [|intros ?; apply writes_dec].
Qed.

Lemma agrees_now m hist : agrees m hist [] -> m = write_all ∅ hist.
Proof. intros Ha. apply map_eq. intros k. destruct (Ha k) as [?|?%Exists_nil]; done. Qed.

End writes.

Arguments Write : clear implicits.

(** ** Turns and starts *)

Section driver.
Context {CC CS Msg : Type} (unmarshal_cc : bytes -> option CC) (ApplyConfChange : CS -> CC -> CS).
Context {W D M : Type} `{HW : Wal CS W, HWo : !WalOk CS W, HD : Snapshotter CS D, HDo : !SnapshotterOk CS D}.
Context `{HM : MemoryStorage CS M, HMo : !MemoryStorageOk CS M}.

Implicit Types d : Driver CS W D M.
Implicit Types rd : FullReady CS Msg.

Lemma saveSnap_drv d s : drv (saveSnap d s).1 = drv d.
Proof.
  unfold saveSnap. destruct (SaveSnap _ _) as [x [e|]]; [done|]. destruct (wal_SaveSnapshot _ _) as [w [e|]]; [done|].
  by destruct (wal_ReleaseLockTo _ _).
Qed.

(** A snapshot saved without error: its file, then its record. *)
Lemma saveSnap_ok d s d' : saveSnap d s = (d', None) ->
  d_files (d_snaps d') = d_files (d_snaps d) ++ (if IsEmptySnap s then [] else [s]) /\
  w_snaps (d_wal d') = w_snaps (d_wal d) ++ [sp_Meta s] /\ w_state (d_wal d') = w_state (d_wal d).
Proof.
  unfold saveSnap. destruct (SaveSnap (d_snaps d) s) as [x [e|]] eqn:Es; [done|]. cbn [set_snaps d_wal].
  destruct (wal_SaveSnapshot _ _) as [w [e|]] eqn:Ew; [done|]. destruct (wal_ReleaseLockTo w _) as [w' e] eqn:Er.
  intros [= <- ->]. cbn [set_wal d_snaps d_wal]. apply SaveSnap_ok in Es. apply wal_SaveSnapshot_ok in Ew as (_ & H1 & H2).
  apply wal_ReleaseLockTo_ok in Er as (_ & H3 & H4). split; [done|]. split; congruence.
Qed.

Lemma persist_quiet d rd : sm_Index (sp_Meta (fr_Snapshot rd)) = 0 ->
  persist d rd = set_wal d (wal_Save (d_wal d) (fr_HardState rd) (fr_Entries rd)).1.
Proof. intros Hi. unfold persist, IsEmptySnap. by rewrite bool_decide_true by done. Qed.

(** What a snapshot taken leaves on the disk. *)
Lemma takeSnapshot_ok gs d d' snap : takeSnapshot false gs d = (d', Ok snap) ->
  (drv d', snap) = maybeTriggerSnapshot (drv d) /\
  match snap with
  | None => d' = d
  | Some (i, _) => exists s, sm_Index (sp_Meta s) = i /\ i = appliedIndex (drv d) /\
      d_files (d_snaps d') = d_files (d_snaps d) ++ (if IsEmptySnap s then [] else [s]) /\
      w_snaps (d_wal d') = w_snaps (d_wal d) ++ [sp_Meta s] /\ w_state (d_wal d') = w_state (d_wal d)
  end.
Proof.
  unfold takeSnapshot, maybeTriggerSnapshot. destruct (needs_snapshot (drv d)); simpl; [|by intros [= <- <-]].
  destruct gs as [data| | |]; try done. destruct (ms_CreateSnapshot _ _ _ _) as [m [s| | |]] eqn:Ec; try done.
  apply ms_CreateSnapshot_ok in Ec as (Hi & _ & _).
  pose proof (saveSnap_drv (set_mem d m) s) as Hd. destruct (saveSnap (set_mem d m) s) as [d1 [e|]] eqn:Es; [done|].
  cbn [fst set_mem drv] in Hd. apply saveSnap_ok in Es as (H1 & H2 & H3).
  destruct (ms_Compact _ _) as [m' [e|]]; [done|]. intros [= <- <-]. cbn [drv d_snaps d_wal]. rewrite Hd. split; [done|].
  exists s. split_and!; try done.
Qed.

(** A turn does to the node what [RaftNode.v] says. *)
Lemma turn_serves gs d rd d' evs msgs w snap : sm_Index (sp_Meta (fr_Snapshot rd)) = 0 ->
  serve_turn unmarshal_cc ApplyConfChange false false gs d rd = (d', evs, msgs, Ok (Some (w, snap))) ->
  serve_ready unmarshal_cc ApplyConfChange false (drv d) (ready_of rd) = (drv d', evs, Ok (Some (w, snap))) /\
  let saved := (wal_Save (d_wal d) (fr_HardState rd) (fr_Entries rd)).1 in
  match snap with
  | None => d_snaps d' = d_snaps d /\ d_wal d' = saved
  | Some (i, _) => exists s, sm_Index (sp_Meta s) = i /\ i = appliedIndex (drv d') /\
      d_files (d_snaps d') = d_files (d_snaps d) ++ (if IsEmptySnap s then [] else [s]) /\
      w_snaps (d_wal d') = w_snaps saved ++ [sp_Meta s] /\ w_state (d_wal d') = w_state saved
  end.
Proof.
  intros Hi. unfold serve_turn, serve_ready. rewrite persist_quiet by done. cbn [set_wal drv].
  destruct (publishSnapshot _ _) as [[rc ev0] [[]| | |]]; try done. cbn [ready_of rd_CommittedEntries].
  destruct (entriesToApply rc (fr_Committed rd)) as [ents| | |]; try done.
  destruct (publishEntries unmarshal_cc ApplyConfChange false rc ents) as [[rc' ev1] [[waits|]| | |]]; try done.
  rewrite andb_false_r. destruct (takeSnapshot _ _ _) as [d1 [sn| | |]] eqn:Et; try done.
  intros [= <- <- _ <- <-]. apply takeSnapshot_ok in Et as [Ht Hd]. cbn [set_drv set_mem set_wal drv d_snaps d_wal] in *.
  destruct (maybeTriggerSnapshot rc') as [rc2 sn2] eqn:Em. injection Ht as -> ->. split; [done|].
  destruct sn2 as [[i c]|]; [|by subst d1]. destruct Hd as (s & H1 & H2 & H3). exists s. split; [done|]. split; [|done].
  unfold maybeTriggerSnapshot in Em. destruct (needs_snapshot rc'); [|done]. injection Em as <- <- _. done.
Qed.

(** A start stands at the newest snapshot that has a valid record, or at 0. *)
Lemma startRaft_at none k w sn d' : startRaft none k (Some w) sn = Ok d' ->
  snapshotIndex (drv d') = appliedIndex (drv d') /\ snapCount (drv d') = k /\ d_wal d' = w /\ d_snaps d' = sn /\
  let valid m := m ∈ w_snaps w /\ sm_Index m <= hs_Commit (w_state w) in
  let known s := exists m, valid m /\ sm_Index m = sm_Index (sp_Meta s) /\ sm_Term m = sm_Term (sp_Meta s) in
  (appliedIndex (drv d') = 0 /\ (forall s, s ∈ d_files sn -> known s -> sm_Index (sp_Meta s) <= 0) \/
   exists s, s ∈ d_files sn /\ known s /\ appliedIndex (drv d') = sm_Index (sp_Meta s) /\
     (appliedIndex (drv d') <> 0 -> rn_ConfState (drv d') = sm_Conf (sp_Meta s)) /\
     forall s', s' ∈ d_files sn -> known s' -> sm_Index (sp_Meta s') <= sm_Index (sp_Meta s)).
Proof.
  unfold startRaft, replayWAL, loadSnapshot. cbn [openWAL].
  destruct (wal_ValidSnapshotEntries w) as [l| | |] eqn:Ev; try done.
  destruct (LoadNewestAvailable sn l) as [o| | |] eqn:El; try done. cbn [mbind res_bind].
  destruct (wal_ReadAll _ _) as [[st ents]| | |]; try done.
  set (m0 := match o with Some sp => (ms_ApplySnapshot NewMemoryStorage sp).1 | None => NewMemoryStorage end).
  assert (Hm0 : m_snap m0 = (match o with Some s => if IsEmptySnap s then None else Some s | None => None end) /\ m_ents m0 = []).
  { subst m0. destruct NewMemoryStorage_ok as [H1' H2']. destruct o as [s|]; [|done].
    destruct (ms_ApplySnapshot _ _) as [m' e] eqn:Ea. by eapply ms_ApplySnapshot_ok in Ea. }
  destruct (ms_SetHardState m0 st) as [m1 [e|]] eqn:E1; [done|]. cbn [fatal mbind res_bind].
  destruct (ms_Append m1 ents) as [m2 [e|]] eqn:E2; [done|]. cbn [fatal mbind res_bind].
  apply ms_SetHardState_ok in E1 as (Hs1 & _ & He1). destruct Hm0 as [Hm0 He0].
  apply ms_Append_ok in E2 as (Hs2 & _ & _); [|congruence].
  destruct (ms_Snapshot m2) as [sp| | |] eqn:Es; try done. intros [= <-]. cbn [drv d_wal d_snaps snapshotIndex appliedIndex snapCount rn_ConfState].
  apply ms_Snapshot_ok in Es. rewrite Hs2, Hs1, Hm0 in Es. split_and!; try done.
  apply wal_ValidSnapshotEntries_ok in Ev. apply LoadNewestAvailable_ok in El. cbn zeta in El.
  assert (Hl : forall m, m ∈ l <-> m ∈ w_snaps w /\ sm_Index m <= hs_Commit (w_state w)).
  { intros m. subst l. rewrite list_elem_of_In, filter_In, bool_decide_eq_true, list_elem_of_In. done. }
  destruct o as [s|].
  - right. destruct El as (Hs & (m & Hm & Hmi & Hmt) & Hmax). exists s. split; [done|].
    assert (Hsp : sm_Index (sp_Meta sp) = sm_Index (sp_Meta s) /\
      (sm_Index (sp_Meta sp) <> 0 -> sm_Conf (sp_Meta sp) = sm_Conf (sp_Meta s))).
    { unfold IsEmptySnap in Es. case_bool_decide as Hz; [|by subst sp]. split; [congruence|done]. }
    destruct Hsp as [Hi Hc]. rewrite Hi in *. split_and!; try done.
    + exists m. by rewrite <- Hl.
    + intros s' Hs' (m' & Hm' & ?). apply Hmax; [done|]. exists m'. by rewrite Hl.
  - left. split; [done|]. intros s Hs (m & Hm & Hmi & Hmt). exfalso. apply (El s Hs). exists m. by rewrite Hl.
Qed.

(** The first start of a node, on an empty directory. *)
Lemma startRaft_fresh none k sn d' : startRaft none k None sn = Ok d' ->
  drv d' = mkRaftNode (rn_ConfState (drv d')) 0 0 k /\ d_snaps d' = sn /\
  w_log (d_wal d') = [] /\ w_state (d_wal d') = emptyHardState /\ Forall (fun m => sm_Index m = 0) (w_snaps (d_wal d')).
Proof.
  unfold startRaft, replayWAL. cbn [loadSnapshot openWAL mbind res_bind].
  destruct wal_Create as [w|] eqn:Ew; [|done]. cbn [or_panic mbind res_bind].
  destruct (wal_ReadAll _ _) as [[st ents]| | |]; try done.
  destruct NewMemoryStorage_ok as [Hn1 Hn2].
  destruct (ms_ApplySnapshot _ _) as [m0 e0] eqn:Ea. apply ms_ApplySnapshot_ok in Ea as [Ha1 Ha2]; [|done..]. cbn [fst].
  destruct (ms_SetHardState m0 st) as [m1 [e|]] eqn:E1; [done|]. cbn [fatal mbind res_bind].
  destruct (ms_Append m1 ents) as [m2 [e|]] eqn:E2; [done|]. cbn [fatal mbind res_bind].
  apply ms_SetHardState_ok in E1 as (Hs1 & _ & He1). apply ms_Append_ok in E2 as (Hs2 & _ & _); [|congruence].
  destruct (ms_Snapshot m2) as [sp| | |] eqn:Es; try done. intros [= <-]. cbn [drv d_wal d_snaps rn_ConfState].
  apply ms_Snapshot_ok in Es. rewrite Hs2, Hs1, Ha1 in Es. cbn in Es. rewrite Es.
  destruct (wal_Create_ok w Ew) as (H1 & H2 & H3). split_and!; done.
Qed.

(** ** The raft library's part

    A batch is one of [RaftNodeProofs.v]; its entries follow the log, which saves
    them; the commit index does not go back and covers what is committed. *)
Definition made_from (log : list Entry) d rd : Prop :=
  batch log (drv d) (ready_of rd) /\
  (exists w f, wal_Save (d_wal d) (fr_HardState rd) (fr_Entries rd) = (w, None) /\ (f <= length (w_log (d_wal d)))%nat /\
    forall e, head (fr_Entries rd) = Some e -> e_Index e = Z.of_nat f + 1) /\
  let st := if decide (fr_HardState rd = emptyHardState) then w_state (d_wal d) else fr_HardState rd in
  hs_Commit (w_state (d_wal d)) <= hs_Commit st /\ (forall e, e ∈ fr_Committed rd -> e_Index e <= hs_Commit st).

Lemma made_saved log d rd : made_from log d rd ->
  let w := (wal_Save (d_wal d) (fr_HardState rd) (fr_Entries rd)).1 in
  w_snaps w = w_snaps (d_wal d) /\ hs_Commit (w_state (d_wal d)) <= hs_Commit (w_state w) /\
  (forall e, e ∈ fr_Committed rd -> e_Index e <= hs_Commit (w_state w)).
Proof.
  intros (_ & (w & f & E & Hf & Hh) & Hc). cbn zeta in *. rewrite E. cbn [fst].
  destruct (wal_Save_ok _ _ _ _ f E Hf Hh) as (_ & -> & ->). done.
Qed.

(** ** The invariant *)

Section crash.
Context {St K X : Type} `{KE : EqDecision K, KC : !Countable K} (apply : St -> bytes -> St) (getSnapshot : St -> res bytes) (survives : St -> St).
Context (vw : St -> gmap K X) (op_of : bytes -> option (Write K X)) (St_ok : St -> Prop).
Context (Happly : forall s x, St_ok s -> St_ok (apply s x) /\ vw (apply s x) = write (vw s) (op_of x)).
Context (Hsurvives : forall s, St_ok s -> St_ok (survives s) /\ vw (survives s) = vw s).
Context (log : list Entry) (Hwf : log_wf unmarshal_cc log).

(** The state machine has applied [hist], and before a crash perhaps [later]. *)
Definition machine_ok (s : St) (hist later : list bytes) : Prop :=
  St_ok s /\ (hist ++ later) `prefix_of` data_of log /\ agrees (vw s) (op_of <$> hist) (op_of <$> later).

(** Every record of the log is valid, has its file, and is of a state that [hist]
    includes. *)
Definition recorded (w : W) (sn : D) (hist : list bytes) : Prop :=
  forall m, m ∈ w_snaps w -> sm_Index m <= hs_Commit (w_state w) /\
    (sm_Index m = 0 \/
     (exists j, sm_Index m = Z.of_nat j /\ (j <= length log)%nat /\ data_of (take j log) `prefix_of` hist) /\
     exists s, s ∈ d_files sn /\ sm_Index m = sm_Index (sp_Meta s) /\ sm_Term m = sm_Term (sp_Meta s)).

Definition node_inv (R : Node CS W D M St) : Prop :=
  exists a hist later, (a <= length log)%nat /\ appliedIndex (drv (n_drv R)) = Z.of_nat a /\
    0 <= snapshotIndex (drv (n_drv R)) <= Z.of_nat a /\ data_of (take a log) = hist ++ n_pending R /\
    machine_ok (n_st R) hist later /\ Z.of_nat a <= hs_Commit (w_state (d_wal (n_drv R))) /\
    recorded (d_wal (n_drv R)) (d_snaps (n_drv R)) hist.

Lemma data_prefix i j : (i <= j)%nat -> data_of (take i log) `prefix_of` data_of (take j log).
Proof. intros Hij. rewrite (data_of_take log i j) by done. by eexists. Qed.

Lemma data_prefix_all j : data_of (take j log) `prefix_of` data_of log.
Proof. rewrite <- (take_drop j log) at 2. rewrite data_of_app. by eexists. Qed.

Lemma machine_apply s hist later x : machine_ok s hist later -> (hist ++ [x]) `prefix_of` data_of log ->
  exists later', machine_ok (apply s x) (hist ++ [x]) later'.
Proof.
  intros (Hok & [rest Hp] & Ha) [rest' Hx]. destruct (Happly s x Hok) as [Hok' Hv].
  destruct later as [|y later].
  - exists []. split; [done|]. rewrite app_nil_r. split; [by eexists|]. rewrite Hv, fmap_app. by apply agrees_write.
  - assert (y = x) as ->.
    { rewrite Hp, <- !app_assoc in Hx. apply app_inv_head in Hx. by injection Hx. }
    exists later. split; [done|]. split; [exists rest; rewrite Hp, <- !app_assoc; done|].
    rewrite Hv, fmap_app. by apply agrees_again.
Qed.

Lemma machine_apply_all l : forall s hist later, machine_ok s hist later -> (hist ++ l) `prefix_of` data_of log ->
  exists later', machine_ok (apply_all apply s l) (hist ++ l) later'.
Proof.
  induction l as [|x l IH]; intros s hist later Hm Hp; [rewrite app_nil_r; by eexists|].
  destruct (machine_apply s hist later x Hm) as [later' Hm'].
  { destruct Hp as [r Hr]. exists (l ++ r). rewrite Hr, <- !app_assoc. done. }
  destruct (IH (apply s x) (hist ++ [x]) later' Hm') as [l2 Hl2]; [by rewrite <- app_assoc|].
  exists l2. by rewrite <- app_assoc in Hl2.
Qed.

Lemma machine_back s hist mid later : machine_ok s (hist ++ mid) later -> machine_ok s hist (mid ++ later).
Proof.
  intros (Hok & Hp & Ha). split; [done|]. rewrite app_assoc. split; [done|].
  rewrite fmap_app in Ha |- *. by apply agrees_back.
Qed.

Lemma machine_survives s hist later : machine_ok s hist later -> machine_ok (survives s) hist later.
Proof. intros (Hok & Hp & Ha). destruct (Hsurvives s Hok) as [? Hv]. split; [done|]. by rewrite Hv. Qed.

(** A start from a disk whose records are in order. *)
Lemma restart_inv none k w sn d' s hist later : startRaft none k (Some w) sn = Ok d' ->
  machine_ok s hist later -> recorded w sn hist -> 0 <= hs_Commit (w_state w) -> node_inv (mkNode d' (survives s) []).
Proof.
  intros E Hm Hrec Hc. apply startRaft_at in E as (Hsi & _ & Hw & Hsn & Hcase). cbn zeta in Hcase.
  assert (exists j, (j <= length log)%nat /\ appliedIndex (drv d') = Z.of_nat j /\ Z.of_nat j <= hs_Commit (w_state w) /\
    data_of (take j log) `prefix_of` hist /\ forall m, m ∈ w_snaps w -> sm_Index m <= Z.of_nat j) as (j & Hj & Ha & Hjc & [mid Hh] & Hmax).
  { assert (Hle : forall i, (forall f, f ∈ d_files sn -> (exists m, (m ∈ w_snaps w /\ sm_Index m <= hs_Commit (w_state w)) /\
        sm_Index m = sm_Index (sp_Meta f) /\ sm_Term m = sm_Term (sp_Meta f)) -> sm_Index (sp_Meta f) <= i) ->
      0 <= i -> forall m, m ∈ w_snaps w -> sm_Index m <= i).
    { intros i Hf Hi m Hin. destruct (Hrec m Hin) as [Hv [->|[_ (f & Hff & Hfi & Hft)]]]; [done|].
      rewrite Hfi. apply Hf; [done|]. by exists m. }
    destruct Hcase as [[H0 Hf]|(f & Hf & (m & [Hin Hv] & Hmi & Hmt) & Hi & _ & Hmax)].
    - exists 0%nat. change (Z.of_nat 0) with 0. split_and!; try done; try lia; [by exists hist|]. apply Hle; [done|lia].
    - destruct (Hrec m Hin) as [_ [Hz|[(j & Hjm & Hj & Hjp) _]]].
      + exists 0%nat. change (Z.of_nat 0) with 0. rewrite Hi, <- Hmi, Hz. split_and!; try done; try lia; [by exists hist|].
        apply Hle; [|lia]. intros f' Hf' Hk. rewrite <- Hz, Hmi. by apply Hmax.
      + exists j. rewrite Hi, <- Hmi, Hjm. split_and!; try done; try lia.
        apply Hle; [|lia]. intros f' Hf' Hk. rewrite <- Hjm, Hmi. by apply Hmax. }
  exists j, (data_of (take j log)), (mid ++ later). cbn [n_drv n_pending n_st]. rewrite Hsi, Hw, Hsn, Ha, app_nil_r.
  split_and!; try done; try lia.
  - apply machine_survives, machine_back. by rewrite <- Hh.
  - intros m Hin. destruct (Hrec m Hin) as [Hv [Hz|[(i & Hi & Hil & Hip) Hfile]]]; split; try done; [by left|right].
    split; [|done]. exists i. split_and!; try done. apply data_prefix. specialize (Hmax m Hin). lia.
Qed.

Lemma recorded_mono w w' sn sn' hist hist' : recorded w sn hist -> w_snaps w' = w_snaps w ->
  hs_Commit (w_state w) <= hs_Commit (w_state w') -> d_files sn `sublist_of` d_files sn' -> hist `prefix_of` hist' ->
  recorded w' sn' hist'.
Proof.
  intros Hrec Hs Hc Hsub Hh m Hm. rewrite Hs in Hm. destruct (Hrec m Hm) as [Hv Hcase]. split; [lia|].
  destruct Hcase as [?|[(j & ? & ? & Hj) (f & Hf & ?)]]; [by left|right]. split.
  - exists j. split_and!; try done. by etrans.
  - exists f. split; [|done]. by eapply sublist_subseteq in Hsub; apply Hsub.
Qed.

(** A turn of a node whose position is [a]. *)
Lemma turn_at d rd d' gs evs msgs w snap a :
  made_from log d rd -> serve_turn unmarshal_cc ApplyConfChange false false gs d rd = (d', evs, msgs, Ok (Some (w, snap))) ->
  (a <= length log)%nat -> appliedIndex (drv d) = Z.of_nat a -> 0 <= snapshotIndex (drv d) <= Z.of_nat a ->
  Z.of_nat a <= hs_Commit (w_state (d_wal d)) ->
  exists b, (b <= length log)%nat /\ appliedIndex (drv d') = Z.of_nat b /\ 0 <= snapshotIndex (drv d') <= Z.of_nat b /\
    data_of (take b log) = data_of (take a log) ++ commits evs /\
    Z.of_nat b <= hs_Commit (w_state (d_wal d')) /\ d_files (d_snaps d) `sublist_of` d_files (d_snaps d') /\
    forall hist hist', recorded (d_wal d) (d_snaps d) hist -> hist `prefix_of` hist' ->
      (snap <> None -> data_of (take b log) `prefix_of` hist') -> recorded (d_wal d') (d_snaps d') hist'.
Proof.
  intros Hmade E Ha Hai Hsi Hac. pose proof (made_saved _ _ _ Hmade) as Hsaved. cbn zeta in Hsaved.
  destruct Hmade as ((Hs0 & f & l & Hents & Hfl & Hfa) & _).
  apply turn_serves in E as [E Hdisk]; [|done]. cbn zeta in Hdisk.
  destruct (serve_ready_at unmarshal_cc ApplyConfChange log (drv d) (ready_of rd) a f l Hwf)
    as (rc & ev & w0 & sn & E' & Hb & Hce & _ & _ & _ & _ & Hsi'); try done; try lia.
  rewrite E in E'. injection E' as <- <- <- <-. set (b := Nat.max a l) in *.
  set (saved := (wal_Save (d_wal d) (fr_HardState rd) (fr_Entries rd)).1) in *. destruct Hsaved as (Hss & Hsc & Hse).
  assert (Hbc : Z.of_nat b <= hs_Commit (w_state saved)).
  { destruct (decide (a < l)%nat); [|lia]. destruct (last (slice log f l)) as [e|] eqn:El.
    - pose proof (slice_last unmarshal_cc log f l e Hwf ltac:(lia) El) as He. specialize (Hse e). cbn [ready_of rd_CommittedEntries] in Hents.
      rewrite Hents in Hse. apply last_Some_elem_of in El. specialize (Hse El). lia.
    - apply last_None, (f_equal length) in El. rewrite slice_length in El by lia. simpl in El. lia. }
  assert (Hfin : hs_Commit (w_state (d_wal d')) = hs_Commit (w_state saved) /\ d_files (d_snaps d) `sublist_of` d_files (d_snaps d')).
  { destruct snap as [[i c]|]; [|by destruct Hdisk as [-> ->]].
    destruct Hdisk as (s & _ & _ & -> & _ & ->). split; [done|]. by apply sublist_inserts_r. }
  destruct Hfin as [Hfc Hff]. exists b. rewrite Hfc, Hce. split_and!; try done; try lia.
  - rewrite Hsi'. destruct (decide _); lia.
  - rewrite Hsi'. destruct (decide _); lia.
  - apply data_of_take. lia.
  - intros hist hist' Hrec Hh Hsnap. destruct snap as [[i c]|].
    2:{ destruct Hdisk as [-> ->]. by eapply recorded_mono. }
    destruct Hdisk as (s & Hi & Hia & Hf & Hws & Hst). intros m Hm. rewrite Hws in Hm. rewrite Hst.
    apply elem_of_app in Hm as [Hm| ->%list_elem_of_singleton].
    + by apply (recorded_mono _ saved _ (d_snaps d') _ hist' Hrec).
    + rewrite Hi, Hia, Hb. split; [done|]. destruct (decide (b = 0%nat)) as [->|Hnz]; [by left|right].
      split; [exists b; split_and!; [done|lia|by apply Hsnap]|]. exists s. rewrite Hi, Hia, Hb. split; [|done]. rewrite Hf.
      unfold IsEmptySnap. rewrite bool_decide_false by lia. apply elem_of_app. right. by left.
Qed.

Lemma node_step_inv none R R' :
  node_step unmarshal_cc ApplyConfChange apply getSnapshot survives true none (made_from log) R R' -> node_inv R -> node_inv R'.
Proof.
  intros Hstep (a & hist & later & Ha & Hai & Hsi & Hd & Hm & Hac & Hrec).
  inv Hstep; cbn [n_drv n_st n_pending] in *.
  - destruct (machine_apply s hist later x Hm) as [later' Hm'].
    { etrans; [|apply (data_prefix_all a)]. rewrite Hd. exists xs. by rewrite <- app_assoc. }
    exists a, (hist ++ [x]), later'. cbn [n_drv n_st n_pending]. rewrite <- app_assoc. split_and!; try done; try lia.
    eapply recorded_mono; try done. by eexists.
  - destruct (turn_at _ _ _ _ _ _ _ _ a H H0 Ha Hai Hsi Hac) as (b & Hb & Hbi & Hbs & Hbd & Hbc & _ & Hbr).
    rewrite H1, app_nil_r, Hd in Hbd. exists b, hist, later. cbn [n_drv n_st n_pending]. split_and!; try done; try lia.
    apply (Hbr hist hist); [done..|]. intros Hn. destruct (H2 eq_refl) as [?| ->]; [done|]. by rewrite Hbd, app_nil_r.
  - destruct (turn_at _ _ _ _ _ _ _ _ a H H0 Ha Hai Hsi Hac) as (b & Hb & Hbi & Hbs & Hbd & Hbc & _ & Hbr).
    rewrite app_nil_r in Hd. rewrite Hd in Hbd. exists b, hist, later. cbn [n_drv n_st n_pending]. split_and!; try done; try lia.
    by apply (Hbr hist hist).
  - destruct (turn_at _ _ _ _ _ _ _ _ a H H0 Ha Hai Hsi Hac) as (b & Hb & Hbi & Hbs & Hbd & Hbc & _ & Hbr).
    rewrite app_nil_r in Hd. rewrite Hd in Hbd.
    destruct (machine_apply_all (commits evs) s hist later Hm) as [later' Hm']; [rewrite <- Hbd; apply data_prefix_all|].
    exists b, (hist ++ commits evs), later'. cbn [n_drv n_st n_pending]. rewrite app_nil_r. split_and!; try done; try lia.
    apply (Hbr hist); [done|by eexists|]. by rewrite Hbd.
  - eapply restart_inv; try done. lia.
  - rewrite persist_quiet in H0 by apply H. destruct (made_saved _ _ _ H) as (H3 & H4 & _). cbn [set_wal d_wal] in *.
    eapply restart_inv; try done; [|lia]. by eapply recorded_mono.
  - destruct (turn_at _ _ _ _ _ _ _ _ a H H0 Ha Hai Hsi Hac) as (b & Hb & Hbi & Hbs & Hbd & Hbc & Hsub & Hbr).
    rewrite (H1 (or_introl eq_refl)), app_nil_r in Hd. rewrite Hd in Hbd.
    destruct (machine_apply_all (commits evs) s hist later Hm) as [later' Hm']; [rewrite <- Hbd; apply data_prefix_all|].
    rewrite persist_quiet in H2 by apply H. destruct (made_saved _ _ _ H) as (H3 & H4 & _). cbn [set_wal d_wal] in *.
    eapply restart_inv; try done; [|lia]. eapply recorded_mono; try done. by eexists.
Qed.

Lemma node_run_inv none R R' :
  rtc (node_step unmarshal_cc ApplyConfChange apply getSnapshot survives true none (made_from log)) R R' ->
  node_inv R -> node_inv R'.
Proof. induction 1 as [|R0 R1 R2 Hstep _ IH]; [done|]. intros Hi. apply IH. by eapply node_step_inv. Qed.

(** A node that starts on an empty directory. *)
Lemma node_inv_start none k sn d s : startRaft none k None sn = Ok d -> St_ok s -> vw s = ∅ -> node_inv (mkNode d s []).
Proof.
  intros E Hs Hv. apply startRaft_fresh in E as (Hd & _ & _ & Hst & Hrec).
  exists 0%nat, [], []. cbn [n_drv n_st n_pending]. rewrite Hd, Hst. cbn [appliedIndex snapshotIndex hs_Commit emptyHardState].
  split_and!; try done; try lia.
  - split; [done|]. split; [apply prefix_nil|]. intros key. left. by rewrite Hv.
  - intros m Hm. rewrite Forall_forall in Hrec. rewrite Hst. cbn [hs_Commit emptyHardState]. rewrite (Hrec m Hm). split; [lia|by left].
Qed.

End crash.

(** *** Decoded entries

    When the log's data are the operations [ops], each one write, the state machine
    is described by them. *)
Lemma decoded_inv {St K X O : Type} `{KE : EqDecision K, KC : !Countable K} (vw : St -> gmap K X) (St_ok : St -> Prop)
    (decode : bytes -> option O) (w : O -> option (Write K X)) (log : list Entry) (ops : list O) (R : Node CS W D M St) :
  decode <$> data_of log = Some <$> ops -> node_inv vw (fun x => o ← decode x; w o) St_ok log R ->
  exists (a n : nat), appliedIndex (drv (n_drv R)) = Z.of_nat a /\ (a <= length log)%nat /\
    decode <$> data_of (take a log) = (Some <$> take n ops) ++ (decode <$> n_pending R) /\
    (forall k, vw (n_st R) !! k = write_all ∅ (w <$> take n ops) !! k \/ exists o, o ∈ drop n ops /\ writes k (w o)) /\
    (a = length log -> n_pending R = [] -> vw (n_st R) = write_all ∅ (w <$> ops)) /\ St_ok (n_st R).
Proof.
  intros Hdec (a & hist & later & Ha & Hai & _ & Hd & (Hok & [rest Hrest] & Hag) & _).
  assert (Hent : forall (l : list bytes) (os : list O), decode <$> l = Some <$> os -> (fun x => o ← decode x; w o) <$> l = w <$> os).
  { intros l. induction l as [|x l IH]; intros [|o os] E; try done. injection E as E1 E2. csimpl. rewrite E1.
    cbn [mbind option_bind]. f_equal. by apply IH. }
  assert (Hh : decode <$> hist = Some <$> take (length hist) ops).
  { rewrite fmap_take, <- Hdec, Hrest, <- app_assoc, <- fmap_take, take_app_length. done. }
  assert (Hl : decode <$> later ++ rest = Some <$> drop (length hist) ops).
  { rewrite fmap_drop, <- Hdec, Hrest, <- app_assoc, <- fmap_drop, drop_app_length. done. }
  exists a, (length hist). split_and!; try done.
  - by rewrite Hd, fmap_app, Hh.
  - intros k. rewrite <- (Hent hist) by done. destruct (Hag k) as [?|Hex]; [by left|right].
    apply Exists_exists in Hex as (u & Hu & v & ->). apply list_elem_of_fmap in Hu as (x & Hx & Hin).
    assert (decode x ∈ decode <$> later ++ rest) as Hdx by (apply list_elem_of_fmap_2, elem_of_app; by left).
    rewrite Hl in Hdx. apply list_elem_of_fmap in Hdx as (o & Ho & Hod). exists o. split; [done|]. rewrite Ho in Hx.
    cbn [mbind option_bind] in Hx. by exists v.
  - intros -> Hpe. rewrite take_ge, Hpe, app_nil_r in Hd by lia. rewrite Hd in Hrest.
    assert (later = []) as -> by (apply (f_equal length) in Hrest; rewrite !length_app in Hrest; by destruct later; simpl in *; [|lia]).
    rewrite <- (Hent (data_of log)), Hd by done. by apply agrees_now.
Qed.

End driver.

(** ** Libraries that satisfy the laws

    Lists in memory, for configurations of one kind. *)

Record ListWal := mkListWal { lw_log : list Entry; lw_state : HardState; lw_snaps : list (SnapMeta unit) }.

Definition lw_save (w : ListWal) (hs : HardState) (ents : list Entry) : ListWal * option error :=
  (mkListWal (match ents with [] => lw_log w | e :: _ => take (Z.to_nat (e_Index e - 1)) (lw_log w) ++ ents end)
     (if decide (hs = emptyHardState) then lw_state w else hs) (lw_snaps w), None).

#[export] Instance list_wal : Wal unit ListWal := {|
  wal_Create := Some (mkListWal [] emptyHardState [mkSnapMeta 0 0 tt]);
  wal_Save := lw_save;
  wal_SaveSnapshot w m := (mkListWal (lw_log w) (lw_state w) (lw_snaps w ++ [m]), None);
  wal_ReleaseLockTo w _ := (w, None);
  wal_ValidSnapshotEntries w := Ok (List.filter (fun m => bool_decide (sm_Index m <= hs_Commit (lw_state w))) (lw_snaps w));
  wal_ReadAll w at_ := Ok (lw_state w, drop (Z.to_nat at_.1) (lw_log w))
|}.

#[export] Instance list_wal_ok : WalOk unit ListWal.
Proof.
  refine {| w_log := lw_log; w_state := lw_state; w_snaps := lw_snaps |}; simpl.
  - intros w [= <-]. simpl. split_and!; [done..|by repeat constructor].
  - intros w hs ents w' f [= <-] Hf Hh. simpl. split_and!; try done. destruct ents as [|e ents]; [by rewrite decide_True|].
    rewrite decide_False by done. rewrite (Hh e eq_refl). do 2 f_equal. lia.
  - by intros w m w' [= <-].
  - by intros w i w' [= <-].
  - by intros w l [= <-].
  - by intros w i t hs ents [= <- <-].
Defined.

Definition ListSnaps : Type := list (Snapshot unit).

Definition is_known (l : list (SnapMeta unit)) (s : Snapshot unit) : bool :=
  existsb (fun m => bool_decide (sm_Index m = sm_Index (sp_Meta s)) && bool_decide (sm_Term m = sm_Term (sp_Meta s))) l.

Fixpoint newest (d : list (Snapshot unit)) : option (Snapshot unit) :=
  match d with
  | [] => None
  | s :: d' => match newest d' with
               | Some s' => Some (if decide (sm_Index (sp_Meta s') < sm_Index (sp_Meta s)) then s else s')
               | None => Some s
               end
  end.

#[export] Instance list_snaps : Snapshotter unit ListSnaps := {|
  SaveSnap d s := (d ++ (if IsEmptySnap s then [] else [s]), None);
  LoadNewestAvailable d l := Ok (newest (List.filter (is_known l) d));
  Snapshotter_Load d := Ok (newest d)
|}.

Lemma newest_spec d : match newest d with
  | Some s => s ∈ d /\ forall s', s' ∈ d -> sm_Index (sp_Meta s') <= sm_Index (sp_Meta s)
  | None => d = []
  end.
Proof.
  induction d as [|s d IH]; [done|]. simpl. destruct (newest d) as [s'|].
  - destruct IH as [Hin Hmax]. destruct (decide _).
    + split; [by left|]. intros x [->|Hx]%elem_of_cons; [lia|]. specialize (Hmax x Hx). lia.
    + split; [by right|]. intros x [->|Hx]%elem_of_cons; [lia|by apply Hmax].
  - subst d. split; [by left|]. intros x [->|Hx]%elem_of_cons; [lia|by apply not_elem_of_nil in Hx].
Qed.

Lemma is_known_spec l s : is_known l s = true <->
  exists m, m ∈ l /\ sm_Index m = sm_Index (sp_Meta s) /\ sm_Term m = sm_Term (sp_Meta s).
Proof.
  unfold is_known. rewrite existsb_exists. split; intros (m & Hm & Hp); exists m; rewrite list_elem_of_In in *;
    rewrite andb_true_iff, !bool_decide_eq_true in *; done.
Qed.

#[export] Instance list_snaps_ok : SnapshotterOk unit ListSnaps.
Proof.
  refine {| d_files := fun d => d |}; simpl.
  - by intros d s d' [= <-].
  - intros d l o [= <-]. pose proof (newest_spec (List.filter (is_known l) d)) as Hn.
    destruct (newest _) as [s|].
    + destruct Hn as [Hin Hmax]. apply list_elem_of_In, filter_In in Hin as [Hin Hk]. split_and!.
      * by apply list_elem_of_In.
      * by apply is_known_spec.
      * intros s' Hs' Hk'. apply Hmax. apply list_elem_of_In, filter_In. split; [by apply list_elem_of_In|by apply is_known_spec].
    + intros s Hs Hk. apply is_known_spec in Hk. assert (s ∈ List.filter (is_known l) d) as Hx
        by (apply list_elem_of_In, filter_In; split; [by apply list_elem_of_In|done]).
      rewrite Hn in Hx. by apply not_elem_of_nil in Hx.
Defined.

Record ListMem := mkListMem { lm_snap : option (Snapshot unit); lm_state : HardState; lm_ents : list Entry }.

#[export] Instance list_mem : MemoryStorage unit ListMem := {|
  NewMemoryStorage := mkListMem None emptyHardState [];
  ms_ApplySnapshot m s :=
    if IsEmptySnap s then (m, Some (EExt "requested index is older than the existing snapshot"))
    else (mkListMem (Some s) (lm_state m) [], None);
  ms_SetHardState m hs := (mkListMem (lm_snap m) hs (lm_ents m), None);
  ms_Append m ents := (mkListMem (lm_snap m) (lm_state m) (lm_ents m ++ ents), None);
  ms_CreateSnapshot m i cs data :=
    let s := mkSnapshot (mkSnapMeta i 1 cs) data in (mkListMem (Some s) (lm_state m) (lm_ents m), Ok s);
  ms_Compact m _ := (m, None);
  ms_Snapshot m := Ok (match lm_snap m with Some s => s | None => mkSnapshot (mkSnapMeta 0 0 tt) [] end)
|}.

#[export] Instance list_mem_ok : MemoryStorageOk unit ListMem.
Proof.
  refine {| m_snap := lm_snap; m_state := lm_state; m_ents := lm_ents |}; simpl.
  - done.
  - intros m s m' e Hs He. destruct (IsEmptySnap s); by intros [= <- <-].
  - by intros m hs m' [= <-].
  - intros m ents m' He [= <-]. simpl. by rewrite He.
  - by intros m i cs data m' s [= <- <-].
  - intros m s [= <-]. by destruct (lm_snap m).
Defined.

(** ** Runs of a small node

    Its state machine keeps the list of what it applied; a snapshot is due after
    [k] entries. *)

Definition demo_turn_rd (commit : Z) (ents : list Entry) : FullReady unit unit :=
  mkFullReady (mkHardState 1 1 commit) ents (mkSnapshot (mkSnapMeta 0 0 tt) []) ents [].

Definition demo_serve (gs : res bytes) (d : Driver unit ListWal ListSnaps ListMem) (rd : FullReady unit unit) :=
  serve_turn no_cc (fun _ _ => tt) false false gs d rd.

Definition demo_start (k : Z) : res (Driver unit ListWal ListSnaps ListMem) := startRaft tt k None [].

Definition demo_node_step {St} (survives : St -> St) (app : St -> bytes -> St) (drained : bool) (log : list Entry) :=
  node_step (Msg:=unit) (W:=ListWal) (D:=ListSnaps) (M:=ListMem) no_cc (fun _ _ => tt) app (fun _ => Ok []) survives drained tt (made_from log).

Definition driver_of (r : res (Driver unit ListWal ListSnaps ListMem)) : Driver unit ListWal ListSnaps ListMem :=
  match r with Ok d => d | _ => mkDriver (mkRaftNode tt 0 0 0) (mkListWal [] emptyHardState []) [] (mkListMem None emptyHardState []) end.

Definition demo_driver : Driver unit ListWal ListSnaps ListMem := driver_of (demo_start 2).

(** The batches above are the library's, if they continue the node's log. *)
Lemma demo_made log d n l commit : appliedIndex (drv d) = Z.of_nat n -> length (lw_log (d_wal d)) = n ->
  (n <= l <= length log)%nat -> hs_Commit (lw_state (d_wal d)) <= commit -> log_wf no_cc log -> Z.of_nat l <= commit ->
  made_from (W:=ListWal) (D:=ListSnaps) (M:=ListMem) log d (demo_turn_rd commit (slice log n l)).
Proof.
  intros Ha Hlen Hl Hc Hwf Hlc. unfold made_from, demo_turn_rd. cbn [fr_HardState fr_Entries fr_Committed].
  rewrite decide_False by (intros [=]). split_and!.
  - split; [done|]. exists n, l. split_and!; try done; lia.
  - eexists _, n. split; [done|]. split; [cbn; lia|]. intros e He. destruct Hwf as (_ & Hidx & _). apply Hidx.
    rewrite <- (Nat.add_0_r n), <- (slice_lookup log n l); [by rewrite <- head_lookup|lia|].
    destruct (slice log n l) as [|e0 es] eqn:E; [done|]. rewrite <- (slice_length log n l), E by lia. simpl. lia.
  - done.
  - intros e He. destruct Hwf as (_ & Hidx & _). apply list_elem_of_lookup in He as [i Hi].
    assert (i < l - n)%nat as Hil by (rewrite <- (slice_length log n l) by lia; by eapply lookup_lt_Some).
    rewrite slice_lookup in Hi by lia. rewrite (Hidx _ _ Hi). cbn. lia.
Qed.

(** C40: a commit can be lost for good. The driver takes a snapshot without waiting for
    the state machine when the batch that makes it due has no data. If the node then
    crashes, it starts at that snapshot and is never given the entries the state
    machine was still to apply: here everything in the log is delivered, and the
    state machine, whose storage survives, has applied none of it. *)
Theorem crash_loses_commit : exists R,
  rtc (demo_node_step id (fun s x => s ++ [x]) false (race_log 2)) (mkNode demo_driver [] []) R /\
  appliedIndex (drv (n_drv R)) = 3 /\ length (race_log 2) = 3%nat /\ n_pending R = [] /\ n_st R = [] /\
  data_of (race_log 2) = [[x01]; [x01]].
Proof.
  set (log := race_log 2). pose proof (race_log_wf 2 ltac:(lia)) as Hwf.
  set (rd1 := demo_turn_rd 2 (slice log 0 2)). set (rd2 := demo_turn_rd 3 (slice log 2 3)).
  set (d1 := (demo_serve (Ok []) demo_driver rd1).1.1.1). set (d2 := (demo_serve (Ok []) d1 rd2).1.1.1).
  set (d3 := driver_of (startRaft tt 2 (Some (d_wal d2)) (d_snaps d2))).
  exists (mkNode d3 [] []). split; [|vm_compute; done].
  apply (rtc_l _ _ (mkNode d1 [] [[x01]; [x01]])).
  { refine (N_commit _ _ _ _ _ _ _ _ demo_driver [] rd1 d1 [Ev_Commit (Some [[x01]; [x01]])] [] _ _);
      [apply (demo_made log demo_driver 0 2); try done; vm_compute; (done || lia)|vm_compute; reflexivity]. }
  apply (rtc_l _ _ (mkNode d2 [] [[x01]; [x01]])).
  { refine (N_quiet _ _ _ _ _ _ _ _ d1 [] [[x01]; [x01]] rd2 d2 [] [] (Some (3, 1)) _ _ _ _);
      [apply (demo_made log d1 2 3); try done; vm_compute; (done || lia)|vm_compute; reflexivity|done|done]. }
  apply rtc_once. apply (N_crash _ _ _ _ id _ _ _ d2 [] [[x01]; [x01]] d3). vm_compute. reflexivity.
Qed.
