(* ===== verification/AlayaRaft.v ===== *)
(** * One group of the metadata service: [src/edge-node/alaya/alaya_raft.go]

    What [Alaya.v] leaves out of a group's node: the loop over its channels, sending
    messages of the raft library, reading commits and loading snapshots, and the
    loops that propose until the group has changed. Waiting for the library is a
    list of what it reports from one look to the next; a loop that is not satisfied
    by the end of the list waits for ever. *)

From S2P Require Import Prelude GoStd Errno Infos Rocks InfoStorage Object Pipeline GaiaMsg MetaStorage Alaya RaftNode RaftDisk.

(** ** Snapshots of a storage *)

Class MetaSnapshots (S D : Type) := {
  CreateSnapshot : S -> res D;
  RecoverFromSnapshot : S -> D -> S * res unit
}.

(** A struct without exported fields is encoded as an empty JSON object. *)
Definition MemMeta_CreateSnapshot (_ : MemoryMetaStorage) : res string := Ok "{}".

Definition MemMeta_RecoverFromSnapshot (s : MemoryMetaStorage) (_ : string) : MemoryMetaStorage * res unit := (s, Ok tt).

#[export] Instance memory_meta_snapshots : MetaSnapshots MemoryMetaStorage string := {|
  CreateSnapshot := MemMeta_CreateSnapshot; RecoverFromSnapshot := MemMeta_RecoverFromSnapshot
|}.

#[export] Instance rocks_meta_snapshots {V} `{RocksDB V, !Proto ObjectMeta V} :
    MetaSnapshots (RocksDBMetaStorage V) (list string * list V) := {|
  CreateSnapshot := fun s => Ok (RocksMeta_CreateSnapshot s); RecoverFromSnapshot := RocksMeta_RecoverFromSnapshot
|}.

(** ** Reading commits *)

Section commits.
Context {S D CS F : Type} `{MetaStorage S, MetaSnapshots S D, Snapshotter CS F}.
Context (decode_snapshot : bytes -> D) (decode : bytes -> option MetaOperate).

(** No snapshot is not an error. *)
Definition Raft_loadSnapshot (files : F) : res (option (Snapshot CS)) := Snapshotter_Load files.

(** A message that cannot be decoded is applied as far as it was: a zero message is
    a PUT of a nil record. *)
Definition apply_data (s : S) (x : bytes) : S * res unit :=
  match decode x with
  | Some o => match apply_op s o with (s, Panic) => (s, Panic) | (s, Stuck) => (s, Stuck) | (s, _) => (s, Ok tt) end
  | None => (s, Panic)
  end.

Fixpoint apply_commit (s : S) (data : list bytes) : S * res unit :=
  match data with
  | [] => (s, Ok tt)
  | x :: data' => match apply_data s x with (s, Ok _) => apply_commit s data' | (s, r) => (s, r) end
  end.

(** One element of [CommitC]: a nil commit asks to load the newest snapshot; errors
    are only reported. *)
Definition readCommit (files : F) (s : S) (commit : option (list bytes)) : S * res unit :=
  match commit with
  | Some data => apply_commit s data
  | None =>
      match Raft_loadSnapshot files with
      | Ok (Some snapshot) =>
          match RecoverFromSnapshot s (decode_snapshot (sp_Data snapshot)) with
          | (s, Panic) => (s, Panic) | (s, Stuck) => (s, Stuck) | (s, _) => (s, Ok tt)
          end
      | Ok None | Err _ => (s, Ok tt)
      | Panic => (s, Panic) | Stuck => (s, Stuck)
      end
  end.

End commits.

(** ** Messages of the library *)

(** Whom a message goes to, and the configuration a snapshot in it carries. *)
Record RaftMessage := mkRaftMessage { rm_To : Z; rm_Snapshot : option (list Z) }.

(** [getNodeInfo]: the record of a node as Moon has it; nil for another record. *)
Definition getNodeInfo (GetInfo : InfoType -> string -> res BaseInfo) (id : Z) : res (option NodeInfo) :=
  b ← GetInfo IT_NODE_INFO (FormatUint id); Ok (GetNodeInfo b).

(** [cancelled]: whether the context is done when a message's turn comes. An unknown
    node ends the batch, an unreachable one is skipped; what was sent is the result. *)
Fixpoint sendMsgByRpc (GetInfo : InfoType -> string -> res BaseInfo) (connect : NodeInfo -> bool) (confVoters : list Z)
    (messages : list (bool * RaftMessage)) : list (NodeInfo * RaftMessage) * res unit :=
  match messages with
  | [] => ([], Ok tt)
  | (cancelled, m) :: messages' =>
      if cancelled : bool then ([], Ok tt)
      else
        let m := mkRaftMessage (rm_To m) (match rm_Snapshot m with Some _ => Some confVoters | None => None end) in
        match getNodeInfo GetInfo (rm_To m) with
        | Err _ => ([], Ok tt)
        | Ok None => ([], Panic)
        | Ok (Some n) =>
            let '(l, r) := sendMsgByRpc GetInfo connect confVoters messages' in
            (if connect n then (n, m) :: l else l, r)
        | Panic => ([], Panic)
        | Stuck => ([], Stuck)
        end
  end.

(** ** Changing the group *)

Definition findVoter (r : Raft) (id : Z) : bool := bool_decide (id ∈ r_voters r).

Definition set_voters (r : Raft) (voters : list Z) : Raft :=
  mkRaft (r_id r) (r_pgID r) (r_pipeline r) (r_peers r) voters (r_lead r) (r_confVoters r).

(** [addNode] and [removeNode] propose with the pipeline as context and wait until a
    change of that node is applied. *)
Definition addNode (r : Raft) (id : Z) : ConfChange := mkConfChange ConfChangeAddNode id (Some (r_pipeline r)).

Definition removeNode (r : Raft) (id : Z) : ConfChange := mkConfChange ConfChangeRemoveNode id (Some (r_pipeline r)).

(** Repeat a proposal until the voters are as wanted: [views] are the voters after
    each proposal. The proposals made, and the voters at the end. *)
Fixpoint propose_until (c : ConfChange) (wanted : list Z -> bool) (views : list (list Z)) (r : Raft)
    : list ConfChange * Raft * list (list Z) * res unit :=
  if wanted (r_voters r) then ([], r, views, Ok tt)
  else match views with
       | [] => ([c], r, [], Stuck)
       | v :: views' =>
           let '(cs, r, views, o) := propose_until c wanted views' (set_voters r v) in (c :: cs, r, views, o)
       end.

Fixpoint add_nodes (ids : list Z) (views : list (list Z)) (r : Raft) : list ConfChange * Raft * list (list Z) * res unit :=
  match ids with
  | [] => ([], r, views, Ok tt)
  | id :: ids' =>
      match propose_until (addNode r id) (fun vs => bool_decide (id ∈ vs)) views r with
      | (cs, r, views, Ok _) => let '(cs', r, views, o) := add_nodes ids' views r in (cs ++ cs', r, views, o)
      | (cs, r, views, o) => (cs, r, views, o)
      end
  end.

(** A node to remove is proposed once in any case. *)
Fixpoint remove_nodes (ids : list Z) (views : list (list Z)) (r : Raft) : list ConfChange * Raft * list (list Z) * res unit :=
  match ids with
  | [] => ([], r, views, Ok tt)
  | id :: ids' =>
      if decide (id = r_id r) then remove_nodes ids' views r
      else match views with
           | [] => ([removeNode r id], r, [], Stuck)
           | v :: views =>
               match propose_until (removeNode r id) (fun vs => negb (bool_decide (id ∈ vs))) views (set_voters r v) with
               | (cs, r, views, Ok _) =>
                   let '(cs', r, views, o) := remove_nodes ids' views r in (removeNode r id :: cs ++ cs', r, views, o)
               | (cs, r, views, o) => (removeNode r id :: cs, r, views, o)
               end
           end
  end.

(** The node itself goes last, and once. *)
Definition remove_all (cancelled : bool) (ids : list Z) (views : list (list Z)) (r : Raft)
    : list ConfChange * Raft * list (list Z) * res unit :=
  if cancelled then ([], r, views, Ok tt)
  else match remove_nodes ids views r with
       | (cs, r, views, Ok _) =>
           if decide (r_id r ∈ ids) then
             match views with
             | [] => (cs ++ [removeNode r (r_id r)], r, [], Stuck)
             | v :: views => (cs ++ [removeNode r (r_id r)], set_voters r v, views, Ok tt)
             end
           else (cs, r, views, Ok tt)
       | x => x
       end.

(** ** Asking for the leadership

    [leads]: who leads at each look. The library is asked to transfer once before
    the loop and once per turn; the result is from whom. *)
Fixpoint ask_loop (self : Z) (leads : list Z) : list Z * res unit :=
  match leads with
  | [] => ([], Stuck)
  | lead :: leads' =>
      if decide (lead = self) then ([], Ok tt)
      else let '(asked, o) := ask_loop self leads' in (lead :: asked, o)
  end.

Definition askForLeader (r : Raft) (leads : list Z) : list Z * res unit :=
  let '(asked, o) := ask_loop (r_id r) leads in (r_lead r :: asked, o).

(** ** The loop over the channels: [Run] *)

Inductive RunEvent :=
  | RE_Messages (ms : list (bool * RaftMessage))      (* from the library *)
  | RE_Received (m : RaftMessage)                     (* from another node *)
  | RE_ConfChange (c : ConfChange).

Inductive RunAction :=
  | RA_Send (ms : list (bool * RaftMessage))          (* a goroutine of its own *)
  | RA_Step (m : RaftMessage)
  | RA_Wake (id : Z)
  | RA_Stop (pgID : Z).                               (* [Stop] *)

Definition run_event (r : Raft) (ev : RunEvent) : Raft * list RunAction :=
  match ev with
  | RE_Messages ms => (r, [RA_Send ms])
  | RE_Received m => (r, [RA_Step m])
  | RE_ConfChange c =>
      let '(r, woken, stop) := CheckConfChange r c in
      (r, (match woken with Some id => [RA_Wake id] | None => [] end) ++ (if stop : bool then [RA_Stop (r_pgID r)] else []))
  end.

Fixpoint Raft_Run (r : Raft) (evs : list RunEvent) : Raft * list RunAction :=
  match evs with
  | [] => (r, [])
  | ev :: evs' => let '(r, l) := run_event r ev in let '(r, l') := Raft_Run r evs' in (r, l ++ l')
  end.
