(* ===== verification/AlayaRaftProofs.v ===== *)
(** * Metadata survives crashes, if its storage does

    The storages of [MetaStorage.v] under the driver of [RaftDisk.v]. *)

From S2P Require Import Prelude GoStd Errno Infos Rocks InfoStorage Object Pipeline GaiaMsg MetaStorage Alaya AlayaProofs RaftNode RaftNodeProofs RaftDisk RaftDiskProofs AlayaRaft.

(** ** An operation is one write *)

Definition op_write (o : MetaOperate) : option (Write string ObjectMeta) :=
  match Operate o with
  | MetaOperate_PUT => Some (ObjId (Meta o), Some (Meta o))
  | MetaOperate_DELETE => Some (ObjId (Meta o), None)
  | MetaOperate_OTHER => None
  end.

Lemma op_view_write m o : op_view m o = write m (op_write o).
Proof. unfold op_view, op_write. by destruct (Operate o). Qed.

Lemma log_view_writes l : forall m, log_view m l = write_all m (op_write <$> l).
Proof. induction l as [|o l IH]; intros m; [done|]. unfold log_view, write_all in *. simpl. by rewrite op_view_write, IH. Qed.

(** What a group's node applies, for a log whose entries can be decoded. *)
Definition apply_entry {S} `{MetaStorage S} (decode : bytes -> option MetaOperate) (s : S) (x : bytes) : S :=
  (apply_data decode s x).1.

Definition entry_write (decode : bytes -> option MetaOperate) (x : bytes) : option (Write string ObjectMeta) :=
  o ← decode x; op_write o.

Lemma apply_entry_view {S} `{MetaStorageLaws S, !MetaStorageTotal S} decode (s : S) x : metas_ok s ->
  metas_ok (apply_entry decode s x) /\ metas (apply_entry decode s x) = write (metas s) (entry_write decode x).
Proof.
  intros Hs. unfold apply_entry, apply_data, entry_write. destruct (decode x) as [o|]; [|done].
  destruct (apply_op_view s o Hs) as [H1 H2]. rewrite op_view_write in H2. cbn [mbind option_bind].
  destruct (apply_op s o) as [s' [[]|e| |]]; done.
Qed.


(** ** Small nodes *)

Definition put_meta : ObjectMeta := mkObjectMeta "/root/default/1/k" STATUS_OK POSITION_EDGE 0 None "" 1 [] 1 None.

Definition decode_put (_ : bytes) : option MetaOperate := Some (mkMetaOperate 1 MetaOperate_PUT put_meta).

(** Three writes of one object. *)
Definition put_log : list Entry := take 3 (race_log 3).

Lemma put_log_wf : log_wf no_cc put_log.
Proof.
  unfold put_log. destruct (race_log_wf 3 ltac:(lia)) as (_ & Hidx & Hcc). split; [vm_compute; done|]. split.
  - intros i e He. apply lookup_take_Some in He as [He _]. by apply Hidx.
  - intros e He. apply Hcc. eapply sublist_subseteq; [apply sublist_take|done].
Qed.

(** What a process has in memory does not survive it. *)
Definition process_ends (_ : MemoryMetaStorage) : MemoryMetaStorage := mkMemoryMetaStorage ∅.

Definition memory_step (survives : MemoryMetaStorage -> MemoryMetaStorage) :=
  node_step (Msg:=unit) (W:=ListWal) (D:=ListSnaps) (M:=ListMem) no_cc (fun _ _ => tt) (apply_entry decode_put)
    (fun s => x ← MemMeta_CreateSnapshot s; Ok (String.list_byte_of_string x)) survives true tt (made_from put_log).

Definition memory_start : Node unit ListWal ListSnaps ListMem MemoryMetaStorage :=
  mkNode demo_driver (mkMemoryMetaStorage ∅) [].

(** the storages an edge node is started with forget. [nodeRun] gives it storages in
    memory, whose snapshots are empty and are not read back. After more than
    [snapCount] writes a node that is started again stands behind them: everything
    in the log counts as applied, and the object it records does not exist, not even
    when the snapshot is loaded. *)
Theorem memory_metadata_lost : exists R,
  rtc (memory_step process_ends) memory_start R /\
  appliedIndex (drv (n_drv R)) = Z.of_nat (length put_log) /\ n_pending R = [] /\
  log_view ∅ (omap decode_put (data_of put_log)) !! ObjId put_meta = Some put_meta /\
  GetMeta (n_st R) (ObjId put_meta) = Err (EErrno MetaNotExist) /\
  GetMeta (readCommit (fun _ => "") decode_put (d_snaps (n_drv R)) (n_st R) None).1 (ObjId put_meta) = Err (EErrno MetaNotExist).
Proof.
  set (rd := demo_turn_rd 3 (slice put_log 0 3)). set (d1 := (demo_serve (Ok (String.list_byte_of_string "{}")) demo_driver rd).1.1.1).
  set (d2 := driver_of (startRaft tt 2 (Some (d_wal d1)) (d_snaps d1))).
  exists (mkNode d2 (mkMemoryMetaStorage ∅) []). split; [|vm_compute; done].
  apply (rtc_l _ _ (mkNode d1 (apply_all (apply_entry decode_put) (mkMemoryMetaStorage ∅) (commits [Ev_Commit (CC:=unit) (Some [[x01]; [x01]; [x01]])])) [])).
  { refine (N_commit_snapshot _ _ _ _ _ _ _ _ demo_driver (mkMemoryMetaStorage ∅) rd d1 [Ev_Commit (Some [[x01]; [x01]; [x01]])] [] 3 1 _ _);
      [apply (demo_made put_log demo_driver 0 3); try apply put_log_wf; try done; vm_compute; (done || lia)|vm_compute; reflexivity]. }
  apply rtc_once. refine (N_crash _ _ _ _ process_ends _ _ _ d1 _ [] d2 _). vm_compute. reflexivity.
Qed.

