(* ===== verification/MoonLoop.v ===== *)
(** * The loops of a Moon: [src/edge-node/moon/moon.go]

    What [Moon.v] leaves out: reading commits and loading snapshots, sending the
    messages of the raft library, and waiting for a membership change. *)

From S2P Require Import Prelude GoStd Errno Infos InfoStorage GaiaMsg Moon RaftNode RaftDisk.

Section loops.
Context {S CS F : Type} `{Storage S, Snapshotter CS F}.
Context (decode : bytes -> option ProposeInfoRequest).

(** The register gives the snapshot to the factory of its storages. *)
Context (recover : StorageRegister S -> bytes -> StorageRegister S * res unit).

Definition Moon_loadSnapshot (files : F) : res (option (Snapshot CS)) := Snapshotter_Load files.

(** A message that cannot be decoded goes on as the zero message, an addition of
    nothing. *)
Definition decoded (x : bytes) : ProposeInfoRequest :=
  default (mkProposeInfoRequest ProposeInfoRequest_ADD "" None) (decode x).

Fixpoint apply_data (m : Moon S) (data : list bytes) : Moon S * res unit :=
  match data with
  | [] => (m, Ok tt)
  | x :: data' =>
      match apply_request m (decoded x) with
      | (m, Panic) => (m, Panic)
      | (m, Stuck) => (m, Stuck)
      | (m, _) => apply_data m data'
      end
  end.

(** One element of [commitC]; errors are only reported. *)
Definition readCommits (files : F) (m : Moon S) (commit : option (list bytes)) : Moon S * res unit :=
  match commit with
  | Some data => apply_data m data
  | None =>
      match Moon_loadSnapshot files with
      | Ok (Some snapshot) =>
          match recover (infoStorageRegister m) (sp_Data snapshot) with
          | (r, Panic) => (set_register m r, Panic)
          | (r, Stuck) => (set_register m r, Stuck)
          | (r, _) => (set_register m r, Ok tt)
          end
      | Ok None | Err _ => (m, Ok tt)
      | Panic => (m, Panic) | Stuck => (m, Stuck)
      end
  end.

(** ** Sending *)

Inductive SendOutcome := Sent | NotConnected | SendFailed.

(** The messages of a batch, in order: what was sent to whom. An unknown or
    unconnected node ends the batch. An error of the call is put into a channel
    without a buffer that is only read while a change of the members is proposed:
    [heard] says for each such error whether somebody reads it; otherwise the
    goroutine waits for ever. *)
Fixpoint sendByRpc (m : Moon S) (send : NodeInfo -> SendOutcome) (heard : list bool) (to : list Z) : list NodeInfo * res unit :=
  match to with
  | [] => ([], Ok tt)
  | id :: to' =>
      if m_stopped m then ([], Ok tt)
      else match message_target m id with
           | Ok n =>
               match send n with
               | Sent => let '(l, r) := sendByRpc m send heard to' in (n :: l, r)
               | NotConnected => ([], Ok tt)
               | SendFailed =>
                   match heard with
                   | true :: heard' => sendByRpc m send heard' to'
                   | _ => ([], Stuck)
                   end
               end
           | Err _ => ([], Ok tt)
           | Panic => ([], Panic)
           | Stuck => ([], Stuck)
           end
  end.

(** ** Changing the members

    [ProposeConfChangeAddNode] waits for the next error of a send, or for the next
    change the driver applies, whatever it is. The loop [Run] receives from the same
    channel and drops what it gets: [taken] says for each event whether the proposer
    is the one that gets it. *)
Fixpoint ProposeConfChangeAddNode (taken : list bool) : res unit :=
  match taken with
  | [] => Stuck
  | true :: _ => Ok tt
  | false :: taken' => ProposeConfChangeAddNode taken'
  end.

(** The loop of [Run] starts the raft node if nobody has, and reacts to what the
    library gives it. *)
Inductive MoonEvent := ME_Messages (to : list Z) | ME_ConfChange | ME_Done.

Inductive MoonAction := MA_Send (to : list Z).

Definition Moon_Run_start (nodes : list NodeInfo) (m : Moon S) : Moon S :=
  match m_raft m with
  | None => Set_ m (SelfInfo m) None nodes
  | Some _ => m
  end.

Fixpoint Moon_Run (m : Moon S) (evs : list MoonEvent) : Moon S * list MoonAction :=
  match evs with
  | [] => (m, [])
  | ME_Messages to :: evs' => let '(m, l) := Moon_Run m evs' in (m, MA_Send to :: l)
  | ME_ConfChange :: evs' => Moon_Run m evs'
  | ME_Done :: _ => (cleanup m, [])
  end.

(** ** Theorems *)

(** one peer that fails stops the rest of a batch. When a call to a node fails and no
    change of the members is being proposed, the goroutine that sends the batch waits
    for ever: the messages after it are not sent, to whomever they are. *)
Theorem failed_peer_blocks_batch (m : Moon S) send before n id after :
  m_stopped m = false -> Forall (fun i => exists x, message_target m i = Ok x /\ send x = Sent) before ->
  message_target m id = Ok n -> send n = SendFailed ->
  exists l, sendByRpc m send [] (before ++ id :: after) = (l, Stuck) /\ length l = length before.
Proof.
  intros Hs Hb Ht Hf. induction Hb as [|i before (x & Hx & Hsent) Hb IH]; simpl; rewrite Hs.
  - rewrite Ht, Hf. by exists [].
  - rewrite Hx, Hsent. destruct IH as (l & -> & Hl). exists (x :: l). simpl. by rewrite Hl.
Qed.

End loops.

Definition demo_moon : Moon MemoryInfoStorage :=
  mkMoon 1 None (mkNodeInfo 1 "u1" "127.0.0.1" 3267 10 NS_ONLINE) false
    (list_to_map [(2, mkNodeInfo 2 "u2" "10.0.0.2" 3267 10 NS_ONLINE); (3, mkNodeInfo 3 "u3" "10.0.0.3" 3267 10 NS_ONLINE)])
    0 (mkStorageRegister ∅) StatusOK.

Lemma failed_peer_blocks_batch_witness :
  exists l, sendByRpc demo_moon (fun n => if decide (RaftId n = 2) then SendFailed else Sent) [] ([3] ++ 2 :: [3]) = (l, Stuck) /\ length l = 1%nat.
Proof.
  apply (failed_peer_blocks_batch demo_moon _ [3] (mkNodeInfo 2 "u2" "10.0.0.2" 3267 10 NS_ONLINE) 2 [3]);
    [reflexivity|by repeat econstructor|reflexivity|reflexivity].
Defined.
