(* ===== verification/MoonProofs.v ===== *)
(** * The directory survives crashes

    Proofs about [Moon.v] and [MoonLoop.v]: what the requests of a log leave in the
    directory, and that a Moon whose storages survive crashes has it again. *)

From S2P Require Import Prelude GoStd Errno Infos InfoStorage GaiaMsg Moon RaftNode RaftNodeProofs RaftDisk RaftDiskProofs MoonLoop.

(** A storage whose writes do not fail. *)
Class WritesTotal (S : Type) `{Storage S} : Prop := {
  Storage_Update_total s i : exists s' calls, Storage_Update s i = (s', Ok calls);
  Storage_Delete_total s id : exists s', Storage_Delete s id = (s', Ok tt)
}.

#[export] Instance memory_writes_total : WritesTotal MemoryInfoStorage.
Proof. constructor; intros; repeat eexists. Qed.

(** ** What a request says

    Types without a storage are refused; an update is stored under the type and the
    identifier of its information, a deletion removes the identifier it names. *)

Abbreviation InfoKey := (InfoType * string)%type.

Abbreviation flatten := (map_uncurry (M1:=gmap InfoType) (M2:=gmap string) (M12:=gmap InfoKey)).

Definition request_write (types : gset InfoType) (req : ProposeInfoRequest) : option (Write InfoKey BaseInfo) :=
  b ← pi_BaseInfo req;
  if decide (BaseInfo_GetInfoType b ∈ types) then
    match pi_Operate req, b with
    | ProposeInfoRequest_DELETE, _ => Some ((BaseInfo_GetInfoType b, pi_Id req), None)
    | ProposeInfoRequest_OTHER, _ | _, BI_NilClusterInfo => None
    | _, _ => Some ((BaseInfo_GetInfoType b, BaseInfo_GetID b), Some b)
    end
  else None.

(** The directory that requests make, the last word on an entry being the one that
    counts. *)
Definition requests_directory (types : gset InfoType) (reqs : list ProposeInfoRequest) : gmap InfoKey BaseInfo :=
  write_all ∅ (request_write types <$> reqs).

(** A request that a Moon can apply: with a panic its process ends. *)
Definition has_info (req : ProposeInfoRequest) : bool :=
  match pi_BaseInfo req with None | Some BI_NilClusterInfo => false | Some _ => true end.

Section directory.
Context {S : Type} `{StorageLaws S, !WritesTotal S}.

Implicit Types m : Moon S.

Definition directory m : gmap InfoKey BaseInfo := flatten (register_view (infoStorageRegister m)).

(** The types that have a storage. *)
Definition serves (types : gset InfoType) m : Prop := dom (register_view (infoStorageRegister m)) = types.

Lemma uncurry_insert (v : gmap InfoType (gmap string BaseInfo)) t mt id o :
  v !! t = Some mt ->
  flatten (<[t := match o with Some b => <[id := b]> mt | None => delete id mt end]> v) =
    write (flatten v) (Some ((t, id), o)).
Proof.
  intros Ht. apply map_eq. intros [t' id']. rewrite lookup_map_uncurry.
  destruct (decide (t' = t)) as [->|Hne].
  - rewrite lookup_insert_eq. cbn [mbind option_bind]. destruct (decide (id' = id)) as [->|Hid].
    + destruct o as [b|]; simpl; by rewrite ?lookup_insert_eq, ?lookup_delete_eq.
    + destruct o as [b|]; simpl.
      * rewrite !lookup_insert_ne by congruence. by rewrite lookup_map_uncurry, Ht.
      * rewrite !lookup_delete_ne by congruence. by rewrite lookup_map_uncurry, Ht.
  - rewrite lookup_insert_ne by done. destruct o as [b|]; simpl.
    + rewrite lookup_insert_ne by congruence. by rewrite lookup_map_uncurry.
    + rewrite lookup_delete_ne by congruence. by rewrite lookup_map_uncurry.
Qed.

Lemma registered (r : StorageRegister S) t : t ∈ dom (register_view r) <-> exists s, storageMap r !! t = Some s.
Proof. unfold register_view. rewrite dom_fmap, elem_of_dom. done. Qed.

Lemma unregistered (r : StorageRegister S) t : t ∉ dom (register_view r) -> storageMap r !! t = None.
Proof. intros Ht. apply eq_None_not_Some. intros [s Hs]. apply Ht, registered. by exists s. Qed.

(** An update of the register as a write of the directory. *)
Lemma update_directory m info : GetInfoType info ∈ dom (register_view (infoStorageRegister m)) ->
  exists r calls, Register_Update (infoStorageRegister m) info = (r, Ok calls) /\
    dom (register_view r) = dom (register_view (infoStorageRegister m)) /\
    directory (set_register m r) = write (directory m) (Some ((GetInfoType info, GetID info), Some (Information_BaseInfo info))).
Proof.
  intros [s Hs]%registered. unfold Register_Update. rewrite Hs. destruct (Storage_Update_total s info) as (s' & calls & E).
  rewrite E. destruct (update_view _ _ _ _ E) as (_ & Hv & _). exists (Register (infoStorageRegister m) (GetInfoType info) s'), calls.
  split; [done|]. unfold directory, register_view. cbn [set_register infoStorageRegister Register storageMap].
  rewrite fmap_insert, Hv. split.
  - rewrite dom_insert_L. apply subseteq_union_1_L, singleton_subseteq_l, registered. by exists s.
  - apply (uncurry_insert _ _ (view s) _ (Some _)). by rewrite lookup_fmap, Hs.
Qed.

Lemma delete_directory m t id : t ∈ dom (register_view (infoStorageRegister m)) ->
  exists r, Register_Delete (infoStorageRegister m) t id = (r, Ok tt) /\
    dom (register_view r) = dom (register_view (infoStorageRegister m)) /\
    directory (set_register m r) = write (directory m) (Some ((t, id), None)).
Proof.
  intros [s Hs]%registered. unfold Register_Delete. rewrite Hs. destruct (Storage_Delete_total s id) as (s' & E).
  rewrite E. destruct (delete_view _ _ _ E) as (_ & Hv & _). exists (Register (infoStorageRegister m) t s').
  split; [done|]. unfold directory, register_view. cbn [set_register infoStorageRegister Register storageMap].
  rewrite fmap_insert, Hv. split.
  - rewrite dom_insert_L. apply subseteq_union_1_L, singleton_subseteq_l, registered. by exists s.
  - apply (uncurry_insert _ _ (view s) _ None). by rewrite lookup_fmap, Hs.
Qed.

(** Storing the information of a request. *)
Definition store (m : Moon S) (b : BaseInfo) : Moon S * res (list string) :=
  match Register_Update (infoStorageRegister m) (Inf_Base b) with
  | (r, Ok calls) => (set_register m r, Ok calls)
  | (r, Err _) => (set_register m r, Ok [])
  | (r, Panic) => (set_register m r, Panic)
  | (r, Stuck) => (set_register m r, Stuck)
  end.

Definition applied m m' (w : option (Write InfoKey BaseInfo)) : Prop :=
  dom (register_view (infoStorageRegister m')) = dom (register_view (infoStorageRegister m)) /\
  directory m' = write (directory m) w /\ m_stopped m' = m_stopped m.

Lemma applied_nothing m : applied m m None.
Proof. done. Qed.

Lemma set_register_self m : set_register m (infoStorageRegister m) = m.
Proof. by destruct m. Qed.

Lemma store_applied m b : 
  applied m (store m b).1 (if decide (BaseInfo_GetInfoType b ∈ dom (register_view (infoStorageRegister m)))
                           then Some ((BaseInfo_GetInfoType b, BaseInfo_GetID b), Some b) else None) /\
  exists calls, (store m b).2 = Ok calls.
Proof.
  unfold store. destruct (decide _) as [Hin|Hnin].
  - destruct (update_directory m (Inf_Base b) Hin) as (r & calls & -> & Hd & Hv). split; [done|by exists calls].
  - unfold Register_Update. cbn [GetInfoType]. rewrite unregistered by done. rewrite set_register_self.
    split; [apply applied_nothing|by eexists].
Qed.

Lemma apply_update m op id b : op = ProposeInfoRequest_ADD \/ op = ProposeInfoRequest_UPDATE -> b <> BI_NilClusterInfo ->
  apply_request m (mkProposeInfoRequest op id (Some b)) = store m b.
Proof.
  intros Hop Hb. assert (Hid : info_id (Some b) = Ok (BaseInfo_GetID b)) by (by destruct b).
  unfold apply_request. cbn [pi_BaseInfo pi_Operate or_panic].
  unfold store. destruct Hop as [-> | ->]; rewrite ?Hid; unfold pure; cbn [st_bind]; destruct (decide _); rewrite ?Hid; done.
Qed.

(** A nil cluster info is dereferenced, or refused where no storage would need it. *)
Lemma apply_nil m op id : op = ProposeInfoRequest_ADD \/ op = ProposeInfoRequest_UPDATE ->
  applied m (apply_request m (mkProposeInfoRequest op id (Some BI_NilClusterInfo))).1 None.
Proof.
  intros [-> | ->]; [by split|]. unfold apply_request. cbn [pi_BaseInfo pi_Operate or_panic]. simpl.
  destruct (decide _) as [|Hn]; [by split|]. simpl. unfold Register_Update. cbn [GetInfoType BaseInfo_GetInfoType].
  apply not_elem_of_dom in Hn. rewrite Hn. cbn [fst]. by rewrite set_register_self.
Qed.

(** Applying a request is the write it says. *)
Lemma apply_request_write types m req : serves types m ->
  applied m (apply_request m req).1 (request_write types req) /\
  (has_info req = true -> exists calls, (apply_request m req).2 = Ok calls).
Proof.
  intros <-. destruct req as [op id [b|]]; [|by destruct op]. unfold request_write, has_info.
  cbn [pi_BaseInfo pi_Operate pi_Id mbind option_bind].
  destruct (decide (op = ProposeInfoRequest_ADD \/ op = ProposeInfoRequest_UPDATE)) as [Hop|Hop].
  - destruct (decide (b = BI_NilClusterInfo)) as [->|Hb].
    + split; [|done]. destruct (decide _); destruct Hop as [-> | ->]; apply apply_nil; auto.
    + rewrite apply_update by done. destruct (store_applied m b) as [Hs Hc]. split; [|done].
      destruct (decide _); destruct Hop as [-> | ->]; by destruct b.
  - destruct op; try (exfalso; apply Hop; by auto);
      [|destruct (decide _); (split; [apply applied_nothing|intros _; by eexists])].
    unfold apply_request. cbn [pi_BaseInfo pi_Operate pi_Id or_panic]. simpl. destruct (decide _) as [Hin|Hnin].
    + destruct (delete_directory m (BaseInfo_GetInfoType b) id Hin) as (r & -> & Hd & Hv). split; [done|by eexists].
    + unfold Register_Delete. rewrite unregistered by done. cbn [fst]. rewrite set_register_self. split; [apply applied_nothing|by eexists].
Qed.

(** The storages of other types are left alone. *)
Lemma apply_request_frame m req b t : pi_BaseInfo req = Some b -> BaseInfo_GetInfoType b <> t ->
  storageMap (infoStorageRegister (apply_request m req).1) !! t = storageMap (infoStorageRegister m) !! t.
Proof.
  intros Hb Ht.
  assert (forall x, storageMap (infoStorageRegister (set_register m x)) !! t = storageMap x !! t) as Hset by done.
  assert (storageMap (Register_Update (infoStorageRegister m) (Inf_Base b)).1 !! t = storageMap (infoStorageRegister m) !! t) as Hu.
  { unfold Register_Update. cbn [GetInfoType]. destruct (storageMap _ !! BaseInfo_GetInfoType b); [|done].
    destruct (Storage_Update _ _). cbn. by rewrite lookup_insert_ne. }
  assert (storageMap (Register_Delete (infoStorageRegister m) (BaseInfo_GetInfoType b) (pi_Id req)).1 !! t = storageMap (infoStorageRegister m) !! t) as Hd.
  { unfold Register_Delete. destruct (storageMap _ !! BaseInfo_GetInfoType b); [|done].
    destruct (Storage_Delete _ _). cbn. by rewrite lookup_insert_ne. }
  unfold apply_request. rewrite Hb. cbn [or_panic pure st_bind].
  destruct (Register_Update _ _) as [ru [xu| | |]], (Register_Delete _ _ _) as [rd [xd| | |]]; cbn [fst] in *;
    destruct (pi_Operate req); cbn [info_id pure st_bind]; repeat (destruct (decide _)); destruct b; cbn [info_id st_bind]; done.
Qed.

End directory.

(** ** Entries *)

Section entries.
Context {S : Type} `{StorageLaws S, !WritesTotal S} (decode : bytes -> option ProposeInfoRequest).

(** What an entry of the log does to a Moon. *)
Definition apply_entry (m : Moon S) (x : bytes) : Moon S := (apply_request m (decoded decode x)).1.

Definition entry_write (types : gset InfoType) (x : bytes) : option (Write InfoKey BaseInfo) :=
  req ← decode x; request_write types req.

Definition runs (types : gset InfoType) (m : Moon S) : Prop := serves types m /\ m_stopped m = false.

Lemma apply_entry_write types m x : runs types m ->
  runs types (apply_entry m x) /\ directory (apply_entry m x) = write (directory m) (entry_write types x).
Proof.
  intros [Ht Hs]. destruct (apply_request_write types m (decoded decode x) Ht) as [(Hd & Hv & Hst) _].
  unfold apply_entry, runs, serves. rewrite Hd, Hst, Hv. split; [done|]. unfold entry_write, decoded.
  by destruct (decode x).
Qed.

(** A commit whose requests have information is applied entry by entry. *)
Lemma readCommits_entries {CS F} `{Snapshotter CS F} recover (files : F) types data : forall m, serves types m ->
  Forall (fun x => exists req, decode x = Some req /\ has_info req = true) data ->
  readCommits decode recover files m (Some data) = (apply_all apply_entry m data, Ok tt).
Proof.
  induction data as [|x data IH]; intros m Hm Hd; [done|]. apply Forall_cons in Hd as [(req & Hx & Hreq) Hd].
  destruct (apply_request_write types m req Hm) as [(Ht & _) Hc]. destruct (Hc Hreq) as [calls Hok].
  assert (decoded decode x = req) as Hdx by (unfold decoded; by rewrite Hx).
  cbn [readCommits apply_data] in *. unfold apply_all in *. cbn [foldl].
  change (apply_entry m x) with (apply_request m (decoded decode x)).1. rewrite Hdx.
  destruct (apply_request m req) as [m' r]. cbn [fst snd] in *. subst r. apply IH; [|done]. unfold serves. by rewrite Ht.
Qed.

(** Reading the directory. *)
Lemma GetInfo_directory types m t id : runs types m ->
  match directory m !! (t, id) with
  | Some b => GetInfo m t id = Ok b
  | None => exists e, GetInfo m t id = Err e
  end.
Proof.
  intros [_ Hs]. unfold GetInfo, GetInfoDirect. rewrite Hs. unfold directory. rewrite lookup_map_uncurry.
  pose proof (Register_Get_view (infoStorageRegister m) t id) as Hg.
  destruct (register_view _ !! t) as [mt|]; cbn [mbind option_bind] in *; [|rewrite Hg; by eexists].
  destruct (mt !! id) as [b|].
  - destruct Hg as (i & -> & Hi). cbn [mbind res_bind]. by rewrite Hi.
  - destruct Hg as (e & ->). by exists e.
Qed.

(** A Moon whose storages are empty. *)
Lemma directory_empty (m : Moon S) : map_Forall (fun _ s => view s = ∅) (storageMap (infoStorageRegister m)) -> directory m = ∅.
Proof.
  intros He. apply map_eq. intros [t id]. unfold directory, register_view. rewrite lookup_map_uncurry, lookup_fmap, lookup_empty.
  destruct (storageMap _ !! t) as [s|] eqn:E; [|done]. apply He in E. cbn in E. simpl. by rewrite E.
Qed.

End entries.


(** ** A small node *)

Definition node3 : NodeInfo := mkNodeInfo 3 "u3" "10.0.0.3" 3267 10 NS_ONLINE.

Definition report3 : ProposeInfoRequest := mkProposeInfoRequest ProposeInfoRequest_UPDATE "3" (Some (BI_NodeInfo node3)).

Definition decode_report (_ : bytes) : option ProposeInfoRequest := Some report3.

(** Three reports of one node. *)
Definition report_log : list Entry := take 3 (race_log 3).

Lemma report_log_wf : log_wf no_cc report_log.
Proof.
  destruct (race_log_wf 3 ltac:(lia)) as (_ & Hidx & Hcc). split; [vm_compute; done|]. split.
  - intros i e He. apply lookup_take_Some in He as [He _]. by apply Hidx.
  - intros e He. apply Hcc. eapply sublist_subseteq; [apply sublist_take|done].
Qed.

Definition small_moon : Moon MemoryInfoStorage :=
  mkMoon 3 None node3 false ∅ 0 (GetStorageRegister (fun _ => NewMemoryInfoStorage)) StatusInit.

Definition moon_step :=
  node_step (Msg:=unit) (W:=ListWal) (D:=ListSnaps) (M:=ListMem) no_cc (fun _ _ => tt) (apply_entry decode_report)
    (fun _ => Ok []) id true tt (made_from report_log).

(** It applies the log in one turn, with a snapshot, and is started again. *)
Definition small_turn := (demo_serve (Ok []) demo_driver (demo_turn_rd 3 (slice report_log 0 3))).1.1.1.

Definition small_again := driver_of (startRaft tt 2 (Some (d_wal small_turn)) (d_snaps small_turn)).

Definition small_applied : Moon MemoryInfoStorage :=
  apply_all (apply_entry decode_report) small_moon (commits [Ev_Commit (CC:=unit) (Some [[x01]; [x01]; [x01]])]).

Lemma small_run : rtc moon_step (mkNode demo_driver small_moon []) (mkNode small_again small_applied []).
Proof.
  apply (rtc_l _ _ (mkNode small_turn small_applied [])).
  { refine (N_commit_snapshot _ _ _ _ _ _ _ _ demo_driver small_moon (demo_turn_rd 3 (slice report_log 0 3)) small_turn [Ev_Commit (Some [[x01]; [x01]; [x01]])] [] 3 1 _ _);
      [apply (demo_made report_log demo_driver 0 3); try apply report_log_wf; try done; vm_compute; (done || lia)|vm_compute; reflexivity]. }
  apply rtc_once. refine (N_crash _ _ _ _ id _ _ _ small_turn _ [] small_again _). vm_compute. reflexivity.
Qed.

