(* ===== verification/InfoAgent.v ===== *)
(** * The client's view of the cluster: [src/client/info-agent/info_agent.go], [src/client/io/meta.go]

    The agent answers from its own storages first and asks the cluster otherwise;
    what it is told it keeps. [MetaAgent] finds the server of an object and talks
    to it. What the nodes and the cloud answer is the record [Network]: an error
    stands for a failed connection as well as for a failed call. *)

From S2P Require Import Prelude GoStd Errno Infos InfoStorage Object Pipeline GaiaMsg Block Alaya.

Record Network := mkNetwork {
  moon_GetInfo : NodeInfo -> InfoType -> string -> res BaseInfo;
  cloud_GetInfo : InfoType -> string -> res BaseInfo;
  watcher_GetClusterInfo : NodeInfo -> res (option ClusterInfo)
}.

Record InfoAgent := mkInfoAgent {
  ia_connectType : option ConnectType;
  currentClusterInfo : option ClusterInfo;
  ia_register : StorageRegister MemoryInfoStorage
}.

Definition NewInfoAgent (clusterInfo : option ClusterInfo) (connectType : option ConnectType) : InfoAgent :=
  mkInfoAgent connectType clusterInfo (GetStorageRegister (fun _ => NewMemoryInfoStorage)).

Definition with_cluster (a : InfoAgent) (c : option ClusterInfo) : InfoAgent :=
  mkInfoAgent (ia_connectType a) c (ia_register a).

(** The error of storing an answer is dropped. *)
Definition agent_Update (a : InfoAgent) (info : Information) : InfoAgent :=
  mkInfoAgent (ia_connectType a) (currentClusterInfo a) (Register_Update (ia_register a) info).1.

Section agent.
Context (net : Network).

(** The first node that answers. *)
Fixpoint first_answer (nodes : list NodeInfo) (infoType : InfoType) (id : string) : res BaseInfo :=
  match nodes with
  | [] => Err (EErrno ConnectionIssue)
  | n :: nodes' =>
      match moon_GetInfo net n infoType id with
      | Err _ => first_answer nodes' infoType id
      | r => r
      end
  end.

Definition keep_answer (a : InfoAgent) (r : res BaseInfo) : InfoAgent * res Information :=
  match r with
  | Ok b => (agent_Update a (Inf_Base b), Ok (Inf_Base b))
  | Err e => (a, Err e)
  | Panic => (a, Panic)
  | Stuck => (a, Stuck)
  end.

Definition GetInfoByEdge (a : InfoAgent) (infoType : InfoType) (id : string) : InfoAgent * res Information :=
  match currentClusterInfo a with
  | None => (a, Panic)
  | Some c => keep_answer a (first_answer (NodesInfo c) infoType id)
  end.

Definition GetInfoByCloud (a : InfoAgent) (infoType : InfoType) (id : string) : InfoAgent * res Information :=
  match cloud_GetInfo net infoType id with
  | Err _ => (a, Err (EErrno ConnectionIssue))
  | r => keep_answer a r
  end.

Definition agent_Get (a : InfoAgent) (infoType : InfoType) (id : string) : InfoAgent * res Information :=
  match Register_Get (ia_register a) infoType id with
  | Err _ =>
      match ia_connectType a with
      | Some ConnectEdge => GetInfoByEdge a infoType id
      | Some ConnectCloud => GetInfoByCloud a infoType id
      | None => (a, Err (EErrno ConnectionIssue))
      end
  | r => (a, r)
  end.

Fixpoint first_cluster (nodes : list NodeInfo) : res (option (option ClusterInfo)) :=
  match nodes with
  | [] => Ok None
  | n :: nodes' =>
      match watcher_GetClusterInfo net n with
      | Ok c => Ok (Some c)
      | Err _ => first_cluster nodes'
      | Panic => Panic | Stuck => Stuck
      end
  end.

(** On the edge it is no error when no node answers. *)
Definition UpdateCurClusterInfo (a : InfoAgent) : InfoAgent * res unit :=
  match ia_connectType a with
  | Some ConnectCloud =>
      do a, info <- GetInfoByCloud a IT_CLUSTER_INFO (FormatInt 0);
      (with_cluster a (GetClusterInfo (Information_BaseInfo info)), Ok tt)
  | _ =>
      do a, c <- pure a (or_panic (currentClusterInfo a));
      do a, r <- pure a (first_cluster (NodesInfo c));
      (match r with Some c' => with_cluster a c' | None => a end, Ok tt)
  end.

Definition GetCurClusterInfo (a : InfoAgent) : InfoAgent * res ClusterInfo :=
  match UpdateCurClusterInfo a with
  | (a, Panic) => (a, Panic)
  | (a, Stuck) => (a, Stuck)
  | (a, _) => (a, or_panic (currentClusterInfo a))
  end.

(** ** The metadata client *)

Context `{HR : HashRing, CR : Crush}.

(** What a server answers to [GetObjectMeta] and [RecordObjectMeta] sent with a
    term tag; the cloud is [None]. *)
Context (server_GetMeta : option NodeInfo -> string -> string -> res ObjectMeta).
Context (server_Record : option NodeInfo -> string -> ObjectMeta -> res unit).

(** Errors of the pipelines and of the agent are dropped: what follows dereferences nil. *)
Definition getEdgeAlayaClient (b : BucketInfo) (a : InfoAgent) (key : string) : InfoAgent * res NodeInfo :=
  do a, c <- GetCurClusterInfo a;
  do a, pgID <- pure a (GenObjPgID b key (MetaPgNum c));
  do a, ids <- pure a (match NewClusterPipelines c with
                       | Ok pipes => GetMetaPGNodeID pipes pgID
                       | Err _ => Panic | Panic => Panic | Stuck => Stuck
                       end);
  do a, id <- pure a (or_panic (head ids));
  match agent_Get a IT_NODE_INFO id with
  | (a, Ok info) => (a, or_panic (GetNodeInfo (Information_BaseInfo info)))
  | (a, Err _) => (a, Panic)
  | (a, Panic) => (a, Panic)
  | (a, Stuck) => (a, Stuck)
  end.

Definition getAlayaClient (conf : ConnectType) (b : BucketInfo) (a : InfoAgent) (key : string)
    : InfoAgent * res (option NodeInfo) :=
  match conf with
  | ConnectCloud => (a, Ok None)
  | ConnectEdge => do a, n <- getEdgeAlayaClient b a key; (a, Ok (Some n))
  end.

Definition with_position (m : ObjectMeta) (p : Position) : ObjectMeta :=
  mkObjectMeta (ObjId m) (Status m) p (ObjSize m) (UpdateTime m) (ObjHash m) (PgId m) (Blocks m) (OM_Term m) (MetaData m).

(** The key is read back from the identifier; when that fails it is empty. *)
Definition SubmitMeta (conf : ConnectType) (b : BucketInfo) (a : InfoAgent) (meta : ObjectMeta) : InfoAgent * res unit :=
  let key := match SplitID (ObjId meta) with Ok n => Object.key n | _ => "" end in
  let meta := with_position meta (match conf with ConnectCloud => POSITION_CLOUD | ConnectEdge => POSITION_EDGE end) in
  do a, server <- getAlayaClient conf b a key;
  do a, c <- GetCurClusterInfo a;
  pure a (server_Record server (SetTermToContext (Term c)) meta).

Definition GetObjMeta (conf : ConnectType) (b : BucketInfo) (a : InfoAgent) (key : string) : InfoAgent * res ObjectMeta :=
  do a, server <- getAlayaClient conf b a key;
  do a, c <- GetCurClusterInfo a;
  do a, objID <- pure a (GenObjectId b key);
  pure a (server_GetMeta server (SetTermToContext (Term c)) objID).

End agent.

(** ** Facts *)

(** A stored answer is found again. *)
Lemma agent_Update_Get net (a : InfoAgent) b t id m : BaseInfo_GetInfoType b = t -> BaseInfo_GetID b = id ->
  storageMap (ia_register a) !! t = Some m ->
  agent_Get net (agent_Update a (Inf_Base b)) t id = (agent_Update a (Inf_Base b), Ok (Inf_Base b)).
Proof.
  intros <- <- Hm. unfold agent_Get. assert (Register_Get (ia_register (agent_Update a (Inf_Base b)))
    (BaseInfo_GetInfoType b) (BaseInfo_GetID b) = Ok (Inf_Base b)) as ->; [|done].
  unfold agent_Update, Register_Update, Register_Get. cbn [GetInfoType ia_register]. rewrite Hm.
  cbn [Storage_Update memory_storage fst]. simpl. rewrite lookup_insert_eq. unfold Mem_Get. simpl.
  by rewrite lookup_insert_eq.
Qed.

(** ** The cache *)

(** What the cluster would answer when asked. *)
Definition asked (net : Network) (a : InfoAgent) (t : InfoType) (id : string) : res BaseInfo :=
  match ia_connectType a with
  | Some ConnectEdge => c ← or_panic (currentClusterInfo a); first_answer net (NodesInfo c) t id
  | Some ConnectCloud => match cloud_GetInfo net t id with Err _ => Err (EErrno ConnectionIssue) | r => r end
  | None => Err (EErrno ConnectionIssue)
  end.

Lemma agent_Get_asked net a t id e : Register_Get (ia_register a) t id = Err e ->
  agent_Get net a t id = keep_answer a (asked net a t id).
Proof.
  intros E. unfold agent_Get, asked. rewrite E. destruct (ia_connectType a) as [[]|]; [| |done].
  - unfold GetInfoByEdge. by destruct (currentClusterInfo a).
  - unfold GetInfoByCloud. by destruct (cloud_GetInfo net t id).
Qed.

(** A directory: information by type and identifier, each under its own. *)
Definition directory : Type := InfoType -> string -> option BaseInfo.

Definition dir_ok (dir : directory) : Prop :=
  forall t id b, dir t id = Some b -> BaseInfo_GetInfoType b = t /\ BaseInfo_GetID b = id.

(** What the agent keeps is what the directory holds. *)
Definition agent_agrees (dir : directory) (a : InfoAgent) : Prop :=
  forall t m id b, register_view (ia_register a) !! t = Some m -> m !! id = Some b -> dir t id = Some b.

Lemma agent_Update_agrees dir a b : dir_ok dir -> agent_agrees dir a ->
  dir (BaseInfo_GetInfoType b) (BaseInfo_GetID b) = Some b -> agent_agrees dir (agent_Update a (Inf_Base b)).
Proof.
  intros Hdir Ha Hb t m id b' Hm Hid. unfold agent_Update in Hm. cbn [ia_register] in Hm.
  destruct (Register_Update (ia_register a) (Inf_Base b)) as [r x] eqn:E.
  assert (r = (Register_Update (ia_register a) (Inf_Base b)).1) as Hr by (by rewrite E). cbn [fst] in Hm.
  destruct (storageMap (ia_register a) !! BaseInfo_GetInfoType b) as [s|] eqn:Es.
  - assert (x = Ok (elements (onUpdateMap s)) /\ r = Register (ia_register a) (BaseInfo_GetInfoType b)
      (mkMemoryInfoStorage (<[BaseInfo_GetID b := Inf_Base b]> (kvStorage s)) (onUpdateMap s))) as [-> ->].
    { unfold Register_Update in E. cbn [GetInfoType] in E. rewrite Es in E. by injection E as <- <-. }
    destruct (Register_Update_view _ _ _ _ E) as (m0 & Hm0 & Hv). cbn [GetInfoType GetID Information_BaseInfo] in *.
    rewrite Hv in Hm. destruct (decide (t = BaseInfo_GetInfoType b)) as [->|Hne].
    + rewrite lookup_insert_eq in Hm. injection Hm as <-. destruct (decide (id = BaseInfo_GetID b)) as [->|Hne].
      * rewrite lookup_insert_eq in Hid. by injection Hid as <-.
      * rewrite lookup_insert_ne in Hid by done. by apply (Ha _ m0).
    + rewrite lookup_insert_ne in Hm by done. by apply (Ha _ m).
  - unfold Register_Update in Hr. cbn [GetInfoType] in Hr. rewrite Es in Hr. cbn [fst] in Hr. subst r. by apply (Ha _ m).
Qed.

(** Whatever is kept, a look-up answers as the directory does. *)
Lemma agent_Get_dir net dir a t id b : dir_ok dir -> agent_agrees dir a -> dir t id = Some b -> asked net a t id = Ok b ->
  exists a' i, agent_Get net a t id = (a', Ok i) /\ Information_BaseInfo i = b /\ agent_agrees dir a' /\
    currentClusterInfo a' = currentClusterInfo a /\ ia_connectType a' = ia_connectType a.
Proof.
  intros Hdir Ha Hb Hask. pose proof (Register_Get_view (ia_register a) t id) as Hg.
  assert (Hmiss : forall e, Register_Get (ia_register a) t id = Err e ->
    exists a' i, agent_Get net a t id = (a', Ok i) /\ Information_BaseInfo i = b /\ agent_agrees dir a' /\
      currentClusterInfo a' = currentClusterInfo a /\ ia_connectType a' = ia_connectType a).
  { intros e E. rewrite (agent_Get_asked _ _ _ _ _ E), Hask. exists (agent_Update a (Inf_Base b)), (Inf_Base b).
    split_and!; try done. apply agent_Update_agrees; try done. by destruct (Hdir _ _ _ Hb) as [-> ->]. }
  destruct (register_view (ia_register a) !! t) as [m|] eqn:Em; [|by eapply Hmiss].
  destruct (m !! id) as [b'|] eqn:Eid; [|destruct Hg as [e He]; by eapply Hmiss].
  destruct Hg as (i & Hi & Hib). exists a, i. unfold agent_Get. rewrite Hi. split_and!; try done.
  rewrite Hib. assert (dir t id = Some b') as Hd by (by apply (Ha t m)). congruence.
Qed.

(** ** Properties *)

(** the agent's cache. As long as what it keeps agrees with the directory it
    answers like the directory, and goes on agreeing; but nothing is ever looked
    up twice: after an answer the same question gets the same answer whatever the
    cluster holds by then. *)
Theorem agent_cache (net : Network) (dir : directory) (a : InfoAgent) t id b m :
  dir_ok dir -> agent_agrees dir a -> dir t id = Some b -> asked net a t id = Ok b ->
  register_view (ia_register a) !! t = Some m ->
  exists a' i, agent_Get net a t id = (a', Ok i) /\ Information_BaseInfo i = b /\ agent_agrees dir a' /\
    forall later, exists i', agent_Get later a' t id = (a', Ok i') /\ Information_BaseInfo i' = b.
Proof.
  intros Hdir Ha Hb Hask Hm. destruct (Hdir _ _ _ Hb) as [Ht Hid]. pose proof (Register_Get_view (ia_register a) t id) as Hg.
  rewrite Hm in Hg. destruct (m !! id) as [b'|] eqn:Eid.
  - destruct Hg as (i & Hi & Hib). assert (dir t id = Some b') as Hd by (by apply (Ha t m)).
    assert (forall net', agent_Get net' a t id = (a, Ok i)) as Hget by (intros net'; unfold agent_Get; by rewrite Hi).
    exists a, i. split_and!; [done|congruence|done|]. intros later. exists i. split; [done|congruence].
  - destruct Hg as [e He]. rewrite (agent_Get_asked _ _ _ _ _ He), Hask. exists (agent_Update a (Inf_Base b)), (Inf_Base b).
    split_and!; try done.
    + apply agent_Update_agrees; try done. by rewrite Ht, Hid.
    + intros later. exists (Inf_Base b). split; [|done]. unfold register_view in Hm. rewrite lookup_fmap in Hm.
      apply fmap_Some in Hm as (s & Hs & _). by apply (agent_Update_Get later a b t id s).
Qed.

Definition demo_answering : Network :=
  mkNetwork (fun _ _ _ => Err (EExt "offline"))
    (fun t id => if decide (id = "/root/default") then Ok (BI_BucketInfo (mkBucketInfo "root" "default" "root" "" 0 None))
                 else Err (EErrno InfoNotFound)) (fun _ => Err (EExt "offline")).

Definition demo_directory : directory := fun t id =>
  if decide (t = IT_BUCKET_INFO /\ id = "/root/default") then Some (BI_BucketInfo (mkBucketInfo "root" "default" "root" "" 0 None)) else None.

Lemma agent_cache_witness :
  exists a' i, agent_Get demo_answering (NewInfoAgent None (Some ConnectCloud)) IT_BUCKET_INFO "/root/default" = (a', Ok i) /\
    forall later, exists i', agent_Get later a' IT_BUCKET_INFO "/root/default" = (a', Ok i').
Proof.
  destruct (@agent_cache demo_answering demo_directory (NewInfoAgent None (Some ConnectCloud)) IT_BUCKET_INFO "/root/default"
    (BI_BucketInfo (mkBucketInfo "root" "default" "root" "" 0 None)) ∅) as (a' & i & E & _ & _ & Hl).
  - intros t id b. unfold demo_directory. destruct (decide _) as [[-> ->]|]; [|done]. by intros [= <-].
  - intros t m id b Hm Hid. exfalso. revert Hm Hid. unfold register_view. rewrite lookup_fmap.
    destruct t; vm_compute; by intros [= <-].
  - vm_compute. reflexivity.
  - vm_compute. reflexivity.
  - vm_compute. reflexivity.
  - exists a', i. split; [exact E|]. intros later. destruct (Hl later) as (i' & E' & _). by exists i'.
Defined.
