(* ===== verification/Client.v ===== *)
(** * The client: [src/client/client.go], [src/client/operator.go]

    Volumes, buckets and objects as a program that uses the client sees them. A
    call goes to a node that the agent's view of the cluster names; when the node
    answers that the terms differ the view is refreshed and the call repeated,
    without a bound. [Cluster] is what the calls of one attempt meet; a call that
    is repeated takes a list of them and is [Stuck] when the list ends first. *)

From S2P Require Import Prelude GoStd Errno Infos InfoStorage Object Pipeline GaiaMsg Block MetaStorage Alaya Moon InfoAgent.

Record Cluster := mkCluster {
  cl_net : Network;
  cl_connect : NodeInfo -> option error;
  cl_GetObjectMeta : NodeInfo -> string -> string -> res ObjectMeta;       (* tag, identifier *)
  cl_DeleteMeta : NodeInfo -> string -> string -> res unit;
  cl_ListMeta : NodeInfo -> string -> string -> res (list ObjectMeta);     (* tag, prefix *)
  cl_cloud_ListMeta : string -> res (list ObjectMeta);
  cl_ListInfo : NodeInfo -> InfoType -> string -> res (list BaseInfo);
  cl_ProposeInfo : NodeInfo -> ProposeInfoRequest -> res unit
}.

(** [Credential.GetUserID]. *)
Definition GetUserID : string := "root".

Section client.
Context `{HR : HashRing, CR : Crush}.

(** ** Finding servers *)

Fixpoint first_online (cl : Cluster) (nodes : list NodeInfo) : res NodeInfo :=
  match nodes with
  | [] => Err (EErrno ConnectionIssue)
  | n :: nodes' =>
      if decide (State n <> NS_ONLINE) then first_online cl nodes'
      else match cl_connect cl n with
           | Some _ => first_online cl nodes'
           | None => Ok n
           end
  end.

Definition GetMoon (cl : Cluster) (a : InfoAgent) : InfoAgent * res NodeInfo :=
  do a, c <- GetCurClusterInfo (cl_net cl) a;
  (a, first_online cl (NodesInfo c)).

Definition getBucketInfo (cl : Cluster) (a : InfoAgent) (bucketName : string) : InfoAgent * res (option BucketInfo) :=
  do a, info <- agent_Get (cl_net cl) a IT_BUCKET_INFO (GenBucketID GetUserID bucketName);
  (a, Ok (GetBucketInfo (Information_BaseInfo info))).

(** The node of an identifier; a record that is no node is dereferenced. *)
Definition node_of (cl : Cluster) (a : InfoAgent) (nodeID : Z) : InfoAgent * res NodeInfo :=
  do a, info <- agent_Get (cl_net cl) a IT_NODE_INFO (FormatUint nodeID);
  do a, n <- pure a (or_panic (GetNodeInfo (Information_BaseInfo info)));
  (a, match cl_connect cl n with Some e => Err e | None => Ok n end).

(** [BucketOperator.getAlayaClient]. *)
Definition bucket_server (cl : Cluster) (b : BucketInfo) (a : InfoAgent) (key : string) : InfoAgent * res NodeInfo :=
  do a, c <- GetCurClusterInfo (cl_net cl) a;
  do a, pgID <- pure a (GenObjPgID b key (MetaPgNum c));
  do a, c <- GetCurClusterInfo (cl_net cl) a;
  do a, cp <- pure a (NewClusterPipelines c);
  do a, ids <- pure a (GetMetaPG cp pgID);
  do a, nodeID <- pure a (or_panic (head ids));
  node_of cl a nodeID.

(** ** Buckets *)

(** One attempt of a call that is repeated while the terms differ: [None] is
    another attempt, before which the view was refreshed. *)
Definition attempt {A} (cl : Cluster) (b : BucketInfo) (a : InfoAgent) (key : string)
    (call : NodeInfo -> string -> string -> res A) : InfoAgent * res (option A) :=
  do a, n <- bucket_server cl b a key;
  do a, c <- GetCurClusterInfo (cl_net cl) a;
  do a, objID <- pure a (GenObjectId b key);
  match call n (SetTermToContext (Term c)) objID with
  | Ok x => (a, Ok (Some x))
  | Err e =>
      if is_remote TermNotMatch e then
        do a, _ <- UpdateCurClusterInfo (cl_net cl) a;
        (a, Ok None)
      else (a, Err e)
  | Panic => (a, Panic)
  | Stuck => (a, Stuck)
  end.

Fixpoint repeated {A} (attempts : list Cluster) (b : BucketInfo) (a : InfoAgent) (key : string)
    (call : Cluster -> NodeInfo -> string -> string -> res A) : InfoAgent * res A :=
  match attempts with
  | [] => (a, Stuck)
  | cl :: attempts' =>
      do a, r <- attempt cl b a key (call cl);
      match r with
      | Some x => (a, Ok x)
      | None => repeated attempts' b a key call
      end
  end.

Definition Bucket_Get (attempts : list Cluster) (b : BucketInfo) (a : InfoAgent) (key : string) : InfoAgent * res ObjectMeta :=
  repeated attempts b a key cl_GetObjectMeta.

Definition Bucket_Remove (attempts : list Cluster) (b : BucketInfo) (a : InfoAgent) (key : string) : InfoAgent * res unit :=
  repeated attempts b a key cl_DeleteMeta.

(** ** Listing a bucket *)

(** The node asked for one slot of the keys. *)
Definition slot_server (cl : Cluster) (c : ClusterInfo) (b : BucketInfo) (a : InfoAgent) (i : Z) : InfoAgent * res NodeInfo :=
  do a, pgID <- pure a (GenSlotPgID (BucketInfo_GetID b) i (MetaPgNum c));
  do a, p <- pure a (pipeline_at (GenMetaPipelines c) pgID);
  do a, nodeID <- pure a (or_panic (head (P_RaftId p)));
  node_of cl a nodeID.

(** [None] is another attempt; any other error leaves no reply to read. *)
Fixpoint list_slots (cl : Cluster) (c : ClusterInfo) (b : BucketInfo) (a : InfoAgent) (prefix : string)
    (slots : list Z) (result : list ObjectMeta) : InfoAgent * res (option (list ObjectMeta)) :=
  match slots with
  | [] => (a, Ok (Some result))
  | i :: slots' =>
      do a, n <- slot_server cl c b a i;
      match cl_ListMeta cl n (SetTermToContext (Term c)) (Join [BucketInfo_GetID b; FormatInt i; prefix]) with
      | Ok ms => list_slots cl c b a prefix slots' (result ++ ms)
      | Err e =>
          if is_remote TermNotMatch e then
            do a, _ <- UpdateCurClusterInfo (cl_net cl) a;
            (a, Ok None)
          else (a, Panic)
      | Panic => (a, Panic)
      | Stuck => (a, Stuck)
      end
  end.

Fixpoint list_attempts (attempts : list Cluster) (b : BucketInfo) (a : InfoAgent) (prefix : string) : InfoAgent * res (list ObjectMeta) :=
  match attempts with
  | [] => (a, Stuck)
  | cl :: attempts' =>
      do a, c <- GetCurClusterInfo (cl_net cl) a;
      do a, cfg <- pure a (or_panic (Config b));
      do a, r <- list_slots cl c b a prefix (seqZ 1 (KeySlotNum cfg)) [];
      match r with
      | Some l => (a, Ok l)
      | None => list_attempts attempts' b a prefix
      end
  end.

Definition listObjectsByEdge (cl : Cluster) (attempts : list Cluster) (a : InfoAgent) (bucketName prefix : string)
    : InfoAgent * res (list ObjectMeta) :=
  do a, b <- getBucketInfo cl a bucketName;
  do a, b <- pure a (or_panic b);
  list_attempts attempts b a prefix.

Definition listObjectsByCloud (cl : Cluster) (a : InfoAgent) (bucketName prefix : string) : InfoAgent * res (list ObjectMeta) :=
  do a, b <- getBucketInfo cl a bucketName;
  do a, b <- pure a (or_panic b);
  (a, cl_cloud_ListMeta cl (Join [BucketInfo_GetID b; prefix])).

Definition ListObjects (conf : ConnectType) (cl : Cluster) (attempts : list Cluster) (a : InfoAgent) (bucketName prefix : string)
    : InfoAgent * res (list ObjectMeta) :=
  match conf with
  | ConnectCloud => listObjectsByCloud cl a bucketName prefix
  | ConnectEdge => listObjectsByEdge cl attempts a bucketName prefix
  end.

(** ** Volumes *)

Definition Volume_Get (cl : Cluster) (volumeID : string) (a : InfoAgent) (key : string) : InfoAgent * res (option BucketInfo) :=
  do a, n <- GetMoon cl a;
  do a, b <- pure a (moon_GetInfo (cl_net cl) n IT_BUCKET_INFO (GenBucketID volumeID key));
  (a, Ok (GetBucketInfo b)).

Definition Volume_List (cl : Cluster) (volumeID : string) (a : InfoAgent) (key : string) : InfoAgent * res (list (option BucketInfo)) :=
  do a, n <- GetMoon cl a;
  do a, l <- pure a (cl_ListInfo cl n IT_BUCKET_INFO (GenBucketID volumeID key));
  (a, Ok (GetBucketInfo <$> l)).

Definition bucket_request (op : InfoOp) (b : BucketInfo) : ProposeInfoRequest :=
  mkProposeInfoRequest op (BucketInfo_GetID b) (Some (BI_BucketInfo b)).

Definition CreateBucket (cl : Cluster) (a : InfoAgent) (b : BucketInfo) : InfoAgent * res unit :=
  do a, n <- GetMoon cl a;
  (a, cl_ProposeInfo cl n (bucket_request ProposeInfoRequest_ADD b)).

(** Whether the bucket is empty is not looked at. *)
Definition DeleteBucket (cl : Cluster) (a : InfoAgent) (b : BucketInfo) : InfoAgent * res unit :=
  do a, n <- GetMoon cl a;
  (a, cl_ProposeInfo cl n (bucket_request ProposeInfoRequest_DELETE b)).

Definition Volume_Remove (cl : Cluster) (volumeID : string) (a : InfoAgent) (bucketName : string) : InfoAgent * res unit :=
  DeleteBucket cl a (mkBucketInfo volumeID bucketName "" "" 0 None).

End client.
