(* ===== verification/ClientProofs.v ===== *)
(** * The client finds what was put

    Proofs about [Client.v]: the listing of a bucket reads every slot from the
    node that serves it and therefore holds what was recorded there; calls are
    repeated until the terms agree, for ever if they never do. *)

From S2P Require Import Prelude GoStd Errno Infos InfoStorage Object Pipeline GaiaMsg Block MetaStorage Alaya AlayaProofs Moon InfoAgent Client.

(** ** The agent's view *)

Section view.
Context (cl : Cluster) (dir : directory) (c : ClusterInfo).

(** The nodes the agent knows of tell it [c], and so do the nodes of [c]. *)
Definition sees (a : InfoAgent) : Prop :=
  ia_connectType a = Some ConnectEdge /\ agent_agrees dir a /\
  exists c0, currentClusterInfo a = Some c0 /\ first_cluster (cl_net cl) (NodesInfo c0) = Ok (Some (Some c)).

(** Some node of [c] answers, from the directory; whoever is not offline is in it and
    can be connected to. *)
Record steady : Prop := {
  steady_dir : dir_ok dir;
  steady_cluster : first_cluster (cl_net cl) (NodesInfo c) = Ok (Some (Some c));
  steady_answer t id b : dir t id = Some b -> first_answer (cl_net cl) (NodesInfo c) t id = Ok b;
  steady_node n : n ∈ NodesInfo c -> State n <> NS_OFFLINE -> exists n', dir IT_NODE_INFO (FormatUint (RaftId n)) = Some (BI_NodeInfo n') /\
    RaftId n' = RaftId n /\ cl_connect cl n' = None
}.

Hypothesis Hst : steady.

Lemma GetCurClusterInfo_sees a : sees a -> exists a', GetCurClusterInfo (cl_net cl) a = (a', Ok c) /\ sees a' /\
  currentClusterInfo a' = Some c.
Proof.
  intros (Hct & Ha & c0 & Hc0 & Hf). exists (with_cluster a (Some c)).
  unfold GetCurClusterInfo, UpdateCurClusterInfo. rewrite Hct, Hc0. cbn [pure or_panic st_bind]. rewrite Hf. cbn [pure st_bind with_cluster currentClusterInfo or_panic].
  split_and!; try done. split_and!; try done. exists c. split; [done|]. exact (steady_cluster Hst).
Qed.

Lemma agent_Get_sees a t id b : sees a -> currentClusterInfo a = Some c -> dir t id = Some b ->
  exists a' i, agent_Get (cl_net cl) a t id = (a', Ok i) /\ Information_BaseInfo i = b /\ sees a' /\ currentClusterInfo a' = Some c.
Proof.
  intros (Hct & Ha & Hc0) Hc Hb.
  destruct (agent_Get_dir (cl_net cl) dir a t id b (steady_dir Hst) Ha Hb) as (a' & i & E & Hi & Ha' & Hcur & Hct').
  { unfold asked. rewrite Hct, Hc. cbn [or_panic mbind res_bind]. by apply (steady_answer Hst). }
  exists a', i. split_and!; try done; [|congruence]. split_and!; [congruence|done|]. exists c. split; [congruence|exact (steady_cluster Hst)].
Qed.

Lemma node_of_sees a n : sees a -> currentClusterInfo a = Some c -> n ∈ NodesInfo c -> State n <> NS_OFFLINE ->
  exists a' n', node_of cl a (RaftId n) = (a', Ok n') /\ RaftId n' = RaftId n /\ sees a' /\ currentClusterInfo a' = Some c.
Proof.
  intros Ha Hc Hn Hon. destruct (steady_node Hst n Hn Hon) as (n' & Hd & Hid & Hconn).
  destruct (agent_Get_sees a _ _ _ Ha Hc Hd) as (a' & i & E & Hi & Ha' & Hc'). exists a', n'.
  unfold node_of. rewrite E. cbn [st_bind]. rewrite Hi. cbn [GetNodeInfo or_panic pure st_bind]. by rewrite Hconn.
Qed.

(** ** The server of a slot *)

Context `{HR : HashRing, CR : Crush, !HashRingOk, !CrushOk}.
Hypothesis Hwf : cluster_wf c.
Hypothesis Hbig : MetaPgSize c <= Z.of_nat (length (healthyNodes c)) /\ BlockPgSize c <= Z.of_nat (length (healthyNodes c)).

(** The first node of the pipeline of the slot's group. *)
Definition slot_home (b : BucketInfo) (slot pg : Z) (n : NodeInfo) : Prop :=
  GenSlotPgID (BucketInfo_GetID b) slot (MetaPgNum c) = Ok pg /\
  exists cp p, NewClusterPipelines c = Ok cp /\ GetMetaPipeline cp pg = Ok p /\ head (P_RaftId p) = Some (RaftId n).

Lemma slot_server_sees a b slot : sees a -> currentClusterInfo a = Some c ->
  exists a' n pg, slot_server cl c b a slot = (a', Ok n) /\ slot_home b slot pg n /\ sees a' /\ currentClusterInfo a' = Some c.
Proof.
  intros Ha Hc. destruct Hwf as (Hnd & Hlen & Hmn & Hms & Hbn & Hbs).
  destruct (GenSlotPgID_range (BucketInfo_GetID b) slot (MetaPgNum c)) as (pg & Epg & Hpg); [lia|].
  destruct (NewClusterPipelines_spec c Hwf) as [(_ & _ & cp & Ecp & _ & Hm & _)|[Hlt _]]; [|lia].
  destruct (proj2 Hm pg Hpg) as (p & Hp & _ & _ & Hl & _ & Hin).
  destruct (P_RaftId p) as [|id ids] eqn:Eids; [simpl in Hl; lia|].
  destruct (Hin id) as (ni & Hni & <- & Hon); [by left|].
  destruct (node_of_sees a ni Ha Hc Hni Hon) as (a' & n & En & Hid & Ha' & Hc').
  assert (MetaPipelines cp = GenMetaPipelines c) as Hmp.
  { unfold NewClusterPipelines in Ecp. destruct (decide _); [done|]. by injection Ecp as <-. }
  exists a', n, pg. split_and!; try done.
  - unfold slot_server. rewrite Epg. cbn [pure st_bind]. rewrite <- Hmp, Hp. cbn [pure st_bind]. rewrite Eids.
    cbn [head or_panic pure st_bind]. exact En.
  - split; [done|]. exists cp, p. split_and!; [done|exact Hp|]. by rewrite Eids, Hid.
Qed.

(** ** One attempt of a call on an object *)

Lemma Update_sees a : sees a -> exists a', UpdateCurClusterInfo (cl_net cl) a = (a', Ok tt) /\ sees a' /\ currentClusterInfo a' = Some c.
Proof.
  intros (Hct & Ha & c0 & Hc0 & Hf). exists (with_cluster a (Some c)). unfold UpdateCurClusterInfo. rewrite Hct, Hc0.
  cbn [pure or_panic st_bind]. rewrite Hf. cbn [pure st_bind]. split_and!; try done. split_and!; try done.
  exists c. split; [done|]. exact (steady_cluster Hst).
Qed.

Lemma bucket_server_sees b a key : sees a -> bucket_ok b -> key_ok key = true ->
  exists a' n, bucket_server cl b a key = (a', Ok n) /\ sees a' /\ currentClusterInfo a' = Some c.
Proof.
  intros Ha Hb Hk. destruct (GetCurClusterInfo_sees a Ha) as (a1 & E1 & Ha1 & Hc1).
  destruct (GetCurClusterInfo_sees a1 Ha1) as (a2 & E2 & Ha2 & Hc2).
  destruct (GenObjectId_shape b key Hb Hk) as (cfg & slot & Hcfg & Hslot & _).
  destruct (slot_server_sees a2 b slot Ha2 Hc2) as (a3 & n & pg & E3 & (Hpg & cp & p & Hcp & Hp & Hh) & Ha3 & Hc3).
  exists a3, n. split_and!; try done. unfold bucket_server. rewrite E1. cbn [st_bind].
  assert (GenObjPgID b key (MetaPgNum c) = Ok pg) as ->.
  { unfold GenObjPgID. rewrite Hcfg. cbn [or_panic mbind res_bind]. destruct (key_ok_spec key Hk) as [Hne Hg].
    by rewrite CleanObjectKey_ok, CalculateSlot_clean, Hslot by done. }
  cbn [pure st_bind]. rewrite E2. cbn [st_bind]. rewrite Hcp. cbn [pure st_bind]. unfold GetMetaPG. unfold GetMetaPipeline in Hp.
  rewrite Hp. cbn [mbind res_bind pure st_bind]. rewrite Hh. cbn [pure or_panic st_bind].
  unfold slot_server in E3. rewrite Hpg in E3. cbn [pure st_bind] in E3.
  assert (MetaPipelines cp = GenMetaPipelines c) as Hmp.
  { unfold NewClusterPipelines in Hcp. destruct (decide _); [done|]. by injection Hcp as <-. }
  rewrite <- Hmp, Hp in E3. cbn [pure st_bind] in E3. rewrite Hh in E3. exact E3.
Qed.

Lemma attempt_sees {A} b a key (call : NodeInfo -> string -> string -> res A) oid :
  sees a -> bucket_ok b -> key_ok key = true -> GenObjectId b key = Ok oid ->
  exists a1 n, sees a1 /\ currentClusterInfo a1 = Some c /\
    attempt cl b a key call =
      match call n (SetTermToContext (Term c)) oid with
      | Ok x => (a1, Ok (Some x))
      | Err e => if is_remote TermNotMatch e then (with_cluster a1 (Some c), Ok None) else (a1, Err e)
      | Panic => (a1, Panic)
      | Stuck => (a1, Stuck)
      end.
Proof.
  intros Ha Hb Hk Hoid. destruct (bucket_server_sees b a key Ha Hb Hk) as (a1 & n & E1 & Ha1 & Hc1).
  destruct (GetCurClusterInfo_sees a1 Ha1) as (a2 & E2 & Ha2 & Hc2). exists a2, n. split_and!; try done.
  unfold attempt. rewrite E1. cbn [st_bind]. rewrite E2. cbn [st_bind]. rewrite Hoid. cbn [pure st_bind].
  destruct (call n _ oid) as [x|e| |]; try done. destruct (is_remote TermNotMatch e); [|done].
  destruct Ha2 as (Hct & _ & c0 & Hc0 & Hf). unfold UpdateCurClusterInfo. rewrite Hct, Hc0. cbn [pure or_panic st_bind].
  by rewrite Hf.
Qed.

(** Two nodes that are home to a slot have the same number. *)
Lemma slot_home_fun b slot pg n pg' n' : slot_home b slot pg n -> slot_home b slot pg' n' -> pg' = pg /\ RaftId n' = RaftId n.
Proof.
  intros (H1 & cp & p & H2 & H3 & H4) (H1' & cp' & p' & H2' & H3' & H4').
  rewrite H1 in H1'. injection H1' as <-. rewrite H2 in H2'. injection H2' as <-. rewrite H3 in H3'. injection H3' as <-.
  rewrite H4 in H4'. by injection H4' as ->.
Qed.

(** ** Listing *)

Context {S : Type} `{MetaStorageLaws S}.
Context (alaya : Z -> Alaya S).
Hypothesis Hserve : forall n tag p, cl_ListMeta cl n tag p = ListMeta (alaya (RaftId n)) tag p.
Hypothesis Hstores : forall id, storages_ok (alaya id).
Hypothesis Hterm : is_u64 (Term c).

Lemma ListMeta_spec (a : Alaya S) term prefix : is_u64 term -> storages_ok a ->
  exists l, ListMeta a (SetTermToContext term) prefix = Ok l /\
    forall m, m ∈ l <-> exists pg s id, MetaStorageRegister a !! pg = Some s /\ metas s !! id = Some m /\
      HasPrefix id (CleanObjectKey prefix) = true.
Proof.
  intros Hu Ha. unfold ListMeta, GetTermFromContext, SetTermToContext. rewrite ParseUint_FormatUint by done.
  cbn [or_err mbind res_bind]. eexists. split; [done|]. intros m. unfold GetAllStorage.
  rewrite list_elem_of_In, in_concat. split.
  - intros (l & Hl & Hm). apply list_elem_of_In, list_elem_of_fmap in Hl as (s & -> & Hs).
    apply list_elem_of_fmap in Hs as ([pg s'] & -> & Hs). apply elem_of_map_to_list in Hs. simpl in Hm.
    destruct (List_law s' (CleanObjectKey prefix) (Ha pg s' Hs)) as (l & El & Hin). unfold list_or_nil in Hm. rewrite El in Hm.
    apply list_elem_of_In, Hin in Hm as (id & Hid & Hp). by exists pg, s', id.
  - intros (pg & s & id & Hs & Hid & Hp). exists (list_or_nil s (CleanObjectKey prefix)). split.
    + apply list_elem_of_In, list_elem_of_fmap. exists s. split; [done|]. apply list_elem_of_fmap. exists (pg, s).
      split; [done|]. by apply elem_of_map_to_list.
    + destruct (List_law s (CleanObjectKey prefix) (Ha pg s Hs)) as (l & El & Hin). unfold list_or_nil. rewrite El.
      apply list_elem_of_In, Hin. by exists id.
Qed.

(** What the node of a slot answers. *)
Definition listed (b : BucketInfo) (prefix : string) (slot : Z) (m : ObjectMeta) : Prop :=
  exists pg n pg' s id, slot_home b slot pg n /\ MetaStorageRegister (alaya (RaftId n)) !! pg' = Some s /\
    metas s !! id = Some m /\ HasPrefix id (CleanObjectKey (Join [BucketInfo_GetID b; FormatInt slot; prefix])) = true.

Lemma list_slots_spec b prefix slots : forall a acc, sees a -> currentClusterInfo a = Some c ->
  exists a' l, list_slots cl c b a prefix slots acc = (a', Ok (Some (acc ++ l))) /\
    forall m, m ∈ l <-> exists slot, slot ∈ slots /\ listed b prefix slot m.
Proof.
  induction slots as [|slot slots IH]; intros a acc Ha Hc.
  - exists a, []. split; [by rewrite app_nil_r|]. intros m. split; [by intros ?%not_elem_of_nil|].
    by intros (slot & ?%not_elem_of_nil & _).
  - destruct (slot_server_sees a b slot Ha Hc) as (a1 & n & pg & En & Hn & Ha1 & Hc1). cbn [list_slots]. rewrite En.
    cbn [st_bind]. rewrite Hserve.
    destruct (ListMeta_spec (alaya (RaftId n)) (Term c) (Join [BucketInfo_GetID b; FormatInt slot; prefix]) Hterm (Hstores _))
      as (l1 & -> & Hl1).
    destruct (IH a1 (acc ++ l1) Ha1 Hc1) as (a2 & l2 & E2 & Hl2). exists a2, (l1 ++ l2). rewrite E2, app_assoc. split; [done|].
    intros m. rewrite elem_of_app, Hl1, Hl2. split.
    + intros [(pg' & s & id & Hs & Hid & Hp)|(slot' & Hin & Hm)].
      * exists slot. split; [by left|]. by exists pg, n, pg', s, id.
      * exists slot'. split; [by right|done].
    + intros (slot' & [->|Hin]%elem_of_cons & Hm); [left|right; by exists slot'].
      destruct Hm as (pg0 & n0 & pg' & s & id & Hn0 & Hs & Hid & Hp).
      destruct (slot_home_fun _ _ _ _ _ _ Hn Hn0) as [_ Heq]. rewrite Heq in Hs. by exists pg', s, id.
Qed.

End view.

(** ** Prefixes *)

Lemma HasPrefix_app_cancel x s p : HasPrefix (x +:+ s) (x +:+ p) = HasPrefix s p.
Proof. induction x as [|a x IH]; [done|]. rewrite !str_cons_app. cbn [HasPrefix]. by rewrite bool_decide_true. Qed.

Lemma HasPrefix_join l k p : l <> [] -> k <> [] -> HasPrefix (join k) (join p) = true ->
  HasPrefix (join (l ++ k)) (join (l ++ p)) = true.
Proof.
  intros Hl Hk Hp. rewrite (join_app l k) by done. destruct p as [|e p].
  - rewrite app_nil_r. apply prefix_app.
  - rewrite (join_app l) by done. rewrite HasPrefix_app_cancel. cbn [HasPrefix]. by rewrite bool_decide_true.
Qed.

(** The prefix the client sends for a slot. *)
Lemma listing_prefix b slot comps : good (VolumeId b) = true -> good (BucketName b) = true -> 0 <= slot ->
  Forall (fun e => good e = true) comps ->
  CleanObjectKey (Join [BucketInfo_GetID b; FormatInt slot; join comps]) = join ([VolumeId b; BucketName b; FormatUint slot] ++ comps).
Proof.
  intros Hv Hb Hs Hc. unfold BucketInfo_GetID. rewrite GenBucketID_good by done. unfold FormatInt. rewrite decide_False by lia.
  assert (Forall (fun e => good e = true) ([VolumeId b; BucketName b; FormatUint slot] ++ comps)) as Hall.
  { repeat (constructor; [auto with ecos|]). done. }
  assert (Join [String sep (join [VolumeId b; BucketName b]); FormatUint slot; join comps] =
          String sep (join ([VolumeId b; BucketName b; FormatUint slot] ++ comps))) as ->.
  { destruct comps as [|e comps].
    - rewrite app_nil_r. change (join []) with "". cbn [Join]. rewrite decide_False by done.
      assert (join [String sep (join [VolumeId b; BucketName b]); FormatUint slot; ""] =
              String sep (join ([VolumeId b; BucketName b; FormatUint slot] ++ [""]))) as ->.
      { rewrite (join_app [VolumeId b; BucketName b; FormatUint slot]) by done.
        change [VolumeId b; BucketName b; FormatUint slot] with ([VolumeId b; BucketName b] ++ [FormatUint slot]).
        rewrite (join_app [_; _]) by done. rewrite str_app_assoc. done. }
      rewrite Clean_rooted, Split_join; [|done|repeat (apply Forall_cons; split; [auto with ecos|]); by constructor].
      unfold norm. rewrite fold_left_app. rewrite app_nil_r in Hall. pose proof (norm_good true _ Hall) as Hn.
      unfold norm in Hn. cbn [fold_left] in Hn |- *. unfold norm_step at 1. rewrite decide_True by (by left). by rewrite Hn.
    - rewrite <- (Clean_rooted_join ([VolumeId b; BucketName b; FormatUint slot] ++ e :: comps)) by done. simpl Join. f_equal.
      change ([VolumeId b; BucketName b; FormatUint slot] ++ e :: comps)
        with ([VolumeId b; BucketName b] ++ [FormatUint slot] ++ e :: comps).
      rewrite (join_app [_; _]), (join_app [_]) by done. done. }
  by apply CleanObjectKey_rooted_join.
Qed.

(** An acknowledged record is in the storage of its group. *)
Lemma record_stores `{HR : HashRing} {S : Type} `{MetaStorageLaws S, !MetaStorageTotal S} e (a a' : Alaya S) tag cancelled opID before meta :
  storages_ok a -> RecordObjectMeta e a tag cancelled opID before meta = (a', Ok tt) ->
  exists s, MetaStorageRegister a' !! PgId meta = Some s /\
    metas s !! CleanObjectKey (ObjId meta) = Some (with_id meta (CleanObjectKey (ObjId meta))).
Proof.
  intros Ha E. destruct (RecordObjectMeta_ok _ _ _ _ _ _ _ _ E) as (term & meta' & _ & Hc & _ & _ & Hp).
  destruct (checkObject_inv _ _ _ _ Hc) as [-> _].
  destruct (propose_ok _ _ _ _ _ Ha Hp) as (s & s' & _ & -> & _ & Hm). exists s'. split.
  - simpl. by rewrite lookup_insert_eq.
  - rewrite Hm. unfold op_view. cbn [Operate Meta]. simpl. by rewrite lookup_insert_eq.
Qed.

(** ** Properties *)

(** C15: what was put is listed. For a client whose view is current, listing a
    bucket by a clean prefix succeeds; it reports only metadata that some node
    holds under an identifier of that bucket and prefix, and it reports every
    object of the bucket whose key has the prefix and whose record the first node
    of its placement group acknowledged, exactly as recorded. *)
Theorem put_then_listed `{HR : HashRing, CR : Crush, !HashRingOk, !CrushOk} {S : Type} `{MetaStorageLaws S, !MetaStorageTotal S}
    (cl : Cluster) later dir c a (alaya : Z -> Alaya S) name b comps :
  steady cl dir c -> sees cl dir c a -> currentClusterInfo a = Some c -> cluster_wf c -> is_u64 (Term c) ->
  MetaPgSize c <= Z.of_nat (length (healthyNodes c)) /\ BlockPgSize c <= Z.of_nat (length (healthyNodes c)) ->
  (forall n tag p, cl_ListMeta cl n tag p = ListMeta (alaya (RaftId n)) tag p) -> (forall id, storages_ok (alaya id)) ->
  dir IT_BUCKET_INFO (GenBucketID GetUserID name) = Some (BI_BucketInfo b) -> bucket_ok b ->
  Forall (fun e => good e = true) comps ->
  exists a' l, listObjectsByEdge cl (cl :: later) a name (join comps) = (a', Ok l) /\
    (forall m, m ∈ l -> exists home pg s id slot, MetaStorageRegister (alaya home) !! pg = Some s /\ metas s !! id = Some m /\
       HasPrefix id (join ([VolumeId b; BucketName b; FormatUint slot] ++ comps)) = true) /\
    (forall home key oid pg cp rest e a0 tag cancelled opID before meta,
       key_ok key = true -> HasPrefix (CleanObjectKey key) (join comps) = true ->
       GenObjectId b key = Ok oid -> GenObjPgID b key (MetaPgNum c) = Ok pg ->
       NewClusterPipelines c = Ok cp -> GetMetaPG cp pg = Ok (home :: rest) ->
       storages_ok a0 -> ObjId meta = oid -> PgId meta = pg ->
       RecordObjectMeta e a0 tag cancelled opID before meta = (alaya home, Ok tt) ->
       with_id meta oid ∈ l).
Proof.
  intros Hst Ha Hc Hwf Hu Hbig Hserve Hstores Hdir Hb Hcomps.
  pose proof Hb as (Hv & Hbn & cfg & Hcfg & Hslots).
  destruct (agent_Get_sees cl dir c Hst a _ _ _ Ha Hc Hdir) as (a1 & i & E1 & Hi & Ha1 & Hc1).
  destruct (GetCurClusterInfo_sees cl dir c Hst a1 Ha1) as (a2 & E2 & Ha2 & Hc2).
  destruct (list_slots_spec cl dir c Hst Hwf Hbig alaya Hserve Hstores Hu b (join comps) (seqZ 1 (KeySlotNum cfg)) a2 [] Ha2 Hc2)
    as (a3 & l & E3 & Hl).
  exists a3, l. split_and!.
  - unfold listObjectsByEdge, getBucketInfo. rewrite E1. cbn [st_bind]. rewrite Hi. cbn [GetBucketInfo pure or_panic st_bind list_attempts].
    rewrite E2. cbn [st_bind]. rewrite Hcfg. cbn [pure or_panic st_bind]. by rewrite E3.
  - intros m Hm. apply Hl in Hm as (slot & Hslot & pg & n & pg' & s & id & _ & Hs & Hid & Hp). apply elem_of_seqZ in Hslot.
    rewrite listing_prefix in Hp by (done || lia). by exists (RaftId n), pg', s, id, slot.
  - intros home key oid pg cp rest e a0 tag cancelled opID before meta Hk Hpre Hoid Hpg Hcp Hhome Ha0 Hmid Hmpg Hrec.
    destruct (GenObjectId_shape b key Hb Hk) as (cfg' & slot & Hcfg' & Hslot & Hr & _ & Hid).
    rewrite Hcfg in Hcfg'. injection Hcfg' as <-. rewrite Hoid in Hid. injection Hid as ->.
    destruct (record_stores _ _ _ _ _ _ _ _ Ha0 Hrec) as (s & Hs & Hm). rewrite Hmid in Hm.
    destruct (SplitID_GenObjectId b key Hb Hk) as (? & ? & oid' & _ & _ & Hoid' & Hclean & _).
    rewrite Hoid in Hoid'. injection Hoid' as <-. rewrite Hclean in Hm. rewrite Hmpg in Hs.
    destruct (slot_server_sees cl dir c Hst Hwf Hbig a2 b slot Ha2 Hc2) as (_ & n & pg0 & _ & Hn & _).
    apply Hl. exists slot. split; [apply elem_of_seqZ; lia|]. exists pg0, n, pg, s, (join ([VolumeId b; BucketName b; FormatUint slot] ++ key_comps key)).
    destruct (key_ok_spec key Hk) as [Hne Hg]. split_and!; try done.
    + assert (RaftId n = home) as ->; [|done]. destruct Hn as (Hn1 & cp' & p & Hcp' & Hp & Hhead).
      rewrite Hcp in Hcp'. injection Hcp' as <-.
      assert (pg0 = pg) as ->.
      { unfold GenObjPgID in Hpg. rewrite Hcfg in Hpg. cbn [or_panic mbind res_bind] in Hpg.
        rewrite CleanObjectKey_ok, CalculateSlot_clean, Hslot in Hpg by done. cbn [mbind res_bind] in Hpg. congruence. }
      unfold GetMetaPG in Hhome. unfold GetMetaPipeline in Hp. rewrite Hp in Hhome. cbn [mbind res_bind] in Hhome.
      injection Hhome as Hids. rewrite Hids in Hhead. by injection Hhead.
    + rewrite listing_prefix by (done || lia). apply HasPrefix_join; [done|done|]. by rewrite <- CleanObjectKey_ok.
Qed.

(** What an agent must be for a call: it talks to the edge, agrees with the
    directory, and has the current view. *)
Definition current_agent (dir : directory) (c : ClusterInfo) (a : InfoAgent) : Prop :=
  ia_connectType a = Some ConnectEdge /\ agent_agrees dir a /\ currentClusterInfo a = Some c.

Lemma current_sees cl dir c a : steady cl dir c -> current_agent dir c a -> sees cl dir c a.
Proof. intros Hst (H1 & H2 & H3). split_and!; try done. exists c. split; [done|]. exact (steady_cluster _ _ _ Hst). Qed.

Lemma sees_current cl dir c a : sees cl dir c a -> currentClusterInfo a = Some c -> current_agent dir c a.
Proof. intros (H1 & H2 & _) H3. done. Qed.


(** ** A client of a small cluster *)

Definition client_dir : directory := fun t id =>
  match t with
  | IT_BUCKET_INFO => if decide (id = BucketInfo_GetID default_bucket) then Some (BI_BucketInfo default_bucket) else None
  | IT_NODE_INFO => BI_NodeInfo <$> List.find (fun n => bool_decide (FormatUint (RaftId n) = id)) (NodesInfo small_cluster)
  | _ => None
  end.

Definition client_net : Network :=
  mkNetwork (fun _ t id => or_err (EErrno InfoNotFound) (client_dir t id)) (fun _ _ => Err (EExt "offline"))
    (fun _ => Ok (Some small_cluster)).

Definition client_cluster (alaya : Z -> Alaya MemoryMetaStorage) (answer : res ObjectMeta) : Cluster :=
  mkCluster client_net (fun _ => None) (fun _ _ _ => answer) (fun _ _ _ => Ok tt)
    (fun n tag p => ListMeta (alaya (RaftId n)) tag p) (fun _ => Err (EExt "offline")) (fun _ _ _ => Ok []) (fun _ _ => Ok tt).

Definition client_agent : InfoAgent := NewInfoAgent (Some small_cluster) (Some ConnectEdge).

Lemma client_steady alaya answer : steady (client_cluster alaya answer) client_dir small_cluster.
Proof.
  constructor.
  - intros t id b. unfold client_dir. destruct t; try done.
    + destruct (List.find _ _) as [n|] eqn:E; [|done]. intros [= <-]. split; [done|].
      apply List.find_some in E as [_ E]. by apply bool_decide_eq_true in E.
    + destruct (decide _) as [->|]; [|done]. by intros [= <-].
  - done.
  - intros t id b Hb. cbn [client_cluster cl_net client_net first_answer NodesInfo small_cluster moon_GetInfo]. by rewrite Hb.
  - intros n Hn. exists n. split; [|done]. unfold small_cluster in Hn. cbn [NodesInfo] in Hn.
    repeat (apply elem_of_cons in Hn as [->|Hn]; [vm_compute; reflexivity|]). by apply not_elem_of_nil in Hn.
Qed.

Lemma client_agent_current : current_agent client_dir small_cluster client_agent.
Proof.
  split_and!; try done. intros t m id b Hm Hid. exfalso. revert Hm Hid. unfold register_view. rewrite lookup_fmap.
  destruct t; vm_compute; by intros [= <-].
Qed.

(** The first node of the group of the key "k", with the key recorded. *)
Definition client_home : Z := 3.

Definition client_alayas (id : Z) : Alaya MemoryMetaStorage :=
  if decide (id = client_home) then (demo_record POSITION_EDGE ∅).1 else demo_alaya ∅.

Lemma demo_metas_ok (a : Alaya MemoryMetaStorage) : storages_ok a.
Proof. by intros pg s _. Qed.

Lemma put_then_listed_witness :
  exists a' l, @listObjectsByEdge length_ring first_crush (client_cluster client_alayas (Err EEOF))
      [client_cluster client_alayas (Err EEOF)] client_agent "default" "" = (a', Ok l) /\
    with_id (demo_meta POSITION_EDGE) demo_id ∈ l.
Proof.
  destruct (@put_then_listed length_ring first_crush length_ring_ok first_crush_ok MemoryMetaStorage _ _ _
    (client_cluster client_alayas (Err EEOF)) [] client_dir small_cluster client_agent client_alayas "default" default_bucket [])
    as (a' & l & E & _ & Hl).
  - apply client_steady.
  - apply (current_sees _ _ _ _ (client_steady _ _) client_agent_current).
  - reflexivity.
  - exact small_cluster_wf.
  - unfold is_u64. simpl. lia.
  - vm_compute. split; discriminate.
  - reflexivity.
  - intros id. apply demo_metas_ok.
  - vm_compute. reflexivity.
  - exact default_bucket_ok.
  - constructor.
  - exists a', l. split; [exact E|].
    refine (Hl client_home "k" demo_id demo_pg _ [1] demo_env (demo_alaya ∅) "7" false 1 (Some []) (demo_meta POSITION_EDGE)
      _ _ _ _ _ _ (demo_metas_ok _) _ _ _); vm_compute; reflexivity.
Defined.

