(* ===== verification/ClientPool.v ===== *)
(** * The client as a whole: [src/client/client.go], [src/client/io/ecos_io.go]

    A client keeps one factory of readers and writers per bucket in a cache; the
    multipart uploads of a bucket live in its factory. A factory that leaves the
    cache gives up its uploads, whoever still holds it: factories are objects of a
    heap, the cache holds their addresses. *)

From S2P Require Import Prelude GoStd Errno Infos InfoStorage Lru Object Pipeline Pool GaiaMsg Block Writer Multipart MetaStorage Alaya Monitor Moon InfoAgent Client.

(** ** Configuration *)

(** [None]: a kind of connection that is neither the edge nor the cloud. *)
Record ClientConfig := mkClientConfig {
  cf_ChunkSize : Z;
  cf_UploadBuffer : Z;
  cf_NodeAddr : string;
  cf_NodePort : Z;
  cf_CloudAddr : string;
  cf_CloudPort : Z;
  cf_ConnectType : option ConnectType
}.

Definition DefaultConfig : ClientConfig :=
  mkClientConfig (2 ^ 20) (2 ^ 25) "ecos-edge-dev.ecos.svc.cluster.local" 3267 "" 0 (Some ConnectEdge).

(** The cluster a client starts from: the one node it is told of. *)
Definition start_cluster (config : ClientConfig) : ClusterInfo :=
  mkClusterInfo 0 None [mkNodeInfo 0 "" (cf_NodeAddr config) (cf_NodePort config) 0 NS_ONLINE] None 0 0 0 0 0.

(** ** Factories *)

Record IOFactory := mkIOFactory {
  io_config : ClientConfig;
  io_agent : InfoAgent;
  io_pool : option (Pool localChunk);
  io_bucket : option BucketInfo;
  io_jobs : Jobs
}.

Definition with_jobs (f : IOFactory) (jobs : Jobs) : IOFactory :=
  mkIOFactory (io_config f) (io_agent f) (io_pool f) (io_bucket f) jobs.

Definition IsConnected (f : IOFactory) : bool := match io_bucket f with Some _ => true | None => false end.

(** The error of making the pool of chunks is dropped: the pool is nil then. *)
Definition NewEcosIOFactory (net : Network) (config : ClientConfig) (volumeID bucketName : string) : res IOFactory :=
  if decide (cf_ChunkSize config = 0) then Panic
  else
    let maxChunk := cf_UploadBuffer config `div` cf_ChunkSize config in
    let chunkPool := match NewPool (Z.to_nat maxChunk) maxChunk with Ok p => Some p | _ => None end in
    match agent_Get net (NewInfoAgent (Some (start_cluster config)) (cf_ConnectType config)) IT_BUCKET_INFO (GetBucketID volumeID bucketName) with
    | (agent, Ok info) => Ok (mkIOFactory config agent chunkPool (GetBucketInfo (Information_BaseInfo info)) ∅)
    | (_, Err e) => Err e
    | (_, Panic) => Panic
    | (_, Stuck) => Stuck
    end.

(** ** The client *)

Definition DefaultFactoryPoolSize : nat := 10.

Section client.
Context {P : Type} `{HL : !Lru P string nat}.

Record Client := mkClient {
  c_config : ClientConfig;
  c_InfoAgent : InfoAgent;
  factoryPool : P;
  factories : list IOFactory           (* the heap *)
}.

Definition New (config : ClientConfig) : Client :=
  mkClient config (NewInfoAgent (Some (start_cluster config)) (cf_ConnectType config)) (lru_New DefaultFactoryPoolSize) [].

(** The callback of the cache. *)
Definition evict (fs : list IOFactory) (out : list (string * nat)) : list IOFactory * res unit :=
  foldl (fun acc kv =>
           do fs, _ <- acc;
           match fs !! kv.2 with
           | Some f => let '(jobs, r) := AbortAllMultipartUploadJob (io_jobs f) in (<[kv.2 := with_jobs f jobs]> fs, r)
           | None => (fs, Ok tt)
           end) (fs, Ok tt) out.

(** [GetIOFactory] after the cache had nothing to offer. *)
Definition make_factory (net : Network) (c : Client) (bucketName : string) : Client * res nat :=
  match NewEcosIOFactory net (c_config c) GetUserID bucketName with
  | Ok f =>
      let a := length (factories c) in
      let '(pool, out) := lru_Add (factoryPool c) bucketName a in
      let '(fs, r) := evict (factories c ++ [f]) out in
      (mkClient (c_config c) (c_InfoAgent c) pool fs, _ ← r; Ok a)
  | Err e => (c, Err e)
  | Panic => (c, Panic)
  | Stuck => (c, Stuck)
  end.

Definition GetIOFactory (net : Network) (c : Client) (bucketName : string) : Client * res nat :=
  let '(pool, ret) := lru_Get (factoryPool c) bucketName in
  let c := mkClient (c_config c) (c_InfoAgent c) pool (factories c) in
  match ret with
  | Some a =>
      do c, f <- pure c (or_panic (factories c !! a));
      if IsConnected f then (c, Ok a)
      else
        let '(pool, out) := lru_Remove (factoryPool c) bucketName in
        let '(fs, r) := evict (factories c) out in
        do c, _ <- pure (mkClient (c_config c) (c_InfoAgent c) pool fs) r;
        make_factory net c bucketName
  | None => make_factory net c bucketName
  end.

(** What happens to a client: a factory is asked for, or somebody who holds one
    works on its uploads. *)
Inductive ClientEvent := CE_Get (net : Network) (bucketName : string) | CE_Jobs (a : nat) (g : Jobs -> Jobs).

Definition client_event (c : Client) (e : ClientEvent) : Client :=
  match e with
  | CE_Get net bucketName => (GetIOFactory net c bucketName).1
  | CE_Jobs a g => mkClient (c_config c) (c_InfoAgent c) (factoryPool c) (alter (fun f => with_jobs f (g (io_jobs f))) a (factories c))
  end.

End client.

Arguments Client P : clear implicits.
Arguments mkClient {P}.
Arguments c_config {P}.
Arguments c_InfoAgent {P}.
Arguments factoryPool {P}.
Arguments factories {P}.

(** ** The factories of at most ten buckets *)

Section poolOk.
Context {P : Type} `{HL : !Lru P string nat, HLo : !LruOk P string nat}.

Implicit Types (c : Client P) (names : gset string).

Record pool_wf c names : Prop := mkPoolWf {
  pw_limit : limit (factoryPool c) = DefaultFactoryPoolSize;
  pw_keys : NoDup (entries (factoryPool c)).*1;
  pw_ptrs : NoDup (entries (factoryPool c)).*2;
  pw_entry k a : (k, a) ∈ entries (factoryPool c) -> k ∈ names /\ (a < length (factories c))%nat
}.

(** What asking for [b] leaves as it was. *)
Definition keeps (b : string) c c' : Prop :=
  (forall a f, factories c !! a = Some f -> IsConnected f = true \/ (b, a) ∉ entries (factoryPool c) -> factories c' !! a = Some f) /\
  (forall k a, k <> b -> (k, a) ∈ entries (factoryPool c) -> (k, a) ∈ entries (factoryPool c')).

Lemma New_wf config : pool_wf (New config) ∅.
Proof.
  destruct (lru_New_ok (C := P) (K := string) (V := nat) DefaultFactoryPoolSize) as [He Hl].
  split; simpl; rewrite ?He; [done|constructor|constructor|by intros ?? ?%elem_of_nil].
Qed.

Lemma keys_below c names b : pool_wf c names -> b ∉ (entries (factoryPool c)).*1 -> (size (names ∪ {[b]}) <= 10)%nat ->
  (length (entries (factoryPool c)) < 10)%nat.
Proof.
  intros Hw Hb Hs. assert (list_to_set (b :: (entries (factoryPool c)).*1) ⊆ names ∪ {[b]}) as Hsub.
  { intros k [->|Hk]%elem_of_list_to_set%elem_of_cons; [set_solver|].
    apply list_elem_of_fmap in Hk as ([k' a] & -> & Hin). apply (pw_entry c names Hw) in Hin. set_solver. }
  apply subseteq_size in Hsub. rewrite size_list_to_set in Hsub; [simpl in Hsub; rewrite length_fmap in Hsub; lia|].
  constructor; [done|apply Hw].
Qed.

(** A bucket that has no connected factory in the cache gets a new one; nothing is
    driven out. *)
Lemma make_factory_ok net c names b c' r : pool_wf c names -> (size (names ∪ {[b]}) <= 10)%nat ->
  b ∉ (entries (factoryPool c)).*1 -> make_factory net c b = (c', r) ->
  pool_wf c' (names ∪ {[b]}) /\ keeps b c c' /\
  (forall a, r = Ok a -> (b, a) ∈ entries (factoryPool c') /\ exists f, factories c' !! a = Some f).
Proof.
  intros Hw Hsz Hb. assert (pool_wf c (names ∪ {[b]})) as Hw'.
  { destruct Hw as [? ? ? He]. split; try done. intros k a Hin. destruct (He k a Hin). set_solver. }
  unfold make_factory. destruct (NewEcosIOFactory _ _ _ _) as [f|e| |].
  2-4: by intros [= <- <-].
  destruct (lru_Add _ _ _) as [pool out] eqn:Ha. destruct (lru_Add_ok _ _ _ _ _ Ha) as [Hl He].
  pose proof (keys_below c names b Hw Hb Hsz) as Hlt. rewrite decide_False in He by done. injection He as He Hout.
  rewrite (pw_limit c names Hw) in He, Hout. unfold DefaultFactoryPoolSize in He, Hout.
  rewrite drop_ge in Hout by (simpl; lia). rewrite take_ge in He by (simpl; lia). subst out. cbn [evict foldl].
  intros [= <- <-]. assert (forall k a, (k, a) ∈ entries (factoryPool c) -> (a < length (factories c))%nat) as Hin
    by (intros k a Hka; by destruct (pw_entry c names Hw k a Hka)).
  split_and!.
  - split; cbn [factoryPool factories].
    + rewrite Hl. apply Hw.
    + rewrite He. simpl. constructor; [done|apply Hw].
    + rewrite He. simpl. constructor; [|apply Hw]. intros ([k a] & Heq & Hka)%list_elem_of_fmap. apply Hin in Hka. simpl in Heq. lia.
    + intros k a. rewrite He, length_app. intros [[= -> ->]|Hka]%elem_of_cons; [split; [set_solver|simpl; lia]|].
      destruct (pw_entry c _ Hw' k a Hka). split; [done|lia].
  - split; cbn [factoryPool factories].
    + intros a f' Hf' _. rewrite lookup_app_l; [done|]. by apply lookup_lt_Some in Hf'.
    + intros k a _ Hka. rewrite He. by right.
  - intros a [= <-]. cbn [factoryPool factories]. split; [rewrite He; by left|]. exists f. by rewrite lookup_app_r, Nat.sub_diag.
Qed.

(** What is known of a cached factory does not change when its entry is used. *)
Lemma get_entry c names b pool o : pool_wf c names -> lru_Get (factoryPool c) b = (pool, o) ->
  o = find_key b (entries pool) /\ entries pool ≡ₚ entries (factoryPool c) /\ limit pool = DefaultFactoryPoolSize.
Proof.
  intros Hw Hget. destruct (lru_Get_ok _ _ _ _ Hget) as (Hl & -> & He).
  assert (entries pool ≡ₚ entries (factoryPool c)) as Hp.
  { rewrite He. destruct (find_key b _) as [v|] eqn:Hf; [|done]. apply use_known; [apply Hw|done]. }
  split_and!; [|done|rewrite Hl; apply Hw]. destruct (find_key b (entries (factoryPool c))) as [v|] eqn:Hf.
  - symmetry. apply find_key_elem; [rewrite Hp; apply Hw|]. rewrite Hp. by apply find_key_Some.
  - symmetry. apply find_key_None. rewrite Hp. by apply find_key_None.
Qed.

Lemma pool_wf_entries c names pool fs : pool_wf c names -> entries pool ≡ₚ entries (factoryPool c) ->
  limit pool = DefaultFactoryPoolSize -> length fs = length (factories c) ->
  pool_wf (mkClient (c_config c) (c_InfoAgent c) pool fs) names.
Proof.
  intros [] Hp Hl Hfs. split; cbn [factoryPool factories]; [done|by rewrite Hp..|]. intros k a. rewrite Hp, Hfs. auto.
Qed.

(** Dropping the entry of [b]: its factory gives up its uploads, the others are left alone. *)
Lemma remove_ok c names b pool out a : pool_wf c names -> (b, a) ∈ entries (factoryPool c) ->
  lru_Remove (factoryPool c) b = (pool, out) ->
  out = [(b, a)] /\ entries pool = without b (entries (factoryPool c)) /\ limit pool = DefaultFactoryPoolSize.
Proof.
  intros Hw Hin Hr. destruct (lru_Remove_ok _ _ _ _ Hr) as (Hl & He & ->). split; [|split; [done|rewrite Hl; apply Hw]].
  pose proof (pw_keys c names Hw) as Hnd. clear -Hin Hnd. induction (entries (factoryPool c)) as [|[k v] l IH]; [by apply elem_of_nil in Hin|].
  inv Hnd. apply elem_of_cons in Hin as [[= <- <-]|Hin].
  - rewrite filter_cons_True by done. f_equal. clear IH. induction l as [|[k v] l IH]; [done|].
    rewrite filter_cons_False; [apply IH; [|by inv H2]|]; [intros Hx; apply H1; by right|]. simpl. intros ->. apply H1. by left.
  - rewrite filter_cons_False; [by apply IH|]. simpl. intros ->. apply H1. by apply (list_elem_of_fmap_2 fst) in Hin.
Qed.

Lemma without_wf c names b pool fs : pool_wf c names -> entries pool = without b (entries (factoryPool c)) ->
  limit pool = DefaultFactoryPoolSize -> length fs = length (factories c) ->
  pool_wf (mkClient (c_config c) (c_InfoAgent c) pool fs) names /\ b ∉ (entries pool).*1.
Proof.
  intros [Hl Hk Hp He] Hen Hlim Hfs. split; [split|]; cbn [factoryPool factories]; rewrite ?Hen; [done| | | |].
  - rewrite without_keys. by apply NoDup_filter.
  - unfold without. eapply sublist_NoDup; [exact Hp|]. apply fmap_sublist, sublist_filter.
  - intros k a [_ Hin]%elem_of_without. rewrite Hfs. auto.
  - rewrite without_keys. by intros [? _]%list_elem_of_filter.
Qed.

Lemma evict_one fs a b fs' r : evict fs [(b, a)] = (fs', r) ->
  length fs' = length fs /\ forall a', a' <> a -> fs' !! a' = fs !! a'.
Proof.
  unfold evict. cbn [foldl st_bind snd]. destruct (fs !! a) as [f|]; [|by intros [= <- <-]].
  destruct (AbortAllMultipartUploadJob _) as [jobs r']. intros [= <- <-].
  split; [apply length_insert|]. intros a' Hne. by rewrite list_lookup_insert_ne.
Qed.

Lemma pool_wf_more c names b : pool_wf c names -> pool_wf c (names ∪ {[b]}).
Proof. intros [? ? ? He]. split; try done. intros k a Hin. destruct (He k a Hin). set_solver. Qed.

(** A factory that is cached but not connected is replaced. *)
Lemma replace_ok net c names b a f pool out fs r c' r' : pool_wf c names -> (size (names ∪ {[b]}) <= 10)%nat ->
  (b, a) ∈ entries (factoryPool c) -> factories c !! a = Some f -> IsConnected f = false ->
  lru_Remove (factoryPool c) b = (pool, out) -> evict (factories c) out = (fs, r) ->
  (do c, _ <- pure (mkClient (c_config c) (c_InfoAgent c) pool fs) r; make_factory net c b) = (c', r') ->
  pool_wf c' (names ∪ {[b]}) /\ keeps b c c' /\
  (forall a, r' = Ok a -> (b, a) ∈ entries (factoryPool c') /\ exists f, factories c' !! a = Some f).
Proof.
  intros Hw Hsz Hin Hf Hcon Hrm Hev. destruct (remove_ok c names b pool out a Hw Hin Hrm) as (-> & He & Hl).
  destruct (evict_one _ _ _ _ _ Hev) as [Hlen Hfs].
  destruct (without_wf c names b pool fs Hw He Hl Hlen) as [Hw1 Hb]. set (c1 := mkClient _ _ pool fs) in *.
  assert (keeps b c c1) as Hk1.
  { split; cbn [factoryPool factories c1].
    - intros a' f' Hf' Hor. rewrite Hfs; [done|]. intros ->. rewrite Hf in Hf'. injection Hf' as <-. destruct Hor as [?|?]; [congruence|done].
    - intros k a' Hk Hka. rewrite He. by apply elem_of_without. }
  destruct r as [[]|e| |]; cbn [pure st_bind].
  2-4: intros [= <- <-]; split_and!; [by apply pool_wf_more|done|done].
  intros Hm. destruct (make_factory_ok net c1 names b c' r' Hw1 Hsz Hb Hm) as (Hw' & [Hk2 Hk3] & Hok). split; [done|]. split; [|done].
  split.
  - intros a' f' Hf' Hor. apply Hk2; [by apply Hk1|right]. cbn [factoryPool c1]. rewrite He. by intros [? _]%elem_of_without.
  - intros k a' Hk Hka. apply Hk3; [done|]. by apply Hk1.
Qed.

Lemma GetIOFactory_ok net c names b c' r : pool_wf c names -> (size (names ∪ {[b]}) <= 10)%nat ->
  GetIOFactory net c b = (c', r) ->
  pool_wf c' (names ∪ {[b]}) /\ keeps b c c' /\
  (forall a f, (b, a) ∈ entries (factoryPool c) -> factories c !! a = Some f -> IsConnected f = true ->
     r = Ok a /\ factories c' = factories c /\ (b, a) ∈ entries (factoryPool c')) /\
  (forall a, r = Ok a -> (b, a) ∈ entries (factoryPool c') /\ exists f, factories c' !! a = Some f).
Proof.
  intros Hw Hsz. unfold GetIOFactory. destruct (lru_Get (factoryPool c) b) as [pool o] eqn:Hget.
  destruct (get_entry c names b pool o Hw Hget) as (-> & Hp & Hl).
  pose proof (pool_wf_entries c names pool (factories c) Hw Hp Hl eq_refl) as Hw1.
  set (c1 := mkClient (c_config c) (c_InfoAgent c) pool (factories c)) in *.
  assert (forall c2, keeps b c1 c2 -> keeps b c c2) as Hkeep.
  { intros c2 [H1 H2]. split.
    - intros a f Hf Hor. apply H1; [done|]. cbn [factoryPool c1]. by rewrite Hp.
    - intros k a Hk Hka. apply H2; [done|]. cbn [factoryPool c1]. by rewrite Hp. }
  destruct (find_key b (entries pool)) as [a|] eqn:Hfind.
  - pose proof (find_key_Some _ _ _ Hfind) as Hin. change (factories c1) with (factories c).
    destruct (pw_entry _ _ Hw1 b a Hin) as [_ Hlt]. apply lookup_lt_is_Some in Hlt as [f Hf]. cbn [factories c1] in Hf.
    assert (forall a', (b, a') ∈ entries (factoryPool c) -> a' = a) as Huniq.
    { intros a' Ha'. rewrite <- Hp in Ha'. apply (find_key_elem _ _ _ (pw_keys _ _ Hw1)) in Ha'. cbn [factoryPool c1] in Ha'. congruence. }
    rewrite Hf. cbn [or_panic pure st_bind]. destruct (IsConnected f) eqn:Hcon.
    + intros [= <- <-]. split_and!; [by apply pool_wf_more| | |].
      * apply Hkeep. by split.
      * intros a' f' Ha' _ _. by rewrite (Huniq a' Ha').
      * intros a' [= <-]. split; [done|by exists f].
    + destruct (lru_Remove (factoryPool c1) b) as [pool' out] eqn:Hrm. destruct (evict (factories c1) out) as [fs r1] eqn:Hev.
      intros Hres. destruct (replace_ok net c1 names b a f pool' out fs r1 c' r Hw1 Hsz Hin Hf Hcon Hrm Hev Hres) as (Hw' & Hk & Hok).
      split_and!; [done|by apply Hkeep| |done]. intros a' f' Ha' Hf' Hcon'. rewrite (Huniq a' Ha') in Hf'. congruence.
  - intros Hm. apply find_key_None in Hfind. destruct (make_factory_ok net c1 names b c' r Hw1 Hsz Hfind Hm) as (Hw' & Hk & Hok).
    split_and!; [done|by apply Hkeep| |done]. intros a f Ha _ _. rewrite <- Hp in Ha. by apply (list_elem_of_fmap_2 fst) in Ha.
Qed.

Definition asked_names (es : list ClientEvent) : gset string :=
  list_to_set (omap (fun e => match e with CE_Get _ b => Some b | CE_Jobs _ _ => None end) es).

(** What those who hold factory [a] made of its uploads. *)
Definition jobs_after (es : list ClientEvent) (a : nat) (jobs : Jobs) : Jobs :=
  foldl (fun jobs e => match e with CE_Jobs a' g => if decide (a' = a) then g jobs else jobs | CE_Get _ _ => jobs end) jobs es.

Lemma jobs_event_wf c names a g : pool_wf c names -> pool_wf (client_event c (CE_Jobs a g)) names.
Proof. intros []. split; try done. intros k a' Hin. simpl. rewrite length_alter. auto. Qed.

Lemma run_wf es : forall c names, pool_wf c names -> (size (names ∪ asked_names es) <= 10)%nat ->
  pool_wf (foldl client_event c es) (names ∪ asked_names es).
Proof.
  induction es as [|[net b|a g] es IH]; intros c names Hw Hs; cbn [foldl].
  - unfold asked_names in *. simpl. by rewrite union_empty_r_L.
  - change (asked_names (CE_Get net b :: es)) with ({[b]} ∪ asked_names es) in *. rewrite union_assoc_L in Hs |- *.
    cbn [client_event]. destruct (GetIOFactory net c b) as [c' r] eqn:Hg. apply IH; [|done].
    assert (size (names ∪ {[b]}) <= 10)%nat as Hs'.
    { pose proof (subseteq_size (names ∪ {[b]}) (names ∪ {[b]} ∪ asked_names es) ltac:(set_solver)). lia. }
    by destruct (GetIOFactory_ok net c names b c' r Hw Hs' Hg).
  - change (asked_names (CE_Jobs a g :: es)) with (asked_names es) in *. by apply IH; [apply jobs_event_wf|].
Qed.

Lemma run_keeps es : forall c names b a f, pool_wf c names -> (size (names ∪ asked_names es) <= 10)%nat ->
  (b, a) ∈ entries (factoryPool c) -> factories c !! a = Some f -> IsConnected f = true ->
  (b, a) ∈ entries (factoryPool (foldl client_event c es)) /\
  factories (foldl client_event c es) !! a = Some (with_jobs f (jobs_after es a (io_jobs f))).
Proof.
  induction es as [|[net b'|a' g] es IH]; intros c names b a f Hw Hs Hin Hf Hcon; cbn [foldl].
  - split; [done|]. rewrite Hf. by destruct f.
  - change (asked_names (CE_Get net b' :: es)) with ({[b']} ∪ asked_names es) in Hs. rewrite union_assoc_L in Hs.
    cbn [client_event]. destruct (GetIOFactory net c b') as [c' r] eqn:Hg. cbn [fst].
    assert (size (names ∪ {[b']}) <= 10)%nat as Hs'.
    { pose proof (subseteq_size (names ∪ {[b']}) (names ∪ {[b']} ∪ asked_names es) ltac:(set_solver)). lia. }
    destruct (GetIOFactory_ok net c names b' c' r Hw Hs' Hg) as (Hw' & [Hk1 Hk2] & Hsame & _).
    apply (IH c' _ b a f Hw' Hs); [|apply Hk1; [done|by left]|done].
    destruct (decide (b = b')) as [<-|Hne]; [by apply (Hsame a f)|by apply Hk2].
  - change (asked_names (CE_Jobs a' g :: es)) with (asked_names es) in Hs.
    pose proof (jobs_event_wf c names a' g Hw) as Hw'. cbn [client_event] in *. change (jobs_after (CE_Jobs a' g :: es) a (io_jobs f))
      with (jobs_after es a (if decide (a' = a) then g (io_jobs f) else io_jobs f)).
    destruct (decide (a' = a)) as [->|Hne].
    + destruct (IH _ names b a (with_jobs f (g (io_jobs f))) Hw' Hs Hin) as [H1 H2]; [|done|by split].
      cbn [factories]. by rewrite list_lookup_alter_eq, Hf.
    + apply (IH _ names b a f Hw' Hs Hin); [|done]. cbn [factories]. by rewrite list_lookup_alter_ne.
Qed.

End poolOk.

(** C26: the uploads of a bucket are found again as long as a client uses at most
    ten buckets: whatever is asked for in between, the bucket's factory is the
    same, and its uploads are what those who hold it made of them. *)
Theorem uploads_kept {P : Type} `{HL : !Lru P string nat, HLo : !LruOk P string nat} (config : ClientConfig) es1 net b c1 a f es2 net' :
  GetIOFactory net (foldl client_event (New (P := P) config) es1) b = (c1, Ok a) ->
  factories c1 !! a = Some f -> IsConnected f = true ->
  (size (asked_names es1 ∪ {[b]} ∪ asked_names es2) <= DefaultFactoryPoolSize)%nat ->
  exists c3, GetIOFactory net' (foldl client_event c1 es2) b = (c3, Ok a) /\
    factories c3 !! a = Some (with_jobs f (jobs_after es2 a (io_jobs f))).
Proof.
  intros Hg Hf Hcon Hs. unfold DefaultFactoryPoolSize in Hs. pose proof (subseteq_size (asked_names es1 ∪ {[b]}) (asked_names es1 ∪ {[b]} ∪ asked_names es2) ltac:(set_solver)) as Hs1.
  pose proof (subseteq_size (∅ ∪ asked_names es1) (asked_names es1 ∪ {[b]} ∪ asked_names es2) ltac:(set_solver)) as Hs0.
  pose proof (run_wf es1 _ ∅ (New_wf config) ltac:(lia)) as Hw. rewrite union_empty_l_L in Hw.
  destruct (GetIOFactory_ok net _ _ b c1 (Ok a) Hw ltac:(lia) Hg) as (Hw1 & _ & _ & Hok). destruct (Hok a eq_refl) as [Hin _].
  destruct (run_keeps es2 c1 _ b a f Hw1 Hs Hin Hf Hcon) as [Hin2 Hf2]. pose proof (run_wf es2 c1 _ Hw1 Hs) as Hw2.
  destruct (GetIOFactory net' (foldl client_event c1 es2) b) as [c3 r] eqn:Hg3.
  assert (size (asked_names es1 ∪ {[b]} ∪ asked_names es2 ∪ {[b]}) <= 10)%nat as Hs3.
  { replace (asked_names es1 ∪ {[b]} ∪ asked_names es2 ∪ {[b]}) with (asked_names es1 ∪ {[b]} ∪ asked_names es2) by set_solver. done. }
  destruct (GetIOFactory_ok net' _ _ b c3 r Hw2 Hs3 Hg3) as (_ & _ & Hsame & _).
  destruct (Hsame a _ Hin2 Hf2 Hcon) as (-> & Hfs & _). exists c3. split; [done|]. by rewrite Hfs.
Qed.

(** *** An eleventh bucket *)

Lemma abort_all_empty jobs jobs' : AbortAllMultipartUploadJob jobs = (jobs', Ok tt) -> jobs' = ∅.
Proof.
  unfold AbortAllMultipartUploadJob. set (F := fun acc '(id, w) => _).
  assert (forall l (j j' : Jobs) r, is_Ok r = false -> foldl F (j, r) l = (j', Ok tt) -> False) as Hbad.
  { induction l as [|[id w] l IH]; intros j j' r Hr; cbn [foldl]; [by intros [= -> ->]|]. by destruct r; try done; apply IH. }
  assert (forall l (j j' : Jobs), foldl F (j, Ok tt) l = (j', Ok tt) -> j' = foldl (fun j p => delete p.1 j) j l) as Hfold.
  { induction l as [|[id w] l IH]; intros j j'; cbn [foldl]; [by intros [= ->]|]. cbn [F st_bind fst].
    destruct (Abort w).2; intros E; solve [by apply IH in E|exfalso; eapply Hbad; [|exact E]; done]. }
  intros ->%Hfold. unfold Jobs in *. apply (map_eq (M := gmap string)). intros k. rewrite (lookup_empty (M := gmap string)).
  destruct (foldl (fun j p => delete p.1 j) jobs (map_to_list jobs) !! k) as [w|] eqn:Hk; [exfalso|done].
  assert (forall (l : list (string * EcosWriter)) (j : gmap string EcosWriter), foldl (fun j p => delete p.1 j) j l !! k = Some w -> j !! k = Some w /\ k ∉ l.*1) as Hdel.
  { induction l as [|[id v] l IH]; intros j Hj; cbn [foldl fst] in *; [split; [done|apply not_elem_of_nil]|].
    destruct (IH _ Hj) as [Hd Hn]. apply lookup_delete_Some in Hd as [Hne Hj']. split; [done|]. simpl. rewrite not_elem_of_cons. split; [congruence|done]. }
  destruct (Hdel _ _ Hk) as [Hj Hn]. apply Hn. apply elem_of_map_to_list in Hj. by apply (list_elem_of_fmap_2 fst) in Hj.
Qed.

(** an eleventh bucket ends uploads. When ten buckets are cached, asking for
    the factory of another one gives up every multipart upload of the bucket that
    was used least recently, in the factory its users still hold. *)
Theorem eleventh_bucket_aborts {P : Type} `{HL : !Lru P string nat, HLo : !LruOk P string nat} net (c : Client P) b c' a' rest b0 a f :
  limit (factoryPool c) = DefaultFactoryPoolSize -> entries (factoryPool c) = rest ++ [(b0, a)] ->
  length rest = 9%nat -> b ∉ (entries (factoryPool c)).*1 -> factories c !! a = Some f ->
  GetIOFactory net c b = (c', Ok a') -> factories c' !! a = Some (with_jobs f ∅).
Proof.
  intros Hl He Hn Hb Hf. unfold GetIOFactory. destruct (lru_Get (factoryPool c) b) as [pool o] eqn:Hget.
  destruct (lru_Get_ok _ _ _ _ Hget) as (Hl' & Ho & He'). rewrite (proj2 (find_key_None _ _) Hb) in Ho. subst o.
  unfold make_factory. cbn [c_config factoryPool factories c_InfoAgent].
  destruct (NewEcosIOFactory _ _ _ _) as [f'|e| |]; try done. destruct (lru_Add pool b _) as [pool' out] eqn:Ha.
  destruct (lru_Add_ok _ _ _ _ _ Ha) as [_ Heo]. rewrite He', Hl', Hl, He in Heo. rewrite He in Hb. rewrite decide_False in Heo by done.
  injection Heo as _ Hout. unfold DefaultFactoryPoolSize in Hout.
  assert (out = [(b0, a)]) as ->.
  { rewrite Hout. change ((b, length (factories c)) :: rest ++ [(b0, a)]) with (((b, length (factories c)) :: rest) ++ [(b0, a)]).
    rewrite drop_app_length'; [done|]. simpl. lia. }
  unfold evict. cbn [foldl st_bind snd]. rewrite lookup_app_l by (by apply lookup_lt_Some in Hf). rewrite Hf.
  destruct (AbortAllMultipartUploadJob (io_jobs f)) as [jobs [[]|e| |]] eqn:Hab; cbn [mbind res_bind]; try done.
  intros [= <- _]. cbn [factories]. rewrite list_lookup_insert_eq; [by rewrite (abort_all_empty _ _ Hab)|].
  rewrite length_app. apply lookup_lt_Some in Hf. lia.
Qed.

(** *** A run *)

(** The directory has a bucket under every name. *)
Definition bucket_net : Network :=
  mkNetwork (fun _ _ id => Ok (BI_BucketInfo (mkBucketInfo "root" id "" "" 0 (Some (mkBucketConfig 5 4 false false false HT_OFF HT_OFF)))))
            (fun _ _ => Err (ENew "no cloud")) (fun _ => Ok None).

Definition named (i : Z) : string := "bucket-" +:+ FormatInt i.

Definition pool_start : Client (ListLru string nat) := New DefaultConfig.

(** An upload is begun in the first bucket. *)
Definition upload_begun : Client (ListLru string nat) := client_event (GetIOFactory bucket_net pool_start (named 1)).1
  (CE_Jobs 0 (fun jobs => (CreateMultipartUploadJob "up" (mkPool [] 4 0 0 4) 7 jobs "a/b").1)).

Definition first_factory (c : Client (ListLru string nat)) : IOFactory :=
  default (mkIOFactory DefaultConfig (c_InfoAgent c) None None ∅) (factories c !! 0%nat).

Definition asked_ten : Client (ListLru string nat) := foldl client_event upload_begun (CE_Get bucket_net ∘ named <$> seqZ 2 9).

Lemma uploads_kept_witness :
  exists c3, GetIOFactory bucket_net (foldl client_event (GetIOFactory bucket_net pool_start (named 1)).1
      (CE_Jobs 0 (fun jobs => (CreateMultipartUploadJob "up" (mkPool [] 4 0 0 4) 7 jobs "a/b").1) :: (CE_Get bucket_net ∘ named <$> seqZ 2 9))) (named 1) = (c3, Ok 0%nat) /\
    ListMultipartUploadJob (io_jobs (first_factory c3)) = [("a/b", "up")].
Proof.
  destruct (uploads_kept DefaultConfig [] bucket_net (named 1) (GetIOFactory bucket_net pool_start (named 1)).1 0
    (first_factory (GetIOFactory bucket_net pool_start (named 1)).1)
    (CE_Jobs 0 (fun jobs => (CreateMultipartUploadJob "up" (mkPool [] 4 0 0 4) 7 jobs "a/b").1) :: (CE_Get bucket_net ∘ named <$> seqZ 2 9)) bucket_net)
    as (c3 & E & Hf); [vm_compute; reflexivity|vm_compute; reflexivity|vm_compute; reflexivity|apply Nat.leb_le; vm_compute; reflexivity|].
  exists c3. split; [exact E|]. unfold first_factory. rewrite Hf. vm_compute. reflexivity.
Defined.

Lemma eleventh_bucket_aborts_witness :
  ListMultipartUploadJob (io_jobs (first_factory asked_ten)) = [("a/b", "up")] /\
  factories (GetIOFactory bucket_net asked_ten (named 11)).1 !! 0%nat = Some (with_jobs (first_factory asked_ten) ∅).
Proof.
  split; [vm_compute; reflexivity|].
  apply (eleventh_bucket_aborts bucket_net asked_ten (named 11) _ 10 ((fun i => (named i, Z.to_nat (i - 1))) <$> rev (seqZ 2 9)) (named 1) 0);
    [vm_compute; reflexivity|vm_compute; reflexivity|vm_compute; reflexivity| |vm_compute; reflexivity|vm_compute; reflexivity].
  apply (bool_decide_unpack (named 11 ∉ (entries (factoryPool asked_ten)).*1)). vm_compute. exact I.
Defined.
