(* ===== verification/Operators.v ===== *)
(** * The operators of a client: [src/client/operator.go], [src/client/cloud_operator.go]

    An operator stands for a cluster, a volume, a bucket or an object, at the edge or
    in the cloud; all offer the same methods. What a kind does on a call is one
    definition; methods that are not implemented, or not meant to be used, panic. *)

From S2P Require Import Prelude GoStd Errno Infos InfoStorage Object Pipeline GaiaMsg Block MetaStorage Alaya Monitor Moon InfoAgent Client.

(** ** Printing *)

(** What is printed: protobuf messages and plain structs. *)
Inductive Printed :=
  | Pr_Bucket (b : option BucketInfo)
  | Pr_Object (m : ObjectMeta)
  | Pr_Report (r : ClusterReport)
  | Pr_Pipelines (l : list Pipeline)
  | Pr_Cluster (term leader metaPGNum metaPGSize blockPGNum blockPGSize : Z).

(** The libraries that print: messages, other structures, and indentation. *)
Class Printing := { pb_marshal : Printed -> res string; json_marshal : Printed -> res string; Indent : string -> res string }.

(** An error comes with a text. *)
Definition indented `{Printing} (jsonData : res string) : string * option error :=
  match jsonData with
  | Ok s => match Indent s with
            | Ok p => (p, None)
            | Err e => ("indent data error", Some e)
            | _ => ("indent data error", Some (EExt ""))
            end
  | Err e => ("marshal data error", Some e)
  | _ => ("marshal data error", Some (EExt ""))
  end.

Definition protoToJson `{Printing} (pb : Printed) : string * option error := indented (pb_marshal pb).

Definition interfaceToJson `{Printing} (data : Printed) : string * option error := indented (json_marshal data).

Definition json_res (x : string * option error) : res string := match x with (s, None) => Ok s | (_, Some e) => Err e end.

(** ** Operators

    The interfaces [Operator] and [VolumeOperator]: the kinds, the calls, the replies. *)

Inductive Operator :=
  | ClusterOperator
  | EdgeVolumeOperator (volumeID : string)
  | BucketOperator (bucketInfo : option BucketInfo)
  | ObjectOperator (meta : ObjectMeta)
  | CloudVolumeOperator (volumeID : string)
  | CloudBucketOperator (bucketName : string)
  | CloudObjectOperator (meta : ObjectMeta).

Inductive OpCall :=
  | Op_Get (key : string)
  | Op_List (prefix : string)
  | Op_Remove (key : string)
  | Op_State
  | Op_Info
  | Op_CreateBucket (b : BucketInfo)
  | Op_DeleteBucket (b : BucketInfo).

Inductive Infos := I_Report (r : ClusterReport) | I_Bucket (b : option BucketInfo) | I_Object (m : ObjectMeta) | I_Text (s : string).

Inductive OpReply := OR_Operator (o : Operator) | OR_Operators (l : list Operator) | OR_Text (s : string) | OR_Infos (i : Infos) | OR_Done.

Section operators.
Context `{HR : HashRing, CR : Crush, PR : Printing}.
Context (conf : ConnectType) (GetReport : NodeInfo -> res ClusterReport).

Definition GetVolumeOperator : Operator :=
  match conf with ConnectCloud => CloudVolumeOperator GetUserID | ConnectEdge => EdgeVolumeOperator GetUserID end.

Definition GetClusterOperator : Operator := ClusterOperator.

(** The leader of the current view, which may be none. *)
Definition leader_of (cl : Cluster) (a : InfoAgent) : InfoAgent * res (ClusterInfo * NodeInfo) :=
  do a, c <- GetCurClusterInfo (cl_net cl) a;
  do a, leader <- pure a (or_panic (LeaderInfo c));
  (a, match cl_connect cl leader with Some e => Err e | None => Ok (c, leader) end).

Definition by_node_le (x y : NodeStatusReport) : Prop := nr_NodeId x <= nr_NodeId y.

#[local] Instance by_node_le_dec x y : Decision (by_node_le x y).
Proof. unfold by_node_le. apply _. Defined.

Definition sorted_report (r : ClusterReport) : ClusterReport :=
  mkClusterReport (cr_State r) (cr_ClusterInfo r) (merge_sort by_node_le (cr_Nodes r)) (cr_Pipelines r).

(** Errors of printing are dropped, and the text that came with them is shown. *)
Definition Cluster_State (cl : Cluster) (a : InfoAgent) : InfoAgent * res string :=
  do a, cn <- leader_of cl a;
  do a, report <- pure a (GetReport cn.2);
  let state := (protoToJson (Pr_Report (sorted_report report))).1 in
  do a, cp <- pure a (NewClusterPipelines cn.1);
  let c := cn.1 in
  let pipelines := (interfaceToJson (Pr_Pipelines (MetaPipelines cp))).1 in
  let base := (interfaceToJson (Pr_Cluster (Term c) (RaftId cn.2) (MetaPgNum c) (MetaPgSize c) (BlockPgNum c) (BlockPgSize c))).1 in
  let nl := String "010" "" in
  (a, Ok (base +:+ nl +:+ pipelines +:+ nl +:+ state)).

Definition Cluster_Info (cl : Cluster) (a : InfoAgent) : InfoAgent * res Infos :=
  do a, cn <- leader_of cl a;
  do a, report <- pure a (GetReport cn.2);
  (a, Ok (I_Report report)).

(** Calls on a bucket that is not there dereference nil. *)
Definition on_bucket {A} (b : option BucketInfo) (a : InfoAgent) (k : BucketInfo -> InfoAgent * res A) : InfoAgent * res A :=
  match b with Some b => k b | None => (a, Panic) end.

(** [ClusterOperator]. *)
Definition ClusterOperator_call (cl : Cluster) (c : OpCall) (a : InfoAgent) : InfoAgent * res OpReply :=
  match c with
  | Op_State => do a, s <- Cluster_State cl a; (a, Ok (OR_Text s))
  | Op_Info => do a, i <- Cluster_Info cl a; (a, Ok (OR_Infos i))
  | _ => (a, Panic)
  end.

(** [EdgeVolumeOperator]. *)
Definition EdgeVolumeOperator_call (cl : Cluster) (volumeID : string) (c : OpCall) (a : InfoAgent) : InfoAgent * res OpReply :=
  match c with
  | Op_Get key => do a, b <- Volume_Get cl volumeID a key; (a, Ok (OR_Operator (BucketOperator b)))
  | Op_List prefix => do a, l <- Volume_List cl volumeID a prefix; (a, Ok (OR_Operators (BucketOperator <$> l)))
  | Op_Remove key => do a, _ <- Volume_Remove cl volumeID a key; (a, Ok OR_Done)
  | Op_CreateBucket b => do a, _ <- CreateBucket cl a b; (a, Ok OR_Done)
  | Op_DeleteBucket b => do a, _ <- DeleteBucket cl a b; (a, Ok OR_Done)
  | Op_State | Op_Info => (a, Panic)
  end.

(** The objects of a listing, as operators of the cloud whatever the connection. *)
Definition object_operators (cl : Cluster) (attempts : list Cluster) (bucketName prefix : string) (a : InfoAgent) : InfoAgent * res OpReply :=
  do a, l <- ListObjects conf cl attempts a bucketName prefix; (a, Ok (OR_Operators (CloudObjectOperator <$> l))).

(** [BucketOperator]: what it shows of a bucket is what it was made with. *)
Definition BucketOperator_call (cl : Cluster) (attempts : list Cluster) (b : option BucketInfo) (c : OpCall) (a : InfoAgent)
    : InfoAgent * res OpReply :=
  match c with
  | Op_Get key => on_bucket b a (fun b => do a, m <- Bucket_Get attempts b a key; (a, Ok (OR_Operator (ObjectOperator m))))
  | Op_List prefix => on_bucket b a (fun b => object_operators cl attempts (BucketName b) prefix a)
  | Op_Remove key => on_bucket b a (fun b => do a, _ <- Bucket_Remove attempts b a key; (a, Ok OR_Done))
  | Op_State => (a, s ← json_res (protoToJson (Pr_Bucket b)); Ok (OR_Text s))
  | Op_Info => (a, Ok (OR_Infos (I_Bucket b)))
  | _ => (a, Panic)
  end.

(** [ObjectOperator]. *)
Definition ObjectOperator_call (m : ObjectMeta) (c : OpCall) (a : InfoAgent) : InfoAgent * res OpReply :=
  match c with
  | Op_State => (a, s ← json_res (protoToJson (Pr_Object m)); Ok (OR_Text s))
  | Op_Info => (a, Ok (OR_Infos (I_Object m)))
  | _ => (a, Panic)
  end.

(** [CloudVolumeOperator]: a bucket is taken to exist. *)
Definition CloudVolumeOperator_call (volumeID : string) (c : OpCall) (a : InfoAgent) : InfoAgent * res OpReply :=
  match c with
  | Op_Get key => (a, Ok (OR_Operator (CloudBucketOperator key)))
  | _ => (a, Panic)
  end.

(** [CloudBucketOperator]. *)
Definition CloudBucketOperator_call (cl : Cluster) (attempts : list Cluster) (bucketName : string) (c : OpCall) (a : InfoAgent)
    : InfoAgent * res OpReply :=
  match c with
  | Op_List prefix => object_operators cl attempts bucketName prefix a
  | _ => (a, Panic)
  end.

(** [CloudObjectOperator]: its information is a text. *)
Definition CloudObjectOperator_call (m : ObjectMeta) (c : OpCall) (a : InfoAgent) : InfoAgent * res OpReply :=
  match c with
  | Op_State => (a, s ← json_res (protoToJson (Pr_Object m)); Ok (OR_Text s))
  | Op_Info => (a, s ← json_res (protoToJson (Pr_Object m)); Ok (OR_Infos (I_Text s)))
  | _ => (a, Panic)
  end.

Definition op_call (cl : Cluster) (attempts : list Cluster) (o : Operator) (c : OpCall) (a : InfoAgent) : InfoAgent * res OpReply :=
  match o with
  | ClusterOperator => ClusterOperator_call cl c a
  | EdgeVolumeOperator v => EdgeVolumeOperator_call cl v c a
  | BucketOperator b => BucketOperator_call cl attempts b c a
  | ObjectOperator m => ObjectOperator_call m c a
  | CloudVolumeOperator v => CloudVolumeOperator_call v c a
  | CloudBucketOperator name => CloudBucketOperator_call cl attempts name c a
  | CloudObjectOperator m => CloudObjectOperator_call m c a
  end.

End operators.
