(* ===== verification/Rainbow.v ===== *)
(** * The cloud end of the bridge: [src/cloud/rainbow/]

    The edge nodes keep a stream open to the cloud; either side sends requests over
    it and a router hands every response to whoever waits for it. [Router] is
    [router.go], [Rainbow] is [rainbow.go], the metadata server is [cloud_alaya.go]
    and the directory [cloud_moon.go]. A channel of the router holds one response;
    sending into a full one waits ([Stuck]). What a handler sends is its result. *)

From S2P Require Import Prelude GoStd Errno Infos InfoStorage Object GaiaMsg MetaStorage Alaya.

(** ** Messages *)

Inductive Method := M_LIST | M_GET | M_PUT | M_DELETE.

Inductive Resource := R_META | R_BLOCK | R_INFO.

#[global] Instance Method_eq_dec : EqDecision Method.
Proof. solve_decision. Defined.

#[global] Instance Resource_eq_dec : EqDecision Resource.
Proof. solve_decision. Defined.

Record CloudRequest := mkCloudRequest {
  RequestSeq : Z;
  q_Method : Method;
  q_Resource : Resource;
  RequestId : string;
  q_InfoType : InfoType;
  q_Info : option BaseInfo;
  q_Meta : option ObjectMeta;
  q_Term : Z
}.

(** [None] is a nil result; the code of a result is left out. *)
Record CloudResponse := mkCloudResponse {
  ResponseTo : Z;
  q_Result : option (ResultStatus * string);
  Metas : list ObjectMeta;
  q_Infos : list BaseInfo;
  q_Chunk : bytes;
  IsLast : bool
}.

Inductive StreamContent := Content_Request (q : CloudRequest) | Content_Response (x : CloudResponse).

Definition with_seq (q : CloudRequest) (seq : Z) : CloudRequest :=
  mkCloudRequest seq (q_Method q) (q_Resource q) (RequestId q) (q_InfoType q) (q_Info q) (q_Meta q) (q_Term q).

(** ** The router *)

Abbreviation Router := (gmap Z (list CloudResponse)).

Definition Router_Register (r : Router) (id : Z) : res Router :=
  match r !! id with None => Ok (<[id := []]> r) | Some _ => Panic end.

(** Closing the nil channel of an identifier that is not there panics. *)
Definition Router_Unregister (r : Router) (id : Z) : res Router :=
  match r !! id with None => Panic | Some _ => Ok (delete id r) end.

(** No such identifier is logged. *)
Definition Router_Send (r : Router) (id : Z) (x : CloudResponse) : res Router :=
  match r !! id with
  | None => Ok r
  | Some [] => Ok (<[id := [x]]> r)
  | Some _ => Stuck
  end.

(** A response comes in over a stream. *)
Definition deliver (r : Router) (x : CloudResponse) : res Router :=
  r ← Router_Send r (ResponseTo x) x;
  if IsLast x then Router_Unregister r (ResponseTo x) else Ok r.

(** ** State *)

Section rainbow.
Context {S : Type} `{MetaStorage S}.

Record Rainbow := mkRainbow {
  streams : gset Z;
  rb_clusterInfo : option ClusterInfo;
  rb_router : Router;
  rb_requestSeq : Z;
  ca_storage : S;
  syncEdgeChan : list ObjectMeta
}.

Definition NewRainbow (s : S) : Rainbow := mkRainbow ∅ None ∅ 10000 s [].

Definition set_cluster (r : Rainbow) (c : option ClusterInfo) : Rainbow :=
  mkRainbow (streams r) c (rb_router r) (rb_requestSeq r) (ca_storage r) (syncEdgeChan r).
Definition set_router (r : Rainbow) (m : Router) : Rainbow :=
  mkRainbow (streams r) (rb_clusterInfo r) m (rb_requestSeq r) (ca_storage r) (syncEdgeChan r).
Definition set_store (r : Rainbow) (s : S) : Rainbow :=
  mkRainbow (streams r) (rb_clusterInfo r) (rb_router r) (rb_requestSeq r) s (syncEdgeChan r).

Definition set_sync (r : Rainbow) (l : list ObjectMeta) : Rainbow :=
  mkRainbow (streams r) (rb_clusterInfo r) (rb_router r) (rb_requestSeq r) (ca_storage r) l.

(** ** Answering the edge *)

Definition sendError (q : CloudRequest) (e : error) : CloudResponse :=
  mkCloudResponse (RequestSeq q) (Some (Result_FAIL, Error e)) [] [] [] true.

(** [CloudAlaya.doDelete]. *)
Definition doDelete (r : Rainbow) (objID : string) : Rainbow * res unit :=
  let '(s, x) := MetaStorage_Delete (ca_storage r) objID in (set_store r s, x).

(** The case of the switch does not leave the function. *)
Definition processMetaRequest (r : Rainbow) (q : CloudRequest) : Rainbow * res (list CloudResponse) :=
  let tail := [sendError q (ENew "not support method")] in
  if decide (q_Method q = M_DELETE) then
    let done := mkCloudResponse (RequestSeq q) None [] [] [] true in
    match doDelete r (RequestId q) with
    | (r, Ok _) => (r, Ok (done :: tail))
    | (r, Err e) => (r, Ok (sendError q e :: done :: tail))
    | (r, Panic) => (r, Panic)
    | (r, Stuck) => (r, Stuck)
    end
  else (r, Ok tail).

(** One turn of [eventLoop]. *)
Definition event (r : Rainbow) (content : StreamContent) : Rainbow * res (list CloudResponse) :=
  match content with
  | Content_Response x => do r, m <- pure r (deliver (rb_router r) x); (set_router r m, Ok [])
  | Content_Request q =>
      let other :=
        match q_Resource q with
        | R_META => processMetaRequest r q
        | _ => (r, Ok [sendError q (ENew "not support resource")])
        end in
      if decide (q_Method q = M_PUT /\ q_Resource q = R_INFO) then
        do r, info <- pure r (or_panic (q_Info q));
        if decide (BaseInfo_GetInfoType info = IT_CLUSTER_INFO) then
          do r, c <- pure r (or_panic (GetClusterInfo info));
          match rb_clusterInfo r with
          | None => (set_cluster r (Some c), Ok [])
          | Some old => if decide (Term old <= Term c) then (set_cluster r (Some c), Ok []) else (r, Ok [])
          end
        else other
      else other
  end.

(** [GetStream] up to its event loop: the first request names the node. *)
Definition GetStream (r : Rainbow) (q : CloudRequest) : Rainbow * res CloudResponse :=
  do r, info <- pure r (or_panic (q_Info q));
  do r, n <- pure r (or_panic (GetNodeInfo info));
  (mkRainbow ({[RaftId n]} ∪ streams r) (rb_clusterInfo r) (rb_router r) (rb_requestSeq r) (ca_storage r) (syncEdgeChan r),
   Ok (mkCloudResponse (RequestSeq q) None [] [] [] true)).

(** ** Asking the edge *)

(** The request as it is sent; its sequence number is where the responses arrive. *)
Definition SendRequestToNode (r : Rainbow) (nodeId : Z) (q : CloudRequest) : Rainbow * res CloudRequest :=
  if decide (nodeId ∈ streams r) then
    let q := with_seq q (rb_requestSeq r) in
    let r := mkRainbow (streams r) (rb_clusterInfo r) (rb_router r) (u64 (rb_requestSeq r + 1)) (ca_storage r) (syncEdgeChan r) in
    do r, m <- pure r (Router_Register (rb_router r) (RequestSeq q));
    (set_router r m, Ok q)
  else (r, Err (ENew "stream not found")).

(** Before the edge has reported a cluster there is nothing to look into. *)
Definition SendRequestToEdgeLeader (r : Rainbow) (q : CloudRequest) : Rainbow * res CloudRequest :=
  do r, c <- pure r (or_panic (rb_clusterInfo r));
  match LeaderInfo c with
  | None => (r, Err (ENew "cluster leader not found"))
  | Some l => SendRequestToNode r (RaftId l) q
  end.

(** The requests the cloud makes. *)
Definition info_request (infoType : InfoType) (id : string) : CloudRequest :=
  mkCloudRequest 0 M_GET R_INFO id infoType None None 0.

Definition meta_request (objID : string) : CloudRequest := mkCloudRequest 0 M_GET R_META objID IT_NODE_INFO None None 0.

Definition list_request (prefix : string) : CloudRequest := mkCloudRequest 0 M_LIST R_META prefix IT_NODE_INFO None None 0.

Definition sync_request (m : ObjectMeta) : CloudRequest := mkCloudRequest 0 M_PUT R_META "" IT_NODE_INFO None (Some m) 0.

(** [CloudMoon.GetInfoDirect] on the first response; no result is dereferenced. *)
Definition info_answer (x : CloudResponse) : res BaseInfo :=
  match q_Infos x with
  | [] => match q_Result x with Some (_, msg) => Err (ENew msg) | None => Panic end
  | i :: _ => Ok i
  end.

(** [CloudMoon.GetInfoDirect]: [ask] is the first response to a request; [GetInfo] hands
    on what it gives. *)
Definition cloud_GetInfoDirect (r : Rainbow) (infoType : InfoType) (id : string) (ask : CloudRequest -> res CloudResponse)
    : Rainbow * res BaseInfo :=
  do r, q <- SendRequestToEdgeLeader r (info_request infoType id);
  do r, x <- pure r (ask q);
  (r, info_answer x).

Definition cloud_GetInfo (r : Rainbow) (infoType : InfoType) (id : string) (ask : CloudRequest -> res CloudResponse)
    : Rainbow * res BaseInfo :=
  do r, info <- cloud_GetInfoDirect r infoType id ask;
  (r, Ok info).

(** ** The cloud's metadata server *)

Definition unimplemented (method : string) : error :=
  EExt ("rpc error: code = Unimplemented desc = method " +:+ method +:+ " not implemented").

Definition cloud_DeleteMeta (r : Rainbow) : Rainbow * res unit := (r, Err (unimplemented "DeleteMeta")).

Definition cloud_SendRaftMessage (r : Rainbow) : Rainbow * res unit := (r, Err (unimplemented "SendRaftMessage")).

Definition cloud_RecordObjectMeta (r : Rainbow) (m : ObjectMeta) : Rainbow * res unit :=
  let m := with_id m (CleanObjectKey (ObjId m)) in
  let '(s, x) := RecordMeta (ca_storage r) m in
  let r := set_store r s in
  do r, _ <- pure r x;
  if decide (100 <= Z.of_nat (length (syncEdgeChan r))) then (r, Stuck)
  else (set_sync r (syncEdgeChan r ++ [m]), Ok tt).

(** [GetObjectMeta]: from the cloud, or what the edge answers. The second component is
    what a goroutine then passes to [cloud_RecordObjectMeta]. *)
Definition edge_copy (m : ObjectMeta) : ObjectMeta :=
  mkObjectMeta (ObjId m) (Status m) POSITION_EDGE_CLOUD (ObjSize m) (UpdateTime m) (ObjHash m) (PgId m) (Blocks m) (OM_Term m) (MetaData m).

Definition meta_answer (x : CloudResponse) : res ObjectMeta :=
  match q_Result x with
  | None => Panic
  | Some (status, _) =>
      match status, Metas x with
      | Result_OK, m :: _ => Ok (edge_copy m)
      | _, _ => Err (EExt "meta not found")
      end
  end.

Definition cloud_GetObjectMeta (r : Rainbow) (objID : string) (ask : CloudRequest -> res CloudResponse)
    : Rainbow * res (ObjectMeta * option ObjectMeta) :=
  match GetMeta (ca_storage r) objID with
  | Err _ =>
      do r, q <- SendRequestToEdgeLeader r (meta_request objID);
      do r, x <- pure r (ask q);
      do r, m <- pure r (meta_answer x);
      (r, Ok (m, Some m))
  | x => (r, m ← x; Ok (m, None))
  end.

(** The metadata of one slot after the other. *)
Fixpoint cloud_slots (s : S) (bucketID key : string) (slots : list Z) : res (list ObjectMeta) :=
  match slots with
  | [] => Ok []
  | i :: slots' =>
      ms ← MetaStorage_List s (CleanObjectKey (Join [bucketID; FormatInt i; key]));
      rest ← cloud_slots s bucketID key slots';
      Ok (ms ++ rest)
  end.

(** Later metadata of the same identifier replaces earlier. *)
Definition merge_metas (m : gmap string ObjectMeta) (l : list ObjectMeta) : gmap string ObjectMeta :=
  foldl (fun m x => <[ObjId x := x]> m) m l.

Fixpoint merge_answers (m : gmap string ObjectMeta) (xs : list CloudResponse) : res (gmap string ObjectMeta) :=
  match xs with
  | [] => Ok m
  | x :: xs' =>
      match q_Result x with
      | None => Panic
      | Some (Result_OK, _) => let m := merge_metas m (Metas x) in if IsLast x then Ok m else merge_answers m xs'
      | Some (_, msg) => Err (ENew msg)
      end
  end.

Definition cloud_ListMeta (r : Rainbow) (prefix : string) (bucket : string -> res BaseInfo)
    (ask : CloudRequest -> res (list CloudResponse)) : Rainbow * res (list ObjectMeta) :=
  do r, p <- pure r (SplitPrefixWithoutSlotID prefix);
  let '(_, bucketID, key) := p in
  do r, info <- pure r (bucket bucketID);
  do r, b <- pure r (or_panic (GetBucketInfo info));
  do r, cfg <- pure r (or_panic (Config b));
  do r, metas <- pure r (cloud_slots (ca_storage r) bucketID key (seqZ 1 (KeySlotNum cfg)));
  do r, q <- SendRequestToEdgeLeader r (list_request prefix);
  do r, xs <- pure r (ask q);
  do r, m <- pure r (merge_answers (merge_metas ∅ metas) xs);
  (r, Ok (map_to_list m).*2).

(** One turn of [syncLoop]: the request whose first response it waits for. After a
    failure the metadata goes back and the loop waits on a nil channel, for ever. *)
Definition sync_turn (r : Rainbow) : Rainbow * res CloudRequest :=
  match syncEdgeChan r with
  | [] => (r, Stuck)
  | m :: rest =>
      match SendRequestToEdgeLeader (set_sync r rest) (sync_request m) with
      | (r, Err _) => (set_sync r (syncEdgeChan r ++ [m]), Stuck)
      | x => x
      end
  end.

End rainbow.

Arguments Rainbow S : clear implicits.

(** ** A client that asks through the cloud *)

(** [SendRequest]: the responses are passed on until their channel is closed; as
    long as it is not, it is waited for. *)
Fixpoint SendRequest (xs : list CloudResponse) : list CloudResponse * res unit :=
  match xs with
  | [] => ([], Stuck)
  | x :: xs' => if IsLast x then ([x], Ok tt) else let '(l, r) := SendRequest xs' in (x :: l, r)
  end.

Definition block_request (b : BlockInfo) : CloudRequest := mkCloudRequest 0 M_GET R_BLOCK (BlockId b) IT_NODE_INFO None None 0.

(** [EcosReader.GetBlockInEdgeByCloud] on the responses and the end of the stream. *)
Fixpoint GetBlockInEdgeByCloud (b : BlockInfo) (block : bytes) (xs : list CloudResponse) (at_end : res unit) : res bytes :=
  match xs with
  | [] => _ ← at_end; Ok block
  | x :: xs' =>
      match q_Result x with
      | None => Panic
      | Some (Result_OK, _) => GetBlockInEdgeByCloud b (block ++ q_Chunk x) xs' at_end
      | Some (_, msg) => Err (ENew ("get block " +:+ BlockId b +:+ " failed, err: " +:+ msg))
      end
  end.

(** [MetaAgent.GetObjMetaByCloud]: the connection to the cloud, and the responses to a
    request with the end of their stream. The first response is all that is read, and
    its first metadata is taken whatever its result says. *)
Definition GetObjMetaByCloud `{HashRing} (conn : option error) (ask : CloudRequest -> res (list CloudResponse * res unit))
    (b : BucketInfo) (key : string) : res ObjectMeta :=
  match conn with
  | Some e => Err e
  | None =>
      objID ← GenObjectId b key;
      x ← ask (meta_request objID);
      match x with
      | (resp :: _, _) => or_panic (head (Metas resp))
      | ([], Ok _) => Err EEOF
      | ([], Err e) => Err e
      | ([], Panic) => Panic
      | ([], Stuck) => Stuck
      end
  end.
