(* ===== verification/Outpost.v ===== *)
(** * The edge end of the bridge: [src/edge-node/outpost/outpost.go]

    An edge node that has a cloud keeps a stream open to it. [Outpost] is the state,
    [receive] one turn of [streamLoop], and the three handlers answer the requests of
    the cloud; each of them runs in a goroutine of its own. What goes out over the
    stream is the result of an operation, in order. [EdgeNet] is what the handlers
    meet: a client of the own cluster and the other nodes. *)

From S2P Require Import Prelude GoStd Errno Infos InfoStorage Object Pipeline GaiaMsg Block MetaStorage Alaya Moon Watcher InfoAgent Client Rainbow.

(** [en_client]: what [client.New] returns. [en_attempts]: what the repeated calls of
    the client meet. [en_record] and [en_block]: the metadata server and the block
    server of a node; of a stream of blocks the chunks, and the error that ends it
    unless it is EOF. *)
Record EdgeNet := mkEdgeNet {
  en_client : res InfoAgent;
  en_cluster : Cluster;
  en_attempts : list Cluster;
  en_connect : NodeInfo -> option error;
  en_record : NodeInfo -> string -> ObjectMeta -> res unit;
  en_block : NodeInfo -> string -> Z -> res (list bytes * option error)
}.

Section outpost.
Context `{HR : HashRing, CR : Crush}.
Context {S : Type} `{Storage S}.

Record Outpost := mkOutpost {
  o_watcher : Watcher S;
  o_router : Router;
  o_requestSeq : Z
}.

Definition NewOutpost (w : Watcher S) : Outpost := mkOutpost w ∅ 10000.

Definition set_o_router (o : Outpost) (m : Router) : Outpost := mkOutpost (o_watcher o) m (o_requestSeq o).

(** ** Asking the cloud *)

(** [Outpost.Send]: the request as it is sent. *)
Definition Outpost_Send (o : Outpost) (q : CloudRequest) : Outpost * res CloudRequest :=
  let q := with_seq q (o_requestSeq o) in
  let o := mkOutpost (o_watcher o) (o_router o) (u64 (o_requestSeq o + 1)) in
  do o, m <- pure o (Router_Register (o_router o) (RequestSeq q));
  (set_o_router o m, Ok q).

Definition put_info (b : BaseInfo) : CloudRequest := mkCloudRequest 0 M_PUT R_INFO "" IT_NODE_INFO (Some b) None 0.

(** What [Run] says first. *)
Definition hello (o : Outpost) : Outpost * res CloudRequest := Outpost_Send o (put_info (BI_NodeInfo (w_self (o_watcher o)))).

(** One turn of [reportLoop]: only the leader reports. *)
Definition report (o : Outpost) : Outpost * res (option CloudRequest) :=
  if IsLeader (w_moon (o_watcher o)) then
    do o, q <- Outpost_Send o (put_info (BI_ClusterInfo (w_current (o_watcher o))));
    (o, Ok (Some q))
  else (o, Ok None).

(** ** Answering the cloud *)

Definition answer_ok (q : CloudRequest) (metas : list ObjectMeta) (infos : list BaseInfo) (chunk : bytes) (last : bool) : CloudResponse :=
  mkCloudResponse (RequestSeq q) (Some (Result_OK, "")) metas infos chunk last.

(** A failure is not marked as the last response. *)
Definition returnFail (q : CloudRequest) (e : error) : CloudResponse :=
  mkCloudResponse (RequestSeq q) (Some (Result_FAIL, Error e)) [] [] [] false.

(** What [f] returns is sent, an error as a failure. *)
Definition answer_with {A} (q : CloudRequest) (r : res A) (f : A -> CloudResponse) : res CloudResponse :=
  match r with
  | Ok a => Ok (f a)
  | Err e => Ok (returnFail q e)
  | Panic => Panic
  | Stuck => Stuck
  end.

(** An error leaves a nil value, which is used. *)
Definition nil_on_error {A} (r : res A) : res A := match r with Err _ => Panic | _ => r end.

(** The case [LIST]. An identifier that cannot be split leaves no third component. *)
Definition list_objects (net : EdgeNet) (q : CloudRequest) : res CloudResponse :=
  a ← nil_on_error (en_client net);
  p ← nil_on_error (SplitPrefixWithoutSlotID (RequestId q));
  let '(_, bucketID, key) := p in
  bucketName ← or_panic (Split sep bucketID !! 2%nat);
  answer_with q (ListObjects ConnectEdge (en_cluster net) (en_attempts net) a bucketName key).2
    (fun metas => answer_ok q metas [] [] true).

(** The case [GET]. An identifier that cannot be split is the empty key of the
    bucket without a name. *)
Definition get_object_meta (net : EdgeNet) (q : CloudRequest) : res CloudResponse :=
  a ← nil_on_error (en_client net);
  let '(bucketID, key) := match SplitID (RequestId q) with Ok n => (bucketID n, Object.key n) | _ => ("", "") end in
  bucketName ← or_panic (last (Split sep bucketID));
  let '(a, r) := Volume_Get (en_cluster net) GetUserID a bucketName in
  b ← nil_on_error r;
  b ← or_panic b;
  answer_with q (Bucket_Get (en_attempts net) b a key).2 (fun meta => answer_ok q [meta] [] [] false).

(** The case [PUT]. *)
Definition put_object_meta (w : Watcher S) (net : EdgeNet) (q : CloudRequest) : res CloudResponse :=
  meta ← or_panic (q_Meta q);
  let '(bucketID, key) := match SplitID (ObjId meta) with Ok n => (bucketID n, Object.key n) | _ => ("", "") end in
  answer_with q (
    info ← GetInfoDirect (w_moon w) IT_BUCKET_INFO bucketID;
    b ← or_panic (GetBucketInfo (Information_BaseInfo info));
    pgID ← GenObjPgID b key (MetaPgNum (w_current w));
    pipes ← nil_on_error (NewClusterPipelines (w_current w));
    ids ← GetMetaPGNodeID pipes pgID;
    serverId ← or_panic (head ids);
    info ← nil_on_error (GetInfoDirect (w_moon w) IT_NODE_INFO serverId);
    n ← or_panic (GetNodeInfo (Information_BaseInfo info));
    match en_connect net n with
    | Some e => Err e
    | None => en_record net n (SetTermToContext (GetCurrentTerm w)) meta
    end) (fun _ => answer_ok q [] [] [] false).

Definition doMetaRequest (w : Watcher S) (net : EdgeNet) (q : CloudRequest) : res CloudResponse :=
  match q_Method q with
  | M_LIST => list_objects net q
  | M_GET => get_object_meta net q
  | M_PUT => put_object_meta w net q
  | M_DELETE => Ok (returnFail q (ENew "not support method"))
  end.

(** A method that is not supported is not answered. *)
Definition doInfoRequest (w : Watcher S) (q : CloudRequest) : res (option CloudResponse) :=
  match q_Method q with
  | M_GET =>
      x ← answer_with q
        (if decide (q_InfoType q = IT_CLUSTER_INFO /\ RequestId q = "0") then Ok (BI_ClusterInfo (w_current w))
         else info ← GetInfoDirect (w_moon w) (q_InfoType q) (RequestId q); Ok (Information_BaseInfo info))
        (fun b => answer_ok q [] [b] [] false);
      Ok (Some x)
  | _ => Ok None
  end.

(** The nodes of the group one after the other. A node that fails after its first
    chunk makes a failure, and the next node starts from the beginning. *)
Fixpoint relay_block (w : Watcher S) (net : EdgeNet) (q : CloudRequest) (nodeIds : list Z) : list CloudResponse * res unit :=
  match nodeIds with
  | [] => ([returnFail q (ENew "no available node")], Ok tt)
  | id :: nodeIds' =>
      match GetInfoDirect (w_moon w) IT_NODE_INFO (FormatUint id) with
      | Err _ => relay_block w net q nodeIds'
      | Panic => ([], Panic)
      | Stuck => ([], Stuck)
      | Ok info =>
          match GetNodeInfo (Information_BaseInfo info) with
          | None => ([], Panic)
          | Some n =>
              match en_connect net n with
              | Some _ => relay_block w net q nodeIds'
              | None =>
                  match en_block net n (RequestId q) (q_Term q) with
                  | Err _ => relay_block w net q nodeIds'
                  | Panic => ([], Panic)
                  | Stuck => ([], Stuck)
                  | Ok (chunks, None) =>
                      (((fun c => answer_ok q [] [] c false) <$> chunks) ++ [answer_ok q [] [] [] true], Ok tt)
                  | Ok (chunks, Some e) =>
                      let '(rest, r) := relay_block w net q nodeIds' in
                      (((fun c => answer_ok q [] [] c false) <$> chunks) ++ (if decide (chunks = []) then [] else [returnFail q e]) ++ rest, r)
                  end
              end
          end
      end
  end.

Definition doBlockRequest (w : Watcher S) (net : EdgeNet) (q : CloudRequest) : list CloudResponse * res unit :=
  match q_Method q with
  | M_GET =>
      match (c ← GetClusterInfoByTerm w (q_Term q);
             pgID ← GenBlockPgID (RequestId q) (BlockPgNum c);
             pipelines ← NewClusterPipelines c;
             GetBlockPG pipelines pgID) with
      | Ok nodeIds => relay_block w net q nodeIds
      | Err e => ([returnFail q e], Ok tt)
      | Panic => ([], Panic)
      | Stuck => ([], Stuck)
      end
  | _ => ([], Ok tt)
  end.

(** What the goroutine of a request sends, and how it ends. *)
Definition handle (w : Watcher S) (net : EdgeNet) (q : CloudRequest) : list CloudResponse * res unit :=
  match q_Resource q with
  | R_META =>
      match doMetaRequest w net q with
      | Ok x => ([x], Ok tt)
      | Err e => ([], Err e)
      | Panic => ([], Panic)
      | Stuck => ([], Stuck)
      end
  | R_BLOCK => doBlockRequest w net q
  | R_INFO =>
      match doInfoRequest w q with
      | Ok (Some x) => ([x], Ok tt)
      | Ok None => ([], Ok tt)
      | Err e => ([], Err e)
      | Panic => ([], Panic)
      | Stuck => ([], Stuck)
      end
  end.

(** One turn of [streamLoop]: the request to start a goroutine for. *)
Definition receive (o : Outpost) (content : StreamContent) : Outpost * res (option CloudRequest) :=
  match content with
  | Content_Request q => (o, Ok (Some q))
  | Content_Response x => do o, m <- pure o (deliver (o_router o) x); (set_o_router o m, Ok None)
  end.

End outpost.

Arguments Outpost S : clear implicits.
