(* ===== verification/OutpostProofs.v ===== *)
(** * Reading through the cloud, and what the cloud keeps

    Proofs about the handlers of [Outpost.v] and the metadata server of [Rainbow.v]:
    a block, metadata and information that a client gets through the cloud, the listing of a bucket
    on both sides, and the loop that brings metadata to the edge. *)

From S2P Require Import Prelude GoStd Errno Infos InfoStorage Object Pipeline GaiaMsg Block Gaia MetaStorage Alaya Moon Watcher AlayaProofs WatcherProofs InfoAgent Client ClientProofs Rainbow Outpost.

(** ** Blocks *)

Section blocks.
Context `{HR : HashRing, CR : Crush}.
Context {S : Type} `{Storage S}.
Context (w : Watcher S) (net : EdgeNet).

(** The node of the identifier can be talked to. *)
Definition reached (id : Z) (n : NodeInfo) : Prop :=
  exists info, GetInfoDirect (w_moon w) IT_NODE_INFO (FormatUint id) = Ok info /\
    GetNodeInfo (Information_BaseInfo info) = Some n /\ en_connect net n = None.

(** It sends the whole block. *)
Definition sends_block (blockID : string) (term id : Z) (chunks : list bytes) : Prop :=
  exists n, reached id n /\ en_block net n blockID term = Ok (chunks, None).

(** It cannot be asked, or breaks off before the first chunk. *)
Definition sends_nothing (blockID : string) (term id : Z) : Prop :=
  (exists e, GetInfoDirect (w_moon w) IT_NODE_INFO (FormatUint id) = Err e) \/
  exists info n, GetInfoDirect (w_moon w) IT_NODE_INFO (FormatUint id) = Ok info /\
    GetNodeInfo (Information_BaseInfo info) = Some n /\
    (en_connect net n <> None \/ (exists e, en_block net n blockID term = Err e) \/
     exists e, en_block net n blockID term = Ok ([], Some e)).

Lemma relay_skips q id ids : sends_nothing (RequestId q) (q_Term q) id -> relay_block w net q (id :: ids) = relay_block w net q ids.
Proof.
  cbn [relay_block]. intros [[e ->]|(info & n & -> & -> & [Hc|[[e He]|[e He]]])]; [done|..].
  - by destruct (en_connect net n).
  - destruct (en_connect net n); [done|]. by rewrite He.
  - destruct (en_connect net n); [done|]. rewrite He. by destruct (relay_block w net q ids).
Qed.

(** What the client makes of the responses of one request. *)
Definition client_reads (b : BlockInfo) (xs : list CloudResponse) : res bytes :=
  let '(l, at_end) := SendRequest xs in GetBlockInEdgeByCloud b [] l at_end.

Lemma client_reads_chunks b q chunks rest acc :
  let '(l, at_end) := SendRequest (((fun c => answer_ok q [] [] c false) <$> chunks) ++ rest) in
  GetBlockInEdgeByCloud b acc l at_end =
  let '(l, at_end) := SendRequest rest in GetBlockInEdgeByCloud b (acc ++ concat chunks) l at_end.
Proof.
  revert acc. induction chunks as [|c chunks IH]; intros acc.
  - cbn. rewrite app_nil_r. by destruct (SendRequest rest).
  - rewrite fmap_cons. cbn [app SendRequest IsLast answer_ok]. specialize (IH (acc ++ c)).
    destruct (SendRequest (_ ++ rest)) as [l at_end]. cbn. rewrite IH.
    destruct (SendRequest rest). cbn. by rewrite <-app_assoc.
Qed.

Lemma client_reads_fail b q e rest : exists e', client_reads b (returnFail q e :: rest) = Err e'.
Proof. unfold client_reads. cbn. destruct (SendRequest rest). cbn. by eexists. Qed.

(** Whatever the nodes do, what is read is the block as one of them sent it. *)
Lemma relay_reads b q ids block : client_reads b (relay_block w net q ids).1 = Ok block ->
  exists id chunks, id ∈ ids /\ sends_block (RequestId q) (q_Term q) id chunks /\ block = concat chunks.
Proof.
  set (found (ids : list Z) := exists id chunks, id ∈ ids /\ sends_block (RequestId q) (q_Term q) id chunks /\ block = concat chunks).
  assert (forall id ids, found ids -> found (id :: ids)) as Hskip.
  { intros id l (id' & chunks & Hin & ?). exists id', chunks. split; [by right|done]. }
  change (client_reads b (relay_block w net q ids).1 = Ok block -> found ids).
  induction ids as [|id ids IH]; cbn [relay_block]; [done|].
  destruct (GetInfoDirect _ _ _) as [info| | |] eqn:Ei; try done; [|by auto].
  destruct (GetNodeInfo _) as [n|] eqn:En; [|done]. destruct (en_connect net n) eqn:Ec; [by auto|].
  destruct (en_block net n (RequestId q) (q_Term q)) as [[chunks [e|]]| | |] eqn:Eb; try done; [| |by auto].
  - destruct (relay_block w net q ids) as [rest r]. cbn [fst] in *. destruct (decide _) as [->|Hne]; [by auto|].
    unfold client_reads. pose proof (client_reads_chunks b q chunks ([returnFail q e] ++ rest) []) as Hc.
    destruct (SendRequest _) as [l at_end]. rewrite Hc. cbn [app]. destruct (SendRequest (_ :: _)) as [l' ?] eqn:E.
    cbn in E. destruct (SendRequest rest). by injection E as <- <-.
  - cbn [fst]. unfold client_reads. pose proof (client_reads_chunks b q chunks [answer_ok q [] [] [] true] []) as Hc.
    destruct (SendRequest _) as [l at_end]. rewrite Hc. cbn. rewrite app_nil_r. intros [= <-].
    exists id, chunks. split; [by left|]. split; [|done]. exists n. split; [|done]. by exists info.
Qed.

Lemma relay_delivers b q bad id rest chunks : Forall (sends_nothing (RequestId q) (q_Term q)) bad ->
  sends_block (RequestId q) (q_Term q) id chunks ->
  client_reads b (relay_block w net q (bad ++ id :: rest)).1 = Ok (concat chunks).
Proof.
  intros Hbad (n & (info & Ei & En & Ec) & Eb). induction Hbad as [|bid bad Hb Hbad IH]; cbn [app].
  - cbn [relay_block]. rewrite Ei, En, Ec, Eb. cbn [fst]. unfold client_reads.
    pose proof (client_reads_chunks b q chunks [answer_ok q [] [] [] true] []) as Hc.
    destruct (SendRequest _). rewrite Hc. cbn. by rewrite app_nil_r.
  - by rewrite relay_skips.
Qed.

End blocks.

(** C30: a block read through the cloud is the block as a replica holds it. The cloud
    asks the leader of the edge, which asks the replicas one after the other. When the
    replicas before one fail without sending anything and that one sends the whole
    block, the client gets the block; and whatever the replicas do, breaking off
    included, a block the client gets was sent whole by one of them. *)
Theorem block_through_cloud `{HR : HashRing, CR : Crush} {S : Type} `{Storage S} (w : Watcher S) (net : EdgeNet)
    (b : BlockInfo) (seq : Z) (c : ClusterInfo) pgID cp ids :
  let q := with_seq (block_request b) seq in
  GetClusterInfoByTerm w 0 = Ok c -> GenBlockPgID (BlockId b) (BlockPgNum c) = Ok pgID ->
  NewClusterPipelines c = Ok cp -> GetBlockPG cp pgID = Ok ids ->
  (forall bad id rest chunks, ids = bad ++ id :: rest -> Forall (sends_nothing w net (BlockId b) 0) bad ->
     sends_block w net (BlockId b) 0 id chunks -> client_reads b (handle w net q).1 = Ok (concat chunks)) /\
  (forall block, client_reads b (handle w net q).1 = Ok block ->
     exists id chunks, id ∈ ids /\ sends_block w net (BlockId b) 0 id chunks /\ block = concat chunks).
Proof.
  intros q Hc Hpg Hcp Hids. assert (handle w net q = relay_block w net q ids) as Hh.
  { unfold handle, doBlockRequest, q. cbn -[GetClusterInfoByTerm GenBlockPgID NewClusterPipelines GetBlockPG relay_block].
    rewrite Hc. cbn -[GenBlockPgID NewClusterPipelines GetBlockPG relay_block]. rewrite Hpg.
    cbn -[NewClusterPipelines GetBlockPG relay_block]. rewrite Hcp. cbn -[GetBlockPG relay_block]. by rewrite Hids. }
  rewrite Hh. split.
  - intros bad id rest chunks ->. apply (relay_delivers w net b q).
  - intros block. apply (relay_reads w net b q).
Qed.

(** A cluster of the nodes 3, 2 and 1: the first replica of the block breaks off, the
    others hold it. *)
Definition relay_disk : gmap string bytes := {["/data/blk" := [x61; x62; x63]]}.

Definition relay_net : EdgeNet :=
  mkEdgeNet (Err EEOF) (client_cluster client_alayas (Err EEOF)) [] (fun _ => None) (fun _ _ _ => Err EEOF)
    (fun n id _ => if decide (RaftId n = 3) then Ok ([], Some EEOF)
                   else Ok ((GetBlockData (demo_gaia (RaftId n)) relay_disk id 0 (fun _ => None)).1, None)).

Definition relay_block_info : BlockInfo := mkBlockInfo "blk" 0 3 "" 0.

Lemma block_through_cloud_witness :
  client_reads relay_block_info (@handle length_ring first_crush _ _ (demo_watcher [3; 2; 1]) relay_net
    (with_seq (block_request relay_block_info) 10000)).1 = Ok [x61; x62; x63].
Proof.
  destruct (@block_through_cloud length_ring first_crush MemoryInfoStorage _ (demo_watcher [3; 2; 1]) relay_net relay_block_info 10000
    demo_cluster 4 (match @NewClusterPipelines first_crush demo_cluster with Ok cp => cp | _ => mkClusterPipelines 0 [] [] end) [3; 2; 1]) as [Hread _].
  - vm_compute. reflexivity.
  - vm_compute. reflexivity.
  - vm_compute. reflexivity.
  - vm_compute. reflexivity.
  - apply (Hread [3] 2 [1] [[x61; x62]; [x63]]); [reflexivity| |].
    + constructor; [|constructor]. right. eexists _, _. split; [vm_compute; reflexivity|]. split; [reflexivity|].
      right. right. eexists. vm_compute. reflexivity.
    + eexists. split; [eexists; split; [vm_compute; reflexivity|split; reflexivity]|]. vm_compute. reflexivity.
Defined.

(** ** Metadata *)

Lemma bucket_name_last b : bucket_ok b -> last (Split sep (BucketInfo_GetID b)) = Some (BucketName b).
Proof.
  intros (Hv & Hn & _). unfold BucketInfo_GetID. rewrite GenBucketID_good, Split_rooted, Split_join by (done || (repeat constructor; by apply good_nosep)).
  done.
Qed.

(** what a client that asks through the cloud for the metadata of an object makes of
    the answer: what the client of the edge node that handles the request gets. When
    that fails the answer carries no metadata, of which the client takes the first, and
    panics; and the answer is not marked as the last, so the cloud waits on. *)
Theorem metadata_through_cloud `{HR : HashRing, CR : Crush, !HashRingOk} {S : Type} `{Storage S} (w : Watcher S) (net : EdgeNet)
    seq a a' b b' key oid :
  bucket_ok b -> key_ok key = true -> GenObjectId b key = Ok oid ->
  en_client net = Ok a -> Volume_Get (en_cluster net) GetUserID a (BucketName b) = (a', Ok (Some b')) ->
  GetObjMetaByCloud None (fun q => Ok (SendRequest (handle w net (with_seq q seq)).1)) b key =
    match (Bucket_Get (en_attempts net) b' a' (CleanObjectKey key)).2 with
    | Ok m => Ok m
    | Err _ => Panic
    | Panic | Stuck => Stuck
    end /\
  (SendRequest (handle w net (with_seq (meta_request oid) seq)).1).2 = Stuck.
Proof.
  intros Hb Hk Hoid Ha Hv. destruct (SplitID_GenObjectId b key Hb Hk) as (? & ? & oid' & _ & _ & Ho & _ & Hsplit).
  rewrite Hoid in Ho. injection Ho as <-.
  assert (last (Split sep (BucketInfo_GetID b)) = Some (BucketName b)) as Hlast by (by apply bucket_name_last).
  assert (handle w net (with_seq (meta_request oid) seq) =
    match answer_with (with_seq (meta_request oid) seq) (Bucket_Get (en_attempts net) b' a' (CleanObjectKey key)).2
      (fun meta => answer_ok (with_seq (meta_request oid) seq) [meta] [] [] false) with
    | Ok x => ([x], Ok tt) | Err e => ([], Err e) | Panic => ([], Panic) | Stuck => ([], Stuck) end) as E.
  { unfold handle. cbn [q_Resource with_seq meta_request doMetaRequest q_Method]. unfold get_object_meta. rewrite Ha.
    cbn [nil_on_error mbind res_bind RequestId with_seq meta_request]. rewrite Hsplit. cbn [bucketID Object.key]. rewrite Hlast.
    cbn [or_panic mbind res_bind]. rewrite Hv. done. }
  unfold GetObjMetaByCloud. rewrite Hoid. cbn [mbind res_bind]. rewrite E.
  destruct (Bucket_Get _ _ _ _).2 as [m|e| |]; split; done.
Qed.

(** ** The directory *)

(** the directory of the edge through the cloud. What the cloud's [GetInfo] answers is
    what the directory of the edge's leader holds, and the current description where
    the identifier of a description is 0; a failure keeps its text, and if the leader dies the cloud waits. *)
Theorem directory_through_cloud `{HR : HashRing, CR : Crush} {S M : Type} `{Storage S} `{MetaStorage M} (w : Watcher S) (net : EdgeNet)
    (r r' : Rainbow M) t id q :
  SendRequestToEdgeLeader r (info_request t id) = (r', Ok q) ->
  cloud_GetInfo r t id (fun q => match head (handle w net q).1 with Some x => Ok x | None => Stuck end) = (r',
    match (if decide (t = IT_CLUSTER_INFO /\ id = "0") then Ok (BI_ClusterInfo (w_current w)) else GetInfo (w_moon w) t id) with
    | Ok b => Ok b
    | Err e => Err (ENew (Error e))
    | _ => Stuck
    end).
Proof.
  intros E. unfold cloud_GetInfo, cloud_GetInfoDirect. rewrite E. cbn [st_bind].
  assert (exists seq, q = with_seq (info_request t id) seq) as [seq ->].
  { unfold SendRequestToEdgeLeader, SendRequestToNode in E. destruct (rb_clusterInfo r) as [c|]; [|done]. cbn [or_panic pure st_bind] in E.
    destruct (LeaderInfo c) as [l|]; [|done]. destruct (decide _); [|done]. destruct (Router_Register _ _); try done.
    cbn in E. injection E as _ <-. by eexists. }
  unfold handle. cbn [q_Resource with_seq info_request]. unfold doInfoRequest, GetInfo. cbn [q_Method q_InfoType RequestId with_seq info_request].
  destruct (decide _); [done|]. by destruct (GetInfoDirect _ _ _) as [i|e| |].
Qed.

(** ** Listing *)

Lemma merge_metas_lookup l : forall m id x, merge_metas m l !! id = Some x ->
  (x ∈ l /\ ObjId x = id) \/ (m !! id = Some x /\ (id ∉ (ObjId <$> l))).
Proof.
  induction l as [|y l IH]; intros m id x; [intros Hx; right; split; [done|apply not_elem_of_nil]|].
  intros [[Hin Hid]|[Hx Hn]]%IH; [left; split; [by right|done]|].
  destruct (decide (ObjId y = id)) as [Hy|Hy].
  - rewrite Hy, lookup_insert_eq in Hx. injection Hx as <-. left. split; [by left|done].
  - rewrite lookup_insert_ne in Hx by done. right. split; [done|]. rewrite fmap_cons, not_elem_of_cons. done.
Qed.

Lemma merge_metas_dom l : forall m id, id ∈ (ObjId <$> l) \/ is_Some (m !! id) -> is_Some (merge_metas m l !! id).
Proof.
  induction l as [|y l IH]; intros m id Hid.
  - destruct Hid as [Hid|Hid]; [by apply not_elem_of_nil in Hid|done].
  - apply IH. rewrite fmap_cons in Hid. destruct (decide (id = ObjId y)) as [->|Hne]; [right; rewrite lookup_insert_eq; eauto|].
    rewrite lookup_insert_ne by done. destruct Hid as [[?|?]%elem_of_cons|?]; auto; done.
Qed.

Lemma merge_metas_key l : forall m, (forall id x, m !! id = Some x -> ObjId x = id) ->
  forall id x, merge_metas m l !! id = Some x -> ObjId x = id.
Proof. intros m Hm id x [[_ ?]|[? _]]%merge_metas_lookup; auto. Qed.

(** The values of a map whose keys are the identifiers. *)
Lemma metas_of_map (m : gmap string ObjectMeta) : (forall id x, m !! id = Some x -> ObjId x = id) ->
  NoDup (ObjId <$> (map_to_list m).*2) /\ forall x, x ∈ (map_to_list m).*2 <-> m !! ObjId x = Some x.
Proof.
  intros Hk. split.
  - rewrite <-list_fmap_compose. rewrite (list_fmap_ext _ fst); [apply NoDup_fst_map_to_list|].
    intros i [id x] Hx%list_elem_of_lookup_2%elem_of_map_to_list. cbn. by apply Hk.
  - intros x. rewrite list_elem_of_fmap. split.
    + intros ([id y] & -> & Hy%elem_of_map_to_list). cbn. by rewrite (Hk id y Hy).
    + intros Hx. exists (ObjId x, x). split; [done|]. by apply elem_of_map_to_list.
Qed.

Lemma cloud_slots_spec {M : Type} `{MetaStorageLaws M} (s : M) bucketID key slots : metas_ok s ->
  exists l, cloud_slots s bucketID key slots = Ok l /\
    forall m, m ∈ l <-> exists i id, i ∈ slots /\ metas s !! id = Some m /\
      HasPrefix id (CleanObjectKey (Join [bucketID; FormatInt i; key])) = true.
Proof.
  intros Hs. induction slots as [|i slots (rest & Er & Hrest)].
  - exists []. split; [done|]. intros m. split; [by intros ?%not_elem_of_nil|]. intros (i & id & Hi & _). by apply not_elem_of_nil in Hi.
  - destruct (List_law s (CleanObjectKey (Join [bucketID; FormatInt i; key])) Hs) as (ms & Ems & Hms).
    exists (ms ++ rest). cbn [cloud_slots]. rewrite Ems. cbn [mbind]. rewrite Er. split; [done|].
    intros m. rewrite elem_of_app, Hms, Hrest. split.
    + intros [(id & ? & ?)|(j & id & ? & ? & ?)]; [exists i, id|exists j, id]; (split; [|done]); [by left|by right].
    + intros (j & id & [->|?]%elem_of_cons & ? & ?); [left; by exists id|right; by exists j, id].
Qed.

(** a listing by the cloud is the cloud's metadata and the edge's, every object
    once, the edge's where both have it. The cloud looks into every slot of the keys
    of the bucket; what it adds is what its storage holds under the prefix. *)
Theorem cloud_listing_merges {M : Type} `{MetaStorageLaws M} (r r1 : Rainbow M) prefix bucket ask
    volumeID bucketID key info b cfg q msg edge :
  metas_ok (ca_storage r) ->
  SplitPrefixWithoutSlotID prefix = Ok (volumeID, bucketID, key) ->
  bucket bucketID = Ok info -> GetBucketInfo info = Some b -> Config b = Some cfg ->
  SendRequestToEdgeLeader r (list_request prefix) = (r1, Ok q) ->
  ask q = Ok [mkCloudResponse (RequestSeq q) (Some (Result_OK, msg)) edge [] [] true] ->
  exists l, cloud_ListMeta r prefix bucket ask = (r1, Ok l) /\ NoDup (ObjId <$> l) /\
    (forall m, m ∈ l -> m ∈ edge \/ ((ObjId m ∉ (ObjId <$> edge)) /\ exists i id, 1 <= i < 1 + KeySlotNum cfg /\
       metas (ca_storage r) !! id = Some m /\ HasPrefix id (CleanObjectKey (Join [bucketID; FormatInt i; key])) = true)) /\
    (forall m, m ∈ edge -> ObjId m ∈ (ObjId <$> l)) /\
    (forall m i id, 1 <= i < 1 + KeySlotNum cfg -> metas (ca_storage r) !! id = Some m ->
       HasPrefix id (CleanObjectKey (Join [bucketID; FormatInt i; key])) = true -> ObjId m ∈ (ObjId <$> l)).
Proof.
  intros Hs Hsplit Hinfo Hb Hcfg Hsend Hask.
  destruct (cloud_slots_spec (ca_storage r) bucketID key (seqZ 1 (KeySlotNum cfg)) Hs) as (local & El & Hlocal).
  set (m := merge_metas (merge_metas ∅ local) edge).
  assert (forall id x, merge_metas ∅ local !! id = Some x -> ObjId x = id) as Hk0.
  { apply merge_metas_key. intros id x Hx. by rewrite lookup_empty in Hx. }
  assert (forall id x, m !! id = Some x -> ObjId x = id) as Hk by by apply merge_metas_key.
  destruct (metas_of_map m Hk) as [Hnd Hin]. exists (map_to_list m).*2.
  assert (forall id, is_Some (m !! id) -> id ∈ (ObjId <$> (map_to_list m).*2)) as Hdom.
  { intros id [x Hx]. apply list_elem_of_fmap. exists x. assert (ObjId x = id) as Hid by by apply Hk. split; [done|]. apply Hin. by rewrite Hid. }
  split_and!; [|done|..].
  - unfold cloud_ListMeta, pure. rewrite Hsplit. cbn [st_bind]. rewrite Hinfo. cbn [st_bind]. rewrite Hb. cbn [st_bind or_panic].
    rewrite Hcfg. cbn [st_bind or_panic]. rewrite El. cbn [st_bind]. rewrite Hsend. cbn [st_bind]. rewrite Hask. done.
  - intros x Hx%Hin. apply merge_metas_lookup in Hx as [[? _]|[Hx Hn]]; [by left|right]. split; [done|].
    apply merge_metas_lookup in Hx as [[Hx _]|[Hx _]]; [|by rewrite lookup_empty in Hx].
    apply Hlocal in Hx as (i & id & Hi%elem_of_seqZ & ? & ?). exists i, id. split; [lia|done].
  - intros x Hx. apply Hdom, merge_metas_dom. left. by apply list_elem_of_fmap_2.
  - intros x i id Hi Hx Hp. apply Hdom, merge_metas_dom. right. apply merge_metas_dom. left.
    apply list_elem_of_fmap_2, Hlocal. exists i, id. split; [apply elem_of_seqZ; lia|done].
Qed.

Definition cloud_with (id : string) : Rainbow MemoryMetaStorage :=
  mkRainbow {[1]} (Some demo_cluster) ∅ 10000
    (mkMemoryMetaStorage {[id := with_id (demo_meta POSITION_EDGE_CLOUD) id]}) [].

Definition edge_listing (q : CloudRequest) : res (list CloudResponse) :=
  Ok [mkCloudResponse (RequestSeq q) (Some (Result_OK, "")) [with_id (demo_meta POSITION_EDGE) "root/default/2/b"] [] [] true].

Lemma cloud_listing_merges_witness :
  exists r1 l, cloud_ListMeta (cloud_with "root/default/1/a") "root/default" (fun _ => Ok (BI_BucketInfo default_bucket)) edge_listing = (r1, Ok l) /\
    "root/default/1/a" ∈ (ObjId <$> l) /\ "root/default/2/b" ∈ (ObjId <$> l).
Proof.
  destruct (cloud_listing_merges (cloud_with "root/default/1/a")
    (SendRequestToEdgeLeader (cloud_with "root/default/1/a") (list_request "root/default")).1 "root/default"
    (fun _ => Ok (BI_BucketInfo default_bucket)) edge_listing "root" "/root/default" "" (BI_BucketInfo default_bucket) default_bucket
    (mkBucketConfig 5 4194304 false false false HT_MURMUR3_128 HT_MURMUR3_128)
    (with_seq (list_request "root/default") 10000) "" [with_id (demo_meta POSITION_EDGE) "root/default/2/b"])
    as (l & El & _ & _ & Hedge & Hcloud); try (vm_compute; reflexivity); try exact I.
  eexists _, l. split; [exact El|]. split.
  - apply (Hcloud (with_id (demo_meta POSITION_EDGE_CLOUD) "root/default/1/a") 1 "root/default/1/a"); [cbn; lia|reflexivity|vm_compute; reflexivity].
  - apply (Hedge (with_id (demo_meta POSITION_EDGE) "root/default/2/b")). by left.
Defined.

(** ** Bringing metadata to the edge *)

(** The metadata recorded one after the other. *)
Definition record_all {M : Type} `{MetaStorage M} (r : Rainbow M) (ms : list ObjectMeta) : Rainbow M :=
  foldl (fun r m => (cloud_RecordObjectMeta r m).1) r ms.

Lemma record_all_queue {M : Type} `{MetaStorageTotal M} ms : forall r : Rainbow M, (length (syncEdgeChan r) + length ms <= 100)%nat ->
  length (syncEdgeChan (record_all r ms)) = (length (syncEdgeChan r) + length ms)%nat.
Proof.
  induction ms as [|m ms IH]; intros r Hl; [by rewrite Nat.add_0_r|]. cbn [record_all foldl length] in *.
  assert (length (syncEdgeChan (cloud_RecordObjectMeta r m).1) = Datatypes.S (length (syncEdgeChan r))) as E.
  { unfold cloud_RecordObjectMeta. destruct (RecordMeta_total (ca_storage r) (with_id m (CleanObjectKey (ObjId m))))
      as [s' Es]. rewrite Es. cbn. rewrite decide_False by lia. cbn. rewrite length_app. cbn. lia. }
  unfold record_all in IH. rewrite IH; rewrite E; lia.
Qed.

(** one failure stops the metadata of the cloud for good. When the leader of the
    edge has no stream, the loop that sends metadata to it puts the metadata back and
    waits on a nil channel; the queue only fills, and once it holds 100 entries every
    further upload to the cloud waits for ever. *)
Theorem sync_stops {M : Type} `{MetaStorageTotal M} (r : Rainbow M) c l m rest :
  rb_clusterInfo r = Some c -> LeaderInfo c = Some l -> RaftId l ∉ streams r ->
  syncEdgeChan r = m :: rest -> (length (syncEdgeChan r) <= 100)%nat ->
  exists r', sync_turn r = (r', Stuck) /\ syncEdgeChan r' = rest ++ [m] /\
    forall ms x, length ms = (100 - length (syncEdgeChan r'))%nat -> (cloud_RecordObjectMeta (record_all r' ms) x).2 = Stuck.
Proof.
  intros Hc Hl Hs Hq Hlen. exists (set_sync r (rest ++ [m])). split_and!; [|done|].
  - unfold sync_turn, SendRequestToEdgeLeader. rewrite Hq. cbn. rewrite Hc. cbn. rewrite Hl. unfold SendRequestToNode. cbn.
    by rewrite decide_False.
  - intros ms x Hms. cbn [syncEdgeChan set_sync] in Hms.
    assert (length (rest ++ [m]) <= 100)%nat as Hle by (rewrite Hq in Hlen; rewrite length_app; cbn in *; lia).
    pose proof (record_all_queue ms (set_sync r (rest ++ [m]))) as Hqueue. cbn [syncEdgeChan set_sync] in Hqueue.
    specialize (Hqueue ltac:(lia)). unfold cloud_RecordObjectMeta.
    destruct (RecordMeta_total (ca_storage (record_all (set_sync r (rest ++ [m])) ms)) (with_id x (CleanObjectKey (ObjId x))))
      as [s' Es]. rewrite Es. cbn. rewrite decide_True; [done|]. rewrite Hqueue. lia.
Qed.

Lemma sync_stops_witness :
  exists r', sync_turn (mkRainbow ∅ (Some demo_cluster) ∅ 10000 (mkMemoryMetaStorage ∅) [demo_meta POSITION_EDGE]) = (r', Stuck) /\
    (cloud_RecordObjectMeta (record_all r' (replicate 99 (demo_meta POSITION_EDGE))) (demo_meta POSITION_EDGE)).2 = Stuck.
Proof.
  destruct (sync_stops (mkRainbow ∅ (Some demo_cluster) ∅ 10000 (mkMemoryMetaStorage ∅) [demo_meta POSITION_EDGE])
    demo_cluster (demo_node 1) (demo_meta POSITION_EDGE) []) as (r' & E & Hq & Hstuck);
    [reflexivity|reflexivity|by apply not_elem_of_empty|reflexivity|cbn; lia|].
  exists r'. split; [exact E|]. apply Hstuck. by rewrite Hq, length_replicate.
Defined.
