(* ===== verification/Bridge.v ===== *)
(** * The two ends together

    The edge ([Outpost.v]) and the cloud ([Rainbow.v]) over a stream that keeps the
    order in both directions, with the goroutines of the edge answering in any order
    and the waiting parties taking their responses at any time. A response marked as
    the last one closes the channel of its request; a second one for the same request
    closes it again, which panics. *)

From stdpp Require Import relations.
From S2P Require Import Prelude GoStd Errno Infos InfoStorage Object Pipeline GaiaMsg Block MetaStorage Alaya Moon Watcher InfoAgent Client Rainbow Outpost.

(** ** The machine *)

Section bridge.
Context `{HR : HashRing, CR : Crush}.
Context {S M : Type} `{Storage S, MetaStorage M}.

(** [up] goes to the cloud, [down] to the edge; of every goroutine of the edge
    [working] holds what it has not sent yet. *)
Record Bridge := mkBridge {
  b_edge : Outpost S;
  b_cloud : Rainbow M;
  b_up : list StreamContent;
  b_down : list StreamContent;
  working : list (list CloudResponse)
}.

(** The waiting party takes the response from its channel. *)
Definition take_response (r : Router) (id : Z) : Router :=
  match r !! id with Some _ => <[id := []]> r | None => r end.

(** What the edge asks: the information it reports has a value, and it asks for no
    deletion unless [deletes]. *)
Definition may_ask (deletes : bool) (q : CloudRequest) : Prop :=
  (q_Method q = M_PUT -> q_Resource q = R_INFO ->
     (exists n, q_Info q = Some (BI_NodeInfo n)) \/ (exists c, q_Info q = Some (BI_ClusterInfo c))) /\
  (deletes = false -> ~ (q_Method q = M_DELETE /\ q_Resource q = R_META)).

Inductive step (deletes : bool) : Bridge -> Bridge -> Prop :=
  | edge_asks e c up down w q e' q' : may_ask deletes q -> Outpost_Send e q = (e', Ok q') ->
      step deletes (mkBridge e c up down w) (mkBridge e' c (up ++ [Content_Request q']) down w)
  | cloud_asks e c up down w id q c' q' : SendRequestToNode c id q = (c', Ok q') ->
      step deletes (mkBridge e c up down w) (mkBridge e c' up (down ++ [Content_Request q']) w)
  | cloud_turn e c up down w x c' xs : event c x = (c', Ok xs) ->
      step deletes (mkBridge e c (x :: up) down w) (mkBridge e c' up (down ++ (Content_Response <$> xs)) w)
  | edge_response e c up down w x e' : receive e (Content_Response x) = (e', Ok None) ->
      step deletes (mkBridge e c up (Content_Response x :: down) w) (mkBridge e' c up down w)
  | edge_request e c up down w q e' net xs r : receive e (Content_Request q) = (e', Ok (Some q)) ->
      handle (o_watcher e') net q = (xs, r) ->
      step deletes (mkBridge e c up (Content_Request q :: down) w) (mkBridge e' c up down (xs :: w))
  | edge_sends e c up down w1 x xs w2 :
      step deletes (mkBridge e c up down (w1 ++ (x :: xs) :: w2)) (mkBridge e c (up ++ [Content_Response x]) down (w1 ++ xs :: w2))
  | edge_takes e c up down w id :
      step deletes (mkBridge e c up down w) (mkBridge (set_o_router e (take_response (o_router e) id)) c up down w)
  | cloud_takes e c up down w id :
      step deletes (mkBridge e c up down w) (mkBridge e (set_router c (take_response (rb_router c) id)) up down w)
  | edge_watches e c up down w wt :
      step deletes (mkBridge e c up down w) (mkBridge (mkOutpost wt (o_router e) (o_requestSeq e)) c up down w)
  | cloud_serves e c up down w s l :
      step deletes (mkBridge e c up down w) (mkBridge e (set_sync (set_store c s) l) up down w).

(** The edge connects: it says who it is and the cloud welcomes it. *)
Definition connect (w : Watcher S) (r : Rainbow M) : res Bridge :=
  match hello (NewOutpost w) with
  | (o, Ok q) =>
      match GetStream r q with
      | (r, Ok x) => Ok (mkBridge o r [] [Content_Response x] [])
      | (_, Err e) => Err e
      | (_, Panic) => Panic
      | (_, Stuck) => Stuck
      end
  | (_, Err e) => Err e
  | (_, Panic) => Panic
  | (_, Stuck) => Stuck
  end.

(** One of the loops panics on what it receives next, or asking panics. *)
Definition crashes (b : Bridge) : Prop :=
  (exists x up, b_up b = x :: up /\ (event (b_cloud b) x).2 = Panic) \/
  (exists x down, b_down b = x :: down /\ (receive (b_edge b) x).2 = Panic) \/
  (exists q, (Outpost_Send (b_edge b) q).2 = Panic) \/
  (exists id q, (SendRequestToNode (b_cloud b) id q).2 = Panic).

End bridge.

Arguments Bridge S M : clear implicits.
