(* ===== verification/BridgeProofs.v ===== *)
(** * What the bridge between edge and cloud guarantees

    The invariant of a router: the requests that will still see a last response are
    distinct and registered, and every registered number is behind the counter. It
    holds on either side as long as the edge does not ask for a deletion. *)

From stdpp Require Import relations.
From S2P Require Import Prelude GoStd Errno Infos InfoStorage Object Pipeline GaiaMsg Block MetaStorage Alaya Moon Watcher AlayaProofs WatcherProofs InfoAgent Client Rainbow Outpost Bridge.

(** ** One side *)

Lemma middle_sub (a x b : list Z) s : x ⊆+ [s] -> a ++ x ++ b ⊆+ s :: a ++ b.
Proof.
  intros Hx. transitivity (a ++ [s] ++ b).
  - apply submseteq_app; [done|]. by apply submseteq_app.
  - cbn. by rewrite <-Permutation_middle.
Qed.

Record side (r : Router) (seq : Z) (open : list Z) : Prop := {
  side_below : forall id, is_Some (r !! id) -> id < seq;
  side_nodup : NoDup open;
  side_registered : forall id, id ∈ open -> is_Some (r !! id)
}.

Lemma side_sub r seq open open' : open' ⊆+ open -> side r seq open -> side r seq open'.
Proof.
  intros Hs [Hb Hn Hr]. split; [done| |].
  - destruct (submseteq_Permutation _ _ Hs) as [k Hk]. rewrite Hk in Hn. by apply NoDup_app in Hn as [? _].
  - intros id Hin. apply Hr. by eapply elem_of_submseteq.
Qed.

Lemma side_perm r seq open open' : open' ≡ₚ open -> side r seq open -> side r seq open'.
Proof. intros Hp. apply side_sub. by rewrite Hp. Qed.

Lemma side_ask r seq open : side r seq open -> side (<[seq := []]> r) (seq + 1) (seq :: open).
Proof.
  intros [Hb Hn Hr]. assert (r !! seq = None) as Hf.
  { destruct (r !! seq) eqn:E; [|done]. assert (seq < seq) by (apply Hb; eauto). lia. }
  split.
  - intros id Hid. destruct (decide (id = seq)) as [->|]; [lia|]. rewrite lookup_insert_ne in Hid by done.
    pose proof (Hb id Hid). lia.
  - constructor; [|done]. intros Hin. apply Hr in Hin. rewrite Hf in Hin. by destruct Hin.
  - intros id [->|Hin]%elem_of_cons; [rewrite lookup_insert_eq; eauto|].
    destruct (decide (id = seq)) as [->|]; [rewrite lookup_insert_eq; eauto|]. rewrite lookup_insert_ne by done. auto.
Qed.

Lemma side_Register r seq open : side r seq open -> Router_Register r seq = Ok (<[seq := []]> r).
Proof.
  intros [Hb _ _]. unfold Router_Register. destruct (r !! seq) eqn:E; [|done].
  assert (seq < seq) by (apply Hb; eauto). lia.
Qed.

(** The requests a response closes. *)
Definition closing (x : CloudResponse) : list Z := if IsLast x then [ResponseTo x] else [].

Lemma side_deliver r seq open x : side r seq (closing x ++ open) ->
  deliver r x <> Panic /\ forall r', deliver r x = Ok r' -> side r' seq open.
Proof.
  unfold deliver, closing, Router_Send, Router_Unregister. intros [Hb Hn Hr].
  assert (forall r', (forall id, is_Some (r' !! id) <-> is_Some (r !! id)) ->
    (if IsLast x then match r' !! ResponseTo x with None => Panic | Some _ => Ok (delete (ResponseTo x) r') end else Ok r') <> Panic /\
    forall r'', (if IsLast x then match r' !! ResponseTo x with None => Panic | Some _ => Ok (delete (ResponseTo x) r') end else Ok r') = Ok r'' ->
      side r'' seq open) as Hgo.
  { intros r' Hd. destruct (IsLast x); cbn [app] in *.
    - inversion Hn as [|? ? Hnin Hn']; subst.
      destruct (proj2 (Hd (ResponseTo x))) as [v Hv]; [apply Hr; set_solver|]. rewrite Hv.
      split; [done|]. intros r'' [= <-]. split; [|done|].
      + intros id Hid. apply Hb, Hd. destruct (decide (id = ResponseTo x)) as [->|]; [by rewrite lookup_delete_eq in Hid; destruct Hid|].
        by rewrite lookup_delete_ne in Hid.
      + intros id Hin. rewrite lookup_delete_ne; [apply Hd, Hr; set_solver|]. intros <-. done.
    - split; [done|]. intros r'' [= <-]. split; [|done|].
      + intros id Hid. by apply Hb, Hd.
      + intros id Hin. by apply Hd, Hr. }
  destruct (r !! ResponseTo x) as [[|y l]|] eqn:E; cbn; try (by apply Hgo).
  - apply Hgo. intros id. destruct (decide (id = ResponseTo x)) as [->|]; [by rewrite lookup_insert_eq, E; split; eauto|].
    by rewrite lookup_insert_ne.
  - by split.
Qed.

Lemma side_take r seq open id : side r seq open -> side (take_response r id) seq open.
Proof.
  intros [Hb Hn Hr]. unfold take_response. destruct (r !! id) eqn:E; [|by split].
  assert (forall i, is_Some (<[id := []]> r !! i) <-> is_Some (r !! i)) as Hd.
  { intros i. destruct (decide (i = id)) as [->|]; [by rewrite lookup_insert_eq, E; split; eauto|]. by rewrite lookup_insert_ne. }
  split; [|done|].
  - intros i Hi. by apply Hb, Hd.
  - intros i Hi. by apply Hd, Hr.
Qed.

(** ** The handlers *)

Section handlers.
Context `{HR : HashRing, CR : Crush}.
Context {S M : Type} `{Storage S, MetaStorage M}.

Definition closes (xs : list CloudResponse) : list Z := xs ≫= closing.

(** Requests that the cloud answers, and answers with a last response. *)
Definition awaited (q : CloudRequest) : list Z :=
  if decide (q_Method q = M_PUT /\ q_Resource q = R_INFO /\ (q_Info q ≫= GetClusterInfo) <> None) then [] else [RequestSeq q].

Lemma event_request (c : Rainbow M) q : may_ask false q ->
  exists c' xs, event c (Content_Request q) = (c', Ok xs) /\ closes xs = awaited q /\
    rb_router c' = rb_router c /\ rb_requestSeq c' = rb_requestSeq c.
Proof.
  intros [Hinfo Hdel]. unfold event, awaited.
  assert (exists c' xs, match q_Resource q with
    | R_META => processMetaRequest c q
    | _ => (c, Ok [sendError q (ENew "not support resource")]) end = (c', Ok xs) /\ closes xs = [RequestSeq q] /\
    rb_router c' = rb_router c /\ rb_requestSeq c' = rb_requestSeq c) as Hother.
  { destruct (q_Resource q) eqn:Er; [|by eexists _, _..]. unfold processMetaRequest. rewrite decide_False; [by eexists _, _|].
    intros Hm. by apply Hdel. }
  destruct (decide (q_Method q = M_PUT /\ q_Resource q = R_INFO)) as [[Hm Hr]|Hn].
  - destruct (Hinfo Hm Hr) as [[n Hn]|[i Hi]].
    + rewrite Hn. cbn. rewrite (decide_False (P := _ /\ _ /\ _)) by (intros (_ & _ & ?); done). done.
    + rewrite Hi. cbn. rewrite decide_True by done. cbn. rewrite decide_True by done.
      destruct (rb_clusterInfo c) as [old|]; [destruct (decide _)|]; by eexists _, _.
  - rewrite (decide_False (P := _ /\ _ /\ _)) by (intros (? & ? & _); auto). done.
Qed.

Lemma closes_app xs ys : closes (xs ++ ys) = closes xs ++ closes ys.
Proof. apply bind_app. Qed.

Lemma closes_none (f : bytes -> CloudResponse) l : (forall c, closing (f c) = []) -> closes (f <$> l) = [].
Proof. intros Hf. induction l as [|c l IH]; [done|]. rewrite fmap_cons. unfold closes. cbn. rewrite Hf. done. Qed.

Lemma relay_block_closes (w : Watcher S) net q ids : closes (relay_block w net q ids).1 ⊆+ [RequestSeq q].
Proof.
  induction ids as [|id ids IH]; cbn [relay_block]; [by apply submseteq_nil_l|].
  destruct (GetInfoDirect _ _ _); try done; try (by apply submseteq_nil_l).
  destruct (GetNodeInfo _); [|by apply submseteq_nil_l]. destruct (en_connect net n); [done|].
  destruct (en_block net n (RequestId q) (q_Term q)) as [[chunks [e|]]|e| |]; try done; try (by apply submseteq_nil_l).
  - destruct (relay_block w net q ids) as [rest r]. cbn [fst] in *.
    rewrite !closes_app, closes_none by done. destruct (decide _); done.
  - cbn [fst]. rewrite closes_app, closes_none by done. done.
Qed.

Lemma answer_with_closes {A} q (r : res A) f x : (forall a, closing (f a) ⊆+ [RequestSeq q]) ->
  answer_with q r f = Ok x -> closing x ⊆+ [RequestSeq q].
Proof. intros Hf. destruct r; cbn; intros [= <-]; [apply Hf|by apply submseteq_nil_l]. Qed.

Lemma res_bind_inv {A B} (r : res A) (f : A -> res B) b : (r ≫= f) = Ok b -> exists a, r = Ok a /\ f a = Ok b.
Proof. destruct r; cbn; try done. eauto. Qed.

Lemma doMetaRequest_closes (w : Watcher S) net q x : doMetaRequest w net q = Ok x -> closing x ⊆+ [RequestSeq q].
Proof.
  unfold doMetaRequest, list_objects, get_object_meta, put_object_meta. destruct (q_Method q).
  - intros (a & _ & (((? & bid) & k) & _ & (bn & _ & Hx)%res_bind_inv)%res_bind_inv)%res_bind_inv.
    by eapply answer_with_closes; [|exact Hx].
  - destruct (match SplitID _ with Ok _ => _ | _ => _ end) as [bid k].
    intros (a & _ & (bn & _ & Hx)%res_bind_inv)%res_bind_inv. destruct (Volume_Get _ _ _ _) as [a' r].
    apply res_bind_inv in Hx as (b & _ & (b' & _ & Hx)%res_bind_inv).
    eapply answer_with_closes; [|exact Hx]. intros. by apply submseteq_nil_l.
  - intros (m & _ & Hx)%res_bind_inv. destruct (match SplitID _ with Ok _ => _ | _ => _ end) as [bid k].
    eapply answer_with_closes; [|exact Hx]. intros. by apply submseteq_nil_l.
  - intros [= <-]. by apply submseteq_nil_l.
Qed.

(** A goroutine marks at most one response as the last. *)
Lemma handle_closes (w : Watcher S) net q : closes (handle w net q).1 ⊆+ [RequestSeq q].
Proof.
  unfold handle. destruct (q_Resource q).
  - destruct (doMetaRequest w net q) eqn:E; try (by apply submseteq_nil_l).
    apply doMetaRequest_closes in E. unfold closes. cbn. by rewrite app_nil_r.
  - unfold doBlockRequest. destruct (q_Method q); try (by apply submseteq_nil_l).
    destruct (_ ≫= _); try (by apply submseteq_nil_l). apply relay_block_closes.
  - destruct (doInfoRequest w q) as [[x|]| | |] eqn:E; try (by apply submseteq_nil_l).
    unfold doInfoRequest in E. destruct (q_Method q); try done. apply res_bind_inv in E as (y & Hy & [= <-]).
    unfold closes. cbn. rewrite app_nil_r. eapply answer_with_closes; [|exact Hy]. intros. by apply submseteq_nil_l.
Qed.

(** ** The invariant *)

Definition up_closing (x : StreamContent) : list Z := match x with Content_Response x => closing x | _ => [] end.
Definition up_awaited (x : StreamContent) : list Z := match x with Content_Request q => awaited q | _ => [] end.
Definition down_awaited (x : StreamContent) : list Z := match x with Content_Request q => [RequestSeq q] | _ => [] end.

(** The requests of the edge, and of the cloud, that will see a last response. *)
Definition edge_open (b : Bridge S M) : list Z := (b_up b ≫= up_awaited) ++ (b_down b ≫= up_closing).
Definition cloud_open (b : Bridge S M) : list Z := (b_down b ≫= down_awaited) ++ (working b ≫= closes) ++ (b_up b ≫= up_closing).

Record bridge_ok (n : nat) (b : Bridge S M) : Prop := {
  ok_edge : side (o_router (b_edge b)) (o_requestSeq (b_edge b)) (edge_open b);
  ok_cloud : side (rb_router (b_cloud b)) (rb_requestSeq (b_cloud b)) (cloud_open b);
  ok_asked : forall q, Content_Request q ∈ b_up b -> may_ask false q;
  ok_edge_seq : 0 <= o_requestSeq (b_edge b) <= 10001 + Z.of_nat n;
  ok_cloud_seq : 0 <= rb_requestSeq (b_cloud b) <= 10001 + Z.of_nat n
}.

Lemma awaited_with_seq q seq : awaited (with_seq q seq) ⊆+ [seq].
Proof. unfold awaited. destruct (decide _); [by apply submseteq_nil_l|done]. Qed.

Lemma may_ask_with_seq d q seq : may_ask d q -> may_ask d (with_seq q seq).
Proof. done. Qed.

Lemma responses_closing xs : (Content_Response <$> xs) ≫= up_closing = closes xs.
Proof. unfold closes. induction xs as [|x xs IH]; [done|]. rewrite fmap_cons. cbn. by rewrite <-IH. Qed.

Lemma responses_awaited xs : (Content_Response <$> xs) ≫= down_awaited = [].
Proof. induction xs as [|x xs IH]; [done|]. rewrite fmap_cons. cbn. exact IH. Qed.

(** The router of the edge and its counter, as one operation changes them. *)
Lemma Outpost_Send_inv (e : Outpost S) q e' q' : Outpost_Send e q = (e', Ok q') -> 0 <= o_requestSeq e < 2 ^ 64 - 1 ->
  q' = with_seq q (o_requestSeq e) /\ o_router e' = <[o_requestSeq e := []]> (o_router e) /\ o_requestSeq e' = o_requestSeq e + 1.
Proof.
  unfold Outpost_Send, Router_Register. cbn. destruct (o_router e !! o_requestSeq e); cbn; [done|]. intros [= <- <-] Hs.
  cbn. rewrite u64_id by (unfold is_u64; lia). done.
Qed.

Lemma SendRequestToNode_inv (c : Rainbow M) id q c' q' : SendRequestToNode c id q = (c', Ok q') -> 0 <= rb_requestSeq c < 2 ^ 64 - 1 ->
  q' = with_seq q (rb_requestSeq c) /\ rb_router c' = <[rb_requestSeq c := []]> (rb_router c) /\ rb_requestSeq c' = rb_requestSeq c + 1.
Proof.
  unfold SendRequestToNode, Router_Register. destruct (decide _); [|done]. cbn. destruct (rb_router c !! rb_requestSeq c); cbn; [done|].
  intros [= <- <-] Hs. cbn. rewrite u64_id by (unfold is_u64; lia). done.
Qed.

Lemma event_response (c : Rainbow M) x c' xs : event c (Content_Response x) = (c', Ok xs) ->
  xs = [] /\ deliver (rb_router c) x = Ok (rb_router c') /\ rb_requestSeq c' = rb_requestSeq c.
Proof. unfold event. destruct (deliver (rb_router c) x) eqn:E; cbn; try done. by intros [= <- <-]. Qed.

Lemma receive_response (e : Outpost S) x e' r : receive e (Content_Response x) = (e', Ok r) ->
  deliver (o_router e) x = Ok (o_router e') /\ o_requestSeq e' = o_requestSeq e.
Proof. unfold receive. destruct (deliver (o_router e) x) eqn:E; cbn; try done. by intros [= <- <-]. Qed.

Ltac open_lists := unfold edge_open, cloud_open; cbn [b_edge b_cloud b_up b_down working]; rewrite ?bind_app, ?bind_cons; cbn [up_closing up_awaited down_awaited mbind list_bind];
  rewrite ?responses_closing, ?responses_awaited, ?app_nil_r, ?app_nil_l.

Lemma bridge_asks_edge n e c up down w q e' q' : Z.of_nat n < 2 ^ 63 -> may_ask false q -> Outpost_Send e q = (e', Ok q') ->
  bridge_ok n (mkBridge e c up down w) -> bridge_ok (Datatypes.S n) (mkBridge e' c (up ++ [Content_Request q']) down w).
Proof.
  intros Hn Hmay Hsend [He Hc Ha Hes Hcs]. cbn [b_edge b_cloud b_up b_down working] in *.
  apply Outpost_Send_inv in Hsend as (-> & Hr & Hs); [|lia]. split; cbn [b_edge b_cloud b_up b_down working]; try lia.
  - rewrite Hr, Hs. apply (side_sub _ _ (o_requestSeq e :: edge_open (mkBridge e c up down w))); [|by apply side_ask].
    open_lists. rewrite <-app_assoc. apply middle_sub, awaited_with_seq.
  - revert Hc. by open_lists.
  - intros q0 [Hin|[= ->]%list_elem_of_singleton]%elem_of_app; [auto|by apply may_ask_with_seq].
Qed.

Lemma bridge_asks_cloud n e c up down w id q c' q' : Z.of_nat n < 2 ^ 63 -> SendRequestToNode c id q = (c', Ok q') ->
  bridge_ok n (mkBridge e c up down w) -> bridge_ok (Datatypes.S n) (mkBridge e c' up (down ++ [Content_Request q']) w).
Proof.
  intros Hn Hsend [He Hc Ha Hes Hcs]. cbn [b_edge b_cloud b_up b_down working] in *.
  apply SendRequestToNode_inv in Hsend as (-> & Hr & Hs); [|lia]. split; cbn [b_edge b_cloud b_up b_down working]; try lia; [| |done].
  - revert He. by open_lists.
  - rewrite Hr, Hs. apply (side_sub _ _ (rb_requestSeq c :: cloud_open (mkBridge e c up down w))); [|by apply side_ask].
    open_lists. rewrite <-app_assoc. by apply middle_sub.
Qed.

Lemma bridge_cloud_turn n e c up down w x c' xs : event c x = (c', Ok xs) -> bridge_ok n (mkBridge e c (x :: up) down w) ->
  bridge_ok (Datatypes.S n) (mkBridge e c' up (down ++ (Content_Response <$> xs)) w).
Proof.
  intros Hev [He Hc Ha Hes Hcs]. cbn [b_edge b_cloud b_up b_down working] in *.
  revert He Hc. open_lists. intros He Hc. destruct x as [q|x].
  - destruct (event_request c q) as (c1 & xs1 & Hev' & Hcl & Hr & Hs); [apply Ha; constructor|].
    rewrite Hev in Hev'. injection Hev' as <- <-.
    split; cbn [b_edge b_cloud b_up b_down working]; try lia; [| |intros q' Hq; apply Ha; by constructor].
    + open_lists. eapply side_perm; [|exact He]. rewrite Hcl. solve_Permutation.
    + rewrite Hr, Hs. open_lists. exact Hc.
  - apply event_response in Hev as (-> & Hd & Hs).
    split; cbn [b_edge b_cloud b_up b_down working]; try lia; [| |intros q' Hq; apply Ha; by constructor].
    + open_lists. exact He.
    + rewrite Hs. open_lists. eapply side_deliver; [|exact Hd]. eapply side_perm; [|exact Hc]. cbn. solve_Permutation.
Qed.

Lemma bridge_edge_response n e c up down w x e' : receive e (Content_Response x) = (e', Ok None) ->
  bridge_ok n (mkBridge e c up (Content_Response x :: down) w) -> bridge_ok (Datatypes.S n) (mkBridge e' c up down w).
Proof.
  intros Hrec [He Hc Ha Hes Hcs]. cbn [b_edge b_cloud b_up b_down working] in *.
  apply receive_response in Hrec as (Hd & Hs). split; cbn [b_edge b_cloud b_up b_down working]; try lia; [| |done].
  - rewrite Hs. eapply side_deliver; [|exact Hd]. eapply side_perm; [|exact He]. open_lists. solve_Permutation.
  - revert Hc. by open_lists.
Qed.

Lemma bridge_edge_request n e c up down w q net : bridge_ok n (mkBridge e c up (Content_Request q :: down) w) ->
  bridge_ok (Datatypes.S n) (mkBridge e c up down ((handle (o_watcher e) net q).1 :: w)).
Proof.
  intros [He Hc Ha Hes Hcs]. cbn [b_edge b_cloud b_up b_down working] in *.
  split; cbn [b_edge b_cloud b_up b_down working]; try lia; [| |done].
  - revert He. by open_lists.
  - eapply side_sub; [|exact Hc]. open_lists. cbn. rewrite <-app_assoc. apply middle_sub, handle_closes.
Qed.

Lemma bridge_step n (b b' : Bridge S M) : Z.of_nat n < 2 ^ 63 -> bridge_ok n b -> step false b b' -> bridge_ok (Datatypes.S n) b'.
Proof.
  intros Hn Hb Hstep. revert Hb. destruct Hstep as
    [e c up down w q e' q' Hmay Hsend|e c up down w id q c' q' Hsend|e c up down w x c' xs Hev|e c up down w x e' Hrec
    |e c up down w q e' net xs r Hrec Hh|e c up down w1 x xs w2|e c up down w id|e c up down w id|e c up down w wt|e c up down w s l].
  - by apply bridge_asks_edge with q.
  - by apply bridge_asks_cloud with id q.
  - by apply bridge_cloud_turn.
  - by apply bridge_edge_response.
  - injection Hrec as <-. intros Hb%(bridge_edge_request _ _ _ _ _ _ _ net). by rewrite Hh in Hb.
  - intros [He Hc Ha Hes Hcs]. cbn [b_edge b_cloud b_up b_down working] in *. split; cbn [b_edge b_cloud b_up b_down working]; try lia.
    + revert He. by open_lists.
    + eapply side_perm; [|exact Hc]. open_lists. cbn. unfold closes. cbn. solve_Permutation.
    + intros q [Hin|Hin%list_elem_of_singleton]%elem_of_app; [auto|done].
  - intros [He Hc Ha Hes Hcs]. split; try done; try (cbn in *; lia). by apply side_take.
  - intros [He Hc Ha Hes Hcs]. split; try done; try (cbn in *; lia). by apply side_take.
  - intros [He Hc Ha Hes Hcs]. split; try done; cbn in *; lia.
  - intros [He Hc Ha Hes Hcs]. split; try done; cbn in *; lia.
Qed.

Lemma bridge_run n m (b b' : Bridge S M) : Z.of_nat (m + n) < 2 ^ 63 -> bridge_ok m b -> nsteps (step false) n b b' -> bridge_ok (m + n)%nat b'.
Proof.
  revert m b. induction n as [|n IH]; intros m b Hn Hb Hrun.
  - inversion Hrun; subst. by rewrite Nat.add_0_r.
  - inversion Hrun as [|? ? b1 ? Hstep Hrest]; subst. replace (m + Datatypes.S n)%nat with (Datatypes.S m + n)%nat by lia.
    apply (IH _ b1); [lia| |done]. apply bridge_step with b; [lia|done..].
Qed.

Lemma bridge_ok_safe n (b : Bridge S M) : bridge_ok n b -> ~ crashes b.
Proof.
  destruct b as [e c up down w]. intros [He Hc Ha Hes Hcs]. cbn [b_edge b_cloud b_up b_down working] in *.
  intros [(x & up' & Hx & Hp)|[(x & down' & Hx & Hp)|[[q Hp]|(id & q & Hp)]]]; cbn [b_edge b_cloud b_up b_down working] in *; subst.
  - destruct x as [q|x].
    + destruct (event_request c q) as (c1 & xs1 & Hev & _); [apply Ha; constructor|]. by rewrite Hev in Hp.
    + assert (side (rb_router c) (rb_requestSeq c) (closing x ++ cloud_open (mkBridge e c up' down w))) as Hs.
      { eapply side_perm; [|exact Hc]. open_lists. solve_Permutation. }
      destruct (side_deliver _ _ _ _ Hs) as [Hd _]. unfold event in Hp. by destruct (deliver (rb_router c) x).
  - destruct x as [q|x]; [done|].
    assert (side (o_router e) (o_requestSeq e) (closing x ++ edge_open (mkBridge e c up down' w))) as Hs.
    { eapply side_perm; [|exact He]. open_lists. solve_Permutation. }
    destruct (side_deliver _ _ _ _ Hs) as [Hd _]. unfold receive in Hp. by destruct (deliver (o_router e) x).
  - unfold Outpost_Send in Hp. cbn in Hp. by rewrite (side_Register _ _ _ He) in Hp.
  - unfold SendRequestToNode in Hp. destruct (decide _); [|done]. cbn in Hp. by rewrite (side_Register _ _ _ Hc) in Hp.
Qed.

Lemma connect_ok (w : Watcher S) (s : M) : exists b, connect w (NewRainbow s) = Ok b /\ bridge_ok 0 b.
Proof.
  assert (side ∅ 10000 []) as Hempty.
  { split; [|constructor|]; [intros id [x Hx]; by rewrite lookup_empty in Hx|intros id Hin; by apply not_elem_of_nil in Hin]. }
  eexists. split; [reflexivity|]. split.
  - exact (side_ask _ _ _ Hempty).
  - exact Hempty.
  - intros q Hin. by apply not_elem_of_nil in Hin.
  - vm_compute. split; discriminate.
  - vm_compute. split; discriminate.
Qed.

End handlers.

(** ** Properties *)


Definition demo_bridge : Bridge MemoryInfoStorage MemoryMetaStorage :=
  let o := mkOutpost (demo_watcher [1]) {[10000 := []]} 10001 in
  mkBridge o (mkRainbow {[1]} None ∅ 10000 (mkMemoryMetaStorage ∅) []) []
    [Content_Response (mkCloudResponse 10000 None [] [] [] true)] [].

Definition demo_delete : CloudRequest := mkCloudRequest 0 M_DELETE R_META "root/default/1/k" IT_NODE_INFO None None 0.


(** a deletion the edge asks for crashes the edge. Whatever the storage of the
    cloud answers, the cloud marks two responses as the last one, and the loop of the
    edge panics on the second. *)
Theorem cloud_delete_crashes_edge `{HR : HashRing, CR : Crush} {S M : Type} `{Storage S, MetaStorage M}
    (e e' : Outpost S) (c : Rainbow M) w q q' s' r :
  q_Method q = M_DELETE -> q_Resource q = R_META ->
  Outpost_Send e q = (e', Ok q') ->
  MetaStorage_Delete (ca_storage c) (RequestId q) = (s', r) -> r <> Panic -> r <> Stuck ->
  exists b, rtc (step true) (mkBridge e c [] [] w) b /\ crashes b.
Proof.
  intros Hm Hr Hsend Hdel Hp Hs. unfold Outpost_Send in Hsend. cbn in Hsend.
  destruct (Router_Register (o_router e) (o_requestSeq e)) as [m| | |] eqn:Hreg; cbn in Hsend; try done.
  injection Hsend as <- <-. unfold Router_Register in Hreg.
  destruct (o_router e !! o_requestSeq e) eqn:Hf; [done|]. injection Hreg as <-.
  set (seq := o_requestSeq e) in *. set (q' := with_seq q seq).
  assert (exists x y xs, event c (Content_Request q') = (set_store c s', Ok (x :: y :: xs)) /\
            ResponseTo x = seq /\ IsLast x = true /\ ResponseTo y = seq /\ IsLast y = true) as (x & y & xs & Hev & Hx & Hxl & Hy & Hyl).
  { cbn. rewrite Hm, Hr. rewrite decide_False by (by intros [? _]). unfold processMetaRequest, doDelete. cbn. rewrite Hm, decide_True, Hdel by done.
    destruct r as [[]| | |]; try done; by eexists _, _, _. }
  eexists. split.
  - eapply rtc_l; [apply (edge_asks true _ _ _ _ _ q); [split; [rewrite Hm; done|done]|]|].
    { unfold Outpost_Send, Router_Register. cbn. fold seq. rewrite Hf. reflexivity. }
    eapply rtc_l; [apply cloud_turn, Hev|]. cbn [app fmap list_fmap].
    eapply rtc_once, edge_response. unfold receive, deliver, Router_Send. cbn. rewrite Hx, lookup_insert_eq. cbn. rewrite Hxl.
    unfold Router_Unregister. rewrite lookup_insert_eq. reflexivity.
  - right. left. eexists _, _. split; [reflexivity|]. cbn. unfold deliver, Router_Send. rewrite Hy.
    rewrite lookup_delete_eq. cbn. rewrite Hyl. unfold Router_Unregister. by rewrite lookup_delete_eq.
Qed.

Lemma cloud_delete_crashes_edge_witness :
  exists b, rtc (@step length_ring first_crush MemoryInfoStorage MemoryMetaStorage _ _ true)
    (mkBridge (b_edge demo_bridge) (b_cloud demo_bridge) [] [] []) b /\ crashes b.
Proof.
  eapply (@cloud_delete_crashes_edge length_ring first_crush _ _ _ _ _ _ _ _ demo_delete);
    [reflexivity|reflexivity|vm_compute; reflexivity|vm_compute; reflexivity|discriminate|discriminate].
Defined.
