(* ===== verification/Reader.v ===== *)
(** * Reading an object: [src/client/io/ecos_reader.go]

    The reader gets the metadata of the object and the cluster of the term it was
    written in, works out which part of which block every part of the caller's
    buffer comes from, and fetches the blocks in goroutines that copy into the
    buffer. A goroutine is atomic here; [sched] is the order they run in. Lengths
    and offsets are Go [int]s, block sizes [uint64]s. *)

From S2P Require Import Prelude GoStd Errno Infos Object Pipeline GaiaMsg Block.

(** ** State *)

Record EcosReader := mkReader {
  rd_meta : option ObjectMeta;
  rd_cluster : option ClusterInfo;
  rd_pipes : option ClusterPipelines;
  curBlockIndex : nat;
  curBlockOffset : Z;
  cachedBlocks : gmap string bytes
}.

Definition GetEcosReader : EcosReader := mkReader None None None 0 0 ∅.

Definition set_cur (r : EcosReader) (i : nat) (o : Z) : EcosReader :=
  mkReader (rd_meta r) (rd_cluster r) (rd_pipes r) i o (cachedBlocks r).

Definition set_cache (r : EcosReader) (c : gmap string bytes) : EcosReader :=
  mkReader (rd_meta r) (rd_cluster r) (rd_pipes r) (curBlockIndex r) (curBlockOffset r) c.

Record calcBlock := mkCalcBlock {
  blockIndex : nat;
  blockStart : Z;
  blockEnd : Z;
  bufferStart : Z;
  bufferEnd : Z
}.

(** The loop of [calcBlocks] over the blocks from index [i] on: what to read, the
    position it ends at, and whether the last of it is inside the object. *)
Fixpoint calc_loop (expect : Z) (bs : list BlockInfo) (i cur : nat) (blockOffset bufferOffset pending : Z)
    : list calcBlock * (nat * Z) * bool :=
  match bs with
  | [] => ([], (cur, blockOffset), false)
  | block :: bs' =>
      if decide (BI_BlockSize block <= u64 (i64 (blockOffset + pending))) then
        let size := i64 (BI_BlockSize block) in
        let bufferEnd := i64 (i64 (bufferOffset + size) - blockOffset) in
        let '(l, pos, fin) := calc_loop expect bs' (S i) i 0 bufferEnd (i64 (expect - bufferEnd)) in
        (mkCalcBlock i blockOffset size bufferOffset bufferEnd :: l, pos, fin)
      else
        ([mkCalcBlock i blockOffset (i64 (blockOffset + pending)) bufferOffset (i64 (bufferOffset + pending))],
         (i, i64 (blockOffset + pending)), true)
  end.

(** The flag is true for a nil error, false for [io.EOF]. *)
Definition calcBlocks (r : EcosReader) (expect : Z) : res (EcosReader * list calcBlock * bool) :=
  meta ← or_panic (rd_meta r);
  let '(l, (i, o), fin) := calc_loop expect (drop (curBlockIndex r) (Blocks meta)) (curBlockIndex r) (curBlockIndex r)
                             (curBlockOffset r) 0 expect in
  Ok (set_cur r i o, l, fin).

(** ** Fetching *)

(** A stream: the chunks received, and the error that ends it unless it is EOF. *)
Definition Stream : Type := list bytes * option error.

(** [append] to a buffer made with capacity [cap]: what is beyond its length reads
    as zero while nothing had to be reallocated. *)
Definition recv_all (s : Stream) : res bytes :=
  match s with
  | (chunks, None) => Ok (concat chunks)
  | (_, Some e) => Err e
  end.

(** [block[lo:hi]]: slicing goes by capacity. A block longer than the buffer was
    made for is taken to have no room behind it. *)
Definition slice_cap (cap : Z) (block : bytes) (lo hi : Z) : res bytes :=
  if decide (0 <= lo <= hi /\ hi <= Z.max cap (Z.of_nat (length block))) then
    let all := block ++ replicate (Z.to_nat (cap - Z.of_nat (length block))) x00 in
    Ok (take (Z.to_nat (hi - lo)) (drop (Z.to_nat lo) all))
  else Panic.

(** [copy(p[l:r], src)], the slice [p[l:r]] being made first. *)
Definition copy_to (p : bytes) (l r : Z) (src : bytes) : res bytes :=
  if decide (0 <= l <= r /\ r <= Z.of_nat (length p)) then
    let n := Nat.min (Z.to_nat (r - l)) (length src) in
    Ok (take (Z.to_nat l) p ++ take n src ++ drop (Z.to_nat l + n) p)
  else Panic.

Section reader.
Context `{HR : HashRing, CR : Crush}.

(** What the factory fixes, what the agents answer, and the storage nodes. *)
Context (conf : ConnectType) (cap : Z).
Context (agent_Get : InfoType -> string -> res Information).
Context (fetch_edge : NodeInfo -> string -> Z -> res Stream).
Context (fetch_cloud : string -> Z -> res Stream).

(** The capacity is the block size of the bucket. A failed look-up of the server
    leaves a nil pointer that is dereferenced. *)
Definition GetBlockByEdge (r : EcosReader) (b : BlockInfo) : res bytes :=
  c ← or_panic (rd_cluster r);
  pgID ← GenBlockPgID (BlockId b) (BlockPgNum c);
  pipes ← or_panic (rd_pipes r);
  ids ← GetBlockPG pipes pgID;
  id ← or_panic (head ids);
  match agent_Get IT_NODE_INFO (FormatUint id) with
  | Ok info =>
      node ← or_panic (GetNodeInfo (Information_BaseInfo info));
      meta ← or_panic (rd_meta r);
      s ← fetch_edge node (BlockId b) (OM_Term meta);
      recv_all s
  | Err _ => Panic
  | Panic => Panic
  | Stuck => Stuck
  end.

(** The deferred [CloseSend] runs on the nil stream of a failed call. *)
Definition GetBlockByCloud (r : EcosReader) (b : BlockInfo) : res bytes :=
  meta ← or_panic (rd_meta r);
  match fetch_cloud (BlockId b) (OM_Term meta) with
  | Ok s => recv_all s
  | Err _ => Panic
  | Panic => Panic
  | Stuck => Stuck
  end.

Definition GetBlock (r : EcosReader) (b : BlockInfo) : EcosReader * res bytes :=
  match cachedBlocks r !! BlockId b with
  | Some block => (r, Ok block)
  | None =>
      match (match conf with ConnectCloud => GetBlockByCloud r b | ConnectEdge => GetBlockByEdge r b end) with
      | Ok block => (set_cache r (<[BlockId b := block]> (cachedBlocks r)), Ok block)
      | Err e => (r, Err e)
      | Panic => (r, Panic)
      | Stuck => (r, Stuck)
      end
  end.

(** ** Metadata *)

(** [getObjMeta]: the answers of the server, one per attempt; it tries again after
    [TermNotMatch], unless the cluster cannot be asked. Out of answers it still waits. *)
Fixpoint getObjMeta (attempts : list (res ObjectMeta * res unit)) : res ObjectMeta :=
  match attempts with
  | [] => Stuck
  | (Err e, update) :: attempts' =>
      if Contains (Error e) (Errno_Error TermNotMatch) then _ ← update; getObjMeta attempts' else Err e
  | (r, _) :: _ => r
  end.

Definition getHistoryClusterInfo (m : ObjectMeta) : res (option ClusterInfo) :=
  info ← agent_Get IT_CLUSTER_INFO (FormatUint (OM_Term m));
  Ok (GetClusterInfo (Information_BaseInfo info)).

(** Each step leaves what it got in the reader. *)
Definition genPipelines (attempts : list (res ObjectMeta * res unit)) (r : EcosReader) : EcosReader * res unit :=
  match getObjMeta attempts with
  | Ok m =>
      let r := mkReader (Some m) (rd_cluster r) (rd_pipes r) (curBlockIndex r) (curBlockOffset r) (cachedBlocks r) in
      match getHistoryClusterInfo m with
      | Ok c =>
          let r := mkReader (Some m) c (rd_pipes r) (curBlockIndex r) (curBlockOffset r) (cachedBlocks r) in
          match c with
          | None => (r, Panic)
          | Some c =>
              match NewClusterPipelines c with
              | Ok p => (mkReader (Some m) (Some c) (Some p) (curBlockIndex r) (curBlockOffset r) (cachedBlocks r), Ok tt)
              | Err e => (mkReader (Some m) (Some c) None (curBlockIndex r) (curBlockOffset r) (cachedBlocks r), Err e)
              | Panic => (r, Panic)
              | Stuck => (r, Stuck)
              end
          end
      | Err e => (r, Err e)
      | Panic => (r, Panic)
      | Stuck => (r, Stuck)
      end
  | Err e => (mkReader None (rd_cluster r) (rd_pipes r) (curBlockIndex r) (curBlockOffset r) (cachedBlocks r), Err e)
  | Panic => (r, Panic)
  | Stuck => (r, Stuck)
  end.

(** ** Reading *)

(** One goroutine: a failure ends it before [Done], so the caller waits for ever. *)
Definition read_block (r : EcosReader) (p : bytes) (cb : calcBlock) : EcosReader * res bytes :=
  do r, meta <- pure r (or_panic (rd_meta r));
  do r, info <- pure r (or_panic (Blocks meta !! blockIndex cb));
  match GetBlock r info with
  | (r, Ok block) =>
      do r, src <- pure r (slice_cap cap block (blockStart cb) (blockEnd cb));
      do r, p <- pure r (copy_to p (bufferStart cb) (bufferEnd cb) src);
      if decide (blockEnd cb = Z.of_nat (length block))
      then (set_cache r (delete (BlockId info) (cachedBlocks r)), Ok p) else (r, Ok p)
  | (r, Panic) => (r, Panic)
  | (r, _) => (r, Stuck)
  end.

Fixpoint read_blocks (r : EcosReader) (p : bytes) (l : list calcBlock) : EcosReader * res bytes :=
  match l with
  | [] => (r, Ok p)
  | cb :: l' => do r, p <- read_block r p cb; read_blocks r p l'
  end.

(** [count] in the order the goroutines add to it. *)
Definition count_of (l : list calcBlock) : Z :=
  foldl (fun n cb => i64 (n + i64 (bufferEnd cb - bufferStart cb))) 0 l.

Definition is_ready (r : EcosReader) : bool :=
  match rd_meta r, rd_pipes r with Some _, Some _ => true | _, _ => false end.

(** [Read]: the buffer, the number of bytes, and whether there is more. An error of
    [genPipelines] is logged and forgotten. *)
Definition Read (attempts : list (res ObjectMeta * res unit)) (sched : list calcBlock -> list calcBlock)
    (r : EcosReader) (p : bytes) : EcosReader * res (bytes * Z * bool) :=
  match (if is_ready r then (r, Ok tt) else genPipelines attempts r) with
  | (r, Panic) => (r, Panic)
  | (r, Stuck) => (r, Stuck)
  | (r, _) =>
      match calcBlocks r (Z.of_nat (length p)) with
      | Ok (r, l, more) =>
          do r, p <- read_blocks r p (sched l);
          (r, Ok (p, count_of (sched l), more))
      | Err e => (r, Err e)
      | Panic => (r, Panic)
      | Stuck => (r, Stuck)
      end
  end.

(** ** Seeking *)

Inductive Whence := SeekStart | SeekCurrent | SeekEnd | SeekOther.

(** [for i := 0; i <= curBlockIndex; i++] over the blocks: out of range in an empty object. *)
Definition block_ends (bs : list BlockInfo) (n : nat) : res Z :=
  if decide (n < length bs)%nat
  then Ok (foldl (fun acc b => i64 (acc + i64 (BI_BlockSize b))) 0 (take (S n) bs)) else Panic.

Definition Seek (attempts : list (res ObjectMeta * res unit)) (r : EcosReader) (offset : Z) (whence : Whence)
    : EcosReader * res Z :=
  do r, _ <- (if is_ready r then (r, Ok tt) else genPipelines attempts r);
  do r, meta <- pure r (or_panic (rd_meta r));
  do r, curOffset <- pure r (block_ends (Blocks meta) (curBlockIndex r));
  do r, no <- (match whence with
               | SeekStart => (set_cur r 0 0, Ok (offset, offset))
               | SeekCurrent => (r, Ok (i64 (curOffset + offset), offset))
               | SeekEnd => let newOffset := i64 (i64 (ObjSize meta) - offset) in
                            (r, Ok (newOffset, i64 (newOffset - curOffset)))
               | SeekOther => (r, Err (EErrno IllegalStatus))
               end);
  match calcBlocks r no.2 with
  | Ok (r, _, true) =>
      if decide (no.1 < 0 \/ i64 (ObjSize meta) < no.1) then (r, Err (ENew "seek out of range")) else (r, Ok no.1)
  | Ok (r, _, false) => (r, Err EEOF)
  | Err e => (r, Err e)
  | Panic => (r, Panic)
  | Stuck => (r, Stuck)
  end.

(** Reading on with buffers of the given sizes, until the end of the object. *)
Fixpoint read_on (sched : list calcBlock -> list calcBlock) (r : EcosReader) (sizes : list nat)
    : EcosReader * res (bytes * bool) :=
  match sizes with
  | [] => (r, Ok ([], true))
  | n :: sizes' =>
      do r, x <- Read [] sched r (replicate n x00);
      let '(p, count, more) := x in
      let got := take (Z.to_nat count) p in
      if more : bool then
        do r, y <- read_on sched r sizes';
        (r, Ok (got ++ y.1, y.2))
      else (r, Ok (got, false))
  end.

End reader.
