(* ===== verification/ReaderProofs.v ===== *)
(** * The reader returns the object

    Proofs about [Reader.v]: under every order of the goroutines, reading with any
    sequence of buffers returns the bytes the storage nodes hold, from any
    position reached by [Seek] from the start; and what happens to the other ways
    of seeking and to blocks that are shorter than recorded. *)

From S2P Require Import Prelude GoStd Errno Infos Object Pipeline GaiaMsg Block Reader.

Section content.

(** What each block holds on its node. *)
Context (held : string -> bytes).

Definition size_of (b : BlockInfo) : nat := Z.to_nat (BI_BlockSize b).

(** A block as the reader sees it: as long as recorded, padded with zero bytes. *)
Definition seen (b : BlockInfo) : bytes :=
  held (BlockId b) ++ replicate (size_of b - length (held (BlockId b))) x00.

Definition object_bytes (bs : list BlockInfo) : bytes := concat (seen <$> bs).

Definition sized (cap : Z) (b : BlockInfo) : Prop :=
  0 < BI_BlockSize b /\ Z.of_nat (length (held (BlockId b))) <= BI_BlockSize b /\ BI_BlockSize b <= cap.

Lemma seen_length cap b : sized cap b -> length (seen b) = size_of b.
Proof. intros (H1 & H2 & _). unfold seen, size_of in *. rewrite length_app, length_replicate. lia. Qed.

(** ** The plan of a read *)

(** An entry copies [n] bytes of block [k] to place [t] of the buffer, and they
    are the bytes the object has there. *)
Definition entry (i : nat) (bs : list BlockInfo) (rest : bytes) (bo expect : nat) (cb : calcBlock) : Prop :=
  exists k b s n t, bs !! k = Some b /\
    cb = mkCalcBlock (i + k) (Z.of_nat s) (Z.of_nat (s + n)) (Z.of_nat t) (Z.of_nat (t + n)) /\
    (s + n <= size_of b)%nat /\ (bo <= t)%nat /\ (t + n <= expect)%nat /\
    take n (drop s (seen b)) = take n (drop (t - bo) rest).

Definition covers (cb : calcBlock) (k : nat) : Prop := bufferStart cb <= Z.of_nat k < bufferEnd cb.

Definition width (cb : calcBlock) : Z := bufferEnd cb - bufferStart cb.

Lemma object_bytes_cons b bs : object_bytes (b :: bs) = seen b ++ object_bytes bs.
Proof. done. Qed.

(** The entry of the block the read stands in. *)
Lemma entry_here i b bs cap o bo expect n :
  sized cap b -> (o + n <= size_of b)%nat -> (bo + n <= expect)%nat ->
  entry i (b :: bs) (drop o (object_bytes (b :: bs))) bo expect
    (mkCalcBlock i (Z.of_nat o) (Z.of_nat (o + n)) (Z.of_nat bo) (Z.of_nat (bo + n))).
Proof.
  intros Hb Hn Hx. pose proof (seen_length cap b Hb) as Hlen.
  exists 0%nat, b, o, n, bo. split_and!; try done; try lia; [f_equal; lia|].
  rewrite object_bytes_cons, Nat.sub_diag, drop_0, drop_app_le, take_app_le by (rewrite ?length_drop; lia). done.
Qed.

(** An entry of the plan for the blocks that follow, [m] bytes further. *)
Lemma entry_next i b bs rest m bo expect cb :
  entry (S i) bs (drop m rest) (bo + m) expect cb -> entry i (b :: bs) rest bo expect cb.
Proof.
  intros (k & b' & s & n & t & Hk & -> & H1 & H2 & H3 & H4).
  exists (S k), b', s, n, t. split_and!; try done; try lia; [f_equal; lia|].
  rewrite H4, drop_drop. do 2 f_equal. lia.
Qed.

(** One turn of the loop in natural numbers: a block that is read to its end, and one
    that is not. *)
Lemma calc_loop_full b bs i cur o bo pend (m := (size_of b - o)%nat) : BI_BlockSize b = Z.of_nat (size_of b) ->
  (o < size_of b <= o + pend)%nat -> Z.of_nat (bo + pend) < 2 ^ 62 -> Z.of_nat (size_of b) < 2 ^ 62 ->
  calc_loop (Z.of_nat (bo + pend)) (b :: bs) i cur (Z.of_nat o) (Z.of_nat bo) (Z.of_nat pend) =
    let '(l, pos, fin) := calc_loop (Z.of_nat (bo + m + (pend - m))) bs (S i) i 0 (Z.of_nat (bo + m)) (Z.of_nat (pend - m)) in
    (mkCalcBlock i (Z.of_nat o) (Z.of_nat (o + m)) (Z.of_nat bo) (Z.of_nat (bo + m)) :: l, pos, fin).
Proof.
  intros Hsz Ho Hb Hb2. cbn [calc_loop]. subst m. set (m := (size_of b - o)%nat).
  rewrite (i64_id (Z.of_nat o + Z.of_nat pend)), (u64_id (Z.of_nat o + Z.of_nat pend)), Hsz by (unfold is_i64, is_u64; lia).
  rewrite decide_True by lia. rewrite (i64_id (Z.of_nat (size_of b))) by (unfold is_i64; lia).
  rewrite (i64_id (Z.of_nat bo + Z.of_nat (size_of b))) by (unfold is_i64; lia).
  replace (Z.of_nat bo + Z.of_nat (size_of b) - Z.of_nat o) with (Z.of_nat (bo + m)) by lia.
  rewrite (i64_id (Z.of_nat (bo + m))) by (unfold is_i64; lia).
  replace (Z.of_nat (bo + pend) - Z.of_nat (bo + m)) with (Z.of_nat (pend - m)) by lia.
  rewrite (i64_id (Z.of_nat (pend - m))) by (unfold is_i64; lia).
  replace (bo + pend)%nat with (bo + m + (pend - m))%nat by lia. by replace (Z.of_nat (size_of b)) with (Z.of_nat (o + m)) by lia.
Qed.

Lemma calc_loop_part b bs i cur o bo pend : BI_BlockSize b = Z.of_nat (size_of b) -> (o + pend < size_of b)%nat ->
  Z.of_nat (bo + pend) < 2 ^ 62 -> Z.of_nat (size_of b) < 2 ^ 62 ->
  calc_loop (Z.of_nat (bo + pend)) (b :: bs) i cur (Z.of_nat o) (Z.of_nat bo) (Z.of_nat pend) =
    ([mkCalcBlock i (Z.of_nat o) (Z.of_nat (o + pend)) (Z.of_nat bo) (Z.of_nat (bo + pend))], (i, Z.of_nat (o + pend)), true).
Proof.
  intros Hsz Ho Hb Hb2. cbn [calc_loop].
  rewrite (i64_id (Z.of_nat o + Z.of_nat pend)), (u64_id (Z.of_nat o + Z.of_nat pend)), Hsz by (unfold is_i64, is_u64; lia).
  rewrite decide_False by lia. rewrite (i64_id (Z.of_nat bo + Z.of_nat pend)) by (unfold is_i64; lia). by rewrite !Nat2Z.inj_add.
Qed.

Lemma calc_loop_spec cap bs : forall i cur o bo pend l ci co fin,
  Forall (sized cap) bs ->
  (forall b, head bs = Some b -> (o < size_of b)%nat) ->
  (Z.of_nat (bo + pend) < 2 ^ 62) -> (Z.of_nat (bo + length (object_bytes bs)) < 2 ^ 62) ->
  calc_loop (Z.of_nat (bo + pend)) bs i cur (Z.of_nat o) (Z.of_nat bo) (Z.of_nat pend) = (l, (ci, co), fin) ->
  let rest := drop o (object_bytes bs) in
  Forall (entry i bs rest bo (bo + pend)) l /\
  (forall k, (bo <= k < bo + Nat.min pend (length rest))%nat -> exists cb, cb ∈ l /\ covers cb k) /\
  sum_of width l = Z.of_nat (Nat.min pend (length rest)) /\
  fin = bool_decide (pend < length rest)%nat /\
  (fin = true -> exists k b o', ci = (i + k)%nat /\ co = Z.of_nat o' /\ bs !! k = Some b /\ (o' < size_of b)%nat /\
     drop o' (object_bytes (drop k bs)) = drop pend rest).
Proof.
  induction bs as [|b bs IH]; intros i cur o bo pend l ci co fin Hs Ho Hb1 Hb2 E rest.
  { simpl in E. injection E as <- <- <- <-. subst rest. unfold object_bytes. simpl. rewrite drop_nil. simpl.
    rewrite Nat.min_0_r. split_and!; try done; intros; lia. }
  inv Hs. rename H1 into Hb, H2 into Hbs.
  pose proof (seen_length cap b Hb) as Hlen. specialize (Ho b eq_refl).
  assert (Hrest : rest = drop o (seen b) ++ object_bytes bs).
  { subst rest. rewrite object_bytes_cons, drop_app_le by lia. done. }
  rewrite object_bytes_cons, length_app, Hlen in Hb2. assert (Hsz : BI_BlockSize b = Z.of_nat (size_of b)).
  { destruct Hb as (? & _). unfold size_of. lia. }
  assert (Hrl : length rest = (size_of b - o + length (object_bytes bs))%nat).
  { rewrite Hrest, length_app, length_drop. lia. }
  destruct (decide (size_of b <= o + pend)%nat) as [Hfull|Hpart].
  - rewrite calc_loop_full in E by (done || lia). set (m := (size_of b - o)%nat) in *.
    destruct (calc_loop _ bs _ _ _ _ _) as [[l' [ci' co']] fin'] eqn:E'. injection E as <- <- <- <-.
    change 0 with (Z.of_nat 0) in E'.
    destruct (IH (S i) i 0%nat (bo + m)%nat (pend - m)%nat l' ci' co' fin') as (IH1 & IH2 & IH3 & IH4 & IH5);
      try done; try lia.
    { intros b' Hb'. destruct bs as [|b'' bs']; [done|]. injection Hb' as ->. inv Hbs.
      destruct H1 as (? & _). unfold size_of. lia. }
    rewrite drop_0 in *. assert (Hdm : drop m rest = object_bytes bs).
    { rewrite Hrest, drop_app_ge, length_drop, Hlen by (rewrite length_drop; lia).
      replace (m - (size_of b - o))%nat with 0%nat by lia. done. }
    split_and!.
    + constructor.
      * apply (entry_here _ _ _ cap); [done|lia|lia].
      * eapply Forall_impl; [exact IH1|]. intros cb Hcb. apply (entry_next _ _ _ _ m). rewrite Hdm.
        by replace (bo + pend)%nat with (bo + m + (pend - m))%nat by lia.
    + intros k Hk. destruct (decide (k < bo + m)%nat).
      * eexists. split; [by left|]. unfold covers. simpl. lia.
      * destruct (IH2 k) as (cb & Hcb & Hc); [lia|]. exists cb. split; [by right|done].
    + simpl. rewrite IH3. unfold width. simpl. lia.
    + rewrite IH4. apply bool_decide_ext. lia.
    + intros Hf. destruct (IH5 Hf) as (k & b' & o' & H1 & H2 & H3 & H4 & H5).
      exists (S k), b', o'. split_and!; try done; [lia|]. cbn [drop]. rewrite H5.
      replace pend with (m + (pend - m))%nat at 2 by lia. by rewrite <- drop_drop, Hdm.
  - rewrite calc_loop_part in E by (done || lia). injection E as <- <- <- <-. split_and!.
    + constructor; [|done]. apply (entry_here _ _ _ cap); [done|lia|lia].
    + intros k Hk. eexists. split; [by left|]. unfold covers. simpl. lia.
    + simpl. unfold width. simpl. lia.
    + symmetry. apply bool_decide_eq_true. lia.
    + intros _. exists 0%nat, b, (o + pend)%nat. split_and!; try done; try lia.
      rewrite drop_0. subst rest. by rewrite drop_drop.
Qed.

End content.

(** ** Copying into the buffer *)

Lemma copy_to_ok (p target src : bytes) (t n : nat) : (t + n <= length p)%nat -> length src = n ->
  src = take n (drop t target) ->
  exists p', copy_to p (Z.of_nat t) (Z.of_nat (t + n)) src = Ok p' /\ length p' = length p /\
    forall k, (t <= k < t + n)%nat \/ p !! k = target !! k -> p' !! k = target !! k.
Proof.
  intros Hp Hn Hsrc. unfold copy_to. rewrite decide_True by lia.
  replace (Z.to_nat (Z.of_nat (t + n) - Z.of_nat t)) with n by lia.
  rewrite Hn, Nat.min_id, Nat2Z.id, (take_ge src) by lia. eexists. split; [done|]. split.
  { rewrite !length_app, length_take, length_drop. lia. }
  intros k Hk. destruct (decide (k < t)%nat) as [Hlt|Hge].
  - rewrite lookup_app_l by (rewrite length_take; lia). rewrite lookup_take_lt by lia. destruct Hk; [lia|done].
  - rewrite lookup_app_r by (rewrite length_take; lia). rewrite length_take, Nat.min_l by lia.
    destruct (decide (k < t + n)%nat) as [Hin|Hout].
    + rewrite lookup_app_l by lia. rewrite Hsrc, lookup_take_lt, lookup_drop by lia. f_equal. lia.
    + rewrite lookup_app_r by lia. rewrite Hn, lookup_drop. destruct Hk; [lia|].
      rewrite <- H. f_equal. lia.
Qed.

(** Reading a slice within the recorded size reads what is seen. *)
Lemma slice_cap_seen held cap b s n : sized held cap b -> (s + n <= size_of b)%nat ->
  slice_cap cap (held (BlockId b)) (Z.of_nat s) (Z.of_nat (s + n)) = Ok (take n (drop s (seen held b))).
Proof.
  intros (H1 & H2 & H3) Hs. unfold size_of in Hs. unfold slice_cap. rewrite decide_True by lia.
  replace (Z.to_nat (Z.of_nat (s + n) - Z.of_nat s)) with n by lia. rewrite Nat2Z.id. f_equal.
  set (h := held (BlockId b)) in *. set (sz := size_of b).
  replace (Z.to_nat (cap - Z.of_nat (length h))) with ((sz - length h) + Z.to_nat (cap - BI_BlockSize b))%nat
    by (unfold sz, size_of; lia).
  rewrite replicate_add, app_assoc. fold (seen held b). unfold sz, h. fold (seen held b).
  assert (length (seen held b) = size_of b) as Hl by (eapply seen_length; by split).
  rewrite drop_app_le by (rewrite Hl; unfold size_of; lia).
  rewrite take_app_le; [done|]. rewrite length_drop, Hl. unfold size_of. lia.
Qed.

Lemma count_of_sum l : forall acc, 0 <= acc -> Forall (fun cb => 0 <= width cb) l -> acc + sum_of width l < 2 ^ 62 ->
  foldl (fun n cb => i64 (n + i64 (bufferEnd cb - bufferStart cb))) acc l = acc + sum_of width l.
Proof.
  induction l as [|cb l IH]; intros acc Ha Hf Hb; [simpl; lia|]. inv Hf. simpl in Hb |- *.
  assert (0 <= sum_of width l) by by apply sum_of_nonneg. unfold width in H1 at 1, Hb at 1 |- * at 1.
  rewrite (i64_id (bufferEnd cb - bufferStart cb)), i64_id by (unfold is_i64; lia).
  rewrite IH by (done || lia). lia.
Qed.

Lemma sum_of_Permutation {A} (f : A -> Z) l l' : l ≡ₚ l' -> sum_of f l = sum_of f l'.
Proof. induction 1; simpl; lia. Qed.

(** ** One read *)

Section reading.
Context `{HR : HashRing, CR : Crush}.
Context (conf : ConnectType) (cap : Z).
Context (agent_Get : InfoType -> string -> res Information).
Context (fetch_edge : NodeInfo -> string -> Z -> res Stream).
Context (fetch_cloud : string -> Z -> res Stream).
Context (held : string -> bytes) (m : ObjectMeta).

Definition source (r : EcosReader) (b : BlockInfo) : res bytes :=
  match conf with
  | ConnectCloud => GetBlockByCloud fetch_cloud r b
  | ConnectEdge => GetBlockByEdge agent_Get fetch_edge r b
  end.

(** A reader that has its metadata and pipelines, whose blocks can be fetched, and
    whose cache holds what the nodes hold. *)
Definition reader_ok (r : EcosReader) : Prop :=
  rd_meta r = Some m /\ is_ready r = true /\ Forall (sized held cap) (Blocks m) /\
  Z.of_nat (length (object_bytes held (Blocks m))) < 2 ^ 61 /\
  (forall b, b ∈ Blocks m -> source r b = Ok (held (BlockId b))) /\
  map_Forall (fun id x => x = held id) (cachedBlocks r).

(** The reader stands before [rest]. *)
Definition stands (r : EcosReader) (rest : bytes) : Prop :=
  exists o, curBlockOffset r = Z.of_nat o /\
    (forall b, head (drop (curBlockIndex r) (Blocks m)) = Some b -> (o < size_of b)%nat) /\
    rest = drop o (object_bytes held (drop (curBlockIndex r) (Blocks m))).

Lemma reader_ok_cur r i o : reader_ok r -> reader_ok (set_cur r i o).
Proof. by intros (H1 & H2 & H3 & H4 & H5 & H6). Qed.

Lemma reader_ok_cache r c : reader_ok r -> map_Forall (fun id x => x = held id) c -> reader_ok (set_cache r c).
Proof. by intros (H1 & H2 & H3 & H4 & H5 & H6) Hc. Qed.

Lemma GetBlock_ok r b : reader_ok r -> b ∈ Blocks m ->
  exists c, GetBlock conf agent_Get fetch_edge fetch_cloud r b = (set_cache r c, Ok (held (BlockId b))) /\
    map_Forall (fun id x => x = held id) c.
Proof.
  intros (H1 & H2 & H3 & H4 & H5 & H6) Hb. unfold GetBlock. destruct (cachedBlocks r !! BlockId b) as [x|] eqn:E.
  - exists (cachedBlocks r). rewrite (H6 _ _ E). by destruct r.
  - specialize (H5 b Hb). unfold source in H5. rewrite H5. eexists. split; [done|]. by apply map_Forall_insert_2.
Qed.

Lemma read_block_ok r (p target : bytes) cb (i0 : nat) bo expect :
  reader_ok r -> entry held i0 (drop i0 (Blocks m)) target bo expect cb -> bo = 0%nat -> (expect <= length p)%nat ->
  exists c p', read_block conf cap agent_Get fetch_edge fetch_cloud r p cb = (set_cache r c, Ok p') /\
    map_Forall (fun id x => x = held id) c /\ length p' = length p /\
    forall k, covers cb k \/ p !! k = target !! k -> p' !! k = target !! k.
Proof.
  intros Hok (k & b & s & n & t & Hk & -> & Hs & _ & Ht & Heq) -> Hp.
  rewrite lookup_drop in Hk. pose proof Hok as (Hm & _ & Hsz & _).
  assert (Hb : sized held cap b) by (rewrite List.Forall_forall in Hsz; apply Hsz, list_elem_of_In; by eapply list_elem_of_lookup_2).
  unfold read_block. rewrite Hm. cbn [or_panic pure st_bind blockIndex]. rewrite Hk. cbn [or_panic pure st_bind].
  destruct (GetBlock_ok r b Hok) as (c & -> & Hc); [by eapply list_elem_of_lookup_2|].
  cbn [blockStart blockEnd bufferStart bufferEnd]. rewrite slice_cap_seen by done. cbn [pure st_bind].
  rewrite Nat.sub_0_r in Heq.
  destruct (copy_to_ok p target (take n (drop s (seen held b))) t n) as (p' & Hcp & Hl & Hg); try (done || lia).
  { rewrite length_take, length_drop, (seen_length held cap b Hb). lia. }
  rewrite Hcp. cbn [st_bind].
  assert (forall k, covers (mkCalcBlock (i0 + k) (Z.of_nat s) (Z.of_nat (s + n)) (Z.of_nat t) (Z.of_nat (t + n))) k ->
            (t <= k < t + n)%nat) as Hcov by (intros ? [? ?]; simpl in *; lia).
  destruct (decide _).
  - exists (delete (BlockId b) c), p'. split; [by destruct r|]. split; [by apply map_Forall_delete|]. split; [done|].
    intros j [[Hj1 Hj2]|Hj]; apply Hg; [left; simpl in *; lia|by right].
  - exists c, p'. split; [done|]. split; [done|]. split; [done|].
    intros j [[Hj1 Hj2]|Hj]; apply Hg; [left; simpl in *; lia|by right].
Qed.

Lemma read_blocks_ok target (i0 : nat) expect l : forall r (p : bytes),
  reader_ok r -> Forall (entry held i0 (drop i0 (Blocks m)) target 0 expect) l -> (expect <= length p)%nat ->
  exists c p', read_blocks conf cap agent_Get fetch_edge fetch_cloud r p l = (set_cache r c, Ok p') /\
    map_Forall (fun id x => x = held id) c /\ length p' = length p /\
    forall k, (exists cb, cb ∈ l /\ covers cb k) \/ p !! k = target !! k -> p' !! k = target !! k.
Proof.
  induction l as [|cb l IH]; intros r p Hok Hl Hp.
  - exists (cachedBlocks r), p. split; [by destruct r|]. split; [apply Hok|]. split; [done|].
    intros k [(cb & Hcb & _)|Hk]; [by apply not_elem_of_nil in Hcb|done].
  - inv Hl. destruct (read_block_ok r p target cb i0 0 expect Hok H1 eq_refl Hp) as (c & p1 & E & Hc & Hl1 & Hg).
    cbn [read_blocks]. rewrite E. cbn [st_bind].
    destruct (IH (set_cache r c) p1) as (c' & p' & E' & Hc' & Hl' & Hg'); [by apply reader_ok_cache|done|lia|].
    exists c', p'. rewrite E'. split; [done|]. split; [done|]. split; [lia|].
    intros k Hk. apply Hg'. destruct Hk as [(cb' & Hin & Hcov)|Hk]; [|right; apply Hg; by right].
    apply elem_of_cons in Hin as [->|Hin]; [right; apply Hg; by left|left; by exists cb'].
Qed.

Context (sched : list calcBlock -> list calcBlock) (Hsched : forall l, sched l ≡ₚ l).

(** One read fills the buffer from where the reader stands and moves it on. *)
Lemma Read_ok r rest (p : bytes) attempts :
  reader_ok r -> stands r rest -> Z.of_nat (length p) < 2 ^ 61 ->
  exists r' p', Read conf cap agent_Get fetch_edge fetch_cloud attempts sched r p =
      (r', Ok (p', Z.of_nat (Nat.min (length p) (length rest)), bool_decide (length p < length rest)%nat)) /\
    take (Nat.min (length p) (length rest)) p' = take (length p) rest /\
    reader_ok r' /\ ((length p < length rest)%nat -> stands r' (drop (length p) rest)).
Proof.
  intros Hok (o & Ho & Hlt & Hrest) Hp. pose proof Hok as (Hm & Hrdy & Hsz & Htot & _).
  unfold Read. rewrite Hrdy. unfold calcBlocks. rewrite Hm, Ho. cbn [or_panic mbind res_bind].
  set (i0 := curBlockIndex r) in *. set (bs := drop i0 (Blocks m)) in *.
  assert (Hbs : (length (object_bytes held bs) <= length (object_bytes held (Blocks m)))%nat).
  { unfold bs, object_bytes. rewrite <- (take_drop i0 (Blocks m)) at 2.
    rewrite fmap_app, concat_app, length_app. lia. }
  destruct (calc_loop _ bs i0 i0 _ 0 _) as [[l [ci co]] fin] eqn:E.
  change 0 with (Z.of_nat 0) in E.
  destruct (calc_loop_spec held cap bs i0 i0 o 0 (length p) l ci co fin) as (H1 & H2 & H3 & H4 & H5);
    try done; try lia.
  { unfold bs. by apply Forall_drop. }
  rewrite <- Hrest in H1, H2, H3, H4, H5. cbn [Nat.add] in H1, H2.
  destruct (read_blocks_ok rest i0 (length p) (sched l) (set_cur r ci co) p) as (c & p' & Er & Hc & Hl & Hg); try done.
  { rewrite Hsched. exact H1. }
  rewrite Er. cbn [st_bind].
  assert (Hcount : count_of (sched l) = Z.of_nat (Nat.min (length p) (length rest))).
  { unfold count_of. rewrite count_of_sum; [|lia| |].
    - rewrite (sum_of_Permutation _ _ _ (Hsched l)), H3. lia.
    - rewrite Hsched. eapply Forall_impl; [exact H1|]. intros cb (k & b & s & n & t & _ & -> & _). unfold width. simpl. lia.
    - rewrite (sum_of_Permutation _ _ _ (Hsched l)), H3. lia. }
  rewrite Hcount, H4. eexists _, p'. split; [done|]. split_and!.
  - apply list_eq. intros k. destruct (decide (k < Nat.min (length p) (length rest))%nat) as [Hk|Hk].
    + rewrite !lookup_take_lt by lia. apply Hg. left. destruct (H2 k) as (cb & Hcb & Hcov); [lia|].
      exists cb. split; [by rewrite Hsched|done].
    + rewrite !lookup_ge_None_2; [done|rewrite length_take; lia|rewrite length_take; lia].
  - by apply reader_ok_cache; [apply reader_ok_cur|].
  - intros Hmore. rewrite H4, bool_decide_true in H5 by done.
    destruct (H5 eq_refl) as (k & b & o' & -> & -> & Hb & Ho' & Hd).
    exists o'. split; [done|]. cbn [set_cache set_cur curBlockIndex].
    assert (Hdd : drop (i0 + k) (Blocks m) = drop k bs) by (unfold bs; by rewrite drop_drop).
    rewrite Hdd. split; [|by rewrite Hd].
    intros b' Hb'. rewrite (drop_S _ _ _ Hb) in Hb'. by injection Hb' as <-.
Qed.

Lemma read_on_ok sizes : forall r rest, reader_ok r -> stands r rest -> rest <> [] -> Z.of_nat (sum_list sizes) < 2 ^ 61 ->
  exists r', read_on conf cap agent_Get fetch_edge fetch_cloud sched r sizes =
    (r', Ok (take (sum_list sizes) rest, bool_decide (sum_list sizes < length rest)%nat)).
Proof.
  induction sizes as [|n sizes IH]; intros r rest Hok Hst Hne Hs.
  { exists r. simpl. rewrite bool_decide_true; [done|]. destruct rest; [done|simpl; lia]. }
  simpl in Hs. cbn [read_on].
  destruct (Read_ok r rest (replicate n x00) [] Hok Hst) as (r' & p' & E & Hp & Hok' & Hst');
    [rewrite length_replicate; lia|]. rewrite length_replicate in E, Hp, Hst'. rewrite E. cbn [st_bind].
  rewrite Nat2Z.id, Hp. destruct (decide (n < length rest)%nat) as [Hlt|Hge].
  - rewrite bool_decide_true by done.
    destruct (IH r' (drop n rest)) as (r2 & E2); try lia; [done|by apply Hst'| |].
    { intros Hd. apply (f_equal length) in Hd. rewrite length_drop in Hd. simpl in Hd. lia. }
    rewrite E2. cbn [st_bind fst snd]. exists r2. simpl. rewrite length_drop. do 3 f_equal.
    + apply take_take_drop.
    + apply bool_decide_ext. lia.
  - rewrite bool_decide_false by done. exists r'. simpl. rewrite !take_ge by lia.
    rewrite bool_decide_false by lia. done.
Qed.

(** The start of the object, and the place a seek from the start moves to. *)
Lemma stands_start r : reader_ok r -> curBlockIndex r = 0%nat -> curBlockOffset r = 0 ->
  stands r (object_bytes held (Blocks m)).
Proof.
  intros (_ & _ & Hsz & _) Hi Ho. exists 0%nat. rewrite Hi, Ho, !drop_0. split_and!; try done.
  intros b Hb. destruct (Blocks m) as [|b' bs]; [done|]. injection Hb as ->. inv Hsz.
  destruct H1 as (? & _). unfold size_of. lia.
Qed.

Lemma SeekStart_ok r (o : nat) attempts : reader_ok r -> (curBlockIndex r < length (Blocks m))%nat ->
  ObjSize m = Z.of_nat (length (object_bytes held (Blocks m))) ->
  (o < length (object_bytes held (Blocks m)))%nat ->
  exists r', Seek agent_Get attempts r (Z.of_nat o) SeekStart = (r', Ok (Z.of_nat o)) /\
    reader_ok r' /\ stands r' (drop o (object_bytes held (Blocks m))).
Proof.
  intros Hok Hi Hsize Ho. pose proof Hok as (Hm & Hrdy & Hsz & Htot & _). unfold Seek. rewrite Hrdy. cbn [st_bind].
  rewrite Hm. cbn [or_panic pure st_bind]. unfold block_ends. rewrite decide_True by done. cbn [pure st_bind snd fst].
  unfold calcBlocks. cbn [set_cur rd_meta curBlockIndex curBlockOffset]. rewrite Hm. cbn [or_panic mbind res_bind].
  rewrite drop_0. destruct (calc_loop _ _ _ _ _ _ _) as [[l [ci co]] fin] eqn:E.
  change 0 with (Z.of_nat 0) in E. change (Z.of_nat o) with (Z.of_nat (0 + o)) in E.
  destruct (calc_loop_spec held cap (Blocks m) 0 0 0 0 o l ci co fin) as (_ & _ & _ & H4 & H5); try done; try lia.
  { intros b Hb. destruct (Blocks m) as [|b' bs]; [done|]. injection Hb as ->. inv Hsz.
    destruct H1 as (? & _). unfold size_of. lia. }
  rewrite drop_0 in H4, H5. rewrite H4, bool_decide_true by done.
  rewrite H4, bool_decide_true in H5 by done. destruct (H5 eq_refl) as (k & b & o' & -> & -> & Hb & Hlt & Hd).
  rewrite i64_id by (unfold is_i64; lia). rewrite decide_False by lia.
  eexists. split; [done|]. split; [by apply reader_ok_cur, reader_ok_cur|].
  exists o'. split; [done|]. cbn [set_cur curBlockIndex Nat.add]. split; [|done].
  intros b' Hb'. rewrite (drop_S _ _ _ Hb) in Hb'. by injection Hb' as <-.
Qed.

End reading.

(** ** Properties *)

(** A fresh reader reads the object from its first byte. *)
Lemma read_from_start `{HR : HashRing, CR : Crush} conf cap agent_Get fetch_edge fetch_cloud held m sched r sizes :
  (forall l, sched l ≡ₚ l) -> reader_ok conf cap agent_Get fetch_edge fetch_cloud held m r ->
  curBlockIndex r = 0%nat -> curBlockOffset r = 0 -> Blocks m <> [] -> Z.of_nat (sum_list sizes) < 2 ^ 61 ->
  let content := object_bytes held (Blocks m) in
  exists r', read_on conf cap agent_Get fetch_edge fetch_cloud sched r sizes =
    (r', Ok (take (sum_list sizes) content, bool_decide (sum_list sizes < length content)%nat)).
Proof.
  intros Hsched Hok Hi Ho Hne Hs content. eapply (read_on_ok conf cap agent_Get fetch_edge fetch_cloud held m sched Hsched);
    [done|by apply (stands_start conf cap agent_Get fetch_edge fetch_cloud)| |done].
  destruct Hok as (_ & _ & Hsz & _). subst content. destruct (Blocks m) as [|b bs]; [done|]. inv Hsz.
  intros Hc. apply (f_equal length) in Hc. unfold object_bytes in Hc. simpl in Hc.
  rewrite length_app, (seen_length held cap b) in Hc by done. destruct H1 as (? & _). unfold size_of in Hc. lia.
Qed.

(** C9: reading an object returns the object. Under every order of the goroutines
    and for buffers of any sizes, a reader that starts at the beginning returns
    the blocks' bytes in order, no more than was asked for, and reports the end
    exactly when everything has been read. (A block shorter than recorded counts
    with zero bytes at its end; see [short_block_reads_zeros].) *)
Theorem object_read_back `{HR : HashRing, CR : Crush} conf cap agent_Get fetch_edge fetch_cloud held m sched r sizes :
  (forall l, sched l ≡ₚ l) -> reader_ok conf cap agent_Get fetch_edge fetch_cloud held m r ->
  curBlockIndex r = 0%nat -> curBlockOffset r = 0 -> Blocks m <> [] -> Z.of_nat (sum_list sizes) < 2 ^ 61 ->
  let content := object_bytes held (Blocks m) in
  exists r', read_on conf cap agent_Get fetch_edge fetch_cloud sched r sizes =
    (r', Ok (take (sum_list sizes) content, bool_decide (sum_list sizes < length content)%nat)).
Proof. apply read_from_start. Qed.

(** Two blocks, the second one byte shorter on its node than recorded. *)
Definition demo_held (id : string) : bytes := if decide (id = "b1") then [x01; x02; x03] else [x04].

Definition demo_blocks : list BlockInfo := [mkBlockInfo "b1" 0 3 "" 1; mkBlockInfo "b2" 0 2 "" 1].

Definition demo_object : ObjectMeta := mkObjectMeta "/root/default/1/k" STATUS_OK POSITION_CLOUD 5 None "" 1 demo_blocks 7 None.

Definition demo_reader : EcosReader :=
  mkReader (Some demo_object) None (Some (mkClusterPipelines 7 [] [])) 0 0 ∅.

Definition no_info (t : InfoType) (id : string) : res Information := Err (EErrno InfoNotFound).
Definition no_edge (n : NodeInfo) (id : string) (term : Z) : res Stream := Err (EExt "no connection").
Definition demo_cloud (id : string) (term : Z) : res Stream := Ok ([demo_held id], None).

Lemma demo_reader_ok :
  @reader_ok length_ring ConnectCloud 4 no_info no_edge demo_cloud demo_held demo_object demo_reader.
Proof.
  split_and!; try done.
  - repeat constructor; simpl; lia.
  - intros b _. unfold source, GetBlockByCloud, demo_reader. cbn [rd_meta or_panic mbind res_bind demo_cloud recv_all concat].
    by rewrite app_nil_r.
Qed.

Lemma object_read_back_witness :
  exists r', @read_on length_ring first_crush ConnectCloud 4 no_info no_edge demo_cloud (@reverse calcBlock) demo_reader [2; 7]%nat =
    (r', Ok ([x01; x02; x03; x04; x00], false)).
Proof.
  exact (@object_read_back length_ring first_crush ConnectCloud 4 no_info no_edge demo_cloud demo_held demo_object
    (@reverse calcBlock) demo_reader [2; 7]%nat (@reverse_Permutation calcBlock) demo_reader_ok eq_refl eq_refl
    ltac:(discriminate) ltac:(vm_compute; reflexivity)).
Defined.

(** seeking from the start. [Seek] to an offset inside the object returns the
    offset, from wherever the reader was, and what is read afterwards is the
    object from there. *)
Theorem seek_start_reads `{HR : HashRing, CR : Crush} conf cap agent_Get fetch_edge fetch_cloud held m sched r
    (o : nat) sizes attempts :
  (forall l, sched l ≡ₚ l) -> reader_ok conf cap agent_Get fetch_edge fetch_cloud held m r ->
  let content := object_bytes held (Blocks m) in
  (curBlockIndex r < length (Blocks m))%nat -> ObjSize m = Z.of_nat (length content) -> (o < length content)%nat ->
  Z.of_nat (sum_list sizes) < 2 ^ 61 ->
  exists r1 r2, Seek agent_Get attempts r (Z.of_nat o) SeekStart = (r1, Ok (Z.of_nat o)) /\
    read_on conf cap agent_Get fetch_edge fetch_cloud sched r1 sizes =
      (r2, Ok (take (sum_list sizes) (drop o content), bool_decide (o + sum_list sizes < length content)%nat)).
Proof.
  intros Hsched Hok content Hi Hsize Ho Hs.
  destruct (SeekStart_ok conf cap agent_Get fetch_edge fetch_cloud held m r o attempts Hok Hi Hsize Ho)
    as (r1 & E & Hok1 & Hst1).
  destruct (read_on_ok conf cap agent_Get fetch_edge fetch_cloud held m sched Hsched sizes r1 _ Hok1 Hst1) as (r2 & E2);
    [|done|].
  { intros Hd. apply (f_equal length) in Hd. rewrite length_drop in Hd. simpl in Hd. unfold content in Ho. lia. }
  exists r1, r2. split; [done|]. rewrite E2. do 3 f_equal. apply bool_decide_ext. rewrite length_drop. unfold content. lia.
Qed.

Lemma seek_start_reads_witness :
  exists r1 r2, @Seek first_crush no_info [] demo_reader 2 SeekStart = (r1, Ok 2) /\
    @read_on length_ring first_crush ConnectCloud 4 no_info no_edge demo_cloud id r1 [2]%nat = (r2, Ok ([x03; x04], true)).
Proof.
  exact (@seek_start_reads length_ring first_crush ConnectCloud 4 no_info no_edge demo_cloud demo_held demo_object
    id demo_reader 2 [2]%nat [] (@Permutation_refl calcBlock) demo_reader_ok ltac:(simpl; lia) eq_refl
    ltac:(vm_compute; lia) ltac:(vm_compute; reflexivity)).
Defined.

(** the other ways to seek do not keep the position. At the start of an object
    that is not empty, [Seek(0, SeekCurrent)] reports the end of the first block
    although the reader does not move; [Seek] from the start to the end of the
    object is an end-of-file error; and any seek in an empty object panics. *)
Theorem seek_deviates `{HR : HashRing, CR : Crush} conf cap agent_Get fetch_edge fetch_cloud held m r attempts :
  reader_ok conf cap agent_Get fetch_edge fetch_cloud held m r -> curBlockIndex r = 0%nat -> curBlockOffset r = 0 ->
  ObjSize m = Z.of_nat (length (object_bytes held (Blocks m))) ->
  match Blocks m with
  | [] => forall o w, (Seek agent_Get attempts r o w).2 = Panic
  | b :: _ =>
      Seek agent_Get attempts r 0 SeekCurrent = (set_cur r 0 0, Ok (BI_BlockSize b)) /\
      (Seek agent_Get attempts r (ObjSize m) SeekStart).2 = Err EEOF
  end.
Proof.
  intros Hok Hi Ho Hsize. pose proof Hok as (Hm & Hrdy & Hsz & Htot & _). unfold Seek. rewrite Hrdy. cbn [st_bind].
  rewrite Hm. cbn [or_panic pure st_bind]. rewrite Hi. unfold block_ends.
  destruct (Blocks m) as [|b bs] eqn:Eb; [done|]. inv Hsz. rename H1 into Hb, H2 into Hbs. rewrite decide_True by (simpl; lia).
  pose proof (seen_length held cap b Hb) as Hlen. pose proof Hb as (Hb1 & _).
  assert (Hbs' : BI_BlockSize b = Z.of_nat (size_of b)) by (unfold size_of; lia).
  assert (Htot' : length (object_bytes held (b :: bs)) = (size_of b + length (object_bytes held bs))%nat)
    by (unfold object_bytes; simpl; by rewrite length_app, Hlen).
  cbn [pure st_bind snd fst]. unfold calcBlocks. cbn [set_cur rd_meta curBlockIndex curBlockOffset]. split.
  - rewrite Hm. cbn [or_panic mbind res_bind]. rewrite Hi, Ho, Eb, drop_0. cbn [calc_loop foldl take].
    rewrite (i64_id (0 + 0)), (u64_id (0 + 0)) by (unfold is_i64, is_u64; lia). rewrite decide_False by lia.
    change (take 0 bs) with (@nil BlockInfo). cbn [foldl].
    assert (i64 (i64 (0 + i64 (BI_BlockSize b)) + 0) = BI_BlockSize b) as ->.
    { rewrite (i64_id (BI_BlockSize b)) by (unfold is_i64; lia). rewrite Z.add_0_l, (i64_id (BI_BlockSize b)) by (unfold is_i64; lia).
      rewrite Z.add_0_r. apply i64_id. unfold is_i64. lia. }
    rewrite (i64_id (ObjSize m)) by (unfold is_i64; lia). rewrite decide_False by lia. done.
  - rewrite Hm. cbn [or_panic mbind res_bind]. rewrite Eb, drop_0.
    destruct (calc_loop _ _ _ _ _ _ _) as [[l [ci co]] fin] eqn:E.
    change 0 with (Z.of_nat 0) in E. rewrite Hsize in E.
    destruct (calc_loop_spec held cap (b :: bs) 0 0 0 0 (length (object_bytes held (b :: bs))) l ci co fin)
      as (_ & _ & _ & H4 & _); try done; try lia.
    { by constructor. }
    { intros b' [= <-]. lia. }
    rewrite drop_0, bool_decide_false in H4 by lia. by rewrite H4.
Qed.

Lemma seek_deviates_witness :
  @Seek first_crush no_info [] demo_reader 0 SeekCurrent = (set_cur demo_reader 0 0, Ok 3) /\
  (@Seek first_crush no_info [] demo_reader 5 SeekStart).2 = Err EEOF.
Proof.
  exact (@seek_deviates length_ring first_crush ConnectCloud 4 no_info no_edge demo_cloud demo_held demo_object demo_reader []
    demo_reader_ok eq_refl eq_refl eq_refl).
Defined.

(** a truncated block is not noticed. When a node holds fewer bytes of a block
    than its metadata records, reading it is no error: the reader returns what
    the node holds and zero bytes for the rest, and reports the recorded size. *)
Theorem short_block_reads_zeros `{HR : HashRing, CR : Crush} conf cap agent_Get fetch_edge fetch_cloud held m sched r
    (p : bytes) attempts b :
  (forall l, sched l ≡ₚ l) -> reader_ok conf cap agent_Get fetch_edge fetch_cloud held m r ->
  curBlockIndex r = 0%nat -> curBlockOffset r = 0 -> Blocks m = [b] ->
  (length (held (BlockId b)) < size_of b <= length p)%nat -> Z.of_nat (length p) < 2 ^ 61 ->
  exists r' p', Read conf cap agent_Get fetch_edge fetch_cloud attempts sched r p = (r', Ok (p', BI_BlockSize b, false)) /\
    take (size_of b) p' = held (BlockId b) ++ replicate (size_of b - length (held (BlockId b))) x00.
Proof.
  intros Hsched Hok Hi Ho Hb Hlen Hp.
  destruct (Read_ok conf cap agent_Get fetch_edge fetch_cloud held m sched Hsched r _ p attempts Hok
    (stands_start _ _ _ _ _ _ _ _ Hok Hi Ho) Hp) as (r' & p' & E & Ht & _).
  pose proof Hok as (_ & _ & Hsz & _). rewrite Hb in E, Ht, Hsz. inv Hsz.
  assert (object_bytes held [b] = seen held b) as Hc by (unfold object_bytes; simpl; apply app_nil_r).
  rewrite Hc in E, Ht. rewrite (seen_length held cap b) in E, Ht by done.
  rewrite Nat.min_r in E, Ht by lia. rewrite bool_decide_false in E by lia.
  exists r', p'. rewrite E, Ht. split.
  - do 4 f_equal. destruct H1 as (? & _). unfold size_of. lia.
  - rewrite take_ge; [done|]. rewrite (seen_length held cap b) by done. lia.
Qed.

Definition short_object : ObjectMeta :=
  mkObjectMeta "/root/default/1/k" STATUS_OK POSITION_CLOUD 2 None "" 1 [mkBlockInfo "b2" 0 2 "" 1] 7 None.

Definition short_reader : EcosReader := mkReader (Some short_object) None (Some (mkClusterPipelines 7 [] [])) 0 0 ∅.

Lemma short_reader_ok :
  @reader_ok length_ring ConnectCloud 4 no_info no_edge demo_cloud demo_held short_object short_reader.
Proof.
  split_and!; try done.
  - repeat constructor; simpl; lia.
  - intros b _. unfold source, GetBlockByCloud, short_reader. cbn [rd_meta or_panic mbind res_bind demo_cloud recv_all concat].
    by rewrite app_nil_r.
Qed.

Lemma short_block_reads_zeros_witness :
  exists r' p', @Read length_ring first_crush ConnectCloud 4 no_info no_edge demo_cloud [] id short_reader [x09; x09; x09] =
    (r', Ok (p', 2, false)) /\ take 2 p' = [x04; x00].
Proof.
  exact (@short_block_reads_zeros length_ring first_crush ConnectCloud 4 no_info no_edge demo_cloud demo_held short_object
    id short_reader [x09; x09; x09] [] (mkBlockInfo "b2" 0 2 "" 1) (@Permutation_refl calcBlock) short_reader_ok
    eq_refl eq_refl eq_refl ltac:(vm_compute; lia) ltac:(vm_compute; reflexivity)).
Defined.
