(* ===== verification/PutGet.v ===== *)
(** * From the writer to the reader: [src/client/io/ecos_writer.go], [src/client/io/block.go],
    [src/edge-node/gaia/gaia.go], [src/shared/gaia/transporter.go], [src/client/io/ecos_reader.go]

    The parts put together: the streams the writer's goroutines sent run on the
    nodes of [Gaia.v] ([deliver_stream]); the reader of [Reader.v] gets its blocks from
    the files that are left there. *)

From stdpp Require Import functions.
From S2P Require Import Prelude GoStd Errno Infos Object Pipeline Pool GaiaMsg Block Writer WriterProofs Gaia Reader ReaderProofs.

(** ** The write buffer of a node *)

(** What a node keeps of a block that came in pieces of [N] bytes. *)
Definition kept (N : nat) (d : bytes) : bytes := (bufio_all (split_blocks N d)).1.

(** An object as it comes back: where its last piece is shorter than a chunk and
    fits the buffer of a node, zero bytes stand. *)
Definition read_back (N : nat) (d : bytes) : bytes :=
  let t := (length d `mod` N)%nat in
  if decide (0 < t <= bufSize)%nat then take (length d - t) d ++ replicate t x00 else d.

Lemma split_shape N d : (0 < N)%nat -> exists ps tail, Forall (fun c => length c = N) ps /\ (length tail < N)%nat /\
  d = concat ps ++ tail /\ split_blocks N d = ps ++ opt_block tail /\ length tail = (length d `mod` N)%nat.
Proof.
  intros HN. assert (forall n (d : bytes), (length d <= n)%nat -> exists ps tail, Forall (fun c => length c = N) ps /\ (length tail < N)%nat /\
    d = concat ps ++ tail) as Hex.
  { induction n as [|n IH]; intros d' Hl; [exists [], d'; split_and!; [done|lia|done]|].
    destruct (decide (length d' < N)%nat) as [?|Hge]; [by exists [], d'|].
    destruct (IH (drop N d')) as (ps & tail & Hps & Ht & Hd); [rewrite length_drop; lia|].
    exists (take N d' :: ps), tail. split_and!; [|done|].
    - constructor; [rewrite length_take; lia|done].
    - simpl. rewrite <- app_assoc, <- Hd. symmetry. apply take_drop. }
  destruct (Hex (length d) d (le_n _)) as (ps & tail & Hps & Ht & ->). exists ps, tail. split_and!; try done.
  - apply split_blocks_eq; [done|done|lia].
  - rewrite length_app. assert (length (concat ps) = length ps * N)%nat as ->.
    { clear -Hps. induction Hps as [|c ps Hc _ IH]; [done|]. simpl. rewrite length_app, IH, Hc. lia. }
    rewrite Nat.add_comm, Nat.Div0.mod_add, Nat.mod_small by done. done.
Qed.

(** Pieces larger than the buffer go straight to the file. *)
Lemma bufio_big N ps : (bufSize < N)%nat -> Forall (fun c => length c = N) ps -> bufio_all ps = (concat ps, []).
Proof.
  intros HN. induction ps as [|c ps IH] using rev_ind; intros Hps; [done|].
  apply Forall_app in Hps as [Hps Hc]. rewrite Forall_singleton in Hc.
  rewrite bufio_all_snoc, IH by done. unfold bufio_write. change (length (@nil byte)) with 0%nat.
  rewrite decide_False by lia. rewrite decide_True by done. rewrite concat_app. simpl. by rewrite app_nil_r.
Qed.

Lemma kept_shape N ps tail : (bufSize < N)%nat -> Forall (fun c => length c = N) ps ->
  (bufio_all (ps ++ opt_block tail)).1 = if decide (length tail <= bufSize)%nat then concat ps else concat ps ++ tail.
Proof.
  intros HN Hps. destruct tail as [|x tail].
  { cbn [opt_block]. rewrite !app_nil_r, (bufio_big N) by done. by destruct (decide _). }
  set (t := x :: tail) in *. change (opt_block t) with [t]. rewrite bufio_all_snoc, (bufio_big N) by done.
  unfold bufio_write. change (length (@nil byte)) with 0%nat. rewrite Nat.sub_0_r. destruct (decide (length t <= bufSize)%nat); [done|].
  by rewrite decide_True.
Qed.

Lemma kept_padded N d : (bufSize < N)%nat ->
  kept N d ++ replicate (length d - length (kept N d)) x00 = read_back N d.
Proof.
  intros HN. destruct (split_shape N d) as (ps & tail & Hps & Ht & Hd & Hsp & Hl); [lia|].
  unfold kept, read_back. rewrite Hsp, (kept_shape N), <- Hl by done.
  assert (length d = length (concat ps) + length tail)%nat as Hld by (rewrite Hd at 1; apply length_app).
  destruct (decide (length tail <= bufSize)%nat) as [Hle|Hgt].
  - replace (length d - length (concat ps))%nat with (length tail) by lia.
    destruct (decide (0 < length tail <= bufSize)%nat) as [Hin|Hout].
    + f_equal. replace (length d - length tail)%nat with (length (concat ps)) by lia. by rewrite Hd, take_app_length.
    + assert (tail = []) as -> by (destruct tail; [done|simpl in *; lia]). by rewrite Hd.
  - rewrite decide_False by lia. rewrite length_app, Hld, Nat.sub_diag. by rewrite app_nil_r, <- Hd.
Qed.

(** Only the last block can lose its end. *)
Lemma read_back_blocks N k d : (0 < N)%nat -> (0 < k)%nat ->
  concat (read_back N <$> split_blocks (k * N) d) = read_back N d.
Proof.
  intros HN Hk. destruct (split_shape (k * N) d) as (cont & tail & Hc & Ht & Hd & -> & _); [lia|].
  assert (Forall (fun c => read_back N c = c) cont) as Hfull.
  { eapply Forall_impl; [exact Hc|]. intros c Hlen. unfold read_back. by rewrite Hlen, Nat.Div0.mod_mul, decide_False by lia. }
  assert (read_back N <$> cont = cont) as Hid by (clear -Hfull; induction Hfull as [|c l Hc _ IH]; [done|]; csimpl; by rewrite Hc, IH).
  rewrite fmap_app, concat_app, Hid. assert (concat (read_back N <$> opt_block tail) = read_back N tail) as ->.
  { destruct tail; [|simpl; by rewrite app_nil_r]. unfold read_back. simpl. by rewrite Nat.Div0.mod_0_l. }
  assert (exists m, length (concat cont) = m * N)%nat as [m Hm].
  { clear -Hc. induction Hc as [|c l Hc _ [m IH]]; [by exists 0%nat|]. exists (k + m)%nat. simpl. rewrite length_app. lia. }
  rewrite Hd. unfold read_back. rewrite length_app, Hm, (Nat.add_comm (m * N)), Nat.Div0.mod_add.
  set (t := (length tail `mod` N)%nat). assert (t <= length tail)%nat by apply Nat.Div0.mod_le.
  destruct (decide _); [|done]. rewrite app_assoc. f_equal.
  replace (length tail + m * N - t)%nat with (length (concat cont) + (length tail - t))%nat by lia.
  by rewrite take_app_add.
Qed.

(** ** The nodes *)

(** The streams name a node by its number. *)
Definition node_id (node : string) : Z := default 0 (ParseUint node).

Section nodes.
Context (gs : Z -> Gaia).

(** A replica runs its own handler on what the remote writer sent it. *)
Definition deliver_replica (D : Z -> Disk) (w : RemoteWriter) : Z -> Disk :=
  match rw_stream w with
  | Some reqs => <[rw_node w := (UploadBlockData no_link no_create_err (gs (rw_node w)) reqs (D (rw_node w))).1.1.1]> D
  | None => D
  end.

(** The disks after the handler of the stream's node and of its replicas. *)
Definition deliver_stream (D : Z -> Disk) (sent : string * list UploadBlockRequest) : Z -> Disk :=
  let prim := node_id sent.1 in
  let '(d, t, _, _) := UploadBlockData (peer_link gs D) no_create_err (gs prim) sent.2 (D prim) in
  foldl deliver_replica (<[prim := d]> D) (remoteWriters t).

(** The disks after all streams of the goroutines, in their order. *)
Definition deliver_all (D : Z -> Disk) (sent : list (nat * list (string * list UploadBlockRequest))) : Z -> Disk :=
  foldl deliver_stream D (concat sent.*2).

(** The nodes of a cluster that stays as it is. *)
Definition nodes_ok (c : ClusterInfo) : Prop := forall id,
  g_self (gs id) = id /\ g_closed (gs id) = false /\ (forall t, g_cluster (gs id) t = Ok c) /\ 0 < g_chunkSize (gs id).

Definition put_file (info : BlockInfo) (x : bytes) (id : Z) (d : Disk) : Disk := <[block_path (gs id) info := x]> d.

Lemma deliver_replicas info x cs ws : forall D id,
  (forall w, w ∈ ws -> exists reqs t', rw_stream (finished cs w) = Some reqs /\ forall d',
     UploadBlockData no_link no_create_err (gs (rw_node w)) reqs d' =
       (put_file info x (rw_node w) d', t', [mkResult Result_OK 0 ""], Ok tt)) ->
  foldl deliver_replica D (finished cs <$> ws) id =
    if decide (id ∈ rw_node <$> ws) then put_file info x id (D id) else D id.
Proof.
  induction ws as [|w ws IH]; intros D id Hws; [done|].
  rewrite fmap_cons. cbn [foldl]. rewrite IH by (intros w' Hw'; apply Hws; by right).
  destruct (Hws w ltac:(left)) as (reqs & t' & Hr & Hu). unfold deliver_replica. rewrite Hr.
  change (rw_node (finished cs w)) with (rw_node w). rewrite Hu. cbn [fst].
  rewrite fmap_cons. destruct (decide (id = rw_node w)) as [->|Hne].
  - rewrite fn_lookup_insert, (decide_True (P := rw_node w ∈ rw_node w :: _)) by left.
    destruct (decide _); [|done]. unfold put_file. apply insert_insert_eq.
  - rewrite fn_lookup_insert_ne by done. destruct (decide (id ∈ rw_node <$> ws)) as [Hin|Hout].
    + by rewrite decide_True by (by right).
    + rewrite decide_False; [done|]. by intros [?|?]%elem_of_cons.
Qed.

Lemma deliver_stream_ok c D node info pipe term cs : nodes_ok c -> cs <> [] -> node ∈ FormatUint <$> P_RaftId pipe ->
  (forall id, id ∈ P_RaftId pipe -> 0 <= id < 2 ^ 64 /\ exists n, n ∈ NodesInfo c /\ RaftId n = id) -> forall id,
  deliver_stream D (node, block_stream info pipe term cs) id =
    if decide (id ∈ P_RaftId pipe) then put_file info (bufio_all cs).1 id (D id) else D id.
Proof.
  intros Hn Hcs (prim & -> & Hprim)%list_elem_of_fmap Hids id. unfold deliver_stream. cbn [fst snd].
  assert (node_id (FormatUint prim) = prim) as ->.
  { unfold node_id. by rewrite (ParseUint_FormatUint prim (proj1 (Hids prim Hprim))). }
  destruct (Hn prim) as (Hself & Hcl & Hc & _).
  destruct (upload_served (gs prim) gs D (D prim) info pipe term c cs Hcl (Hc term) Hcs) as (ws & -> & Hws & Hall).
  - intros id' Hid. by apply Hids.
  - intros id' Hid. destruct (Hn id') as (? & ? & Hc' & _). split_and!; [done|done|by exists c].
  - cbn [remoteWriters]. rewrite (deliver_replicas info (bufio_all cs).1).
    2:{ intros w Hw. destruct (Hws w Hw) as (_ & _ & H). exact H. }
    rewrite Hself in Hws, Hall. destruct (decide (id = prim)) as [->|Hne].
    + rewrite decide_False, fn_lookup_insert, decide_True; [done|done|].
      intros (w & Heq & Hw)%list_elem_of_fmap. destruct (Hws w Hw) as (_ & ? & _). congruence.
    + rewrite fn_lookup_insert_ne by done. destruct (decide (id ∈ P_RaftId pipe)) as [Hin|Hout].
      * rewrite decide_True; [done|]. destruct (Hall id Hin Hne) as (w & Hw & <-). by apply list_elem_of_fmap_2.
      * rewrite decide_False; [done|]. intros (w & -> & Hw)%list_elem_of_fmap. by destruct (Hws w Hw).
Qed.

(** What the goroutines' streams leave: one stream per block, to different files. *)
Lemma deliver_all_ok c (info : nat -> BlockInfo) (pipe : nat -> Pipeline) (term : nat -> Z) (cs : nat -> list bytes) D sent :
  nodes_ok c -> NoDup sent.*1 ->
  (forall a l, (a, l) ∈ sent -> cs a <> [] /\
     (forall id, id ∈ P_RaftId (pipe a) -> 0 <= id < 2 ^ 64 /\ exists n, n ∈ NodesInfo c /\ RaftId n = id) /\
     exists node, node ∈ FormatUint <$> P_RaftId (pipe a) /\ l = [(node, block_stream (info a) (pipe a) (term a) (cs a))]) ->
  (forall a a' id, a ∈ sent.*1 -> a' ∈ sent.*1 -> block_path (gs id) (info a) = block_path (gs id) (info a') -> a = a') ->
  forall a id, a ∈ sent.*1 -> id ∈ P_RaftId (pipe a) ->
  deliver_all D sent id !! block_path (gs id) (info a) = Some (bufio_all (cs a)).1.
Proof.
  intros Hn Hnd Hsent Hpath. induction sent as [|[a0 l0] sent IH] using rev_ind; intros a id Ha Hid.
  { by apply elem_of_nil in Ha. }
  rewrite fmap_app in Hnd, Hpath, Ha. apply NoDup_app in Hnd as (Hnd & Hdis & _).
  destruct (Hsent a0 l0) as (Hcs & Hids & node & Hnode & ->); [apply elem_of_app; right; by left|].
  unfold deliver_all. rewrite fmap_app, concat_app, foldl_app. cbn [fmap list_fmap fst snd concat app foldl].
  rewrite (deliver_stream_ok c) by done. fold (deliver_all D sent). apply elem_of_app in Ha as [Ha|Ha].
  - assert (deliver_all D sent id !! block_path (gs id) (info a) = Some (bufio_all (cs a)).1) as Hold.
    { apply IH; try done.
      - intros a' l' Hin. apply Hsent. apply elem_of_app. by left.
      - intros a' a'' id' H1 H2. apply Hpath; apply elem_of_app; by left. }
    destruct (decide _); [|done]. unfold put_file. rewrite lookup_insert_ne; [done|]. intros Heq.
    assert (a0 = a) as ->; [|apply (Hdis a Ha); by left].
    eapply Hpath; [apply elem_of_app; right; by left|apply elem_of_app; by left|exact Heq].
  - apply list_elem_of_singleton in Ha as ->. rewrite decide_True by done. apply lookup_insert_eq.
Qed.

End nodes.

(** ** Every goroutine sends once *)

Section once.
Context `{HR : HashRing, HRok : !HashRingOk, DG : Digests}.
Context (f : Factory) (cp : ClusterPipelines) (Hcfg : config_ok f).

Ltac frame := repeat (case_match || simplify_eq/=); try done.

Lemma commitCurBlock_finished w w' r : commitCurBlock w = (w', r) -> finishedBlocks w' = finishedBlocks w.
Proof. unfold commitCurBlock. intros E. frame. Qed.

Lemma getCurBlock_finished w w' r : getCurBlock f w = (w', r) -> finishedBlocks w' = finishedBlocks w.
Proof.
  unfold getCurBlock. destruct (chunksPerBlock f); cbn [pure st_bind]; [|by intros [= <- <-]..].
  destruct (curBlock w) as [b|] eqn:Eb; [destruct (decide _)|]; cbn [st_bind].
  - destruct (commitCurBlock w) as [w1 r1] eqn:E1. apply commitCurBlock_finished in E1. intros E. frame.
  - intros E. frame.
  - intros E. frame.
Qed.

Lemma commitCurChunk_finished w w' r : commitCurChunk f w = (w', r) -> finishedBlocks w' = finishedBlocks w.
Proof.
  unfold commitCurChunk. destruct (curChunk w) as [c|]; [|by intros [= <- <-]].
  destruct (getCurBlock f w) as [w1 r1] eqn:E1. apply getCurBlock_finished in E1.
  destruct r1; cbn [st_bind]; [|by intros [= <- <-]..].
  destruct (chunksPerBlock f); cbn [pure st_bind]; [|by intros [= <- <-]..].
  destruct (decide _); cbn [st_bind]; [|by intros [= <- <-]].
  destruct (commitCurBlock _) as [w2 r2] eqn:E2. apply commitCurBlock_finished in E2. intros E. simpl in *. frame; congruence.
Qed.

Lemma getCurChunk_finished w w' r : getCurChunk f w = (w', r) -> finishedBlocks w' = finishedBlocks w.
Proof.
  unfold getCurChunk. intros E. frame. all: try destruct (chunksPerBlock f); simplify_eq/=; frame.
Qed.

Lemma write_iter_finished w rest w' r : write_iter f w rest = (w', r) -> finishedBlocks w' = finishedBlocks w.
Proof.
  unfold write_iter. destruct (getCurChunk f w) as [w1 r1] eqn:E1. apply getCurChunk_finished in E1.
  destruct r1; cbn [st_bind]; [|by intros [= <- <-]..]. destruct (decide _); [by intros [= <- <-]|].
  destruct (copy_at _ _ _) as [d' k]. destruct (decide _); cbn [st_bind]; [|by intros [= <- <-]].
  destruct (commitCurChunk f _) as [w2 r2] eqn:E2. apply commitCurChunk_finished in E2. intros E. simpl in *. frame; congruence.
Qed.

Lemma Close_start_finished w w' r : Close_start f w = (w', r) -> finishedBlocks w' = finishedBlocks w.
Proof.
  unfold Close_start. destruct (decide _); [by intros [= <- <-]|].
  destruct (commitCurChunk f w) as [w1 r1] eqn:E1. apply commitCurChunk_finished in E1.
  destruct r1; cbn [st_bind]; [|by intros [= <- <-]..].
  destruct (commitCurBlock w1) as [w2 r2] eqn:E2. apply commitCurBlock_finished in E2. intros E. frame; congruence.
Qed.

Lemma uploadBlock_finished w wr sent cont a uuid peer w' l :
  winv f cp w wr sent cont -> a ∈ uploads w -> uploadBlock f uuid (uploadByEdge cp peer) w a = (w', l, Ok tt) ->
  finishedBlocks w' = finishedBlocks w ++ [a].
Proof.
  intros Hi Ha E. pose proof (threads_lt f cp _ _ _ _ a Hi (or_introl Ha)) as Hlt. rewrite <- (i_len _ _ _ _ _ _ Hi) in Hlt.
  apply lookup_lt_is_Some in Hlt as [d Hd]. destruct (i_uploads _ _ _ _ _ _ Hi a d Ha Hd) as (b & Hb & Hnew & _).
  destruct (Block_Close_new f Hcfg uuid b Hnew) as (b' & Ec & _ & _ & Hdel & _).
  unfold uploadBlock in E. rewrite Hb, Ec in E. destruct (uploadByEdge cp peer b') as [l' [[]|e| |]]; [..|done|done].
  all: unfold run_delFunc in E; cbn [delFunc with_status] in E; rewrite Hdel in E.
  all: destruct (release_all _ _); simplify_eq/=; done.
Qed.

Lemma sent_once key p term s : newChunkPool f = Ok p -> rtc (step f cp) (fresh_sys key p term) s ->
  (sSent s).*1 = finishedBlocks (sw s).
Proof.
  intros Hp Hr. assert (forall s1 s2, rtc (step f cp) s1 s2 -> (exists cont, sys_inv f cp key s1 cont) ->
    (sSent s1).*1 = finishedBlocks (sw s1) -> (sSent s2).*1 = finishedBlocks (sw s2)) as Hind.
  { intros s1 s2 Hrtc. induction Hrtc as [|s1 s2 s3 Hst _ IH]; [done|]. intros [cont Hinv] Heq.
    destruct (step_preserves f cp Hcfg _ _ _ _ Hinv Hst) as [cont' Hinv']. apply IH; [by exists cont'|].
    destruct Hst as [w ? ? ? _|w ? ? ? ? w' ? _ E|w ? ? ? w' ? E|w ? ? ? a uuid peer w' l Ha E|w ? ? w' E]; simpl in *.
    - done.
    - apply write_iter_finished in E. congruence.
    - unfold write_end in E. destruct (decide _); simplify_eq/=. done.
    - pose proof (uploadBlock_finished _ _ _ _ _ _ _ _ _ (s_winv _ _ _ _ _ Hinv) Ha E) as ->.
      by rewrite fmap_app, Heq.
    - apply Close_start_finished in E. congruence. }
  eapply Hind; [exact Hr|exists []; by apply fresh_sys_inv|done].
Qed.

End once.

(** ** Reading what the nodes hold *)

Lemma split_pieces N d x : (0 < N)%nat -> x ∈ split_blocks N d -> (0 < length x <= N)%nat.
Proof.
  intros HN. destruct (split_shape N d HN) as (ps & tail & Hps & Ht & _ & -> & _).
  rewrite Forall_forall in Hps. intros [Hx%Hps|Hx]%elem_of_app; [lia|].
  destruct tail as [|y tail]; [by apply elem_of_nil in Hx|]. apply list_elem_of_singleton in Hx as ->. simpl in *. lia.
Qed.

Lemma kept_length N d : (0 < N)%nat -> (length (kept N d) <= length d)%nat.
Proof.
  intros HN. unfold kept. destruct (bufio_all_spec (split_blocks N d)) as [Hs _].
  rewrite concat_split_blocks in Hs by done. apply (f_equal length) in Hs. rewrite length_app in Hs. lia.
Qed.

Lemma read_back_length N d : length (read_back N d) = length d.
Proof.
  unfold read_back. destruct (decide _); [|done]. rewrite length_app, length_take, length_replicate.
  pose proof (Nat.Div0.mod_le (length d) N). lia.
Qed.

Lemma blockBytes_le f : config_ok f -> Z.of_nat (blockBytes f) <= BlockSize (fConfig f).
Proof.
  intros []. unfold blockBytes, nChunks. pose proof (Z.mul_div_le (BlockSize (fConfig f)) (fChunkSize f) ltac:(lia)).
  pose proof (Z.div_pos (BlockSize (fConfig f)) (fChunkSize f)). rewrite Nat2Z.inj_mul, !Z2Nat.id by lia. lia.
Qed.

Section get.
Context `{HR : HashRing, CR : Crush}.
Context (agent_Get : InfoType -> string -> res Information) (fetch_cloud : string -> Z -> res Stream).
Context (gs : Z -> Gaia) (D : Z -> Disk).

(** The stream of [GetBlockData] of the node that is asked. *)
Definition edge_fetch (n : NodeInfo) (id : string) (term : Z) : res Stream :=
  match GetBlockData (gs (RaftId n)) (D (RaftId n)) id 0 (fun _ => None) with
  | (pieces, Ok _) => Ok (pieces, None)
  | (pieces, Err e) => Ok (pieces, Some e)
  | (_, Panic) => Panic
  | (_, Stuck) => Stuck
  end.

(** The agent of the reader knows the cluster of the object's term and its nodes. *)
Definition agent_knows (c : ClusterInfo) (term : Z) : Prop :=
  (exists i, agent_Get IT_CLUSTER_INFO (FormatUint term) = Ok i /\ GetClusterInfo (Information_BaseInfo i) = Some c) /\
  (forall n, n ∈ NodesInfo c -> exists i n', agent_Get IT_NODE_INFO (FormatUint (RaftId n)) = Ok i /\
     GetNodeInfo (Information_BaseInfo i) = Some n' /\ RaftId n' = RaftId n).

Lemma edge_fetch_file n id term x : 0 < g_chunkSize (gs (RaftId n)) ->
  D (RaftId n) !! Join [g_base (gs (RaftId n)); id] = Some x ->
  exists pieces, edge_fetch n id term = Ok (pieces, None) /\ concat pieces = x.
Proof.
  intros Hc Hx. unfold edge_fetch, GetBlockData. rewrite Hx, decide_False by lia. rewrite drop_0, send_pieces_ok.
  eexists. split; [done|]. apply concat_bufio_reads. lia.
Qed.

(** A block is read from the first node of its pipeline. *)
Lemma GetBlockByEdge_file c cp m r b pipe x :
  rd_meta r = Some m -> rd_cluster r = Some c -> rd_pipes r = Some cp -> BlockPgNum c = blockPgNum ->
  nodes_ok gs c -> agent_knows c (OM_Term m) ->
  GenBlockPG (BlockId b) = Ok (BI_PgId b) -> GetBlockPipeline cp (BI_PgId b) = Ok pipe ->
  P_RaftId pipe <> [] -> (forall id, id ∈ P_RaftId pipe -> exists n, n ∈ NodesInfo c /\ RaftId n = id) ->
  (forall id, id ∈ P_RaftId pipe -> D id !! block_path (gs id) b = Some x) ->
  GetBlockByEdge agent_Get edge_fetch r b = Ok x.
Proof.
  intros Hm Hc Hp Hnum Hn [_ Hag] Hpg Hpipe Hne Hids Hx. unfold GetBlockByEdge. rewrite Hc, Hp, Hm.
  cbn [or_panic mbind res_bind]. unfold GenBlockPgID. rewrite Hnum, u64_id by (unfold is_u64, blockPgNum; lia).
  unfold GenBlockPG in Hpg. rewrite Hpg. cbn [mbind res_bind]. unfold GetBlockPG. unfold GetBlockPipeline in Hpipe.
  rewrite Hpipe. cbn [mbind res_bind]. destruct (P_RaftId pipe) as [|id ids] eqn:El; [done|]. cbn [head or_panic mbind res_bind].
  destruct (Hids id ltac:(left)) as (n & Hin & <-). destruct (Hag n Hin) as (i & n' & -> & -> & Hid).
  cbn [or_panic mbind res_bind]. rewrite <- Hid in Hx.
  destruct (edge_fetch_file n' (BlockId b) (OM_Term m) x) as (pieces & -> & Hcat).
  - apply Hn.
  - apply (Hx (RaftId n')). rewrite Hid. left.
  - cbn [mbind res_bind recv_all]. by rewrite Hcat.
Qed.

Lemma genPipelines_ok attempts m c cp : getObjMeta attempts = Ok m -> agent_knows c (OM_Term m) ->
  NewClusterPipelines c = Ok cp ->
  genPipelines agent_Get attempts GetEcosReader = (mkReader (Some m) (Some c) (Some cp) 0 0 ∅, Ok tt).
Proof.
  intros Hm [(i & Hi & Hc) _] Hp. unfold genPipelines, getHistoryClusterInfo. rewrite Hm, Hi. cbn [mbind res_bind].
  by rewrite Hc, Hp.
Qed.

End get.

(** ** The whole way *)

Section whole.
Context `{HR : HashRing, HRok : !HashRingOk, DG : Digests, CR : Crush, CRok : !CrushOk}.
Context (f : Factory) (c : ClusterInfo) (cp : ClusterPipelines) (gs : Z -> Gaia) (D : Z -> Disk).
Context (Hcfg : config_ok f).

(** The cluster of the upload: numbered nodes, 100 groups of blocks. *)
Record storage_ok : Prop := {
  co_wf : cluster_wf c;
  co_ids : Forall (fun n => 0 <= RaftId n < 2 ^ 64) (NodesInfo c);
  co_groups : BlockPgNum c = blockPgNum;
  co_pipes : NewClusterPipelines c = Ok cp;
  co_nodes : nodes_ok gs c
}.

(** Every block went up with its first stream, and to a file of its own. *)
Record uploaded (s : Sys) : Prop := {
  up_status : wStatus (sw s) = UPLOADING;
  up_all : uploads (sw s) = [];
  up_finished : Forall (fun b => status b = FINISHED) (heap (sw s));
  up_first : Forall (fun x => length x.2 = 1%nat) (sSent s);
  up_paths : forall i j b b' id, heap (sw s) !! i = Some b -> heap (sw s) !! j = Some b' ->
    block_path (gs id) (blockInfo b) = block_path (gs id) (blockInfo b') -> i = j
}.

Lemma pipe_nodes pg pipe : storage_ok -> 1 <= pg <= blockPgNum -> GetBlockPipeline cp pg = Ok pipe ->
  forall id, id ∈ P_RaftId pipe -> 0 <= id < 2 ^ 64 /\ exists n, n ∈ NodesInfo c /\ RaftId n = id.
Proof.
  intros [Hwf Hids Hg Hp _] Hpg Hpipe id Hid.
  destruct (NewClusterPipelines_spec c Hwf) as [(_ & _ & cp' & Hp' & _ & _ & [_ Hb])|[_ ?]]; [|congruence].
  rewrite Hp in Hp'. injection Hp' as <-. destruct (Hb pg) as (p & Hp' & _ & _ & _ & _ & Hn); [lia|].
  unfold GetBlockPipeline in Hpipe. rewrite Hpipe in Hp'. injection Hp' as <-.
  destruct (Hn id Hid) as (n & Hin & <- & _). split; [|by exists n]. rewrite Forall_forall in Hids. by apply Hids.
Qed.

(** What a block left on the nodes of its pipeline. *)
Definition block_kept (s : Sys) (b : Block) (d : bytes) : Prop :=
  GenBlockPG (BlockId (blockInfo b)) = Ok (BI_PgId (blockInfo b)) /\ exists pipe,
  GetBlockPipeline cp (BI_PgId (blockInfo b)) = Ok pipe /\ P_RaftId pipe <> [] /\
  (forall id, id ∈ P_RaftId pipe -> exists n, n ∈ NodesInfo c /\ RaftId n = id) /\
  (forall id, id ∈ P_RaftId pipe -> deliver_all gs D (sSent s) id !! block_path (gs id) (blockInfo b) =
     Some (kept (Z.to_nat (fChunkSize f)) d)).

(** Block [a] of a finished upload: its stream. *)
Lemma block_stream_of s key cont a b d : sys_inv f cp key s cont -> uploaded s -> NoDup (sSent s).*1 ->
  heap (sw s) !! a = Some b -> cont !! a = Some d ->
  exists pipe node, GenBlockPG (BlockId (blockInfo b)) = Ok (BI_PgId (blockInfo b)) /\
    1 <= BI_PgId (blockInfo b) <= blockPgNum /\ GetBlockPipeline cp (BI_PgId (blockInfo b)) = Ok pipe /\
    node ∈ FormatUint <$> P_RaftId pipe /\
    forall l, (a, l) ∈ sSent s -> l = [(node, block_stream (blockInfo b) pipe (blockTerm b) (split_blocks (Z.to_nat (fChunkSize f)) d))].
Proof.
  intros Hinv Hup Hnd Hb Hd. destruct (all_done f cp _ _ _ _ (s_winv _ _ _ _ _ Hinv) (up_all s Hup)) as [_ Hall].
  destruct (Hall a b Hb) as (d' & Hd' & _ & Hpg & Hst). rewrite Hd in Hd'. injection Hd' as <-.
  pose proof (up_finished s Hup) as Hf. rewrite Forall_lookup in Hf. specialize (Hf a b Hb).
  destruct Hst as [?|(_ & l & node & pipe & Hl & Hpipe & Hnode & Hlast)]; [congruence|].
  exists pipe, node. split_and!; try done.
  1,2: unfold GenBlockPG in Hpg; destruct (MapIDtoPG_range blockPgNum (BlockId (blockInfo b))) as (pg & Hpg' & Hr); [unfold blockPgNum; lia|];
    rewrite Hpg in Hpg'; injection Hpg' as ->; lia.
  intros l' Hl'. assert (l' = l) as ->.
  { apply list_elem_of_lookup in Hl as [i Hi], Hl' as [j Hj]. assert (i = j) as ->; [|congruence].
    eapply NoDup_lookup; [exact Hnd|by rewrite list_lookup_fmap, Hi|by rewrite list_lookup_fmap, Hj]. }
  pose proof (up_first s Hup) as H1. rewrite Forall_forall in H1. specialize (H1 _ Hl). simpl in H1.
  destruct l as [|x [|? ?]]; try done. simpl in Hlast. congruence.
Qed.

Lemma finished_all s key cont : sys_inv f cp key s cont -> uploads (sw s) = [] ->
  finishedBlocks (sw s) ≡ₚ seq 0 (length (heap (sw s))) /\ length cont = length (heap (sw s)).
Proof.
  intros Hinv Hu. pose proof (s_winv _ _ _ _ _ Hinv) as Hi. pose proof (i_threads _ _ _ _ _ _ Hi) as Hth.
  rewrite Hu in Hth. split; [done|apply (i_len _ _ _ _ _ _ Hi)].
Qed.

Lemma blocks_kept s key cont : storage_ok -> sys_inv f cp key s cont -> uploaded s ->
  (sSent s).*1 = finishedBlocks (sw s) -> Forall (fun d => d <> []) cont -> forall a b d,
  heap (sw s) !! a = Some b -> cont !! a = Some d -> block_kept s b d.
Proof.
  intros Hc Hinv Hup Hsent Hne. destruct (finished_all s key cont Hinv (up_all s Hup)) as [Hfin Hlen].
  assert (NoDup (sSent s).*1) as Hnd by (rewrite Hsent, Hfin; apply NoDup_seq).
  assert (forall a, a ∈ (sSent s).*1 <-> (a < length (heap (sw s)))%nat) as Hkeys.
  { intros a. rewrite Hsent, Hfin, elem_of_seq. lia. }
  pose proof (fun a b d => block_stream_of s key cont a b d Hinv Hup Hnd) as Hstr.
  set (info := fun a => match heap (sw s) !! a with Some b => blockInfo b | None => mkBlockInfo "" 0 0 "" 0 end).
  set (pipe := fun a => match GetBlockPipeline cp (BI_PgId (info a)) with Ok p => p | _ => mkPipeline 0 [] Sync_STREAM 0 end).
  set (term := fun a => match heap (sw s) !! a with Some b => blockTerm b | None => 0 end).
  set (cs := fun a => match cont !! a with Some d => split_blocks (Z.to_nat (fChunkSize f)) d | None => [] end).
  assert (forall a b d, heap (sw s) !! a = Some b -> cont !! a = Some d ->
    info a = blockInfo b /\ term a = blockTerm b /\ cs a = split_blocks (Z.to_nat (fChunkSize f)) d /\
    GetBlockPipeline cp (BI_PgId (blockInfo b)) = Ok (pipe a)) as Hfun.
  { intros a b d Hb Hd. unfold pipe, info, term, cs. rewrite Hb, Hd. split_and!; try done.
    by destruct (Hstr a b d Hb Hd) as (p & _ & _ & _ & -> & _). }
  pose proof (deliver_all_ok gs c info pipe term cs D (sSent s) (co_nodes Hc) Hnd) as Hdel.
  intros a b d Hb Hd. destruct (Hfun a b d Hb Hd) as (Hinfo & _ & Hcs & Hpipe).
  destruct (Hstr a b d Hb Hd) as (p & node & Hpg & Hr & Hp & Hnode & _). rewrite Hpipe in Hp. injection Hp as Hp.
  split; [done|]. exists (pipe a). split; [done|]. rewrite Hp. split_and!.
  - intros Hnil. rewrite Hnil in Hnode. by apply elem_of_nil in Hnode.
  - intros id Hid. by apply (pipe_nodes _ _ Hc Hr Hpipe); rewrite Hp.
  - intros id Hid. rewrite <- Hinfo. unfold kept. rewrite <- Hcs. rewrite <- Hp in Hid. apply Hdel; [| |by apply Hkeys, (lookup_lt_Some _ _ b)|done].
    + intros a' l Hin. assert (a' < length (heap (sw s)))%nat as Ha' by (apply Hkeys; by apply (list_elem_of_fmap_2 fst) in Hin).
      destruct (lookup_lt_is_Some_2 _ _ Ha') as [b' Hb']. rewrite <- Hlen in Ha'. destruct (lookup_lt_is_Some_2 _ _ Ha') as [d' Hd'].
      destruct (Hfun a' b' d' Hb' Hd') as (Hi' & Ht' & Hc' & Hp'). destruct (Hstr a' b' d' Hb' Hd') as (p' & node' & _ & Hr' & Hp2 & Hn' & Hl').
      rewrite Hp' in Hp2. injection Hp2 as Hp2. rewrite Hc', Hi', Ht', Hp2. split_and!.
      * rewrite Forall_lookup in Hne. specialize (Hne a' d' Hd'). intros Hnil.
        pose proof (concat_split_blocks (Z.to_nat (fChunkSize f)) d' ltac:(destruct Hcfg; lia)) as Hcat. by rewrite Hnil in Hcat.
      * intros id' Hid'. by apply (pipe_nodes _ _ Hc Hr' Hp'); rewrite Hp2.
      * exists node'. split; [done|]. by apply Hl'.
    + intros i j id' Hi%Hkeys Hj%Hkeys. apply lookup_lt_is_Some_2 in Hi as [bi Hbi], Hj as [bj Hbj].
      unfold info. rewrite Hbi, Hbj. by apply (up_paths s Hup).
Qed.

(** The reader's view of the uploaded blocks. *)
Lemma seen_blocks (s : Sys) (hold : string -> bytes) (h : list Block) (cont : list bytes) :
  (bufSize < Z.to_nat (fChunkSize f))%nat ->
  (forall a b d, h !! a = Some b -> cont !! a = Some d -> hold (BlockId (blockInfo b)) = kept (Z.to_nat (fChunkSize f)) d) ->
  Forall2 (fun b d => BI_BlockSize (blockInfo b) = Z.of_nat (length d)) h cont ->
  object_bytes hold (blockInfo <$> h) = concat (read_back (Z.to_nat (fChunkSize f)) <$> cont).
Proof.
  intros HN Hhold Hsz. revert Hhold. induction Hsz as [|b d h cont Hb _ IH]; intros Hhold; [done|].
  unfold object_bytes in *. csimpl. rewrite IH by (intros a b' d' H1 H2; by apply (Hhold (S a) b' d')). f_equal.
  unfold seen, size_of. rewrite (Hhold 0%nat b d eq_refl eq_refl), Hb, Nat2Z.id. by apply kept_padded.
Qed.

(** The files the reader's nodes give. *)
Lemma blocks_read agent_Get m s key cont : storage_ok -> sys_inv f cp key s cont -> uploaded s ->
  (sSent s).*1 = finishedBlocks (sw s) -> Forall (fun d => d <> []) cont -> agent_knows agent_Get c (OM_Term m) ->
  forall r, rd_meta r = Some m -> rd_cluster r = Some c -> rd_pipes r = Some cp -> forall a b d,
  heap (sw s) !! a = Some b -> cont !! a = Some d ->
  GetBlockByEdge agent_Get (edge_fetch gs (deliver_all gs D (sSent s))) r (blockInfo b) = Ok (kept (Z.to_nat (fChunkSize f)) d).
Proof.
  intros Hc Hinv Hup Hsent Hne Hag r Hm Hrc Hrp a b d Hb Hd.
  destruct (blocks_kept s key cont Hc Hinv Hup Hsent Hne a b d Hb Hd) as (Hpg & pipe & Hpipe & Hnil & Hids & Hx).
  eapply (GetBlockByEdge_file agent_Get gs _ c cp m); try done; apply Hc.
Qed.

Lemma finished_reader agent_Get fetch_cloud m s key cont : storage_ok -> sys_inv f cp key s cont -> uploaded s ->
  (bufSize < Z.to_nat (fChunkSize f))%nat -> (sSent s).*1 = finishedBlocks (sw s) ->
  cont = split_blocks (blockBytes f) (sWritten s) -> Z.of_nat (length (sWritten s)) < 2 ^ 61 ->
  agent_knows agent_Get c (OM_Term m) -> Blocks m = blockInfo <$> heap (sw s) ->
  exists hold, reader_ok ConnectEdge (BlockSize (fConfig f)) agent_Get (edge_fetch gs (deliver_all gs D (sSent s))) fetch_cloud hold m
    (mkReader (Some m) (Some c) (Some cp) 0 0 ∅) /\
    object_bytes hold (Blocks m) = read_back (Z.to_nat (fChunkSize f)) (sWritten s).
Proof.
  intros Hc Hinv Hup HN Hsent Hcont Hlen Hag Hbl. set (r := mkReader _ _ _ _ _ _).
  destruct (cfg_bytes f Hcfg) as [_ HbB]. destruct (cfg_chunks f Hcfg) as [_ Hn].
  assert (forall d, d ∈ cont -> (0 < length d <= blockBytes f)%nat) as Hpc by (intros d; rewrite Hcont; by apply split_pieces).
  assert (Forall (fun d => d <> []) cont) as Hne by (apply Forall_forall; intros d Hd ->; apply Hpc in Hd; simpl in Hd; lia).
  pose proof (blocks_read agent_Get m s key cont Hc Hinv Hup Hsent Hne Hag) as Hread.
  destruct (all_done f cp _ _ _ _ (s_winv _ _ _ _ _ Hinv) (up_all s Hup)) as [Hsz _].
  set (N := Z.to_nat (fChunkSize f)) in *.
  set (hold := fun id => match GetBlockByEdge agent_Get (edge_fetch gs (deliver_all gs D (sSent s))) r (mkBlockInfo id 0 0 "" 0) with
                         | Ok x => x | _ => [] end).
  assert (forall a b d, heap (sw s) !! a = Some b -> cont !! a = Some d -> hold (BlockId (blockInfo b)) = kept N d) as Hhold.
  { intros a b d Hb Hd. pose proof (Hread r eq_refl eq_refl eq_refl a b d Hb Hd) as E. unfold hold.
    change (GetBlockByEdge agent_Get (edge_fetch gs (deliver_all gs D (sSent s))) r (blockInfo b))
      with (GetBlockByEdge agent_Get (edge_fetch gs (deliver_all gs D (sSent s))) r (mkBlockInfo (BlockId (blockInfo b)) 0 0 "" 0)) in E.
    by rewrite E. }
  assert (object_bytes hold (Blocks m) = read_back N (sWritten s)) as Hobj.
  { rewrite Hbl, (seen_blocks s hold _ cont) by done. rewrite Hcont. apply read_back_blocks; unfold N; lia. }
  assert (forall b, b ∈ Blocks m -> exists a b' d, heap (sw s) !! a = Some b' /\ cont !! a = Some d /\ b = blockInfo b') as Hin.
  { intros b. rewrite Hbl. intros (b' & -> & [a Ha]%list_elem_of_lookup)%list_elem_of_fmap.
    destruct (Forall2_lookup_l _ _ _ _ _ Hsz Ha) as (d & Hd & _). by exists a, b', d. }
  exists hold. split; [|done]. split_and!; try done.
  - apply Forall_forall. intros b (a & b' & d & Ha & Hd & ->)%Hin. unfold sized. rewrite (Hhold a b' d) by done.
    destruct (Forall2_lookup_l _ _ _ _ _ Hsz Ha) as (d' & Hd' & ->). rewrite Hd in Hd'. injection Hd' as <-.
    pose proof (Hpc d (list_elem_of_lookup_2 _ _ _ Hd)) as Hl. pose proof (kept_length N d ltac:(unfold N; lia)).
    pose proof (blockBytes_le f Hcfg). lia.
  - rewrite Hobj. rewrite read_back_length. lia.
  - intros b (a & b' & d & Ha & Hd & ->)%Hin. unfold source. rewrite (Hhold a b' d) by done. by eapply Hread.
Qed.

(** Reading what [Close] committed. *)
Lemma stored_is_read key p term s now submit w' meta agent_Get fetch_cloud attempts sched sizes :
  Z.of_nat bufSize < fChunkSize f -> bucket_ok (fBucket f) -> storage_ok ->
  newChunkPool f = Ok p -> rtc (step f cp) (fresh_sys key p term) s -> uploaded s ->
  sWritten s <> [] -> Z.of_nat (length (sWritten s)) < 2 ^ 61 ->
  (forall m, submit m = Ok tt) -> Close_finish f now submit (sw s) = (w', Ok meta) ->
  getObjMeta attempts = Ok meta -> agent_knows agent_Get c (OM_Term meta) ->
  (forall l, sched l ≡ₚ l) -> Z.of_nat (sum_list sizes) < 2 ^ 61 ->
  let content := read_back (Z.to_nat (fChunkSize f)) (sWritten s) in
  exists r r', genPipelines agent_Get attempts GetEcosReader = (r, Ok tt) /\
    read_on ConnectEdge (BlockSize (fConfig f)) agent_Get (edge_fetch gs (deliver_all gs D (sSent s))) fetch_cloud sched r sizes =
      (r', Ok (take (sum_list sizes) content, bool_decide (sum_list sizes < length content)%nat)).
Proof.
  intros HN Hbk Hc Hp Hr Hup Hne Hlen Hsub Hcl Hget Hag Hsched Hsz content.
  destruct (reachable_inv f cp Hcfg key p term s Hp Hr) as [cont Hinv].
  pose proof (sent_once f cp Hcfg key p term s Hp Hr) as Hsent.
  destruct (Close_finish_spec f cp key s cont now submit Hinv Hbk (up_status s Hup) (up_all s Hup) ltac:(lia) Hsub) as
    (w2 & meta' & pg & E & _ & _ & _ & _ & _ & Hbl & _ & _ & Hcont). rewrite Hcl in E. injection E as <- <-.
  destruct (finished_reader agent_Get fetch_cloud meta s key cont Hc Hinv Hup ltac:(lia) Hsent Hcont Hlen Hag Hbl)
    as (hold & Hok & Hobj).
  exists (mkReader (Some meta) (Some c) (Some cp) 0 0 ∅).
  destruct (read_from_start ConnectEdge (BlockSize (fConfig f)) agent_Get (edge_fetch gs (deliver_all gs D (sSent s))) fetch_cloud
    hold meta sched _ sizes Hsched Hok eq_refl eq_refl) as (r' & E'); [|done|].
  - intros Hnil. rewrite Hnil in Hobj. apply (f_equal length) in Hobj. rewrite read_back_length in Hobj.
    destruct (sWritten s); done.
  - exists r'. split; [by eapply genPipelines_ok; [done|done|apply Hc]|]. rewrite E', Hobj. done.
Qed.

End whole.

(** C1: what is put is what is read back, up to the bytes a node never flushes.
    An object was written by whatever calls, cut into blocks, and uploaded by
    goroutines in whatever order, each block's first stream being accepted; the
    handlers of the nodes ran on these streams. Then whoever gets the metadata
    [Close] committed and reads to the end, with buffers of any sizes and with the
    blocks copied in any order, gets the written bytes, unless what is left after
    the last full chunk fits the 4096-byte buffer of a node: then he gets zero
    bytes in place of it. *)
Theorem put_then_get `{HashRing, !HashRingOk, Digests, Crush, !CrushOk}
    (f : Factory) (c : ClusterInfo) (cp : ClusterPipelines) (gs : Z -> Gaia) (D : Z -> Disk) key p term s now submit w' meta
    agent_Get fetch_cloud attempts sched sizes :
  config_ok f -> Z.of_nat bufSize < fChunkSize f -> bucket_ok (fBucket f) -> storage_ok c cp gs ->
  newChunkPool f = Ok p -> rtc (step f cp) (fresh_sys key p term) s -> uploaded gs s ->
  sWritten s <> [] -> Z.of_nat (length (sWritten s)) < 2 ^ 61 ->
  (forall m, submit m = Ok tt) -> Close_finish f now submit (sw s) = (w', Ok meta) ->
  getObjMeta attempts = Ok meta -> agent_knows agent_Get c (OM_Term meta) ->
  (forall l, sched l ≡ₚ l) -> Z.of_nat (sum_list sizes) < 2 ^ 61 ->
  let content := read_back (Z.to_nat (fChunkSize f)) (sWritten s) in
  exists r r', genPipelines agent_Get attempts GetEcosReader = (r, Ok tt) /\
    read_on ConnectEdge (BlockSize (fConfig f)) agent_Get (edge_fetch gs (deliver_all gs D (sSent s))) fetch_cloud sched r sizes =
      (r', Ok (take (sum_list sizes) content, bool_decide (sum_list sizes < length content)%nat)).
Proof. intros Hcfg. by apply stored_is_read. Qed.

(** *** A run *)

(** Chunks of 5000 bytes, blocks of two chunks; 5003 bytes are written. *)
Definition far_factory : Factory :=
  mkFactory 5000 10000 default_bucket (mkBucketConfig 5 10000 false false false HT_OFF HT_OFF).

Definition far_data : bytes := replicate 5000 x07 ++ [x01; x02; x03].

Definition far_pool : Pool localChunk := mkPool [] 2 0 0 2.

Definition far_w1 : EcosWriter := (Write far_factory (GetEcosWriter "a/b" far_pool 7) far_data).1.
Definition far_w2 : EcosWriter := (Close_start far_factory far_w1).1.
Definition far_up := @uploadBlock length_ring demo_digests far_factory "id-1" (uploadByEdge demo_pipes good_peer) far_w2 0.

Definition far_sys : Sys := mkSys far_up.1.1 None far_data [(0%nat, far_up.1.2)].

Definition far_meta : ObjectMeta :=
  match (@Close_finish length_ring demo_digests far_factory (mkTimestamp 0 0) (fun _ => Ok tt) (sw far_sys)).2 with
  | Ok m => m
  | _ => demo_object
  end.

Definition far_agent (t : InfoType) (id : string) : res Information :=
  match t with
  | IT_CLUSTER_INFO => Ok (Inf_Cluster small_cluster)
  | _ => Ok (Inf_Node (mkNodeInfo (default 0 (ParseUint id)) "" "" 0 0 NS_ONLINE))
  end.

Definition no_disks (_ : Z) : Disk := ∅.

Lemma far_reachable : rtc (@step length_ring demo_digests far_factory demo_pipes) (fresh_sys "a/b" far_pool 7) far_sys.
Proof.
  etrans.
  { eapply (@Write_run length_ring demo_digests far_factory demo_pipes _ far_data). vm_compute. reflexivity. }
  eapply rtc_l; [apply step_close; vm_compute; reflexivity|].
  eapply rtc_l; [apply (@step_upload length_ring demo_digests _ _ _ _ _ _ 0 "id-1" good_peer);
    [|vm_compute; reflexivity]; left|].
  vm_compute. apply rtc_refl.
Qed.

Lemma far_config : config_ok far_factory.
Proof. constructor; simpl; lia. Qed.

Lemma far_uploaded : uploaded demo_gaia far_sys.
Proof.
  split; [vm_compute; reflexivity..| | |].
  - vm_compute. by repeat constructor.
  - vm_compute. by repeat constructor.
  - intros i j b b' id Hi%lookup_lt_Some Hj%lookup_lt_Some _.
    assert (length (heap (sw far_sys)) = 1%nat) as Hl by (vm_compute; reflexivity). lia.
Qed.

Lemma far_cluster : @storage_ok first_crush small_cluster demo_pipes demo_gaia.
Proof.
  split; [apply small_cluster_wf|repeat constructor; simpl; lia|reflexivity|vm_compute; reflexivity|].
  intros id. split_and!; done.
Qed.

Lemma far_agent_knows : agent_knows far_agent small_cluster 7.
Proof.
  split; [by eexists|]. intros n Hn. eexists _, _. split; [reflexivity|]. split; [reflexivity|]. simpl.
  repeat (apply elem_of_cons in Hn as [->|Hn]; [reflexivity|]). by apply elem_of_nil in Hn.
Qed.

Lemma put_then_get_witness :
  exists r r', @genPipelines first_crush far_agent [(Ok far_meta, Ok tt)] GetEcosReader = (r, Ok tt) /\
    @read_on length_ring first_crush ConnectEdge 10000 far_agent (edge_fetch demo_gaia (deliver_all demo_gaia no_disks (sSent far_sys)))
      demo_cloud id r [4000; 4000]%nat = (r', Ok (replicate 5000 x07 ++ [x00; x00; x00], false)).
Proof.
  destruct (@put_then_get length_ring length_ring_ok demo_digests first_crush first_crush_ok far_factory small_cluster demo_pipes demo_gaia
    no_disks "a/b" far_pool 7 far_sys (mkTimestamp 0 0) (fun _ => Ok tt)
    (@Close_finish length_ring demo_digests far_factory (mkTimestamp 0 0) (fun _ => Ok tt) (sw far_sys)).1 far_meta
    far_agent demo_cloud [(Ok far_meta, Ok tt)] id [4000; 4000]%nat) as (r & r' & E & E');
    [apply far_config|vm_compute; reflexivity|apply default_bucket_ok|apply far_cluster|vm_compute; reflexivity|apply far_reachable
    |apply far_uploaded|done|vm_compute; reflexivity|done|vm_compute; reflexivity|reflexivity
    |exact far_agent_knows|done|vm_compute; reflexivity|].
  exists r, r'. split; [exact E|]. etrans; [exact E'|]. vm_compute. reflexivity.
Defined.
