(* ===== verification/GwErrors.v ===== *)
(** * Errors of the S3 interface: [src/gateway/router/errors.go]

    The bodies of the gateway's refusals; a pointer that is nil is [None]. The
    status that goes with each is chosen by the handlers ([Gateway.v]). *)

From S2P Require Import Prelude.

(** [Error] in the source. *)
Record S3Error := mkS3Error {
  e_Code : option string;
  e_Message : option string;
  e_BucketName : option string;
  e_Resource : option string;
  e_Key : option string
}.

#[global] Instance S3Error_eq_dec : EqDecision S3Error.
Proof. solve_decision. Defined.

(** [Error.Error] dereferences the message. *)
Definition S3Error_Error (e : S3Error) : option string := e_Message e.

Definition BucketAlreadyExists (bucketName : string) : S3Error :=
  mkS3Error (Some "BucketAlreadyExists")
    (Some "The requested bucket name is not available. The bucket namespace is shared by all users of the system. Please select a different name and try again.")
    (Some bucketName) None None.

Definition BucketAlreadyOwnedByYou (bucketName : string) : S3Error :=
  mkS3Error (Some "BucketAlreadyOwnedByYou")
    (Some "The bucket you tried to create already exists, and you own it.")
    (Some bucketName) None None.

Definition BucketNotEmpty (bucketName : string) : S3Error :=
  mkS3Error (Some "BucketNotEmpty")
    (Some "The bucket you tried to delete is not empty.")
    (Some bucketName) None None.

Definition EntityTooSmall (bucketName : string) (resPath : string) (key : string) : S3Error :=
  mkS3Error (Some "EntityTooSmall")
    (Some "Your proposed upload is smaller than the minimum allowed object size.")
    (Some bucketName) (Some resPath) (Some key).

Definition EntityTooLarge (bucketName : string) (resPath : string) (key : string) : S3Error :=
  mkS3Error (Some "EntityTooLarge")
    (Some "Your proposed upload exceeds the maximum allowed object size.")
    (Some bucketName) (Some resPath) (Some key).

Definition IncompleteBody (bucketName : string) (resPath : string) (key : string) : S3Error :=
  mkS3Error (Some "IncompleteBody")
    (Some "Your proposed upload is too small.")
    (Some bucketName) (Some resPath) (Some key).

Definition IncorrectNumberOfFilesInPostRequest (bucketName : string) (resPath : string) (key : option string) : S3Error :=
  mkS3Error (Some "IncorrectNumberOfFilesInPostRequest")
    (Some "Too many files in the request.")
    (Some bucketName) (Some resPath) key.

Definition InternalError (message : string) (bucketName : string) (resPath : string) (key : option string) : S3Error :=
  mkS3Error (Some "InternalError")
    (Some message)
    (Some bucketName) (Some resPath) key.

Definition InvalidArgument (keyName : string) (bucketName : string) (resPath : string) (key : option string) : S3Error :=
  mkS3Error (Some "InvalidArgument")
    (Some ("The argument you provided is invalid: " +:+ keyName))
    (Some bucketName) (Some resPath) key.

Definition InvalidBucketName (bucketName : option string) : S3Error :=
  mkS3Error (Some "InvalidBucketName")
    (Some "The specified bucket is not valid.")
    bucketName None None.

Definition InvalidObjectState (bucketName : string) (resPath : string) (key : string) : S3Error :=
  mkS3Error (Some "InvalidObjectState")
    (Some "The specified object is in a state that can't be transitioned to.")
    (Some bucketName) (Some resPath) (Some key).

Definition InvalidPart (bucketName : string) (resPath : string) (key : string) : S3Error :=
  mkS3Error (Some "InvalidPart")
    (Some "One or more of the specified parts could not be found. The part might not have been uploaded, or the specified entity tag might not have matched the part's entity tag.")
    (Some bucketName) (Some resPath) (Some key).

Definition InvalidPartOrder (bucketName : string) (resPath : string) (key : string) : S3Error :=
  mkS3Error (Some "InvalidPartOrder")
    (Some "The list of parts was not in ascending order. The parts list must be specified in order by part number.")
    (Some bucketName) (Some resPath) (Some key).

Definition InvalidRange (bucketName : string) (resPath : string) (key : string) : S3Error :=
  mkS3Error (Some "InvalidRange")
    (Some "The requested range cannot be satisfied.")
    (Some bucketName) (Some resPath) (Some key).

Definition InvalidURI (bucketName : string) (resPath : string) (key : option string) : S3Error :=
  mkS3Error (Some "InvalidURI")
    (Some "The specified URI is invalid.")
    (Some bucketName) (Some resPath) key.

Definition KeyTooLong (bucketName : string) (resPath : string) (key : string) : S3Error :=
  mkS3Error (Some "KeyTooLongError")
    (Some "Your key is too long.")
    (Some bucketName) (Some resPath) (Some key).

Definition MalformedPOSTRequest (bucketName : string) (resPath : string) (key : option string) : S3Error :=
  mkS3Error (Some "MalformedPOSTRequest")
    (Some "The body of your POST request is not well-formed multipart/form-data.")
    (Some bucketName) (Some resPath) key.

Definition MalformedXML (bucketName : string) (resPath : string) (key : option string) : S3Error :=
  mkS3Error (Some "MalformedXML")
    (Some "The XML you provided was not well-formed or did not validate against our published schema.")
    (Some bucketName) (Some resPath) key.

Definition MaxMessageLengthExceeded (bucketName : string) (resPath : string) (key : option string) : S3Error :=
  mkS3Error (Some "MaxMessageLengthExceeded")
    (Some "Your request was too big.")
    (Some bucketName) (Some resPath) key.

Definition MetadataTooLarge (bucketName : string) (resPath : string) (key : option string) : S3Error :=
  mkS3Error (Some "MetadataTooLarge")
    (Some "Your metadata headers exceed the maximum allowed metadata size.")
    (Some bucketName) (Some resPath) key.

Definition MethodNotAllowed (bucketName : string) (resPath : string) (key : option string) : S3Error :=
  mkS3Error (Some "MethodNotAllowed")
    (Some "The specified method is not allowed against this resource.")
    (Some bucketName) (Some resPath) key.

Definition NoSuchBucket (bucketName : string) : S3Error :=
  mkS3Error (Some "NoSuchBucket")
    (Some "The specified bucket does not exist")
    (Some bucketName) (Some ("/" +:+ bucketName)) None.

Definition NoSuchKey (bucketName : string) (resPath : string) (key : string) : S3Error :=
  mkS3Error (Some "NoSuchKey")
    (Some "The specified key does not exist.")
    (Some bucketName) (Some resPath) (Some key).

Definition NoSuchUpload (bucketName : string) (resPath : string) (key : string) : S3Error :=
  mkS3Error (Some "NoSuchUpload")
    (Some "The specified multipart upload does not exist. The upload ID might be invalid, or the multipart upload might have been aborted or completed.")
    (Some bucketName) (Some resPath) (Some key).

Definition NotImplemented (bucketName : string) (resPath : string) (key : option string) : S3Error :=
  mkS3Error (Some "NotImplemented")
    (Some "A header you provided implies functionality that is not implemented")
    (Some bucketName) (Some resPath) key.

Definition PreconditionFailed (bucketName : string) (resPath : string) (message : string) (key : option string) : S3Error :=
  mkS3Error (Some "PreconditionFailed")
    (Some message)
    (Some bucketName) (Some resPath) key.

Definition RequestIsNotMultiPartContent (bucketName : string) (resPath : string) : S3Error :=
  mkS3Error (Some "RequestIsNotMultiPartContent")
    (Some "The Bucket POST request is not multi-part content.")
    (Some bucketName) (Some resPath) None.

Definition RequestTimeout (resPath : option string) : S3Error :=
  mkS3Error (Some "RequestTimeout")
    (Some "Your socket connection to the server was not read from or written to within the timeout period.")
    None resPath None.

Definition SignatureDoesNotMatch (bucketName : string) (resPath : string) (key : option string) : S3Error :=
  mkS3Error (Some "SignatureDoesNotMatch")
    (Some "The request signature we calculated does not match the signature you provided. Check your AWS Secret Access Key and signing method.")
    (Some bucketName) (Some resPath) key.
