(* ===== verification/GwUtils.v ===== *)
(** * Parsing what S3 clients send: [src/gateway/router/utils_object.go]

    Byte ranges, the signature lines of a streamed upload, part numbers and copy
    sources. The regular expression of [parseSignature] is written out: at a
    position the run of hexadecimal digits is maximal, because a semicolon has to
    follow, and so is the word, because a carriage return has to; the first
    position that matches is taken. *)

From S2P Require Import Prelude GoStd Errno.

(** ** Package textproto and strconv *)

Definition is_space (a : ascii) : bool :=
  bool_decide (a = " "%char \/ a = "009"%char \/ a = "010"%char \/ a = "013"%char).

Fixpoint trim_left_space (s : string) : string :=
  match s with
  | String a s' => if is_space a then trim_left_space s' else s
  | EmptyString => ""
  end.

Fixpoint trim_right_space (s : string) : string :=
  match s with
  | EmptyString => ""
  | String a s' =>
      match trim_right_space s' with
      | EmptyString => if is_space a then "" else String a ""
      | s'' => String a s''
      end
  end.

Definition TrimString (s : string) : string := trim_right_space (trim_left_space s).

Definition hex_value (a : ascii) : option Z :=
  let z := Z.of_N (N_of_ascii a) in
  if decide (48 <= z <= 57) then Some (z - 48)
  else if decide (65 <= z <= 70) then Some (z - 55)
  else if decide (97 <= z <= 102) then Some (z - 87)
  else None.

Fixpoint parse_hex (acc : Z) (s : string) : option Z :=
  match s with
  | EmptyString => Some acc
  | String a s' => match hex_value a with Some v => parse_hex (acc * 16 + v) s' | None => None end
  end.

(** [ParseInt(s, 16, 64)] on a run of hexadecimal digits. *)
Definition ParseHex (s : string) : option Z :=
  match parse_hex 0 s with
  | Some v => if decide (s <> "" /\ v < 2 ^ 63) then Some v else None
  | None => None
  end.

(** ** Ranges *)

Record httpRange := mkHttpRange { r_start : Z; r_length : Z }.

#[global] Instance httpRange_eq_dec : EqDecision httpRange.
Proof. solve_decision. Defined.

Definition contentRange (r : httpRange) (size : Z) : string :=
  "bytes " +:+ FormatInt (r_start r) +:+ "-" +:+ FormatInt (i64 (r_start r + r_length r - 1)) +:+ "/" +:+ FormatInt size.

Definition invalid_range : error := ENew "invalid range".

(** One element of the list: nothing, no overlap with the object, or a range. *)
Inductive RangeSpec := RS_empty | RS_outside | RS_range (r : httpRange).

Definition parse_spec (ra : string) (size : Z) : res RangeSpec :=
  let ra := TrimString ra in
  if decide (ra = "") then Ok RS_empty
  else match cut "-" ra with
       | None => Err invalid_range
       | Some (s, e) =>
           let start := TrimString s in
           let stop := TrimString e in
           if decide (start = "") then
             match ParseInt stop with
             | None => Err invalid_range
             | Some i =>
                 let i := if decide (i > size) then size else i in
                 let first := i64 (size - i) in
                 Ok (RS_range (mkHttpRange first (i64 (size - first))))
             end
           else
             match ParseInt start with
             | None => Err invalid_range
             | Some i =>
                 if decide (i < 0) then Err invalid_range
                 else if decide (i >= size) then Ok RS_outside
                 else if decide (stop = "") then Ok (RS_range (mkHttpRange i (i64 (size - i))))
                 else match ParseInt stop with
                      | None => Err invalid_range
                      | Some j =>
                          if decide (i > j) then Err invalid_range
                          else
                            let j := if decide (j >= size) then i64 (size - 1) else j in
                            Ok (RS_range (mkHttpRange i (i64 (j - i + 1))))
                      end
             end
       end.

Fixpoint parse_specs (specs : list string) (size : Z) (ranges : list httpRange) (noOverlap : bool) : res (list httpRange * bool) :=
  match specs with
  | [] => Ok (ranges, noOverlap)
  | ra :: specs' =>
      r ← parse_spec ra size;
      match r with
      | RS_empty => parse_specs specs' size ranges noOverlap
      | RS_outside => parse_specs specs' size ranges true
      | RS_range r => parse_specs specs' size (ranges ++ [r]) noOverlap
      end
  end.

Definition parseRange (s : string) (size : Z) : res (list httpRange) :=
  if decide (s = "") then Ok []
  else if HasPrefix s "bytes=" then
    p ← parse_specs (Split "," (str_drop 6 s)) size [] false;
    let '(ranges, noOverlap) := p in
    if (noOverlap : bool) && bool_decide (length ranges = 0%nat) then Err invalid_range else Ok ranges
  else Err invalid_range.

(** ** Signature lines *)

(** The longest prefix of characters of a class, and the rest. *)
Fixpoint span (p : ascii -> bool) (s : string) : string * string :=
  match s with
  | EmptyString => ("", "")
  | String a s' => if p a then let '(x, y) := span p s' in (String a x, y) else ("", s)
  end.

Definition is_hex (a : ascii) : bool := match hex_value a with Some _ => true | None => false end.

Definition is_word (a : ascii) : bool :=
  let z := Z.of_N (N_of_ascii a) in
  bool_decide (48 <= z <= 57) || bool_decide (65 <= z <= 90) || bool_decide (97 <= z <= 122) || bool_decide (z = 95).

Definition CRLF : string := String "013" (String "010" "").

Definition match_at (s : string) : option (string * string) :=
  let '(h, rest) := span is_hex s in
  if decide (h = "") then None
  else if HasPrefix rest ";chunk-signature=" then
    let '(w, rest) := span is_word (str_drop 17 rest) in
    if decide (w = "") then None
    else if HasPrefix rest CRLF then Some (h, w) else None
  else None.

Fixpoint find_match (s : string) : option (string * string) :=
  match match_at s with
  | Some m => Some m
  | None => match s with String _ s' => find_match s' | EmptyString => None end
  end.

Definition parseSignature (line : string) : res (Z * string) :=
  match find_match line with
  | None => Err (EErrno SignatureDoesNotMatch)
  | Some (h, w) =>
      match ParseHex h with
      | None => Err (EExt "strconv.ParseInt")
      | Some n => Ok (n, w)
      end
  end.

(** ** Other arguments *)

(** The number [strconv.Atoi] returns next to its error: 0 for a bad text, the
    nearest one for a number out of range. *)
Fixpoint atoi_scan (n : Z) (s : string) : Z :=
  match s with
  | "" => n
  | String a s' =>
      if is_digit a then
        let n := n * 10 + (Z.of_nat (nat_of_ascii a) - 48) in
        if decide (2 ^ 64 <= n) then 2 ^ 64 - 1 else atoi_scan n s'
      else 0
  end%string.

Definition Atoi_value (s : string) : Z :=
  match s with
  | String "-" s' => Z.max (- 2 ^ 63) (- atoi_scan 0 s')
  | String "+" s' => Z.min (2 ^ 63 - 1) (atoi_scan 0 s')
  | _ => Z.min (2 ^ 63 - 1) (atoi_scan 0 s)
  end.

(** [parsePartID] of [multipart.go]. *)
Definition parsePartID (partID : string) : res Z :=
  match Atoi partID with
  | None => Err (EExt "strconv.Atoi")
  | Some id => if decide (id < 1 \/ id > 10000) then Err (ENew "invalid part id") else Ok (i32 id)
  end.

(** [parseSrcKey] of [object.go]: never an error. *)
Definition parseSrcKey (src : string) : string * string :=
  let src := Trim "/" src in
  match cut "/" src with
  | Some (bucket, key) => (bucket, key)
  | None => (src, "")
  end.

(** ** Facts *)

Fixpoint str_all (p : ascii -> bool) (s : string) : bool :=
  match s with
  | EmptyString => true
  | String a s' => p a && str_all p s'
  end.

Definition not_char (c a : ascii) : bool := bool_decide (a <> c).

Lemma str_all_app p s t : str_all p (s +:+ t) = str_all p s && str_all p t.
Proof. induction s as [|a s IH]; [done|]. rewrite str_cons_app. cbn [str_all]. by rewrite IH, andb_assoc. Qed.

Lemma str_all_impl (p q : ascii -> bool) s : (forall a, p a = true -> q a = true) -> str_all p s = true -> str_all q s = true.
Proof.
  intros Hpq. induction s as [|a s IH]; [done|]. cbn [str_all]. intros [Ha Hs]%andb_true_iff.
  by rewrite (Hpq a Ha), (IH Hs).
Qed.

Lemma digits_not_char c s : is_digit c = false -> all_digits s = true -> str_all (not_char c) s = true.
Proof.
  intros Hc. induction s as [|a s IH]; [done|]. cbn [str_all all_digits]. intros [Ha Hs]%andb_true_iff. rewrite (IH Hs), andb_true_r.
  unfold not_char. apply bool_decide_eq_true. intros ->. congruence.
Qed.

Lemma cut_not_char c s t : str_all (not_char c) s = true -> cut c (s +:+ String c t) = Some (s, t).
Proof.
  induction s as [|a s IH]; [by simpl; rewrite decide_True|]. cbn [str_all]. intros [Ha%bool_decide_eq_true Hs]%andb_true_iff.
  rewrite str_cons_app. cbn [cut]. rewrite decide_False by done. by rewrite (IH Hs).
Qed.

Lemma Split_not_char c s : str_all (not_char c) s = true -> Split c s = [s].
Proof.
  induction s as [|a s IH]; [done|]. cbn [str_all]. intros [Ha%bool_decide_eq_true Hs]%andb_true_iff.
  cbn [Split]. rewrite decide_False by done. by rewrite (IH Hs).
Qed.

Lemma TrimString_id s : str_all (fun a => negb (is_space a)) s = true -> TrimString s = s.
Proof.
  intros Hs. unfold TrimString.
  assert (trim_left_space s = s) as ->.
  { destruct s as [|a s]; [done|]. cbn [str_all] in Hs. apply andb_true_iff in Hs as [Ha _]. cbn [trim_left_space].
    by destruct (is_space a). }
  induction s as [|a s IH]; [done|]. cbn [str_all] in Hs. apply andb_true_iff in Hs as [Ha Hs]. cbn [trim_right_space].
  rewrite (IH Hs). destruct s; [|done]. by destruct (is_space a).
Qed.

Lemma digit_not_space a : is_digit a = true -> negb (is_space a) = true.
Proof. destruct a as [[] [] [] [] [] [] [] []]; vm_compute; done. Qed.

Lemma digits_not_space s : all_digits s = true -> str_all (fun a => negb (is_space a)) s = true.
Proof.
  induction s as [|a s IH]; [done|]. cbn [str_all all_digits]. intros [Ha Hs]%andb_true_iff.
  by rewrite (digit_not_space a Ha), (IH Hs).
Qed.

(** The three forms of a range, with numbers written in decimal. *)
Lemma range_text x y : all_digits x = true -> all_digits y = true ->
  let ra := x +:+ String "-" y in
  Split "," ra = [ra] /\ TrimString ra = ra /\ cut "-" ra = Some (x, y) /\ TrimString x = x /\ TrimString y = y /\ ra <> "".
Proof.
  intros Hx Hy ra. unfold ra. split_and!.
  - apply Split_not_char. rewrite str_all_app. cbn [str_all]. by rewrite !digits_not_char.
  - apply TrimString_id. rewrite str_all_app. cbn [str_all]. by rewrite !digits_not_space.
  - apply cut_not_char. by apply digits_not_char.
  - by apply TrimString_id, digits_not_space.
  - by apply TrimString_id, digits_not_space.
  - by destruct x.
Qed.

Lemma parseRange_one ra size : Split "," ra = [ra] ->
  parseRange ("bytes=" +:+ ra) size =
    match parse_spec ra size with
    | Ok (RS_range r) => Ok [r]
    | Ok RS_outside => Err invalid_range
    | Ok RS_empty => Ok []
    | Err e => Err e
    | Panic => Panic | Stuck => Stuck
    end.
Proof.
  intros Hs. unfold parseRange. rewrite decide_False by done. rewrite prefix_app.
  change (str_drop 6 ("bytes=" +:+ ra)) with ra. rewrite Hs. cbn [parse_specs]. by destruct (parse_spec ra size) as [[| |r]| | |].
Qed.

Lemma parse_spec_bounds ra size r : 0 <= size < 2 ^ 63 -> parse_spec ra size = Ok (RS_range r) ->
  (0 <= r_start r /\ 0 <= r_length r /\ r_start r + r_length r <= size) \/ r_length r < 0.
Proof.
  intros Hsize. unfold parse_spec. destruct (decide _); [done|]. destruct (cut _ _) as [[s e]|]; [|done].
  assert (Hi64 : forall s i, ParseInt s = Some i -> - 2 ^ 63 <= i < 2 ^ 63).
  { intros s' i. unfold ParseInt. destruct (match s' with String _ _ => _ | _ => _ end); [|done].
    destruct (decide _) as [Hd|]; [|done]. by intros [= <-]. }
  destruct (decide (TrimString s = "")).
  - destruct (ParseInt (TrimString e)) as [i|] eqn:Ei; [|done]. apply Hi64 in Ei. intros [= <-]. cbn [r_start r_length].
    destruct (decide (i > size)) as [Hgt|Hle].
    + rewrite Z.sub_diag. rewrite (i64_id 0) by (unfold is_i64; lia). rewrite i64_id by (unfold is_i64; lia). left. lia.
    + destruct (decide (size - i < 2 ^ 63)) as [Hno|Hov].
      * rewrite (i64_id (size - i)) by (unfold is_i64; lia). rewrite i64_id by (unfold is_i64; lia). lia.
      * right. assert (i64 (size - i) = size - i - 2 ^ 64) as ->.
        { unfold i64. rewrite <- (Z.mod_add _ (-1)) by lia. rewrite Z.mod_small; lia. }
        unfold i64. replace (size - (size - i - 2 ^ 64) + 2 ^ 63) with (i + 2 ^ 63 + 1 * 2 ^ 64) by lia.
        rewrite Z.mod_add by lia. rewrite Z.mod_small by lia. lia.
  - destruct (ParseInt (TrimString s)) as [i|] eqn:Ei; [|done]. apply Hi64 in Ei.
    destruct (decide (i < 0)); [done|]. destruct (decide (i >= size)); [done|]. destruct (decide (TrimString e = "")).
    + intros [= <-]. cbn [r_start r_length]. rewrite i64_id by (unfold is_i64; lia). left. lia.
    + destruct (ParseInt (TrimString e)) as [j|] eqn:Ej; [|done]. destruct (decide (i > j)); [done|]. intros [= <-].
      cbn [r_start r_length]. rewrite (i64_id (size - 1)) by (unfold is_i64; lia).
      destruct (decide (j >= size)); rewrite i64_id by (unfold is_i64; lia); left; lia.
Qed.

Lemma parse_specs_bounds specs size : 0 <= size < 2 ^ 63 -> forall ranges b rs b',
  parse_specs specs size ranges b = Ok (rs, b') -> exists new, rs = ranges ++ new /\
    Forall (fun r => (0 <= r_start r /\ 0 <= r_length r /\ r_start r + r_length r <= size) \/ r_length r < 0) new.
Proof.
  intros Hsize. induction specs as [|ra specs IH]; intros ranges b rs b' E; cbn [parse_specs] in E.
  - injection E as <- <-. exists []. by rewrite app_nil_r.
  - destruct (parse_spec ra size) as [[| |r]| | |] eqn:Er; try done; cbn [mbind res_bind] in E; try by eapply IH.
    destruct (IH _ _ _ _ E) as (new & -> & Hn). exists (r :: new). rewrite <- app_assoc. split; [done|].
    constructor; [|done]. by eapply parse_spec_bounds.
Qed.

(** From [a] to [b], cut off at the end. *)
Lemma parse_closed a b size : 0 <= a <= b -> b < 2 ^ 63 -> 0 <= size < 2 ^ 63 ->
  parseRange ("bytes=" +:+ FormatUint a +:+ String "-" (FormatUint b)) size =
    (if decide (a < size) then Ok [mkHttpRange a (Z.min b (size - 1) - a + 1)] else Err invalid_range).
Proof.
  intros Hab Hb Hsize. destruct (FormatUint_digits a) as [Da Na], (FormatUint_digits b) as [Db Nb].
  destruct (range_text _ _ Da Db) as (H1 & H2 & H3 & H4 & H5 & H6). rewrite parseRange_one by done. unfold parse_spec.
  rewrite H2, H3, H4, H5. rewrite !decide_False by done. rewrite !ParseInt_FormatUint by lia. rewrite decide_False by lia.
  destruct (decide (a < size)) as [Hlt|Hge]; [|by rewrite decide_True by lia].
  rewrite !decide_False by (done || lia). rewrite (i64_id (size - 1)) by (unfold is_i64; lia).
  destruct (decide (b >= size)); rewrite i64_id by (unfold is_i64; lia); do 3 f_equal; lia.
Qed.

(** ** Properties *)


