(* ===== verification/Gateway.v ===== *)
(** * The S3 gateway: [src/gateway/router/]

    One definition per handler of [object.go], [multipart.go], [bucket.go], the
    helpers of [utils.go], [utils_bucket.go] and [utils_object.go], and the choice
    of a handler. A handler changes the state of the client it stands on and
    writes output; [Stop] is an early [return], [Crash] a panic. The client is the
    class [Backend]; it is connected to the edge, where operators have the types
    the handlers assert. Decoding of XML and of forms, and the format of times,
    are given with the request. *)

From S2P Require Import Prelude GoStd Errno Infos Object GaiaMsg Multipart GwErrors GwUtils.

(** ** Requests and output *)

(** What is read from a stream: pieces, then the end or another error. *)
Record Body := mkBody { pieces : list bytes; body_err : option error }.

(** A posted form; [None] in place of the values is a nil map. *)
Record Form := mkForm { form_keys : option (list string); form_files : list (option (res Body)) }.

Record Request := mkRequest {
  rq_bucket : string;                            (* c.Param("bucketName") *)
  rq_key : string;                               (* c.Param("key") *)
  rq_query : list (string * string);
  rq_header : string -> string;
  rq_path : string;
  rq_length : Z;                                 (* ContentLength *)
  rq_body : Body;
  rq_form : option Form;                         (* c.MultipartForm() *)
  rq_delete : option (list (option string));     (* the body decoded as Delete *)
  rq_xml : bool                                  (* whether the body decodes as what else is asked for *)
}.

Definition GetQuery (rq : Request) (k : string) : option string :=
  snd <$> List.find (fun kv => bool_decide (kv.1 = k)) (rq_query rq).

Definition Query (rq : Request) (k : string) : string := default "" (GetQuery rq k).

Record Content := mkContent { c_Key : string; c_LastModified : string; c_ETag : string; c_Size : Z }.

Inductive Xml :=
  | X_Error (e : S3Error)
  | X_CopyObjectResult (etag : string)
  | X_DeleteResult (deleted : list string) (errors : list (string * string))
  | X_ListBucketResult (name : string) (contents : list Content)
  | X_ListAllMyBucketsResult (owner : string) (names : list string)
  | X_InitiateMultipartUploadResult (bucket key uploadId : string)
  | X_ListPartsResult (bucket key uploadId : string) (parts : list Part)
  | X_CompleteMultipartUploadResult (location bucket key etag : string)
  | X_ListMultipartUploadsResult (bucket : string) (delimiter prefix : option string) (maxUploads : Z) (uploads : list (string * string)).

Inductive Output :=
  | O_XML (status : Z) (x : Xml)
  | O_Status (status : Z)
  | O_Header (k v : string)
  | O_Reader (status length : Z)                 (* DataFromReader on the reader *)
  | O_Bytes (status : Z) (b : bytes)             (* DataFromReader on bytes *)
  | O_Part (contentRange : string)               (* a part of a multipart answer *)
  | O_Data (b : bytes).

(** ** The client *)

Class Backend (W F Wr Rd Bk : Type) := {
  be_GetIOFactory : W -> string -> W * res F;
  be_GetEcosWriter : F -> W -> string -> W * res Wr;
  be_Write : Wr -> W -> bytes -> W * res (Z * option error);
  be_Close : Wr -> W -> W * res unit;
  be_Copy : Wr -> W -> ObjectMeta -> W * res string;
  be_GetEcosReader : F -> W -> string -> W * res Rd;
  be_Seek : Rd -> W -> Z -> W * res unit;                        (* from the start *)
  be_ReadN : Rd -> W -> Z -> W * res (bytes * option error);     (* io.CopyN *)
  be_GetBlock : Rd -> W -> BlockInfo -> W * res bytes;
  be_Volume_Get : W -> string -> W * res Bk;
  be_Volume_List : W -> string -> W * res (list BucketInfo);
  be_CreateBucket : W -> BucketInfo -> W * res unit;
  be_DeleteBucket : W -> BucketInfo -> W * res unit;
  be_Bucket_Get : Bk -> W -> string -> W * res ObjectMeta;
  be_Bucket_Remove : Bk -> W -> string -> W * res unit;
  be_ListObjects : W -> string -> string -> W * res (list ObjectMeta);
  be_CreateMultipartUploadJob : F -> W -> string -> W * res string;
  be_GetMultipartUploadWriter : F -> W -> string -> W * res Wr;
  be_WritePart : Wr -> W -> Z -> Body -> W * res string;
  be_ListParts : Wr -> W -> W * res (list Part);
  be_GetPartBlockInfo : Wr -> W -> Z -> W * res BlockInfo;
  be_CompleteMultipartUploadJob : F -> W -> string -> W * res string;
  be_AbortMultipartUploadJob : F -> W -> string -> W * res unit;
  be_ListMultipartUploadJob : F -> W -> W * res (list (string * string))
}.

(** ** Handlers as programs *)

Inductive flow (A : Type) := Go (a : A) | Stop | Crash | Hang.
Arguments Go {A} a.
Arguments Stop {A}.
Arguments Crash {A}.
Arguments Hang {A}.

Definition Handler (W A : Type) : Type := W -> W * list Output * flow A.

Definition h_ret {W A} (a : A) : Handler W A := fun w => (w, [], Go a).

Definition h_bind {W A B} (m : Handler W A) (k : A -> Handler W B) : Handler W B := fun w =>
  match m w with
  | (w, o, Go a) => let '(w', o', f) := k a w in (w', o ++ o', f)
  | (w, o, Stop) => (w, o, Stop)
  | (w, o, Crash) => (w, o, Crash)
  | (w, o, Hang) => (w, o, Hang)
  end.

Definition h_out {W} (x : Output) : Handler W unit := fun w => (w, [x], Go tt).
Definition h_stop {W A} : Handler W A := fun w => (w, [], Stop).
Definition h_crash {W A} : Handler W A := fun w => (w, [], Crash).
Definition h_hang {W A} : Handler W A := fun w => (w, [], Hang).

(** A call whose error the handler looks at. *)
Definition h_call {W A} (f : W -> W * res A) : Handler W (A + error) := fun w =>
  match f w with
  | (w, Ok a) => (w, [], Go (inl a))
  | (w, Err e) => (w, [], Go (inr e))
  | (w, Panic) => (w, [], Crash)
  | (w, Stuck) => (w, [], Hang)
  end.

Declare Scope gateway_scope.
Delimit Scope gateway_scope with gw.
Notation "'let!' x := m 'in' k" := (h_bind m (fun x => k))
  (at level 10, x pattern, m at level 100, k at level 200) : gateway_scope.
Notation "m ;; k" := (h_bind m (fun _ => k)) (at level 100, right associativity) : gateway_scope.
Open Scope gateway_scope.

Section gateway.
Context {W F Wr Rd Bk : Type} `{Backend W F Wr Rd Bk}.
Context (FormatTime : option Timestamp -> string).   (* http.TimeFormat *)
Context (FormatNano : option Timestamp -> string).   (* time.RFC3339Nano *)
Context (buf_pieces : bytes -> list bytes).          (* how io.CopyN cuts what it copies *)
Context (rq : Request).

Abbreviation HW := (Handler W).

(** ** Helpers *)

Definition refuse {A} (status : Z) (e : S3Error) : HW A := h_out (O_XML status (X_Error e)) ;; h_stop.

(** A bucket that is not there is 404, any other error 500. *)
Definition refuse_bucket {A} (e : error) (bucketName : string) (key : option string) : HW A :=
  if is_remote InfoNotFound e then refuse 404 (NoSuchBucket bucketName)
  else refuse 500 (InternalError (Error e) bucketName (rq_path rq) key).

Definition refuse_internal {A} (e : error) (bucketName : string) (key : option string) : HW A :=
  refuse 500 (InternalError (Error e) bucketName (rq_path rq) key).

Definition parseBucket : HW string :=
  if decide (rq_bucket rq = "") then refuse 400 (InvalidBucketName None) else h_ret (rq_bucket rq).

Definition parseBucketKey : HW (string * string) :=
  let! bucketName := parseBucket in
  if decide (rq_key rq = "") then refuse 400 (InvalidArgument "key" bucketName (rq_path rq) None)
  else h_ret (bucketName, rq_key rq).

Definition getFactory (bucketName key : string) : HW F :=
  let! r := h_call (fun w => be_GetIOFactory w bucketName) in
  match r with inl f => h_ret f | inr e => refuse_bucket e bucketName (Some key) end.

(** Without a bucket the operator is nil, and its type assertion panics, unless the
    bucket does not exist. *)
Definition getBucketOperator : HW (Bk * string) :=
  let! bucketName := parseBucket in
  let! r := h_call (fun w => be_Volume_Get w bucketName) in
  match r with
  | inl op => h_ret (op, bucketName)
  | inr e =>
      if is_remote InfoNotFound e then refuse 404 (NoSuchBucket bucketName)
      else h_out (O_XML 500 (X_Error (InternalError (Error e) bucketName (rq_path rq) None))) ;; h_crash
  end.

Definition getObjectOperator (bucketName key : string) : HW ObjectMeta :=
  let! r := h_call (fun w => be_Volume_Get w bucketName) in
  match r with
  | inr e =>
      if is_remote InfoNotFound e then refuse 404 (NoSuchBucket bucketName)
      else h_out (O_XML 500 (X_Error (InternalError (Error e) bucketName (rq_path rq) None))) ;; h_crash
  | inl op =>
      let! r := h_call (fun w => be_Bucket_Get op w key) in
      match r with
      | inl meta => h_ret meta
      | inr e =>
          if is_remote InfoNotFound e then refuse 404 (NoSuchKey bucketName (rq_path rq) key)
          else refuse_internal e bucketName (Some key)
      end
  end.

Definition listBucket : HW (list ObjectMeta * string) :=
  let! bucketName := parseBucket in
  let! r := h_call (fun w => be_ListObjects w bucketName (Query rq "prefix")) in
  match r with inl l => h_ret (l, bucketName) | inr e => refuse_bucket e bucketName None end.

(** ** Writing objects *)

(** [io.Copy] to the writer: the error it returns. *)
Fixpoint copy_pieces (wr : Wr) (ps : list bytes) (at_end : option error) : HW (option error) :=
  match ps with
  | [] => h_ret at_end
  | p :: ps' =>
      let! r := h_call (fun w => be_Write wr w p) in
      match r with
      | inl (_, Some e) => h_ret (Some e)
      | inl (n, None) => if decide (n <> Z.of_nat (length p)) then h_ret (Some (EExt "short write")) else copy_pieces wr ps' at_end
      | inr e => h_ret (Some e)
      end
  end.

(** [ReadString] up to a newline; at the end the error of the body, or [EOF]. *)
Fixpoint read_line (e : error) (b : bytes) : bytes * bytes * option error :=
  match b with
  | [] => ([], [], Some e)
  | x :: b' =>
      if Byte.eqb x x0a then ([x], b', None)
      else let '(l, rest, err) := read_line e b' in (x :: l, rest, err)
  end.

(** [io.CopyN(writer, bufBody, length)]: the number of bytes copied, the error and
    what is left. *)
Fixpoint copy_n (wr : Wr) (ps : list bytes) (n : Z) : HW (Z * option error) :=
  match ps with
  | [] => h_ret (n, None)
  | p :: ps' =>
      let! r := h_call (fun w => be_Write wr w p) in
      match r with
      | inl (k, Some e) => h_ret (n + k, Some e)
      | inl (k, None) => if decide (k <> Z.of_nat (length p)) then h_ret (n + k, Some (EExt "short write")) else copy_n wr ps' (n + k)
      | inr e => h_ret (n, Some e)
      end
  end.

Definition CopyN (wr : Wr) (e : error) (rest : bytes) (length : Z) : HW (Z * option error * bytes) :=
  let chunk := take (Z.to_nat length) rest in
  let! p := copy_n wr (buf_pieces chunk) 0 in
  let '(n, err) := p in
  let err := if decide (n = length) then None
             else match err with Some _ => err | None => Some e end in
  h_ret (n, err, drop (Z.to_nat length) rest).

(** The body signed in chunks. A line that should end a chunk and does not is
    reported, and reading goes on. *)
Fixpoint put_stream (fuel : nat) (wr : Wr) (bucketName key : string) (e : error) (rest : bytes) : HW unit :=
  match fuel with
  | O => h_hang
  | S fuel =>
      match read_line e rest with
      | (_, _, Some err) =>
          if decide (err = EEOF) then h_ret tt else refuse_internal err bucketName (Some key)
      | (line, rest, None) =>
          match parseSignature (String.string_of_list_byte line) with
          | Err err =>
              if decide (err = EErrno Errno.SignatureDoesNotMatch)
              then refuse 400 (InvalidArgument "signature" bucketName (rq_path rq) (Some key))
              else refuse 400 (SignatureDoesNotMatch bucketName (rq_path rq) (Some key))
          | Panic => h_crash
          | Stuck => h_hang
          | Ok (length, _) =>
              let! r := CopyN wr e rest length in
              let '(n, err, rest) := r in
              if decide (n <> length) then
                match err with
                | None => h_crash
                | Some err =>
                    refuse 412 (PreconditionFailed bucketName (rq_path rq)
                      (Errno_Error IncompatibleSize +:+ " with err " +:+ Error err) (Some key))
                end
              else
                let '(line, rest, err) := read_line e rest in
                (if decide (String.string_of_list_byte line <> CRLF \/ err <> None)
                 then h_out (O_XML 400 (X_Error (IncompleteBody bucketName (rq_path rq) key)))
                 else h_ret tt) ;;
                put_stream fuel wr bucketName key e rest
          end
      end
  end.

Definition close_writer (wr : Wr) (bucketName : string) (key : string) : HW unit :=
  let! r := h_call (be_Close wr) in
  match r with inl _ => h_out (O_Status 200) | inr e => refuse_internal e bucketName (Some key) end.

Definition get_writer (f : F) (key : string) : HW Wr :=
  let! r := h_call (fun w => be_GetEcosWriter f w key) in
  match r with inl wr => h_ret wr | inr _ => h_crash end.

Definition putObject : HW unit :=
  let! p := parseBucketKey in
  let '(bucketName, key) := p in
  let! f := getFactory bucketName key in
  let! wr := get_writer f key in
  (if decide (rq_header rq "X-Amz-Content-Sha256" = "STREAMING-AWS4-HMAC-SHA256-PAYLOAD") then
     let b := concat (pieces (rq_body rq)) in
     put_stream (S (length b)) wr bucketName key (default EEOF (body_err (rq_body rq))) b
   else
     let! r := copy_pieces wr (pieces (rq_body rq)) (body_err (rq_body rq)) in
     match r with None => h_ret tt | Some e => refuse_internal e bucketName (Some key) end) ;;
  close_writer wr bucketName key.

Definition postObject : HW unit :=
  let! bucketName := parseBucket in
  match rq_form rq with
  | None => refuse 400 (MalformedPOSTRequest bucketName (rq_path rq) None)
  | Some form =>
      match form_keys form with
      | None => refuse 400 (RequestIsNotMultiPartContent bucketName (rq_path rq))
      | Some [key] =>
          if decide (key = "") then refuse 400 (InvalidArgument "key" bucketName (rq_path rq) None)
          else match form_files form with
               | [None] => refuse 400 (InvalidArgument "file" bucketName (rq_path rq) None)
               | [Some (Ok content)] =>
                   let! f := getFactory bucketName key in
                   let! wr := get_writer f key in
                   let! r := copy_pieces wr (pieces content) (body_err content) in
                   (match r with
                    | None | Some EEOF => h_ret tt
                    | Some e => refuse_internal e bucketName (Some key)
                    end) ;;
                   close_writer wr bucketName key
               | [Some (Err e)] => refuse_internal e bucketName (Some key)
               | [Some Panic] => h_crash
               | [Some Stuck] => h_hang
               | _ => refuse 400 (IncorrectNumberOfFilesInPostRequest bucketName (rq_path rq) None)
               end
      | Some _ => refuse 400 (IncorrectNumberOfFilesInPostRequest bucketName (rq_path rq) None)
      end
  end.

(** ** Reading objects *)

Definition headObject : HW unit :=
  let! p := parseBucketKey in
  let '(bucketName, key) := p in
  let! meta := getObjectOperator bucketName key in
  h_out (O_Header "Content-Length" (FormatUint (ObjSize meta))) ;;
  h_out (O_Header "ETag" (ObjHash meta)) ;;
  h_out (O_Header "Last-Modified" (FormatTime (UpdateTime meta))) ;;
  h_out (O_Status 200).

Definition get_reader (f : F) (key : string) : HW Rd :=
  let! r := h_call (fun w => be_GetEcosReader f w key) in
  match r with inl rd => h_ret rd | inr _ => h_crash end.

(** One range of several. [first] is the first range, where the reader is put
    before every part. *)
Definition put_part (rd : Rd) (bucketName key : string) (meta : ObjectMeta) (first r : httpRange) : HW unit :=
  let! s := h_call (fun w => be_Seek rd w (r_start first)) in
  match s with
  | inr e => refuse_internal e bucketName (Some key)
  | inl _ =>
      h_out (O_Part ("bytes " +:+ FormatInt (r_start r) +:+ "-" +:+ FormatInt (i64 (r_start r + r_length r - 1)) +:+ "/" +:+ FormatUint (ObjSize meta))) ;;
      let! s := h_call (fun w => be_Seek rd w (r_start r)) in
      (match s with
       | inr e => if decide (e = EEOF) then h_ret tt else refuse_internal e bucketName (Some key)
       | inl _ => h_ret tt
       end) ;;
      let! c := h_call (fun w => be_ReadN rd w (r_length r)) in
      match c with
      | inr e => refuse_internal e bucketName (Some key)
      | inl (b, err) =>
          h_out (O_Data b) ;;
          match err with
          | None => h_ret tt
          | Some e => if decide (e = EEOF) then h_ret tt else refuse_internal e bucketName (Some key)
          end
      end
  end.

Fixpoint put_ranges (rd : Rd) (bucketName key : string) (meta : ObjectMeta) (first : httpRange) (rs : list httpRange) : HW unit :=
  match rs with
  | [] => h_ret tt
  | r :: rs' => put_part rd bucketName key meta first r ;; put_ranges rd bucketName key meta first rs'
  end.

Definition getObject : HW unit :=
  let! p := parseBucketKey in
  let '(bucketName, key) := p in
  let! meta := getObjectOperator bucketName key in
  let! f := getFactory bucketName key in
  let! rd := get_reader f key in
  h_out (O_Header "ETag" (ObjId meta)) ;;
  let requestRange := rq_header rq "Range" in
  let modified := O_Header "Last-Modified" (FormatTime (UpdateTime meta)) in
  if decide (requestRange = "") then h_out modified ;; h_out (O_Reader 200 (i64 (ObjSize meta)))
  else match parseRange requestRange (i64 (ObjSize meta)) with
       | Ok [] => h_out (O_Status 416)
       | Ok [r] =>
           let! s := h_call (fun w => be_Seek rd w (r_start r)) in
           match s with
           | inr e => refuse_internal e bucketName (Some key)
           | inl _ =>
               h_out (O_Status 206) ;; h_out modified ;;
               h_out (O_Header "Content-Range" (contentRange r (i64 (ObjSize meta)))) ;;
               let! c := h_call (fun w => be_ReadN rd w (r_length r)) in
               match c with
               | inr e => refuse_internal e bucketName (Some key)
               | inl (b, err) =>
                   h_out (O_Data b) ;;
                   match err with None => h_ret tt | Some e => refuse_internal e bucketName (Some key) end
               end
           end
       | Ok (first :: rs) =>
           h_out (O_Status 206) ;; h_out modified ;; h_out (O_Header "ETag" (ObjId meta)) ;;
           put_ranges rd bucketName key meta first (first :: rs)
       | _ => refuse 416 (InvalidRange bucketName (rq_path rq) key)
       end.

(** ** Deleting and copying *)

Definition get_bucket (bucketName : string) (missing : string) (key : option string) : HW Bk :=
  let! r := h_call (fun w => be_Volume_Get w missing) in
  match r with
  | inl op => h_ret op
  | inr e => if is_remote InfoNotFound e then refuse 404 (NoSuchBucket missing) else refuse_internal e bucketName key
  end.

(** An object that is not there is deleted. *)
Definition deleteObject : HW unit :=
  let! p := parseBucketKey in
  let '(bucketName, key) := p in
  let! op := get_bucket bucketName bucketName (Some key) in
  let! r := h_call (fun w => be_Bucket_Remove op w key) in
  match r with
  | inr e => if is_remote MetaNotExist e then h_out (O_Status 204) else refuse_internal e bucketName (Some key)
  | inl _ => h_out (O_Status 204)
  end.

Definition copyObject : HW unit :=
  let! p := parseBucketKey in
  let '(bucketName, key) := p in
  let src := rq_header rq "x-amz-copy-source" in
  if decide (src = "") then refuse 400 (InvalidArgument "x-amz-copy-source" bucketName (rq_path rq) None)
  else
    let '(srcBucket, srcKey) := parseSrcKey src in
    if decide (srcBucket = "") then refuse 400 (InvalidArgument "x-amz-copy-source" bucketName (rq_path rq) None)
    else
      let! op := get_bucket bucketName srcBucket (Some key) in
      let! r := h_call (fun w => be_Bucket_Get op w srcKey) in
      match r with
      | inr e =>
          if is_remote MetaNotExist e then refuse 404 (NoSuchKey srcBucket (rq_path rq) srcKey)
          else refuse_internal e bucketName (Some key)
      | inl meta =>
          let! f := getFactory bucketName key in
          let! wr := get_writer f key in
          let! c := h_call (fun w => be_Copy wr w meta) in
          match c with
          | inr e => refuse_internal e bucketName (Some key)
          | inl etag => h_out (O_XML 200 (X_CopyObjectResult etag))
          end
      end.

(** One object after the other; a key that is missing is dereferenced. *)
Fixpoint delete_each (op : Bk) (keys : list (option string)) (deleted : list string) (errors : list (string * string))
    : HW (list string * list (string * string)) :=
  match keys with
  | [] => h_ret (deleted, errors)
  | None :: _ => h_crash
  | Some key :: keys' =>
      let! r := h_call (fun w => be_Bucket_Remove op w key) in
      match r with
      | inr e =>
          if is_remote MetaNotExist e then delete_each op keys' (deleted ++ [key]) errors
          else delete_each op keys' deleted (errors ++ [(key, Error e)])
      | inl _ => delete_each op keys' (deleted ++ [key]) errors
      end
  end.

Definition deleteObjects : HW unit :=
  let! bucketName := parseBucket in
  match rq_delete rq with
  | None => refuse 400 (MalformedXML bucketName (rq_path rq) None)
  | Some keys =>
      let! op := get_bucket bucketName bucketName None in
      let! d := delete_each op keys [] [] in
      h_out (O_XML 200 (X_DeleteResult d.1 d.2))
  end.

(** ** Buckets *)

Definition createBucket : HW unit :=
  let! bucketName := parseBucket in
  if decide (bucketName = "default") then refuse 409 (BucketAlreadyExists "default")
  else if decide (rq_length rq > 0 /\ rq_xml rq = false) then refuse 400 (MalformedXML bucketName (rq_path rq) None)
  else match GenBucketInfo "root" bucketName "root" with
       | None => h_crash
       | Some bucketInfo =>
           let! r := h_call (fun w => be_CreateBucket w bucketInfo) in
           match r with
           | inr e => refuse_internal e bucketName None
           | inl _ => h_out (O_Header "Location" ("/" +:+ bucketName)) ;; h_out (O_Status 200)
           end
       end.

Fixpoint list_contents (etag : ObjectMeta -> string) (bucketName : string) (metas : list ObjectMeta) (acc : list Content) : HW (list Content) :=
  match metas with
  | [] => h_ret acc
  | meta :: metas' =>
      match SplitID (ObjId meta) with
      | Ok n => list_contents etag bucketName metas'
                  (acc ++ [mkContent (Object.key n) (FormatNano (UpdateTime meta)) (etag meta) (ObjSize meta)])
      | Err e => refuse_internal e bucketName None
      | Panic => h_crash
      | Stuck => h_hang
      end
  end.

Definition list_with (etag : ObjectMeta -> string) : HW unit :=
  let! p := listBucket in
  let '(metas, bucketName) := p in
  let! contents := list_contents etag bucketName metas [] in
  h_out (O_XML 200 (X_ListBucketResult bucketName contents)).

Definition listObjects : HW unit := list_with ObjId.

Definition listObjectsV2 : HW unit := list_with ObjHash.

Definition headBucket : HW unit := getBucketOperator ;; h_out (O_Status 200).

Definition deleteBucket : HW unit :=
  let! p := listBucket in
  let '(metas, bucketName) := p in
  if decide (length metas <> 0%nat) then refuse 409 (BucketNotEmpty bucketName)
  else match GenBucketInfo "root" bucketName "root" with
       | None => h_crash
       | Some bucketInfo =>
           let! r := h_call (fun w => be_DeleteBucket w bucketInfo) in
           match r with
           | inr e => refuse_internal e bucketName None
           | inl _ => h_out (O_Status 204)
           end
       end.

Definition listBuckets : HW unit :=
  let! r := h_call (fun w => be_Volume_List w "") in
  match r with
  | inr e => refuse_internal e "" None
  | inl bs => h_out (O_XML 200 (X_ListAllMyBucketsResult "root" (BucketName <$> bs)))
  end.

(** ** Multipart uploads *)

(** What every handler of a part starts with. *)
Definition part_request : HW (string * string * string) :=
  let! p := parseBucketKey in
  let uploadId := Query rq "uploadId" in
  if decide (uploadId = "") then refuse 400 (InvalidArgument "uploadId" p.1 (rq_path rq) None)
  else h_ret (p.1, p.2, uploadId).

Definition part_number (bucketName : string) : HW Z :=
  match parsePartID (Query rq "partNumber") with
  | Ok id => h_ret id
  | _ => refuse 400 (InvalidArgument "partNumber" bucketName (rq_path rq) None)
  end.

Definition createMultipartUpload : HW unit :=
  let! p := parseBucketKey in
  let '(bucketName, key) := p in
  let! f := getFactory bucketName key in
  let! r := h_call (fun w => be_CreateMultipartUploadJob f w key) in
  match r with
  | inl uploadId => h_out (O_XML 200 (X_InitiateMultipartUploadResult bucketName key uploadId))
  | inr _ => h_crash
  end.

(** Any error but a missing upload leaves a nil writer, which is used. *)
Definition upload_writer (f : F) (bucketName key uploadId : string) : HW Wr :=
  let! r := h_call (fun w => be_GetMultipartUploadWriter f w uploadId) in
  match r with
  | inl wr => h_ret wr
  | inr e => if decide (e = EErrno Errno.NoSuchUpload) then refuse 404 (NoSuchUpload bucketName (rq_path rq) key) else h_crash
  end.

Definition uploadPart : HW unit :=
  let! p := part_request in
  let '(bucketName, key, uploadId) := p in
  let! partID := part_number bucketName in
  if decide (rq_length rq < 5 * 2 ^ 20) then refuse 400 (EntityTooSmall bucketName (rq_path rq) key)
  else if decide (rq_length rq > 5 * 2 ^ 30) then refuse 400 (EntityTooLarge bucketName (rq_path rq) key)
  else
    let! f := getFactory bucketName key in
    let! wr := upload_writer f bucketName key uploadId in
    let! r := h_call (fun w => be_WritePart wr w partID (rq_body rq)) in
    match r with
    | inr e => refuse_internal e bucketName (Some key)
    | inl eTag => h_out (O_Header "ETag" eTag) ;; h_out (O_Status 200)
    end.

Definition listParts : HW unit :=
  let! p := part_request in
  let '(bucketName, key, uploadId) := p in
  let! f := getFactory bucketName key in
  let! wr := upload_writer f bucketName key uploadId in
  let! r := h_call (be_ListParts wr) in
  match r with
  | inl parts => h_out (O_XML 200 (X_ListPartsResult bucketName key uploadId parts))
  | inr _ => h_crash
  end.

Definition getPart : HW unit :=
  let! p := part_request in
  let '(bucketName, key, uploadId) := p in
  let! partID := part_number bucketName in
  let! f := getFactory bucketName key in
  let! r := h_call (fun w => be_GetMultipartUploadWriter f w uploadId) in
  match r with
  | inr e =>
      if decide (e = EErrno Errno.NoSuchUpload) then refuse 404 (NoSuchUpload bucketName (rq_path rq) key)
      else refuse_internal e bucketName (Some key)
  | inl wr =>
      let! r := h_call (fun w => be_GetPartBlockInfo wr w partID) in
      match r with
      | inr e =>
          if decide (e = EErrno Errno.MethodNotAllowed) then refuse 405 (MethodNotAllowed bucketName (rq_path rq) (Some key))
          else if decide (e = EErrno Errno.InvalidArgument) then refuse 400 (InvalidArgument "partNumber" bucketName (rq_path rq) None)
          else if decide (e = EErrno Errno.InvalidPart) then refuse 404 (InvalidPart bucketName (rq_path rq) key)
          else if decide (e = EErrno Errno.InvalidObjectState) then refuse 409 (InvalidObjectState bucketName (rq_path rq) key)
          else refuse_internal e bucketName (Some key)
      | inl blockInfo =>
          let! rd := get_reader f key in
          let! r := h_call (fun w => be_GetBlock rd w blockInfo) in
          match r with
          | inr e => refuse_internal e bucketName (Some key)
          | inl content =>
              if decide (Z.of_nat (length content) <> BI_BlockSize blockInfo)
              then refuse 412 (PreconditionFailed bucketName (rq_path rq) "Incompatible Part Size" (Some key))
              else h_out (O_Bytes 200 content)
          end
      end
  end.

(** The parts the client lists are decoded and not looked at. *)
Definition completeMultipartUpload : HW unit :=
  let! p := part_request in
  let '(bucketName, key, uploadId) := p in
  if negb (rq_xml rq) then refuse 400 (MalformedXML bucketName (rq_path rq) (Some key))
  else
    let! f := getFactory bucketName key in
    let! r := h_call (fun w => be_CompleteMultipartUploadJob f w uploadId) in
    match r with
    | inr e =>
        if decide (e = EErrno Errno.InvalidPartOrder) then refuse 400 (InvalidPartOrder bucketName (rq_path rq) key)
        else if decide (e = EErrno Errno.NoSuchUpload) then refuse 404 (NoSuchUpload bucketName (rq_path rq) key)
        else if decide (e = EErrno Errno.InvalidPart) then refuse 404 (InvalidPart bucketName (rq_path rq) key)
        else refuse_internal e bucketName (Some key)
    | inl etag => h_out (O_XML 200 (X_CompleteMultipartUploadResult (bucketName +:+ "/" +:+ key) bucketName key etag))
    end.

Definition abortMultipartUpload : HW unit :=
  let! p := part_request in
  let '(bucketName, key, uploadId) := p in
  let! f := getFactory bucketName key in
  let! r := h_call (fun w => be_AbortMultipartUploadJob f w uploadId) in
  match r with
  | inr e =>
      if decide (e = EErrno Errno.NoSuchUpload) then refuse 404 (NoSuchUpload bucketName (rq_path rq) key)
      else refuse_internal e bucketName (Some key)
  | inl _ => h_out (O_Status 204)
  end.

(** The prefix is cleaned before every comparison. *)
Fixpoint uploads_with (prefix : string) (uploads acc : list (string * string)) : string * list (string * string) :=
  match uploads with
  | [] => (prefix, acc)
  | (key, id) :: uploads' =>
      let prefix := if decide (prefix <> "") then CleanObjectKey prefix else prefix in
      uploads_with prefix uploads' (if HasPrefix (CleanObjectKey key) prefix then acc ++ [(key, id)] else acc)
  end.

Definition listMultipartUploads : HW unit :=
  let! bucketName := parseBucket in
  let! r := h_call (fun w => be_GetIOFactory w bucketName) in
  match r with
  | inr e => refuse_bucket e bucketName None
  | inl f =>
      let! r := h_call (be_ListMultipartUploadJob f) in
      match r with
      | inr e => refuse_internal e bucketName None
      | inl uploads =>
          let '(prefix, found) := uploads_with (Query rq "prefix") uploads [] in
          let delimiter := Query rq "delimiter" in
          let maxUploads := Atoi_value (Query rq "maxUploads") in
          if decide (maxUploads < 0) then refuse 400 (InvalidArgument "maxUploads" bucketName (rq_path rq) None)
          else h_out (O_XML 200 (X_ListMultipartUploadsResult bucketName
                 (if decide (delimiter <> "") then Some delimiter else None)
                 (if decide (prefix <> "") then Some prefix else None) maxUploads found))
      end
  end.

(** ** The choice of a handler *)

Definition bucketLevelPostHandler : HW unit :=
  match GetQuery rq "delete" with Some _ => deleteObjects | None => postObject end.

Definition bucketLevelGetHandler : HW unit :=
  match GetQuery rq "uploads" with
  | Some _ => listMultipartUploads
  | None => if decide (Query rq "list-type" = "2") then listObjectsV2 else listObjects
  end.

Definition objectLevelPostHandler : HW unit :=
  if decide (rq_key rq = "/") then bucketLevelPostHandler
  else match GetQuery rq "uploads", GetQuery rq "uploadId" with
       | Some _, _ => createMultipartUpload
       | None, Some _ => completeMultipartUpload
       | None, None => h_out (O_Status 404)
       end.

Definition objectLevelPutHandler : HW unit :=
  if decide (rq_key rq = "/") then createBucket
  else match GetQuery rq "uploadId" with
       | Some _ => uploadPart
       | None => if decide (rq_header rq "x-amz-copy-source" <> "") then copyObject else putObject
       end.

Definition objectLevelGetHandler : HW unit :=
  if decide (rq_key rq = "/") then bucketLevelGetHandler
  else match GetQuery rq "uploadId", GetQuery rq "partNumber" with
       | Some _, _ => listParts
       | None, Some _ => getPart
       | None, None => getObject
       end.

Definition objectLevelDeleteHandler : HW unit :=
  if decide (rq_key rq = "/") then deleteBucket
  else match GetQuery rq "uploadId" with Some _ => abortMultipartUpload | None => deleteObject end.

Definition objectLevelHeadHandler : HW unit :=
  if decide (rq_key rq = "/") then headBucket else headObject.

End gateway.
