(* ===== verification/GatewayProofs.v ===== *)
(** * What the gateway answers

    Proofs about [Gateway.v] for any client: a streamed upload stores what was
    signed, handlers end, byte ranges are served from the object, a deletion of
    many objects accounts for each of them. *)

From S2P Require Import Prelude GoStd Errno Infos Object GaiaMsg Multipart GwErrors GwUtils Gateway.

(** ** Signature lines *)

Lemma span_app p s t : str_all p s = true -> match t with String a _ => p a = false | EmptyString => True end -> span p (s +:+ t) = (s, t).
Proof.
  intros Hs Ht. induction s as [|a s IH].
  - destruct t as [|b t]; [done|]. cbn [span]. rewrite str_nil_app. cbn [span]. by rewrite Ht.
  - cbn [str_all] in Hs. apply andb_true_iff in Hs as [Ha Hs]. rewrite str_cons_app. cbn [span]. by rewrite Ha, (IH Hs).
Qed.

Definition signature_line (h sig : string) : string := h +:+ ";chunk-signature=" +:+ sig +:+ CRLF.

Lemma parseSignature_line h sig n : h <> "" -> str_all is_hex h = true -> sig <> "" -> str_all is_word sig = true -> ParseHex h = Some n ->
  parseSignature (signature_line h sig) = Ok (n, sig).
Proof.
  intros Hh Hhex Hs Hw Hn. unfold parseSignature.
  assert (match_at (signature_line h sig) = Some (h, sig)) as Hm.
  { unfold match_at, signature_line. rewrite span_app by done. rewrite decide_False by done. rewrite prefix_app.
    change (str_drop 17 (";chunk-signature=" +:+ sig +:+ CRLF)) with (sig +:+ CRLF).
    rewrite span_app by done. rewrite decide_False by done. done. }
  assert (find_match (signature_line h sig) = Some (h, sig)) as ->.
  { destruct (signature_line h sig); cbn [find_match]; by rewrite Hm. }
  by rewrite Hn.
Qed.

Lemma list_byte_app s t : String.list_byte_of_string (s +:+ t) = String.list_byte_of_string s ++ String.list_byte_of_string t.
Proof. induction s as [|a s IH]; [done|]. rewrite str_cons_app. cbn [String.list_byte_of_string app]. unfold String.list_byte_of_string in *. cbn. by rewrite IH. Qed.

Lemma read_line_found e l rest : Forall (fun x => Byte.eqb x x0a = false) l -> read_line e (l ++ x0a :: rest) = (l ++ [x0a], rest, None).
Proof.
  induction 1 as [|x l Hx Hl IH]; [done|]. cbn [app read_line]. rewrite Hx. by rewrite IH.
Qed.

Lemma no_newline s : str_all (not_char "010"%char) s = true -> Forall (fun x => Byte.eqb x x0a = false) (String.list_byte_of_string s).
Proof.
  induction s as [|a s IH]; [constructor|]. cbn [str_all]. intros [Ha Hs]%andb_true_iff. constructor; [|by apply IH].
  unfold not_char in Ha. apply bool_decide_eq_true in Ha.
  destruct (Byte.eqb (byte_of_ascii a) x0a) eqn:E; [|done]. exfalso. apply Ha. apply Byte.byte_dec_bl in E.
  rewrite <- (ascii_of_byte_of_ascii a), E. done.
Qed.

Lemma hex_not_newline a : is_hex a = true -> not_char "010"%char a = true.
Proof. destruct a as [[] [] [] [] [] [] [] []]; vm_compute; done. Qed.

Lemma word_not_newline a : is_word a = true -> not_char "010"%char a = true.
Proof. destruct a as [[] [] [] [] [] [] [] []]; vm_compute; done. Qed.

(** ** A streamed body *)

Record Chunk := mkSigned { ck_hex : string; ck_sig : string; ck_data : bytes }.

Definition chunk_ok (c : Chunk) : Prop :=
  ck_hex c <> "" /\ str_all is_hex (ck_hex c) = true /\ ck_sig c <> "" /\ str_all is_word (ck_sig c) = true /\
  ParseHex (ck_hex c) = Some (Z.of_nat (length (ck_data c))).

(** The signature line up to its carriage return. *)
Definition signed_head (c : Chunk) : bytes := String.list_byte_of_string (ck_hex c +:+ ";chunk-signature=" +:+ ck_sig c +:+ String "013" "").

Definition encode_chunk (c : Chunk) : bytes := signed_head c ++ x0a :: ck_data c ++ [x0d; x0a].

Lemma signed_head_line c : String.string_of_list_byte (signed_head c ++ [x0a]) = signature_line (ck_hex c) (ck_sig c).
Proof.
  unfold signed_head, signature_line. change [x0a] with (String.list_byte_of_string (String "010" "")). rewrite <- list_byte_app.
  rewrite String.string_of_list_byte_of_string. by rewrite !str_app_assoc.
Qed.

Lemma signed_head_no_newline c : chunk_ok c -> Forall (fun x => Byte.eqb x x0a = false) (signed_head c).
Proof.
  intros (_ & Hh & _ & Hs & _). apply no_newline. rewrite !str_all_app.
  by rewrite (str_all_impl _ _ _ hex_not_newline Hh), (str_all_impl _ _ _ word_not_newline Hs).
Qed.

Section gateway.
Context {W F Wr Rd Bk : Type} `{Backend W F Wr Rd Bk}.
Context (FormatTime : option Timestamp -> string).
Context (buf_pieces : bytes -> list bytes).
Hypothesis Hpieces : forall b, concat (buf_pieces b) = b.

(** ** Writers that accept what they are given *)

Context (stored : W -> Wr -> bytes) (good : W -> Prop).

Definition accepts (wr : Wr) : Prop :=
  forall w p, good w -> exists w', be_Write wr w p = (w', Ok (Z.of_nat (length p), None)) /\ good w' /\ stored w' wr = stored w wr ++ p.

Lemma copy_n_accepts wr ps : accepts wr -> forall n w, good w -> exists w',
  copy_n wr ps n w = (w', [], Go (n + Z.of_nat (length (concat ps)), None)) /\ good w' /\ stored w' wr = stored w wr ++ concat ps.
Proof.
  intros Hwr. induction ps as [|p ps IH]; intros n w Hg.
  - exists w. cbn [copy_n concat]. rewrite app_nil_r. split; [|done]. unfold h_ret. by rewrite Z.add_0_r.
  - destruct (Hwr w p Hg) as (w1 & E1 & G1 & A1). destruct (IH (n + Z.of_nat (length p)) w1 G1) as (w2 & E2 & G2 & A2).
    exists w2. cbn [copy_n concat]. unfold h_bind, h_call. rewrite E1. rewrite decide_False by (intros Hn; by apply Hn).
    rewrite E2. split.
    + cbn [app]. rewrite length_app, Nat2Z.inj_add. by rewrite Z.add_assoc.
    + split; [done|]. by rewrite A2, A1, app_assoc.
Qed.

Lemma CopyN_accepts wr e d rest w : accepts wr -> good w -> exists w',
  CopyN buf_pieces wr e (d ++ rest) (Z.of_nat (length d)) w = (w', [], Go (Z.of_nat (length d), None, rest)) /\ good w' /\ stored w' wr = stored w wr ++ d.
Proof.
  intros Hwr Hg. unfold CopyN. rewrite Nat2Z.id, take_app_length, drop_app_length.
  destruct (copy_n_accepts wr (buf_pieces d) Hwr 0 w Hg) as (w' & E & A). rewrite Hpieces in *. exists w'. split; [|done].
  unfold h_bind. rewrite E. cbn. by rewrite decide_True by done.
Qed.

(** One chunk is read, up to what ends it. *)
Lemma put_stream_chunk rq fuel wr b k e c x rest w : accepts wr -> good w -> chunk_ok c -> Forall (fun y => Byte.eqb y x0a = false) x -> exists w',
  good w' /\ stored w' wr = stored w wr ++ ck_data c /\
  put_stream buf_pieces rq (S fuel) wr b k e (signed_head c ++ x0a :: ck_data c ++ x ++ x0a :: rest) w =
    ((if decide (String.string_of_list_byte (x ++ [x0a]) <> CRLF \/ @None error <> None)
      then h_out (O_XML 400 (X_Error (IncompleteBody b (rq_path rq) k))) else h_ret tt) ;;
     put_stream buf_pieces rq fuel wr b k e rest) w'.
Proof.
  intros Hwr Hg Hc Hx. cbn [put_stream]. rewrite read_line_found by (by apply signed_head_no_newline). rewrite signed_head_line.
  destruct Hc as (H1 & H2 & H3 & H4 & H5). rewrite (parseSignature_line _ _ _ H1 H2 H3 H4 H5).
  destruct (CopyN_accepts wr e (ck_data c) (x ++ x0a :: rest) w Hwr Hg) as (w' & E & G & A). exists w'. split; [done|]. split; [done|].
  unfold h_bind at 1. rewrite E. rewrite decide_False by (intros Hn; by apply Hn). rewrite read_line_found by done.
  cbn [app]. by destruct ((_ ;; _) w') as [[w2 o] [| | |]].
Qed.

Lemma put_stream_chunks rq wr b k cs : accepts wr -> Forall chunk_ok cs -> forall fuel w, good w -> (length cs < fuel)%nat -> exists w',
  good w' /\ stored w' wr = stored w wr ++ concat (ck_data <$> cs) /\
  put_stream buf_pieces rq fuel wr b k EEOF (concat (encode_chunk <$> cs)) w = (w', [], Go tt).
Proof.
  intros Hwr. induction 1 as [|c cs Hc Hcs IH]; intros fuel w Hg Hf.
  - exists w. rewrite app_nil_r. split; [done|]. split; [done|]. destruct fuel as [|fuel]; [simpl in Hf; lia|]. done.
  - destruct fuel as [|fuel]; [simpl in Hf; lia|].
    destruct (put_stream_chunk rq fuel wr b k EEOF c [x0d] (concat (encode_chunk <$> cs)) w Hwr Hg Hc) as (w1 & G1 & A1 & E1); [by repeat constructor|].
    destruct (IH fuel w1 G1) as (w2 & G2 & A2 & E2); [simpl in Hf; lia|]. exists w2. split; [done|]. split.
    + cbn [fmap list_fmap concat]. by rewrite A2, A1, app_assoc.
    + cbn [fmap list_fmap concat]. unfold encode_chunk at 1. rewrite <- !app_assoc. cbn [app].
      rewrite <- (app_assoc (ck_data c)). change ([x0d; x0a] ++ ?r) with ([x0d] ++ x0a :: r). rewrite E1.
      rewrite decide_False by (vm_compute; tauto). unfold h_bind, h_ret. by rewrite E2.
Qed.

(** Up to the writer an upload goes the same way. *)
Lemma putObject_stream rq w w1 w2 f wr : rq_bucket rq <> "" -> rq_key rq <> "" ->
  rq_header rq "X-Amz-Content-Sha256" = "STREAMING-AWS4-HMAC-SHA256-PAYLOAD" ->
  be_GetIOFactory w (rq_bucket rq) = (w1, Ok f) -> be_GetEcosWriter f w1 (rq_key rq) = (w2, Ok wr) ->
  let b := concat (pieces (rq_body rq)) in
  putObject buf_pieces rq w =
    (put_stream buf_pieces rq (S (length b)) wr (rq_bucket rq) (rq_key rq) (default EEOF (body_err (rq_body rq))) b ;;
     close_writer rq wr (rq_bucket rq) (rq_key rq)) w2.
Proof.
  intros Hb Hk Hh Hf Hwr b. unfold putObject, parseBucketKey, parseBucket. rewrite decide_False by done.
  unfold h_bind at 1 2, h_ret at 1. rewrite decide_False by done. cbn [h_ret app].
  unfold h_bind at 1, getFactory, h_call. unfold h_bind at 1. rewrite Hf. cbn [h_ret app].
  unfold h_bind at 1, get_writer, h_call. unfold h_bind at 1. rewrite Hwr. cbn [h_ret app].
  rewrite decide_True by done. fold b. by destruct ((_ ;; _) w2) as [[w3 o] fl].
Qed.

(** A whole body in signed chunks. *)
Lemma putObject_streamed rq w w1 w2 f wr cs :
  accepts wr -> good w2 -> rq_bucket rq <> "" -> rq_key rq <> "" ->
  rq_header rq "X-Amz-Content-Sha256" = "STREAMING-AWS4-HMAC-SHA256-PAYLOAD" ->
  be_GetIOFactory w (rq_bucket rq) = (w1, Ok f) -> be_GetEcosWriter f w1 (rq_key rq) = (w2, Ok wr) ->
  Forall chunk_ok cs -> concat (pieces (rq_body rq)) = concat (encode_chunk <$> cs) -> body_err (rq_body rq) = None ->
  exists w3, good w3 /\ stored w3 wr = stored w2 wr ++ concat (ck_data <$> cs) /\
    putObject buf_pieces rq w = close_writer rq wr (rq_bucket rq) (rq_key rq) w3.
Proof.
  intros Hwr Hg Hb Hk Hh Hf Hw Hcs Hbody Herr.
  rewrite (putObject_stream rq w w1 w2 f wr) by done. rewrite Herr, Hbody. cbn [default from_option].
  destruct (put_stream_chunks rq wr (rq_bucket rq) (rq_key rq) cs Hwr Hcs
    (S (length (concat (encode_chunk <$> cs)))) w2 Hg) as (w3 & G & A & E).
  { assert (length cs <= length (concat (encode_chunk <$> cs)))%nat; [|lia]. clear. induction cs as [|c cs IH]; [done|].
    rewrite fmap_cons. cbn [concat]. rewrite length_app. unfold encode_chunk at 1. rewrite length_app. cbn [length]. lia. }
  exists w3. split; [done|]. split; [done|]. unfold h_bind. rewrite E. by destruct (close_writer _ _ _ _ w3) as [[w4 o] fl].
Qed.

End gateway.

(** ** Properties *)

(** a streamed upload stores what was signed. For a client that accepts what
    is written, a body that is a sequence of well-formed signed chunks is taken
    apart without a refusal: exactly the data of the chunks reaches the writer, in
    order, and the answer is the one closing the writer gives. *)
Theorem streamed_body_stored {W F Wr Rd Bk : Type} `{Backend W F Wr Rd Bk} (buf_pieces : bytes -> list bytes)
    (stored : W -> Wr -> bytes) (good : W -> Prop) rq w w1 w2 f wr cs :
  (forall b, concat (buf_pieces b) = b) -> accepts stored good wr -> good w2 ->
  rq_bucket rq <> "" -> rq_key rq <> "" -> rq_header rq "X-Amz-Content-Sha256" = "STREAMING-AWS4-HMAC-SHA256-PAYLOAD" ->
  be_GetIOFactory w (rq_bucket rq) = (w1, Ok f) -> be_GetEcosWriter f w1 (rq_key rq) = (w2, Ok wr) ->
  Forall chunk_ok cs -> concat (pieces (rq_body rq)) = concat (encode_chunk <$> cs) -> body_err (rq_body rq) = None ->
  exists w3, good w3 /\ stored w3 wr = stored w2 wr ++ concat (ck_data <$> cs) /\
    putObject buf_pieces rq w = close_writer rq wr (rq_bucket rq) (rq_key rq) w3.
Proof. intros Hp. by apply putObject_streamed. Qed.

(** an incomplete body is reported and stored all the same. When the line
    after the last chunk is not empty the gateway writes the error 400
    IncompleteBody, but goes on, closes the writer, which commits the object, and
    then sets the status the writer's success deserves. *)
Theorem incomplete_body_committed {W F Wr Rd Bk : Type} `{Backend W F Wr Rd Bk} (buf_pieces : bytes -> list bytes)
    (stored : W -> Wr -> bytes) (good : W -> Prop) rq w w1 w2 f wr c junk :
  (forall b, concat (buf_pieces b) = b) -> accepts stored good wr -> good w2 ->
  rq_bucket rq <> "" -> rq_key rq <> "" -> rq_header rq "X-Amz-Content-Sha256" = "STREAMING-AWS4-HMAC-SHA256-PAYLOAD" ->
  be_GetIOFactory w (rq_bucket rq) = (w1, Ok f) -> be_GetEcosWriter f w1 (rq_key rq) = (w2, Ok wr) ->
  chunk_ok c -> Forall (fun y => Byte.eqb y x0a = false) junk -> String.string_of_list_byte (junk ++ [x0a]) <> CRLF ->
  concat (pieces (rq_body rq)) = signed_head c ++ x0a :: ck_data c ++ junk ++ [x0a] -> body_err (rq_body rq) = None ->
  (forall w, exists w', be_Close wr w = (w', Ok tt)) ->
  exists w3 w4, stored w3 wr = stored w2 wr ++ ck_data c /\ be_Close wr w3 = (w4, Ok tt) /\
    putObject buf_pieces rq w =
      (w4, [O_XML 400 (X_Error (IncompleteBody (rq_bucket rq) (rq_path rq) (rq_key rq))); O_Status 200], Go tt).
Proof.
  intros Hp Hwr Hg Hb Hk Hh Hf Hw Hc Hj Hne Hbody Herr Hclose.
  rewrite (putObject_stream buf_pieces rq w w1 w2 f wr) by done. rewrite Herr, Hbody. cbn [default from_option].
  destruct (put_stream_chunk buf_pieces Hp stored good rq (length (signed_head c ++ x0a :: ck_data c ++ junk ++ [x0a])) wr (rq_bucket rq) (rq_key rq)
    EEOF c junk [] w2 Hwr Hg Hc Hj) as (w3 & _ & A & E).
  destruct (Hclose w3) as (w4 & Ecl). exists w3, w4. split_and!; try done.
  unfold h_bind at 1. rewrite E. rewrite decide_True by (by left).
  assert (exists k, length (signed_head c ++ x0a :: ck_data c ++ junk ++ [x0a]) = S k) as [k ->].
  { rewrite length_app. cbn [length]. exists (length (signed_head c) + length (ck_data c ++ junk ++ [x0a]))%nat. lia. }
  unfold h_bind at 1, h_out at 1. cbn [put_stream read_line]. rewrite decide_True by done. unfold h_ret. cbn [app].
  unfold close_writer, h_bind, h_call. rewrite Ecl. done.
Qed.

(** ** Ranges, missing objects, deletions *)

Section reading.
Context {W F Wr Rd Bk : Type} `{Backend W F Wr Rd Bk}.

(** A reader of the content [c]: after seeking inside it, it reads on from there. *)
Definition reads (w : W) (rd : Rd) (c : bytes) : Prop :=
  forall a n, 0 <= a -> 0 <= n -> a + n <= Z.of_nat (length c) ->
    exists w1 w2, be_Seek rd w a = (w1, Ok tt) /\ be_ReadN rd w1 n = (w2, Ok (take (Z.to_nat n) (drop (Z.to_nat a) c), None)).

(** What the handlers of an object find: its bucket and its metadata. *)
Definition finds (w : W) (rq : Request) (meta : ObjectMeta) (w' : W) : Prop :=
  exists op w1, be_Volume_Get w (rq_bucket rq) = (w1, Ok op) /\ be_Bucket_Get op w1 (rq_key rq) = (w', Ok meta).

Lemma object_found rq w w' meta : finds w rq meta w' -> getObjectOperator rq (rq_bucket rq) (rq_key rq) w = (w', [], Go meta).
Proof.
  intros (op & w1 & E1 & E2). unfold getObjectOperator, h_bind, h_call. rewrite E1. unfold h_bind, h_call. rewrite E2. done.
Qed.

Lemma parsed rq w : rq_bucket rq <> "" -> rq_key rq <> "" -> parseBucketKey (W:=W) rq w = (w, [], Go (rq_bucket rq, rq_key rq)).
Proof.
  intros Hb Hk. unfold parseBucketKey, parseBucket. rewrite decide_False by done. unfold h_bind, h_ret. by rewrite decide_False by done.
Qed.

(** Every key ends up in one of the two lists. *)
Lemma delete_each_spec op ks : (forall w k, exists w' r, be_Bucket_Remove op w k = (w', r) /\ r <> Panic /\ r <> Stuck) ->
  forall d e w, exists w' d' e', delete_each op (Some <$> ks) d e w = (w', [], Go (d ++ d', e ++ e')) /\ d' ++ e'.*1 ≡ₚ ks /\
    Forall (fun ke => Contains ke.2 (Errno_Error MetaNotExist) = false) e'.
Proof.
  intros Hop. induction ks as [|k ks IH]; intros d e w.
  - exists w, [], []. rewrite !app_nil_r. by split_and!.
  - destruct (Hop w k) as (w1 & r & E & Hp & Hs). rewrite fmap_cons. cbn [delete_each]. unfold h_bind, h_call. rewrite E.
    destruct r as [[]|er| |]; [| |done|done].
    + destruct (IH (d ++ [k]) e w1) as (w2 & d' & e' & E2 & Hperm & Hall). rewrite E2. exists w2, (k :: d'), e'.
      rewrite <- app_assoc. split_and!; [done| |done]. simpl. by rewrite Hperm.
    + destruct (is_remote MetaNotExist er) eqn:Er.
      * destruct (IH (d ++ [k]) e w1) as (w2 & d' & e' & E2 & Hperm & Hall). rewrite E2. exists w2, (k :: d'), e'.
        rewrite <- app_assoc. split_and!; [done| |done]. simpl. by rewrite Hperm.
      * destruct (IH d (e ++ [(k, Error er)]) w1) as (w2 & d' & e' & E2 & Hperm & Hall). rewrite E2.
        exists w2, d', ((k, Error er) :: e'). rewrite <- app_assoc. split_and!; [done| |].
        -- rewrite fmap_cons. rewrite <- Permutation_middle. by rewrite Hperm.
        -- constructor; [exact Er|done].
Qed.

End reading.

(** C31: a byte range is served from the object. A request for the bytes from [a]
    to [b] of an object that can be found and read is answered with 206, the range
    that was meant and exactly those bytes, cut off at the end of the object. *)
Theorem range_request_served {W F Wr Rd Bk : Type} `{Backend W F Wr Rd Bk} (FormatTime : option Timestamp -> string)
    rq w w1 w2 w3 meta f rd c a b :
  rq_bucket rq <> "" -> rq_key rq <> "" -> finds w rq meta w1 ->
  be_GetIOFactory w1 (rq_bucket rq) = (w2, Ok f) -> be_GetEcosReader f w2 (rq_key rq) = (w3, Ok rd) -> reads w3 rd c ->
  ObjSize meta = Z.of_nat (length c) -> ObjSize meta < 2 ^ 63 -> 0 <= a <= b -> b < 2 ^ 63 -> a < ObjSize meta ->
  rq_header rq "Range" = "bytes=" +:+ FormatUint a +:+ String "-" (FormatUint b) ->
  let n := Z.min b (ObjSize meta - 1) - a + 1 in
  exists w', getObject FormatTime rq w =
    (w', [O_Header "ETag" (ObjId meta); O_Status 206; O_Header "Last-Modified" (FormatTime (UpdateTime meta));
          O_Header "Content-Range" (contentRange (mkHttpRange a n) (ObjSize meta));
          O_Data (take (Z.to_nat n) (drop (Z.to_nat a) c))], Go tt).
Proof.
  intros Hb Hk Hfind Hf Hrd Hr Hsize Hmax Hab Hbmax Ha Hrange n.
  assert (Hparse : parseRange (rq_header rq "Range") (i64 (ObjSize meta)) = Ok [mkHttpRange a n]).
  { rewrite Hrange, i64_id by (unfold is_i64; lia). rewrite parse_closed by lia. by rewrite decide_True by lia. }
  destruct (Hr a n) as (w4 & w5 & Es & Er); [lia|lia|lia|]. exists w5.
  unfold getObject. unfold h_bind at 1. rewrite parsed by done. unfold h_bind at 1. rewrite (object_found _ _ _ _ Hfind).
  unfold h_bind at 1, getFactory. unfold h_bind at 1, h_call at 1. rewrite Hf. cbn [h_ret app].
  unfold h_bind at 1, get_reader. unfold h_bind at 1, h_call at 1. rewrite Hrd. cbn [h_ret app].
  unfold h_bind at 1, h_out at 1. rewrite Hparse.
  rewrite decide_False by (rewrite Hrange; done). unfold h_bind at 1, h_call at 1. cbn [r_start]. rewrite Es.
  unfold h_bind, h_out, h_call. cbn [r_length]. rewrite Er. unfold h_ret. cbn [app]. by rewrite (i64_id (ObjSize meta)) by (unfold is_i64; lia).
Qed.

(** a deletion of many objects accounts for each. When the bucket is found the
    answer is 200 whatever the single deletions give, its two lists hold every
    requested key once, and no object is reported as failed because it was not
    there. *)
Theorem delete_objects_accounts {W F Wr Rd Bk : Type} `{Backend W F Wr Rd Bk} rq w w1 op ks :
  rq_bucket rq <> "" -> rq_delete rq = Some (Some <$> ks) -> be_Volume_Get w (rq_bucket rq) = (w1, Ok op) ->
  (forall w k, exists w' r, be_Bucket_Remove op w k = (w', r) /\ r <> Panic /\ r <> Stuck) ->
  exists w' deleted errors, deleteObjects rq w = (w', [O_XML 200 (X_DeleteResult deleted errors)], Go tt) /\
    deleted ++ errors.*1 ≡ₚ ks /\ Forall (fun ke => Contains ke.2 (Errno_Error MetaNotExist) = false) errors.
Proof.
  intros Hb Hd Hop Hrm. destruct (delete_each_spec op ks Hrm [] [] w1) as (w' & d & e & E & Hperm & Hall).
  exists w', d, e. split_and!; try done. unfold deleteObjects, parseBucket. rewrite decide_False by done.
  unfold h_bind at 1, h_ret at 1. rewrite Hd. unfold h_bind at 1, get_bucket. unfold h_bind at 1, h_call at 1. rewrite Hop.
  cbn [h_ret app]. unfold h_bind at 1. rewrite E. done.
Qed.

(** what cannot be asked for. An object that does not exist is answered with
    500 InternalError, not with 404, because the handler looks for the error of a
    missing record of information; as the source of a copy the same object is
    answered with 404 NoSuchKey; and a part of an upload cannot be fetched: the
    handler that serves parts is only chosen for requests it refuses. *)
Theorem missing_is_not_404 {W F Wr Rd Bk : Type} `{Backend W F Wr Rd Bk} (FormatTime FormatNano : option Timestamp -> string)
    rq w w1 w2 op :
  rq_bucket rq <> "" -> rq_key rq <> "" -> rq_key rq <> "/" ->
  be_Volume_Get w (rq_bucket rq) = (w1, Ok op) ->
  be_Bucket_Get op w1 (rq_key rq) = (w2, Err (rpc_error (EErrno MetaNotExist))) ->
  (headObject FormatTime rq w =
     (w2, [O_XML 500 (X_Error (InternalError (Error (rpc_error (EErrno MetaNotExist))) (rq_bucket rq) (rq_path rq) (Some (rq_key rq))))], Stop)) /\
  (parseSrcKey (rq_header rq "x-amz-copy-source") = (rq_bucket rq, rq_key rq) -> rq_header rq "x-amz-copy-source" <> "" ->
   copyObject rq w = (w2, [O_XML 404 (X_Error (NoSuchKey (rq_bucket rq) (rq_path rq) (rq_key rq)))], Stop)) /\
  (is_Some (GetQuery rq "partNumber") -> is_Some (GetQuery rq "uploadId") ->
   objectLevelGetHandler FormatTime FormatNano rq w = listParts rq w) /\
  (is_Some (GetQuery rq "partNumber") -> GetQuery rq "uploadId" = None ->
   objectLevelGetHandler FormatTime FormatNano rq w =
     (w, [O_XML 400 (X_Error (InvalidArgument "uploadId" (rq_bucket rq) (rq_path rq) None))], Stop)).
Proof.
  intros Hb Hk Hslash Hv Hg. split_and!.
  - unfold headObject. unfold h_bind at 1. rewrite parsed by done. unfold h_bind at 1, getObjectOperator. unfold h_bind at 1, h_call at 1.
    rewrite Hv. unfold h_bind at 1, h_call at 1. rewrite Hg. done.
  - intros Hsrc Hne. unfold copyObject. unfold h_bind at 1. rewrite parsed by done. rewrite decide_False by done. rewrite Hsrc.
    rewrite decide_False by done. unfold h_bind at 1, get_bucket. unfold h_bind at 1, h_call at 1. rewrite Hv. cbn [h_ret app].
    unfold h_bind at 1, h_call at 1. rewrite Hg. done.
  - intros [p Hp] [u Hu]. unfold objectLevelGetHandler. rewrite decide_False by done. by rewrite Hu.
  - intros [p Hp] Hu. unfold objectLevelGetHandler. rewrite decide_False by done. rewrite Hu, Hp. unfold getPart, part_request.
    unfold h_bind at 1. unfold h_bind at 1. rewrite parsed by done. unfold Query. rewrite Hu. done.
Qed.

(** ** A client with one object *)

Record DemoStore := mkDemoStore { ds_buf : bytes; ds_closed : bool; ds_object : option ObjectMeta; ds_content : bytes; ds_pos : Z }.

#[local] Instance demo_backend : Backend DemoStore unit unit unit unit := {|
  be_GetIOFactory w _ := (w, Ok tt);
  be_GetEcosWriter _ w _ := (w, Ok tt);
  be_Write _ w p := (mkDemoStore (ds_buf w ++ p) (ds_closed w) (ds_object w) (ds_content w) (ds_pos w), Ok (Z.of_nat (length p), None));
  be_Close _ w := (mkDemoStore (ds_buf w) true (ds_object w) (ds_content w) (ds_pos w), Ok tt);
  be_Copy _ w m := (w, Ok (ObjId m));
  be_GetEcosReader _ w _ := (w, Ok tt);
  be_Seek _ w a := (mkDemoStore (ds_buf w) (ds_closed w) (ds_object w) (ds_content w) a, Ok tt);
  be_ReadN _ w n := (w, Ok (take (Z.to_nat n) (drop (Z.to_nat (ds_pos w)) (ds_content w)), None));
  be_GetBlock _ w _ := (w, Err EEOF);
  be_Volume_Get w _ := (w, Ok tt);
  be_Volume_List w _ := (w, Ok []);
  be_CreateBucket w _ := (w, Ok tt);
  be_DeleteBucket w _ := (w, Ok tt);
  be_Bucket_Get _ w _ := (w, or_err (rpc_error (EErrno MetaNotExist)) (ds_object w));
  be_Bucket_Remove _ w _ := (w, Err (rpc_error (EErrno MetaNotExist)));
  be_ListObjects w _ _ := (w, Ok []);
  be_CreateMultipartUploadJob _ w _ := (w, Ok "1");
  be_GetMultipartUploadWriter _ w _ := (w, Ok tt);
  be_WritePart _ w _ _ := (w, Ok "");
  be_ListParts _ w := (w, Ok []);
  be_GetPartBlockInfo _ w _ := (w, Err EEOF);
  be_CompleteMultipartUploadJob _ w _ := (w, Ok "");
  be_AbortMultipartUploadJob _ w _ := (w, Ok tt);
  be_ListMultipartUploadJob _ w := (w, Ok [])
|}.

Definition demo_meta : ObjectMeta := mkObjectMeta "root/default/1/k" STATUS_OK POSITION_EDGE 4 None "" 1 [] 7 None.

Definition demo_store : DemoStore := mkDemoStore [] false (Some demo_meta) [x61; x62; x63; x64] 0.

Definition demo_empty : DemoStore := mkDemoStore [] false None [] 0.

Definition demo_request (headers : list (string * string)) (body : bytes) (keys : list string) : Request :=
  mkRequest "default" "/k" [] (fun k => default "" (snd <$> List.find (fun kv => bool_decide (kv.1 = k)) headers)) "/default/k"
    (Z.of_nat (length body)) (mkBody [body] None) None (Some (Some <$> keys)) true.

Definition streaming : list (string * string) := [("X-Amz-Content-Sha256", "STREAMING-AWS4-HMAC-SHA256-PAYLOAD")].

Definition demo_chunks : list Chunk := [mkSigned "2" "ab" [x61; x62]; mkSigned "1" "cd" [x63]; mkSigned "0" "ef" []].

Lemma demo_chunks_ok : Forall chunk_ok demo_chunks.
Proof. repeat constructor; done. Qed.

Lemma demo_accepts : accepts (fun w _ => ds_buf w) (fun _ => True) tt.
Proof. intros w p _. eexists. by split. Qed.

Definition one_piece (b : bytes) : list bytes := [b].

Lemma one_piece_concat b : concat (one_piece b) = b.
Proof. apply app_nil_r. Qed.

Lemma streamed_body_stored_witness :
  exists w3, True /\ ds_buf w3 = [x61; x62; x63] /\
    putObject one_piece (demo_request streaming (concat (encode_chunk <$> demo_chunks)) []) demo_empty =
      close_writer (demo_request streaming (concat (encode_chunk <$> demo_chunks)) []) tt "default" "/k" w3.
Proof.
  exact (@streamed_body_stored DemoStore unit unit unit unit demo_backend one_piece (fun w _ => ds_buf w) (fun _ => True)
    (demo_request streaming (concat (encode_chunk <$> demo_chunks)) []) demo_empty demo_empty demo_empty tt tt demo_chunks
    one_piece_concat demo_accepts I ltac:(discriminate) ltac:(discriminate) eq_refl eq_refl eq_refl demo_chunks_ok (app_nil_r _) eq_refl).
Defined.

Definition demo_incomplete : bytes := signed_head (mkSigned "2" "ab" [x61; x62]) ++ x0a :: [x61; x62] ++ [x78] ++ [x0a].

Lemma incomplete_body_committed_witness :
  exists w4, putObject one_piece (demo_request streaming demo_incomplete []) demo_empty =
    (w4, [O_XML 400 (X_Error (IncompleteBody "default" "/default/k" "/k")); O_Status 200], Go tt).
Proof.
  destruct (@incomplete_body_committed DemoStore unit unit unit unit demo_backend one_piece (fun w _ => ds_buf w) (fun _ => True)
    (demo_request streaming demo_incomplete []) demo_empty demo_empty demo_empty tt tt (mkSigned "2" "ab" [x61; x62]) [x78]
    one_piece_concat demo_accepts I ltac:(discriminate) ltac:(discriminate) eq_refl eq_refl eq_refl (Forall_inv demo_chunks_ok)
    ltac:(repeat constructor) ltac:(vm_compute; discriminate) (app_nil_r _) eq_refl ltac:(intros w; eexists; reflexivity)) as (w3 & w4 & _ & _ & E).
  exists w4. exact E.
Defined.

Lemma range_request_served_witness :
  exists w', getObject (fun _ => "") (demo_request [("Range", "bytes=1-2")] [] []) demo_store =
    (w', [O_Header "ETag" "root/default/1/k"; O_Status 206; O_Header "Last-Modified" "";
          O_Header "Content-Range" "bytes 1-2/4"; O_Data [x62; x63]], Go tt).
Proof.
  refine (@range_request_served DemoStore unit unit unit unit demo_backend (fun _ => "") (demo_request [("Range", "bytes=1-2")] [] [])
    demo_store demo_store demo_store demo_store demo_meta tt tt [x61; x62; x63; x64] 1 2 _ _ _ eq_refl eq_refl _ eq_refl _ _ _ _ _);
    [discriminate|discriminate| | |simpl; lia|lia|lia|simpl; lia|reflexivity].
  - exists tt, demo_store. split; reflexivity.
  - intros a n Ha Hn Hlen. eexists _, _. split; reflexivity.
Defined.

Lemma delete_objects_accounts_witness :
  exists w' deleted errors, deleteObjects (demo_request [] [] ["a"; "b"]) demo_store =
      (w', [O_XML 200 (X_DeleteResult deleted errors)], Go tt) /\ deleted ++ errors.*1 ≡ₚ ["a"; "b"].
Proof.
  destruct (@delete_objects_accounts DemoStore unit unit unit unit demo_backend (demo_request [] [] ["a"; "b"]) demo_store demo_store tt
    ["a"; "b"] ltac:(discriminate) eq_refl eq_refl) as (w' & d & e & E & Hp & _).
  - intros w k. eexists _, _. split_and!; [reflexivity|discriminate|discriminate].
  - exists w', d, e. split; [exact E|exact Hp].
Defined.

Lemma missing_is_not_404_witness :
  headObject (fun _ => "") (demo_request [] [] []) demo_empty =
    (demo_empty, [O_XML 500 (X_Error (InternalError (Error (rpc_error (EErrno MetaNotExist))) "default" "/default/k" (Some "/k")))], Stop).
Proof.
  exact (proj1 (@missing_is_not_404 DemoStore unit unit unit unit demo_backend (fun _ => "") (fun _ => "") (demo_request [] [] [])
    demo_empty demo_empty demo_empty tt ltac:(discriminate) ltac:(discriminate) ltac:(discriminate) eq_refl eq_refl)).
Defined.
