(* ===== verification/Routes.v ===== *)
(** * The front of the gateway: [src/gateway/router/route.go], [client.go], [config.go]

    The table of routes, the middleware around the handlers of [Gateway.v], and how
    the gateway comes to its client. Matching a path against a pattern and what is
    answered after a panic are the library gin ([Gin]); the limit of a minute on a
    request and the metrics are left out. *)

From S2P Require Import Prelude GoStd Errno Infos Object GaiaMsg Multipart ClientPool GwErrors GwUtils Gateway.

(** The parameters of a path that has the pattern, and the answer of the Recovery
    middleware, given what was written before the panic. *)
Class Gin := {
  gin_params : string -> string -> option (list (string * string));
  gin_recovered : list Output -> list Output
}.

(** ** Which outputs set the status of an answer *)

Definition has_status (o : Output) : bool :=
  match o with O_XML _ _ | O_Status _ | O_Reader _ _ | O_Bytes _ _ => true | O_Header _ _ | O_Part _ | O_Data _ => false end.

Definition answered (o : list Output) : bool := existsb has_status o.

(** What the documentation of gin says of the three kinds of patterns the table
    has, and of Recovery. *)
Class GinOk `{Gin} : Prop := {
  params_root p : gin_params "/" p = if decide (p = "/") then Some [] else None;
  params_bucket b : b <> "" -> nosep b = true -> gin_params "/:bucketName" ("/" +:+ b) = Some [("bucketName", b)];
  params_bucket_deep b k : nosep b = true -> gin_params "/:bucketName" ("/" +:+ b +:+ "/" +:+ k) = None;
  params_key b k : b <> "" -> nosep b = true ->
    gin_params "/:bucketName/*key" ("/" +:+ b +:+ "/" +:+ k) = Some [("bucketName", b); ("key", "/" +:+ k)];
  recovered_answered o : answered (gin_recovered o) = true
}.

Section routes.
Context {W F Wr Rd Bk : Type} `{Backend W F Wr Rd Bk, Gin}.
Context (FormatTime FormatNano : option Timestamp -> string) (buf_pieces : bytes -> list bytes).
Context (WriteJSONOnce : bytes).                (* the metrics of the process *)

Record Route := mkRoute { rt_method : string; rt_pattern : string; rt_handler : Request -> Handler W unit }.

Definition getMetrics (rq : Request) : Handler W unit := h_out (O_Status 200) ;; h_out (O_Data WriteJSONOnce).

Definition bucketLevelPutHandler (rq : Request) : Handler W unit := createBucket rq.

Definition bucketLevelHeadHandler (rq : Request) : Handler W unit := headBucket rq.

Definition bucketLevelDeleteHandler (rq : Request) : Handler W unit := deleteBucket rq.

Definition routes : list Route :=
  [mkRoute "GET" "/" listBuckets; mkRoute "HEAD" "/" getMetrics;
   mkRoute "PUT" "/:bucketName" bucketLevelPutHandler;
   mkRoute "DELETE" "/:bucketName" bucketLevelDeleteHandler;
   mkRoute "GET" "/:bucketName" (bucketLevelGetHandler FormatNano);
   mkRoute "HEAD" "/:bucketName" bucketLevelHeadHandler;
   mkRoute "POST" "/:bucketName" bucketLevelPostHandler;
   mkRoute "PUT" "/:bucketName/*key" (objectLevelPutHandler buf_pieces);
   mkRoute "DELETE" "/:bucketName/*key" objectLevelDeleteHandler;
   mkRoute "GET" "/:bucketName/*key" (objectLevelGetHandler FormatTime FormatNano);
   mkRoute "HEAD" "/:bucketName/*key" (objectLevelHeadHandler FormatTime);
   mkRoute "POST" "/:bucketName/*key" objectLevelPostHandler].

(** ** Serving *)

Definition Param (ps : list (string * string)) (k : string) : string :=
  default "" (snd <$> List.find (fun kv => bool_decide (kv.1 = k)) ps).

Definition with_params (rq : Request) (ps : list (string * string)) : Request :=
  mkRequest (Param ps "bucketName") (Param ps "key") (rq_query rq) (rq_header rq) (rq_path rq) (rq_length rq) (rq_body rq)
    (rq_form rq) (rq_delete rq) (rq_xml rq).

(** The first route of the method whose pattern the path has. *)
Fixpoint find_route (method : string) (rq : Request) (rs : list Route) : option (Handler W unit) :=
  match rs with
  | [] => None
  | r :: rs' =>
      if String.eqb (rt_method r) method then
        match gin_params (rt_pattern r) (rq_path rq) with
        | Some ps => Some (rt_handler r (with_params rq ps))
        | None => find_route method rq rs'
        end
      else find_route method rq rs'
  end.

(** The middleware that sets headers, then the handler. *)
Definition chain (method : string) (rq : Request) : Handler W unit :=
  h_out (O_Header "Server" "ECOS") ;; h_out (O_Header "Accept-Ranges" "bytes") ;;
  match find_route method rq routes with Some h => h | None => h_out (O_Status 404) end.

Definition ServeHTTP (method : string) (rq : Request) : Handler W unit := fun w =>
  match chain method rq w with
  | (w, o, Crash) => (w, gin_recovered o, Stop)
  | x => x
  end.

(** A path with a bucket and a key reaches the handlers of objects, with both as its
    parameters; one with a bucket alone those of buckets. *)
Lemma object_routed `{!GinOk} b k rq : b <> "" -> nosep b = true -> rq_path rq = "/" +:+ b +:+ "/" +:+ k ->
  let rq' := with_params rq [("bucketName", b); ("key", "/" +:+ k)] in
  find_route "PUT" rq routes = Some (objectLevelPutHandler buf_pieces rq') /\
  find_route "GET" rq routes = Some (objectLevelGetHandler FormatTime FormatNano rq') /\
  find_route "DELETE" rq routes = Some (objectLevelDeleteHandler rq') /\
  find_route "HEAD" rq routes = Some (objectLevelHeadHandler FormatTime rq') /\
  find_route "POST" rq routes = Some (objectLevelPostHandler rq').
Proof.
  intros Hb Hn Hp. unfold routes. cbn [find_route rt_method rt_pattern rt_handler String.eqb Ascii.eqb Bool.eqb].
  rewrite Hp, params_root, params_bucket_deep, params_key by done. rewrite decide_False by (intros E; destruct b; [done|discriminate E]). done.
Qed.

Lemma bucket_routed `{!GinOk} b rq : b <> "" -> nosep b = true -> rq_path rq = "/" +:+ b ->
  let rq' := with_params rq [("bucketName", b)] in
  find_route "PUT" rq routes = Some (bucketLevelPutHandler rq') /\
  find_route "GET" rq routes = Some (bucketLevelGetHandler FormatNano rq') /\
  find_route "DELETE" rq routes = Some (bucketLevelDeleteHandler rq') /\
  find_route "HEAD" rq routes = Some (bucketLevelHeadHandler rq') /\
  find_route "POST" rq routes = Some (bucketLevelPostHandler rq').
Proof.
  intros Hb Hn Hp. unfold routes. cbn [find_route rt_method rt_pattern rt_handler String.eqb Ascii.eqb Bool.eqb].
  rewrite Hp, params_root, params_bucket by done. rewrite decide_False by (intros E; destruct b; [done|discriminate E]). done.
Qed.

End routes.

(** ** Starting the gateway *)

Record GatewayConfig := mkGatewayConfig { gw_Host : string; gw_Port : Z; gw_EnableAuth : bool; gw_ClientConfig : ClientConfig }.

Definition Gateway_DefaultConfig : GatewayConfig := mkGatewayConfig "localhost" 3267 false DefaultConfig.

Section start.
Context {C : Type}.

(** [tries] is what [client.New] returns, attempt by attempt, until the timer
    fires. The client stays nil when none of them succeeds. *)
Fixpoint InitClient (tries : list (res C)) (Client : option C) : res (option C) :=
  match tries with
  | [] => Ok Client
  | Err _ :: tries' => InitClient tries' Client
  | Ok c :: _ => Ok (Some c)
  | Panic :: _ => Panic
  | Stuck :: _ => Stuck
  end.

Definition with_address (c : ClientConfig) (addr : string) (port : Z) : ClientConfig :=
  mkClientConfig (cf_ChunkSize c) (cf_UploadBuffer c) addr port (cf_CloudAddr c) (cf_CloudPort c) (cf_ConnectType c).

Definition client_config (cfg : GatewayConfig) : ClientConfig :=
  let clientConfig := gw_ClientConfig cfg in
  let clientConfig := if decide (gw_Host cfg <> "") then with_address clientConfig (gw_Host cfg) (cf_NodePort clientConfig) else clientConfig in
  if decide (gw_Port cfg <> 0) then with_address clientConfig (cf_NodeAddr clientConfig) (gw_Port cfg) else clientConfig.

(** The client of the process after [NewRouter], and whether there is an engine. *)
Definition NewRouter (New : ClientConfig -> list (res C)) (Client : option C) (cfg : GatewayConfig) : res (option C * bool) :=
  match Client with
  | Some _ => Ok (Client, false)
  | None =>
      Client ← InitClient (New (client_config cfg)) None;
      Ok (Client, true)
  end.

(** The client is asked for the gateway's host: the address in the configuration of
    the client counts for nothing, as the host is never blank once read. *)
Lemma host_overrides cfg : gw_Host cfg <> "" -> gw_Port cfg <> 0 ->
  cf_NodeAddr (client_config cfg) = gw_Host cfg /\ cf_NodePort (client_config cfg) = gw_Port cfg.
Proof. intros H1 H2. unfold client_config. by rewrite !decide_True. Qed.

(** Only one router is made, and requests meet a nil client when no attempt succeeds. *)
Lemma router_once New (c : C) cfg : NewRouter New (Some c) cfg = Ok (Some c, false).
Proof. done. Qed.

Lemma no_client (New : ClientConfig -> list (res C)) cfg : Forall (fun r => exists e, r = Err e) (New (client_config cfg)) -> NewRouter New None cfg = Ok (None, true).
Proof.
  intros Hf. unfold NewRouter. induction (New (client_config cfg)) as [|r l IH]; [done|]. inv Hf. destruct H1 as [e ->]. by apply IH.
Qed.

End start.
