(* ===== verification/GatewayAnswers.v ===== *)
(** * The gateway answers every request

    A small logic of handlers: [answers s m] says that [m] does not hang, has
    answered when it returns early and, if [s], has answered when it goes on. One
    lemma per helper and handler of [Gateway.v], then the router of [Routes.v]. *)

From S2P Require Import Prelude GoStd Errno Infos Object GaiaMsg Multipart ClientPool GwErrors GwUtils Gateway GatewayProofs Routes.

(** ** A logic of handlers *)

Definition answers {W A} (s : bool) (m : Handler W A) : Prop := forall w,
  match m w with
  | (_, o, Go _) => s = true -> answered o = true
  | (_, o, Stop) => answered o = true
  | (_, _, Crash) => True
  | (_, _, Hang) => False
  end.

Lemma answered_app o o' : answered (o ++ o') = answered o || answered o'.
Proof. apply existsb_app. Qed.

Section logic.
Context {W : Type}.

Lemma answers_ret {A} (a : A) : answers (W:=W) false (h_ret a).
Proof. done. Qed.

Lemma answers_out s x : (s = true -> has_status x = true) -> answers (W:=W) s (h_out x).
Proof. intros Hx w Hs. cbn. by rewrite Hx. Qed.

Lemma answers_crash {A} s : answers (W:=W) (A:=A) s h_crash.
Proof. done. Qed.

Lemma answers_call {A} (f : W -> W * res A) : (forall w, (f w).2 <> Stuck) -> answers false (h_call f).
Proof. intros Hf w. unfold h_call. specialize (Hf w). by destruct (f w) as [w' [a| | |]]. Qed.

Lemma answers_weaken {A} s (m : Handler W A) : answers true m -> answers s m.
Proof. intros Hm w. specialize (Hm w). destruct (m w) as [[w1 o] [a| | |]]; auto. Qed.

(** What comes first may answer, or what comes after. *)
Lemma answers_bind_or {A B} s1 s2 (m : Handler W A) (k : A -> Handler W B) :
  answers s1 m -> (forall a, answers s2 (k a)) -> answers (s1 || s2) (h_bind m k).
Proof.
  intros Hm Hk w. unfold h_bind. specialize (Hm w). destruct (m w) as [[w1 o] [a| | |]]; try done.
  specialize (Hk a w1). destruct (k a w1) as [[w2 o2] [b| | |]]; try done; rewrite answered_app.
  - intros [-> | ->]%orb_prop; [by rewrite Hm|rewrite Hk by done; apply orb_true_r].
  - rewrite Hk. apply orb_true_r.
Qed.

Lemma answers_bind {A B} s (m : Handler W A) (k : A -> Handler W B) :
  answers false m -> (forall a, answers s (k a)) -> answers s (h_bind m k).
Proof. apply (answers_bind_or false). Qed.

Lemma answers_then {A B} (m : Handler W A) (k : A -> Handler W B) :
  answers true m -> (forall a, answers false (k a)) -> answers true (h_bind m k).
Proof. apply (answers_bind_or true false). Qed.

End logic.

Create HintDb gateway.

(** One step through a handler. *)
Ltac answers_step :=
  lazymatch goal with
  | |- answers _ (match ?x with _ => _ end) => destruct x
  | |- answers _ (h_ret _) => apply answers_ret
  | |- answers _ h_crash => apply answers_crash
  | |- answers _ (h_out _) => apply answers_out; done
  | |- answers true (h_bind (h_out _) _) => first [apply answers_then; [apply answers_out; reflexivity|intros ?] | apply answers_bind; [apply answers_out; done|intros ?]]
  | |- answers _ (h_bind (h_call _) _) => apply answers_bind; [apply answers_call; intros ?; auto with gateway|intros ?]
  | |- answers _ (h_bind _ _) => apply answers_bind; [|intros ?]
  | |- answers _ (let _ := _ in _) => cbv zeta
  end.

Ltac answers_auto := repeat first [solve [auto with gateway] | answers_step].

(** ** A client that returns *)

Class BackendReturns {W F Wr Rd Bk : Type} `{Backend W F Wr Rd Bk} : Prop := {
  ret_GetIOFactory w b : (be_GetIOFactory w b).2 <> Stuck;
  ret_GetEcosWriter f w k : (be_GetEcosWriter f w k).2 <> Stuck;
  ret_Write wr w p : (be_Write wr w p).2 <> Stuck;
  ret_Close wr w : (be_Close wr w).2 <> Stuck;
  ret_Copy wr w m : (be_Copy wr w m).2 <> Stuck;
  ret_GetEcosReader f w k : (be_GetEcosReader f w k).2 <> Stuck;
  ret_Seek rd w o : (be_Seek rd w o).2 <> Stuck;
  ret_ReadN rd w n : (be_ReadN rd w n).2 <> Stuck;
  ret_GetBlock rd w b : (be_GetBlock rd w b).2 <> Stuck;
  ret_Volume_Get w b : (be_Volume_Get w b).2 <> Stuck;
  ret_Volume_List w p : (be_Volume_List w p).2 <> Stuck;
  ret_CreateBucket w b : (be_CreateBucket w b).2 <> Stuck;
  ret_DeleteBucket w b : (be_DeleteBucket w b).2 <> Stuck;
  ret_Bucket_Get b w k : (be_Bucket_Get b w k).2 <> Stuck;
  ret_Bucket_Remove b w k : (be_Bucket_Remove b w k).2 <> Stuck;
  ret_ListObjects w b p : (be_ListObjects w b p).2 <> Stuck;
  ret_CreateMultipartUploadJob f w k : (be_CreateMultipartUploadJob f w k).2 <> Stuck;
  ret_GetMultipartUploadWriter f w i : (be_GetMultipartUploadWriter f w i).2 <> Stuck;
  ret_WritePart wr w n b : (be_WritePart wr w n b).2 <> Stuck;
  ret_ListParts wr w : (be_ListParts wr w).2 <> Stuck;
  ret_GetPartBlockInfo wr w n : (be_GetPartBlockInfo wr w n).2 <> Stuck;
  ret_CompleteMultipartUploadJob f w i : (be_CompleteMultipartUploadJob f w i).2 <> Stuck;
  ret_AbortMultipartUploadJob f w i : (be_AbortMultipartUploadJob f w i).2 <> Stuck;
  ret_ListMultipartUploadJob f w : (be_ListMultipartUploadJob f w).2 <> Stuck
}.

#[export] Hint Resolve ret_GetIOFactory ret_GetEcosWriter ret_Write ret_Close ret_Copy ret_GetEcosReader ret_Seek ret_ReadN
  ret_GetBlock ret_Volume_Get ret_Volume_List ret_CreateBucket ret_DeleteBucket ret_Bucket_Get ret_Bucket_Remove
  ret_ListObjects ret_CreateMultipartUploadJob ret_GetMultipartUploadWriter ret_WritePart ret_ListParts
  ret_GetPartBlockInfo ret_CompleteMultipartUploadJob ret_AbortMultipartUploadJob ret_ListMultipartUploadJob : gateway.

(** A file of a posted form can be opened or not. *)
Definition form_opens (rq : Request) : Prop :=
  match rq_form rq with Some form => Forall (fun x => x <> Some Stuck) (form_files form) | None => True end.

Section handlers.
Context {W F Wr Rd Bk : Type} `{BR : BackendReturns W F Wr Rd Bk}.
Context (FormatTime FormatNano : option Timestamp -> string) (buf_pieces : bytes -> list bytes) (rq : Request).

(** ** Helpers *)

Lemma answers_refuse {A} s st e : answers (W:=W) (A:=A) s (refuse st e).
Proof. apply answers_weaken. intros w. reflexivity. Qed.
#[local] Hint Resolve answers_refuse : gateway.

Lemma answers_refuse_internal {A} s e b k : answers (W:=W) (A:=A) s (refuse_internal rq e b k).
Proof. apply answers_refuse. Qed.
#[local] Hint Resolve answers_refuse_internal : gateway.

Lemma answers_refuse_bucket {A} s e b k : answers (W:=W) (A:=A) s (refuse_bucket rq e b k).
Proof. unfold refuse_bucket. answers_auto. Qed.
#[local] Hint Resolve answers_refuse_bucket : gateway.

Lemma answers_parseBucket : answers (W:=W) false (parseBucket rq).
Proof. unfold parseBucket. answers_auto. Qed.
#[local] Hint Resolve answers_parseBucket : gateway.

Lemma answers_parseBucketKey : answers (W:=W) false (parseBucketKey rq).
Proof. unfold parseBucketKey. answers_auto. Qed.
#[local] Hint Resolve answers_parseBucketKey : gateway.

Lemma answers_getFactory b k : answers false (getFactory rq b k).
Proof. unfold getFactory. answers_auto. Qed.
#[local] Hint Resolve answers_getFactory : gateway.

Lemma answers_getBucketOperator : answers false (getBucketOperator rq).
Proof. unfold getBucketOperator. answers_auto. Qed.
#[local] Hint Resolve answers_getBucketOperator : gateway.

Lemma answers_getObjectOperator b k : answers false (getObjectOperator rq b k).
Proof. unfold getObjectOperator. answers_auto. Qed.
#[local] Hint Resolve answers_getObjectOperator : gateway.

Lemma answers_listBucket : answers false (listBucket rq).
Proof. unfold listBucket. answers_auto. Qed.
#[local] Hint Resolve answers_listBucket : gateway.

Lemma answers_get_bucket b m k : answers false (get_bucket rq b m k).
Proof. unfold get_bucket. answers_auto. Qed.
#[local] Hint Resolve answers_get_bucket : gateway.

Lemma answers_get_writer f k : answers false (get_writer f k).
Proof. unfold get_writer. answers_auto. Qed.
#[local] Hint Resolve answers_get_writer : gateway.

Lemma answers_get_reader f k : answers false (get_reader f k).
Proof. unfold get_reader. answers_auto. Qed.
#[local] Hint Resolve answers_get_reader : gateway.

Lemma answers_close_writer wr b k : answers true (close_writer rq wr b k).
Proof. unfold close_writer. answers_auto. Qed.
#[local] Hint Resolve answers_close_writer : gateway.

Lemma answers_part_request : answers (W:=W) false (part_request rq).
Proof. unfold part_request. answers_auto. Qed.
#[local] Hint Resolve answers_part_request : gateway.

Lemma answers_part_number b : answers (W:=W) false (part_number rq b).
Proof. unfold part_number. answers_auto. Qed.
#[local] Hint Resolve answers_part_number : gateway.

Lemma answers_upload_writer f b k i : answers false (upload_writer rq f b k i).
Proof. unfold upload_writer. answers_auto. Qed.
#[local] Hint Resolve answers_upload_writer : gateway.

(** ** Bodies *)

Lemma answers_copy_pieces wr ps e : answers false (copy_pieces wr ps e).
Proof. induction ps as [|p ps IH]; cbn [copy_pieces]; answers_auto. Qed.
#[local] Hint Resolve answers_copy_pieces : gateway.

Lemma answers_copy_n wr ps : forall n, answers false (copy_n wr ps n).
Proof. induction ps as [|p ps IH]; intros n; cbn [copy_n]; answers_auto. Qed.
#[local] Hint Resolve answers_copy_n : gateway.

Lemma answers_CopyN wr e rest n : answers false (CopyN buf_pieces wr e rest n).
Proof. unfold CopyN. answers_auto. Qed.

(** What [io.CopyN] leaves is what it did not take. *)
Lemma CopyN_rest wr e rest n w w' o m err rest' :
  CopyN buf_pieces wr e rest n w = (w', o, Go (m, err, rest')) -> rest' = drop (Z.to_nat n) rest.
Proof.
  unfold CopyN, h_bind. destruct (copy_n wr _ 0 w) as [[w1 o1] [[k er]| | |]]; try done. unfold h_ret. by intros [= _ _ _ _ <-].
Qed.

Lemma read_line_length e b : match read_line e b with
  | (_, rest, None) => (length rest < length b)%nat
  | (_, rest, Some _) => rest = []
  end.
Proof.
  induction b as [|x b IH]; [done|]. cbn [read_line]. destruct (Byte.eqb x x0a); [simpl; lia|].
  destruct (read_line e b) as [[l rest] [err|]]; [done|simpl; lia].
Qed.

Lemma parseSignature_total line : (exists p, parseSignature line = Ok p) \/ exists e, parseSignature line = Err e.
Proof. unfold parseSignature. destruct (find_match line) as [[h s]|]; [|right; by eexists]. destruct (ParseHex h); [left|right]; by eexists. Qed.

(** The same, with what is known of the result of the first part. *)
Lemma answers_bind_go {A B} s (m : Handler W A) (k : A -> Handler W B) :
  answers false m -> (forall w w' o a, m w = (w', o, Go a) -> answers s (k a)) -> answers s (h_bind m k).
Proof.
  intros Hm Hk w. unfold h_bind. specialize (Hm w). destruct (m w) as [[w1 o] [a| | |]] eqn:E; try done.
  specialize (Hk _ _ _ _ E w1). destruct (k a w1) as [[w2 o2] [b| | |]]; try done; rewrite answered_app.
  - intros Hs. rewrite Hk by done. apply orb_true_r.
  - rewrite Hk. apply orb_true_r.
Qed.

(** The number of bytes bounds the number of lines. *)
Lemma answers_put_stream wr b k e fuel : forall rest, (length rest < fuel)%nat -> answers false (put_stream buf_pieces rq fuel wr b k e rest).
Proof.
  induction fuel as [|fuel IH]; intros rest Hf; [lia|]. cbn [put_stream]. pose proof (read_line_length e rest) as Hl.
  destruct (read_line e rest) as [[line rest1] [err|]]; [answers_auto|].
  destruct (parseSignature_total (String.string_of_list_byte line)) as [[[n s] ->]|[er ->]]; [|answers_auto].
  apply answers_bind_go; [apply answers_CopyN|]. intros w w' o [[m err] rest2] E.
  apply CopyN_rest in E. assert (length rest2 <= length rest1)%nat as Hr by (rewrite E, length_drop; lia).
  destruct (decide (m <> n)); [answers_auto|]. pose proof (read_line_length e rest2) as Hl2.
  destruct (read_line e rest2) as [[line2 rest3] err2]. apply answers_bind; [answers_auto|]. intros _. apply IH.
  destruct err2; [subst rest3; simpl; lia|lia].
Qed.

(** ** Handlers of objects *)

Lemma answers_putObject : answers true (putObject buf_pieces rq).
Proof. unfold putObject. answers_auto. apply answers_put_stream. lia. Qed.

Lemma answers_postObject : form_opens rq -> answers true (postObject rq).
Proof.
  unfold form_opens, postObject. intros Hf. destruct (rq_form rq) as [[keys files]|]; [|answers_auto]. simpl in *.
  destruct files as [|[[c| | |]|] [|]]; try solve [answers_auto]. by inv Hf.
Qed.

Lemma answers_headObject : answers true (headObject FormatTime rq).
Proof. unfold headObject. answers_auto. Qed.

Lemma answers_put_part rd b k meta first r : answers false (put_part rq rd b k meta first r).
Proof. unfold put_part. answers_auto. Qed.
#[local] Hint Resolve answers_put_part : gateway.

Lemma answers_put_ranges rd b k meta first rs : answers false (put_ranges rq rd b k meta first rs).
Proof. induction rs as [|r rs IH]; cbn [put_ranges]; answers_auto. Qed.
#[local] Hint Resolve answers_put_ranges : gateway.

Lemma answers_getObject : answers true (getObject FormatTime rq).
Proof. unfold getObject. answers_auto. Qed.

Lemma answers_deleteObject : answers true (deleteObject rq).
Proof. unfold deleteObject. answers_auto. Qed.

Lemma answers_copyObject : answers true (copyObject rq).
Proof. unfold copyObject. answers_auto. Qed.

Lemma answers_delete_each op keys : forall d e, answers false (delete_each op keys d e).
Proof. induction keys as [|[key|] keys IH]; intros d e; cbn [delete_each]; answers_auto. Qed.
#[local] Hint Resolve answers_delete_each : gateway.

Lemma answers_deleteObjects : answers true (deleteObjects rq).
Proof. unfold deleteObjects. answers_auto. Qed.

(** ** Handlers of buckets *)

Lemma answers_createBucket : answers true (createBucket rq).
Proof. unfold createBucket. answers_auto. Qed.

Lemma SplitID_returns id : SplitID id <> Stuck.
Proof. unfold SplitID. destruct (SplitN _ _ _) as [|? [|? [|? [|? [|]]]]]; try done. by destruct (Atoi _). Qed.

Lemma answers_list_contents etag b metas : forall acc, answers (W:=W) false (list_contents FormatNano rq etag b metas acc).
Proof.
  induction metas as [|m metas IH]; intros acc; cbn [list_contents]; [answers_auto|].
  pose proof (SplitID_returns (ObjId m)). destruct (SplitID _); answers_auto. done.
Qed.
#[local] Hint Resolve answers_list_contents : gateway.

Lemma answers_list_with etag : answers true (list_with FormatNano rq etag).
Proof. unfold list_with. answers_auto. Qed.

Lemma answers_headBucket : answers true (headBucket rq).
Proof. unfold headBucket. answers_auto. Qed.

Lemma answers_deleteBucket : answers true (deleteBucket rq).
Proof. unfold deleteBucket. answers_auto. Qed.

Lemma answers_listBuckets : answers true (listBuckets rq).
Proof. unfold listBuckets. answers_auto. Qed.

(** ** Handlers of multipart uploads *)

Lemma answers_createMultipartUpload : answers true (createMultipartUpload rq).
Proof. unfold createMultipartUpload. answers_auto. Qed.

Lemma answers_uploadPart : answers true (uploadPart rq).
Proof. unfold uploadPart. answers_auto. Qed.

Lemma answers_listParts : answers true (listParts rq).
Proof. unfold listParts. answers_auto. Qed.

Lemma answers_getPart : answers true (getPart rq).
Proof. unfold getPart. answers_auto. Qed.

Lemma answers_completeMultipartUpload : answers true (completeMultipartUpload rq).
Proof. unfold completeMultipartUpload. answers_auto. Qed.

Lemma answers_abortMultipartUpload : answers true (abortMultipartUpload rq).
Proof. unfold abortMultipartUpload. answers_auto. Qed.

Lemma answers_listMultipartUploads : answers true (listMultipartUploads rq).
Proof. unfold listMultipartUploads. answers_auto. Qed.

#[local] Hint Resolve answers_putObject answers_postObject answers_headObject answers_getObject answers_deleteObject answers_copyObject
  answers_deleteObjects answers_createBucket answers_list_with answers_headBucket answers_deleteBucket answers_listBuckets
  answers_createMultipartUpload answers_uploadPart answers_listParts answers_getPart answers_completeMultipartUpload
  answers_abortMultipartUpload answers_listMultipartUploads : gateway.

(** ** Every route *)

Context `{GO : GinOk} (WriteJSONOnce : bytes).

Lemma answers_routes r : form_opens rq -> r ∈ routes FormatTime FormatNano buf_pieces WriteJSONOnce -> answers true (rt_handler r rq).
Proof.
  intros Hf Hr. unfold routes in Hr. repeat (apply elem_of_cons in Hr as [->|Hr]); [..|by apply elem_of_nil in Hr]; cbn [rt_handler];
    unfold getMetrics, bucketLevelPutHandler, bucketLevelHeadHandler, bucketLevelDeleteHandler, objectLevelPutHandler,
      objectLevelDeleteHandler, objectLevelGetHandler, objectLevelHeadHandler, objectLevelPostHandler, bucketLevelGetHandler,
      bucketLevelPostHandler, listObjects, listObjectsV2; answers_auto.
Qed.

End handlers.

Section router.
Context {W F Wr Rd Bk : Type} `{BR : BackendReturns W F Wr Rd Bk, GO : GinOk}.
Context (FormatTime FormatNano : option Timestamp -> string) (buf_pieces : bytes -> list bytes) (WriteJSONOnce : bytes).

Lemma answers_find_route method rq rs h : form_opens rq ->
  (forall r rq', form_opens rq' -> r ∈ rs -> answers true (rt_handler r rq')) -> find_route method rq rs = Some h -> answers (W:=W) true h.
Proof.
  intros Hf. induction rs as [|r rs IH]; intros Hr; [done|]. cbn [find_route].
  assert (find_route method rq rs = Some h -> answers true h) as IH' by (intros E; apply IH; [|done]; intros r' rq' Hf' Hi; apply Hr; [done|by right]).
  destruct (String.eqb _ _); [|done]. destruct (gin_params _ _) as [ps|]; [|done]. intros [= <-]. apply Hr; [done|by left].
Qed.

Lemma answers_chain method rq : form_opens rq -> answers true (chain FormatTime FormatNano buf_pieces WriteJSONOnce method rq).
Proof.
  intros Hf. unfold chain. do 2 answers_step. destruct (find_route _ _ _) as [h|] eqn:E; [|answers_auto].
  eapply answers_find_route; [done| |exact E]. intros r rq' Hf' Hr. by eapply answers_routes.
Qed.

End router.

(** C37: every request to the gateway is answered. Whatever the method, the path and
    the body, for every route and for none, where the client returns the handler
    ends, and a status has been written: early returns and panics included. *)
Theorem requests_answered {W F Wr Rd Bk : Type} `{BackendReturns W F Wr Rd Bk, GinOk}
    (FormatTime FormatNano : option Timestamp -> string) (buf_pieces : bytes -> list bytes) (WriteJSONOnce : bytes) method rq w :
  form_opens rq -> exists w' o f, ServeHTTP FormatTime FormatNano buf_pieces WriteJSONOnce method rq w = (w', o, f) /\
    (f = Stop \/ f = Go tt) /\ answered o = true.
Proof.
  intros Hf. pose proof (answers_chain FormatTime FormatNano buf_pieces WriteJSONOnce method rq Hf w) as Hc. unfold ServeHTTP.
  destruct (chain _ _ _ _ method rq w) as [[w' o] [[]| | |]]; try done; eexists _, _, _; (split; [done|]).
  - split; [by right|by apply Hc].
  - split; [by left|done].
  - split; [by left|apply recovered_answered].
Qed.

(** Paths are cut at their slashes. *)
#[local] Instance demo_gin : Gin := {|
  gin_params pattern path :=
    match path with
    | String a rest =>
        if decide (a <> sep) then None
        else if decide (pattern = "/") then (if decide (rest = "") then Some [] else None)
        else match cut sep rest with
             | None => if decide (pattern = "/:bucketName") then Some [("bucketName", rest)] else None
             | Some (b, k) => if decide (pattern = "/:bucketName/*key") then Some [("bucketName", b); ("key", "/" +:+ k)] else None
             end
    | EmptyString => None
    end;
  gin_recovered o := o ++ [O_Status 500]
|}.

#[local] Instance demo_gin_ok : GinOk.
Proof.
  split; cbn [gin_params gin_recovered demo_gin].
  - intros p. destruct (decide (p = "/")) as [->|Hp]; [reflexivity|]. destruct p as [|a rest]; [done|].
    destruct (decide (a <> sep)) as [|Ha]; [done|]. apply dec_stable in Ha as ->. cbn [decide].
    rewrite decide_True by done. rewrite decide_False by (intros ->; by apply Hp). done.
  - intros b Hb Hn. change ("/" +:+ b) with (String sep b). cbn beta iota. rewrite cut_nosep by done. done.
  - intros b k Hn. change ("/" +:+ b +:+ "/" +:+ k) with (String sep (b +:+ String sep k)). cbn beta iota. by rewrite cut_app.
  - intros b k Hb Hn. change ("/" +:+ b +:+ "/" +:+ k) with (String sep (b +:+ String sep k)). cbn beta iota. by rewrite cut_app.
  - intros o. rewrite answered_app. apply orb_true_r.
Qed.

#[local] Existing Instance demo_backend.

#[local] Instance demo_returns : BackendReturns (W := DemoStore).
Proof. split; try done. intros b w k. simpl. by destruct (ds_object w). Qed.

Lemma requests_answered_witness :
  exists w' o f, ServeHTTP (fun _ => "") (fun _ => "") one_piece [] "PUT" (demo_request streaming demo_incomplete []) demo_empty = (w', o, f) /\
    (f = Stop \/ f = Go tt) /\ answered o = true.
Proof. apply (requests_answered (fun _ => "") (fun _ => "") one_piece [] "PUT" (demo_request streaming demo_incomplete []) demo_empty). exact I. Defined.
