(* ===== verification/Streams.v ===== *)
(** * The stream between the edge and the cloud

    How the outpost of [src/edge-node/outpost/outpost.go] comes to its stream
    ([Run]), and the two loops that send over it, [SendChanListenLoop] at the edge
    and [sendChanLoop] of [src/cloud/rainbow/rainbow.go] in the cloud. [GrpcStream]
    is one direction of a stream of gRPC, [GrpcStreamOk] what its documentation says:
    messages arrive in the order they were sent, and an error aborts the stream. *)

From S2P Require Import Prelude GoStd Errno Infos Lru InfoStorage Object Pipeline MetaStorage Alaya Moon Watcher InfoAgent Client ClientPool Rainbow Outpost GwUtils.

Class GrpcStream (St M : Type) := {
  stream_Send : St -> M -> St * option error;
  arrived : St -> list M;
  aborted : St -> Prop
}.

Class GrpcStreamOk (St M : Type) `{GrpcStream St M} : Prop := {
  send_arrives st m st' : stream_Send st m = (st', None) -> arrived st' = arrived st ++ [m] /\ ~ aborted st;
  send_aborts st m st' e : stream_Send st m = (st', Some e) -> arrived st' = arrived st /\ aborted st';
  aborted_stays st m : aborted st -> aborted (stream_Send st m).1
}.

(** ** Sending *)

Section sending.
Context {St M : Type} `{GrpcStream St M}.

(** [n] attempts, the last error is dropped. *)
Fixpoint send_retry (n : nat) (st : St) (content : M) : St :=
  match n with
  | O => st
  | S n => match stream_Send st content with (st, None) => st | (st, Some _) => send_retry n st content end
  end.

(** What the edge does to the contents of its channel. *)
Definition SendChanListenLoop (st : St) (contents : list M) : St := foldl (send_retry 3) st contents.

(** The cloud stops at the first error; the rest stays in the channel. *)
Fixpoint sendChanLoop (st : St) (resps : list M) : St * list M :=
  match resps with
  | [] => (st, [])
  | resp :: resps' => match stream_Send st resp with (st, None) => sendChanLoop st resps' | (st, Some _) => (st, resps') end
  end.

Context `{!GrpcStreamOk St M}.

Lemma send_aborted st m : aborted st -> exists st' e, stream_Send st m = (st', Some e) /\ arrived st' = arrived st /\ aborted st'.
Proof.
  intros Ha. destruct (stream_Send st m) as [st' [e|]] eqn:E; [|by destruct (send_arrives _ _ _ E)].
  exists st', e. by destruct (send_aborts _ _ _ _ E).
Qed.

Lemma send_retry_aborted n m : forall st, aborted st -> arrived (send_retry n st m) = arrived st /\ aborted (send_retry n st m).
Proof.
  induction n as [|n IH]; intros st Ha; [done|]. cbn [send_retry]. destruct (send_aborted st m Ha) as (st' & e & -> & <- & Ha').
  by apply IH.
Qed.

(** The attempts after the first one change nothing. *)
Lemma send_retry_once n st m : let st' := send_retry (S n) st m in
  (arrived st' = arrived st ++ [m] /\ st' = (stream_Send st m).1) \/ arrived st' = arrived st /\ aborted st'.
Proof.
  cbn [send_retry]. destruct (stream_Send st m) as [st' [e|]] eqn:E.
  - right. destruct (send_aborts _ _ _ _ E) as [<- Ha]. by apply send_retry_aborted.
  - left. by destruct (send_arrives _ _ _ E).
Qed.

Lemma loop_aborted cs : forall st, aborted st -> arrived (SendChanListenLoop st cs) = arrived st /\ aborted (SendChanListenLoop st cs).
Proof.
  induction cs as [|c cs IH]; intros st Ha; [done|]. destruct (send_retry_aborted 3 c st Ha) as [Hs Ha'].
  change (SendChanListenLoop st (c :: cs)) with (SendChanListenLoop (send_retry 3 st c) cs). rewrite <- Hs. by apply IH.
Qed.

Lemma loop_prefix cs : forall st, exists n, arrived (SendChanListenLoop st cs) = arrived st ++ take n cs /\
  ((n < length cs)%nat -> aborted (SendChanListenLoop st cs)).
Proof.
  induction cs as [|c cs IH]; intros st; [exists 0%nat; split; [by rewrite app_nil_r|simpl; lia]|].
  change (SendChanListenLoop st (c :: cs)) with (SendChanListenLoop (send_retry 3 st c) cs).
  destruct (send_retry_once 2 st c) as [[Hs _]|[Hs Ha]].
  - destruct (IH (send_retry 3 st c)) as (n & Hn & Hr). exists (S n). split; [by rewrite Hn, Hs, <- app_assoc|].
    intros Hl. apply Hr. simpl in Hl. lia.
  - exists 0%nat. destruct (loop_aborted cs _ Ha) as [-> Hr]. split; [by rewrite Hs, app_nil_r|done].
Qed.

Lemma cloud_loop_prefix cs : forall st st' rest, sendChanLoop st cs = (st', rest) ->
  exists sent, arrived st' = arrived st ++ sent /\ sent `prefix_of` cs /\ (rest = [] \/ aborted st').
Proof.
  induction cs as [|c cs IH]; intros st st' rest E; cbn [sendChanLoop] in E.
  - injection E as <- <-. exists []. split; [by rewrite app_nil_r|]. split; [done|by left].
  - destruct (stream_Send st c) as [st1 [e|]] eqn:Es.
    + injection E as <- <-. exists []. destruct (send_aborts _ _ _ _ Es) as [-> Ha]. split; [by rewrite app_nil_r|].
      split; [apply prefix_nil|by right].
    + destruct (send_arrives _ _ _ Es) as [Hs _]. destruct (IH _ _ _ E) as (sent & -> & Hp & Hr).
      exists (c :: sent). split; [by rewrite Hs, <- app_assoc|]. split; [by apply prefix_cons|done].
Qed.

End sending.

(** what reaches the other end of the bridge is a prefix of what was put into the
    channels, in order and once, although every content is tried three times: a
    content that is lost takes all that follow with it. *)
Theorem sent_in_order {St M : Type} `{GrpcStreamOk St M} (st : St) (contents : list M) :
  (exists n, arrived (SendChanListenLoop st contents) = arrived st ++ take n contents /\
     ((n < length contents)%nat -> aborted (SendChanListenLoop st contents))) /\
  (forall st' rest, sendChanLoop st contents = (st', rest) ->
     exists sent, arrived st' = arrived st ++ sent /\ sent `prefix_of` contents /\ (rest = [] \/ aborted st')).
Proof. split; [apply loop_prefix|apply cloud_loop_prefix]. Qed.

(** ** Starting the outpost *)

Section run.
Context `{HR : HashRing, CR : Crush}.
Context {S : Type} `{Storage S}.
Context {P : Type} `{HL : !Lru P string nat}.
Context {CONN St : Type}.

(** An address without a port ends the program. *)
Definition cloud_address (cloudAddr : string) : res (string * Z) :=
  port ← or_panic (Split ":" cloudAddr !! 1%nat);
  addr ← or_panic (Split ":" cloudAddr !! 0%nat);
  Ok (addr, u64 (Atoi_value port)).

(** [ready] is what [WaitClusterOK] returns. The state, the stream and what is in
    the channel when the loops start. *)
Definition Outpost_Run (o : Outpost S) (ready : bool) (cloudAddr : string) (GetRpcConn : string -> Z -> res CONN)
    (GetStream : CONN -> res St) : Outpost S * res (St * CloudRequest) :=
  if negb ready then (o, Err (ENew "cluster is not ok"))
  else if decide (cloudAddr = "") then (o, Err (ENew "cloud address is empty"))
  else
    do o, a <- pure o (cloud_address cloudAddr);
    do o, conn <- pure o (GetRpcConn a.1 a.2);
    do o, stream <- pure o (GetStream conn);
    do o, q <- hello o;
    (o, Ok (stream, q)).

(** The handlers of an outpost are clients of their own node. *)
Definition Outpost_getClient (o : Outpost S) : Client P :=
  New (mkClientConfig (cf_ChunkSize DefaultConfig) (cf_UploadBuffer DefaultConfig) "127.0.0.1" (RpcPort (w_self (o_watcher o)))
    (cf_CloudAddr DefaultConfig) (cf_CloudPort DefaultConfig) (cf_ConnectType DefaultConfig)).

Lemma portless_address_panics o addr conn st : addr <> "" -> cut ":" addr = None -> (Outpost_Run o true addr conn st).2 = Panic.
Proof.
  intros Ha Hc. unfold Outpost_Run. cbn [negb]. rewrite decide_False by done. unfold cloud_address.
  assert (Split ":" addr = [addr]) as ->; [|done]. clear Ha. induction addr as [|a s IH]; [done|]. cbn [cut Split] in *.
  destruct (decide (a = ":"%char)); [done|]. destruct (cut ":" s) as [[]|]; [done|]. by rewrite IH.
Qed.

End run.

(** A stream that takes so many messages. *)
#[local] Instance demo_stream : GrpcStream (list nat * nat) nat := {|
  stream_Send st m := match st.2 with O => (st, Some EEOF) | S n => ((st.1 ++ [m], n), None) end;
  arrived st := st.1;
  aborted st := st.2 = 0%nat
|}.

#[local] Instance demo_stream_ok : GrpcStreamOk (list nat * nat) nat.
Proof.
  split; intros [l [|n]] m; simpl.
  - done.
  - intros st' [= <-]. done.
  - by intros st' e [= <- _].
  - done.
  - done.
  - done.
Qed.

Lemma sent_in_order_witness : exists n, arrived (SendChanListenLoop ([], 2%nat) [7%nat; 8%nat; 9%nat]) = [] ++ take n [7%nat; 8%nat; 9%nat].
Proof.
  destruct (sent_in_order (([], 2%nat) : list nat * nat) [7%nat; 8%nat; 9%nat]) as [(n & Hn & _) _]. by exists n.
Defined.
