(* ===== verification/GatewayWriter.v ===== *)
(** * From the gateway to the nodes

    The gateway of [Gateway.v] on top of the writer of [Writer.v]: the operations of
    the client that store an object are the writer's own, with its goroutines, and
    all others are those of some client ([base]). A goroutine runs between two
    iterations of the writer's loop: [sched] says which ones, and when the writer
    waits for chunks, or [Close] for its blocks, those that are pending run. *)

From S2P Require Import Prelude GoStd Errno Infos Object Pipeline Pool GaiaMsg Block Writer WriterProofs Gaia Reader ReaderProofs PutGet Multipart GwErrors GwUtils Gateway GatewayProofs.

Section client.
Context `{HR : HashRing, DG : Digests}.
Context {X F Wr Rd Bk : Type} (base : Backend X F Wr Rd Bk).
Context (f : Factory) (cp : ClusterPipelines) (term : Z) (now : Timestamp) (submit : ObjectMeta -> res unit).
Context (uuid : nat -> string) (peer : nat -> string -> Peer) (sched : nat -> list nat).

(** [wd_sys]: the writer in use. [wd_turn] counts what [sched] is asked.
    [wd_objects]: the objects committed, with the writer as it was then. *)
Record World := mkWorld { wd_sys : Sys; wd_turn : nat; wd_objects : list (Sys * ObjectMeta); wd_rest : X }.

Definition set_sys (w : World) (s : Sys) : World := mkWorld s (S (wd_turn w)) (wd_objects w) (wd_rest w).

(** ** Goroutines *)

Definition run_one (s : Sys) (a : nat) : Sys * res unit :=
  if decide (a ∈ uploads (sw s)) then
    let '(w, l, r) := uploadBlock f (uuid a) (uploadByEdge cp (peer a)) (sw s) a in
    (mkSys w (sCall s) (sWritten s) (sSent s ++ [(a, l)]), r)
  else (s, Ok tt).

Fixpoint run_some (s : Sys) (l : list nat) : Sys * res unit :=
  match l with
  | [] => (s, Ok tt)
  | a :: l' => do s, _ <- run_one s a; run_some s l'
  end.

Definition settle (s : Sys) : Sys * res unit := run_some s (uploads (sw s)).

(** ** Writing *)

Definition iterate (s : Sys) (p rest : bytes) : Sys * res bytes :=
  match write_iter f (sw s) rest with
  | (w, Ok rest') => (mkSys w (Some (p, rest')) (sWritten s ++ take (length rest - length rest') rest) (sSent s), Ok rest')
  | (w, Err e) => (s, Err e)
  | (w, Panic) => (s, Panic)
  | (w, Stuck) => (s, Stuck)
  end.

(** An iteration that has to wait goes on when the goroutines have run. *)
Definition write_turn (t : nat) (s : Sys) (p rest : bytes) : Sys * res bytes :=
  do s, _ <- run_some s (sched t);
  match iterate s p rest with
  | (_, Stuck) => do s, _ <- settle s; iterate s p rest
  | x => x
  end.

Fixpoint write_run (fuel t : nat) (s : Sys) (p rest : bytes) : Sys * res unit :=
  match rest with
  | [] => (s, Ok tt)
  | _ =>
      match fuel with
      | O => (s, Stuck)
      | S fuel => do s, rest' <- write_turn t s p rest; write_run fuel (S t) s p rest'
      end
  end.

(** What is left of the running call. *)
Definition left_of (s : Sys) : bytes := match sCall s with Some (_, rest) => rest | None => [] end.

Definition sys_Write (t : nat) (s : Sys) (p : bytes) : Sys * res (Z * option error) :=
  match write_guard (sw s) with
  | Some e => (s, Ok (0, Some e))
  | None =>
      match write_run (length p) t (mkSys (sw s) (Some (p, p)) (sWritten s) (sSent s)) p p with
      | (s, Ok _) => let '(w, r) := write_end f (sw s) p [] in (mkSys w None (sWritten s) (sSent s), Ok r)
      | (s, Err e) => (mkSys (sw s) None (sWritten s) (sSent s), Ok (Z.of_nat (length p) - Z.of_nat (length (left_of s)), Some e))
      | (s, Panic) => (s, Panic)
      | (s, Stuck) => (s, Stuck)
      end
  end.

(** ** Closing *)

Definition sys_Close (t : nat) (s : Sys) : Sys * res (Sys * ObjectMeta) :=
  match Close_start f (sw s) with
  | (w, Ok _) =>
      do s, _ <- run_some (mkSys w None (sWritten s) (sSent s)) (sched t);
      do s, _ <- settle s;
      match Close_finish f now submit (sw s) with
      | (w, Ok meta) => (mkSys w None (sWritten s) (sSent s), Ok (s, meta))
      | (w, Err e) => (mkSys w None (sWritten s) (sSent s), Err e)
      | (_, Panic) => (s, Panic)
      | (_, Stuck) => (s, Stuck)
      end
  | (w, Err e) => (mkSys w None (sWritten s) (sSent s), Err e)
  | (_, Panic) => (s, Panic)
  | (_, Stuck) => (s, Stuck)
  end.

(** ** The client *)

Definition lift {A} (g : X -> X * res A) (w : World) : World * res A :=
  let '(x, r) := g (wd_rest w) in (mkWorld (wd_sys w) (wd_turn w) (wd_objects w) x, r).

Definition world_open (w : World) (key : string) : World * res (option Wr) :=
  match newChunkPool f with
  | Ok p => (set_sys w (fresh_sys key p term), Ok None)
  | _ => (w, Panic)
  end.

Definition world_Write (w : World) (p : bytes) : World * res (Z * option error) :=
  let '(s, r) := sys_Write (wd_turn w) (wd_sys w) p in (set_sys w s, r).

Definition world_Close (w : World) : World * res unit :=
  match sys_Close (wd_turn w) (wd_sys w) with
  | (s, Ok o) => (mkWorld s (S (wd_turn w)) (wd_objects w ++ [o]) (wd_rest w), Ok tt)
  | (s, Err e) => (set_sys w s, Err e)
  | (s, Panic) => (set_sys w s, Panic)
  | (s, Stuck) => (set_sys w s, Stuck)
  end.

(** [None]: the writer of the world; a writer of [base] is one of its uploads of
    parts. *)
Definition real_writer : Backend World F (option Wr) Rd Bk := {|
  be_GetIOFactory w b := lift (fun x => be_GetIOFactory x b) w;
  be_GetEcosWriter _ w k := world_open w k;
  be_Write wr w p := match wr with None => world_Write w p | Some wr => lift (fun x => be_Write wr x p) w end;
  be_Close wr w := match wr with None => world_Close w | Some wr => lift (be_Close wr) w end;
  be_Copy wr w m :=
    match wr with
    | None => (w, p ← Copy f submit (sw (wd_sys w)) m; Ok p.1)
    | Some wr => lift (fun x => be_Copy wr x m) w
    end;
  be_GetEcosReader fa w k := lift (fun x => be_GetEcosReader fa x k) w;
  be_Seek rd w o := lift (fun x => be_Seek rd x o) w;
  be_ReadN rd w n := lift (fun x => be_ReadN rd x n) w;
  be_GetBlock rd w b := lift (fun x => be_GetBlock rd x b) w;
  be_Volume_Get w b := lift (fun x => be_Volume_Get x b) w;
  be_Volume_List w q := lift (fun x => be_Volume_List x q) w;
  be_CreateBucket w b := lift (fun x => be_CreateBucket x b) w;
  be_DeleteBucket w b := lift (fun x => be_DeleteBucket x b) w;
  be_Bucket_Get bk w k := lift (fun x => be_Bucket_Get bk x k) w;
  be_Bucket_Remove bk w k := lift (fun x => be_Bucket_Remove bk x k) w;
  be_ListObjects w b q := lift (fun x => be_ListObjects x b q) w;
  be_CreateMultipartUploadJob fa w k := lift (fun x => be_CreateMultipartUploadJob fa x k) w;
  be_GetMultipartUploadWriter fa w i :=
    let '(w, r) := lift (fun x => be_GetMultipartUploadWriter fa x i) w in (w, wr ← r; Ok (Some wr));
  be_WritePart wr w n b :=
    match wr with None => (w, Err (EErrno Errno.MethodNotAllowed)) | Some wr => lift (fun x => be_WritePart wr x n b) w end;
  be_ListParts wr w := match wr with None => (w, Ok []) | Some wr => lift (be_ListParts wr) w end;
  be_GetPartBlockInfo wr w n :=
    match wr with None => (w, Err (EErrno Errno.MethodNotAllowed)) | Some wr => lift (fun x => be_GetPartBlockInfo wr x n) w end;
  be_CompleteMultipartUploadJob fa w i := lift (fun x => be_CompleteMultipartUploadJob fa x i) w;
  be_AbortMultipartUploadJob fa w i := lift (fun x => be_AbortMultipartUploadJob fa x i) w;
  be_ListMultipartUploadJob fa w := lift (be_ListMultipartUploadJob fa) w
|}.

End client.

Arguments World X : clear implicits.
Arguments mkWorld {X}.
Arguments wd_sys {X}.
Arguments wd_turn {X}.
Arguments wd_objects {X}.
Arguments wd_rest {X}.

(** ** Goroutines do not fail *)

Section running.
Context `{HR : HashRing, HRok : !HashRingOk, DG : Digests}.
Context (f : Factory) (cp : ClusterPipelines) (Hcfg : config_ok f).
Context (uuid : nat -> string) (peer : nat -> string -> Peer) (sched : nat -> list nat).
Context (Hrouted : blocks_routed cp) (Hpeers : forall a, peers_known (peer a)).

Abbreviation run_one := (run_one f cp uuid peer).
Abbreviation run_some := (run_some f cp uuid peer).
Abbreviation settle := (settle f cp uuid peer).

(** The goroutines change neither the running call nor what was written. *)
Definition beside (s s' : Sys) : Prop :=
  rtc (step f cp) s s' /\ sCall s' = sCall s /\ sWritten s' = sWritten s /\ wStatus (sw s') = wStatus (sw s).

Lemma beside_trans s1 s2 s3 : beside s1 s2 -> beside s2 s3 -> beside s1 s3.
Proof. intros (Ha & Ha1 & Ha2 & Ha3) (Hb & Hb1 & Hb2 & Hb3). split; [by etrans|]. split_and!; congruence. Qed.

Lemma inv_steps key s s' cont : sys_inv f cp key s cont -> rtc (step f cp) s s' -> exists cont', sys_inv f cp key s' cont'.
Proof.
  intros Hinv Hr. revert cont Hinv. induction Hr as [s|s1 s2 s3 Hst _ IH]; intros cont Hinv; [by exists cont|].
  destruct (step_preserves f cp Hcfg _ _ _ _ Hinv Hst) as [cont' Hinv']. by eapply IH.
Qed.

Lemma run_one_ok key s a cont : sys_inv f cp key s cont -> exists s', run_one s a = (s', Ok tt) /\ beside s s' /\
  forall x, x ∈ uploads (sw s') -> x ∈ uploads (sw s) /\ x <> a.
Proof.
  intros Hinv. unfold GatewayWriter.run_one. destruct (decide (a ∈ uploads (sw s))) as [Ha|Ha].
  2:{ exists s. split; [done|]. split; [split; [apply rtc_refl|done]|]. intros x Hx. split; [done|]. by intros ->. }
  destruct s as [w call wr sent]. simpl in *.
  destruct (upload_enabled f cp Hcfg w wr sent cont a (uuid a) (peer a) Hrouted (Hpeers a) (s_winv _ _ _ _ _ Hinv) Ha) as (w' & l & E).
  destruct (uploadBlock_inv f cp Hcfg w wr sent cont a (uuid a) (peer a) (s_winv _ _ _ _ _ Hinv) Ha) as (w1 & l1 & E1 & _ & _ & _ & _ & _ & Hfr & Hups).
  { intros b b' Hb Hcl _. unfold uploadBlock in E. rewrite Hb, Hcl in E.
    destruct (uploadByEdge cp (peer a) b') as [l' [[]|e| |]]; try done; eexists _, _; split; try done; [by left|right; by eexists]. }
  rewrite E in *. injection E1 as <- <-. eexists. split; [done|]. split.
  - split; [by eapply rtc_once, step_upload|]. destruct Hfr. done.
  - simpl. intros x. rewrite Hups. intros [? ?]%list_elem_of_filter. done.
Qed.

Lemma run_some_ok key l : forall s cont, sys_inv f cp key s cont -> exists s', run_some s l = (s', Ok tt) /\ beside s s' /\
  forall x, x ∈ uploads (sw s') -> x ∈ uploads (sw s) /\ x ∉ l.
Proof.
  induction l as [|a l IH]; intros s cont Hinv.
  - exists s. split; [done|]. split; [split; [apply rtc_refl|done]|]. intros x Hx. split; [done|]. apply not_elem_of_nil.
  - destruct (run_one_ok key s a cont Hinv) as (s1 & E1 & B1 & U1). destruct (inv_steps _ _ _ _ Hinv (proj1 B1)) as [cont1 Hinv1].
    destruct (IH s1 cont1 Hinv1) as (s2 & E2 & B2 & U2). exists s2. cbn [GatewayWriter.run_some]. rewrite E1. cbn [st_bind].
    split; [done|]. split; [by eapply beside_trans|]. intros x Hx. destruct (U2 x Hx) as [Hx1 Hl]. destruct (U1 x Hx1) as [? ?].
    split; [done|]. by rewrite not_elem_of_cons.
Qed.

Lemma settle_ok key s cont : sys_inv f cp key s cont -> exists s', settle s = (s', Ok tt) /\ beside s s' /\ uploads (sw s') = [].
Proof.
  intros Hinv. destruct (run_some_ok key (uploads (sw s)) s cont Hinv) as (s' & E & B & U). exists s'. split; [done|]. split; [done|].
  destruct (uploads (sw s')) as [|x l] eqn:Eu; [done|]. destruct (U x) as [Hin Hout]; [left|]. done.
Qed.

(** ** Every turn of the loop makes progress *)

Lemma iter_or_wait key w p rest wr sent cont :
  sys_inv f cp key (mkSys w (Some (p, rest)) wr sent) cont -> rest <> [] ->
  (exists w' rest', write_iter f w rest = (w', Ok rest')) \/ exists w', write_iter f w rest = (w', Stuck).
Proof.
  intros [Hi Hph [Hst _] _] Hne. simpl in *. destruct Hph as [[Hr Hroom]|[Hst' _ _ _]]; [|congruence].
  destruct (decide (own_chunks w = 0%nat /\ maxCount (pool w) < Z.of_nat (uploading w + nChunks f))) as [[H0 Hlt]|Hav].
  - right. unfold own_chunks, cur_list in H0. unfold write_iter, getCurChunk.
    destruct (curChunk w) as [ch|] eqn:Ec; [simpl in H0; lia|]. destruct (reserveChunks w) as [|ch l] eqn:Er; [|simpl in H0; lia].
    destruct (cfg_chunks f Hcfg) as [-> Hn]. cbn [pure st_bind]. unfold AcquireMultiple. rewrite decide_False by lia.
    destruct (acquire_loop_stuck (newLocalChunk f) ltac:(intros k; by eexists) (nChunks f) (uploading w) (pool w) []) as [p' ->]; [|done|by eexists].
    eapply pool_inv_eq; [apply Hi|]. unfold held, uploading, own_chunks, cur_list. rewrite Ec, Er. simpl in *. lia.
  - left. destruct (write_iter_inv f cp Hcfg w wr sent cont rest Hi Hr Hroom Hne) as (w' & n & cont' & E & _); [|by eexists _, _].
    intros H0. destruct (decide (maxCount (pool w) < Z.of_nat (uploading w + nChunks f))); [by destruct Hav|lia].
Qed.

(** [s'] is [s] with the call moved on. *)
Definition moved (p rest : bytes) (s : Sys) (rest' : bytes) (s' : Sys) : Prop :=
  rtc (step f cp) s s' /\ sCall s' = Some (p, rest') /\ sWritten s' ++ rest' = sWritten s ++ rest /\ (length rest' < length rest)%nat.

Lemma iterate_ok key s p rest cont w' rest' : sys_inv f cp key s cont -> sCall s = Some (p, rest) -> rest <> [] ->
  write_iter f (sw s) rest = (w', Ok rest') -> exists s', iterate f s p rest = (s', Ok rest') /\ moved p rest s rest' s'.
Proof.
  destruct s as [w call wr sent]. simpl. intros Hinv -> Hne E. unfold iterate. simpl. rewrite E. eexists. split; [done|].
  destruct (iter_preserves f cp Hcfg _ _ _ _ _ _ _ _ _ Hinv Hne E) as (_ & _ & Hlt).
  destruct (write_iter_drop f _ _ _ _ E) as (n & -> & Hn). split; [by apply rtc_once, step_iter|]. simpl. split; [done|]. split; [|done].
  rewrite <- app_assoc. f_equal. rewrite length_drop. replace (length rest - (length rest - n))%nat with n by lia. apply take_drop.
Qed.

Lemma moved_beside p rest s s1 rest' s' : beside s s1 -> moved p rest s1 rest' s' -> moved p rest s rest' s'.
Proof. intros (Ha & _ & Hw & _) (Hb & Hc & Hd & He). split; [by etrans|]. split_and!; [done|congruence|done]. Qed.

Lemma write_turn_ok key t s p rest cont : sys_inv f cp key s cont -> sCall s = Some (p, rest) -> rest <> [] ->
  exists s' rest', write_turn f cp uuid peer sched t s p rest = (s', Ok rest') /\ moved p rest s rest' s'.
Proof.
  intros Hinv Hc Hne. unfold write_turn. destruct (run_some_ok key (sched t) s cont Hinv) as (s1 & -> & B1 & _). cbn [st_bind].
  destruct (inv_steps _ _ _ _ Hinv (proj1 B1)) as [cont1 Hinv1]. assert (sCall s1 = Some (p, rest)) as Hc1 by (by rewrite (proj1 (proj2 B1))).
  pose proof (iter_or_wait key (sw s1) p rest (sWritten s1) (sSent s1) cont1) as Hcase. destruct s1 as [w1 call1 wr1 sent1]. simpl in *. subst call1.
  destruct (Hcase Hinv1 Hne) as [(w' & rest' & E)|[w' E]].
  - destruct (iterate_ok key _ p rest cont1 w' rest' Hinv1 eq_refl Hne E) as (s' & -> & Hm). exists s', rest'. split; [done|].
    by eapply moved_beside.
  - unfold iterate at 1. simpl. rewrite E. destruct (settle_ok key _ cont1 Hinv1) as (s2 & -> & B2 & U2). cbn [st_bind].
    destruct (inv_steps _ _ _ _ Hinv1 (proj1 B2)) as [cont2 Hinv2]. assert (sCall s2 = Some (p, rest)) as Hc2 by (by rewrite (proj1 (proj2 B2))).
    destruct (iter_enabled f cp Hcfg key (sw s2) p rest (sWritten s2) (sSent s2) cont2) as (w2 & rest' & E2); [|done|done|].
    { destruct s2 as [? call2 ? ?]. simpl in *. by subst call2. }
    destruct (iterate_ok key s2 p rest cont2 w2 rest' Hinv2 Hc2 Hne E2) as (s' & -> & Hm). exists s', rest'. split; [done|].
    eapply moved_beside; [|exact Hm]. by eapply beside_trans.
Qed.

Lemma write_run_ok key p fuel : forall t s rest cont, sys_inv f cp key s cont -> sCall s = Some (p, rest) -> (length rest <= fuel)%nat ->
  exists s', write_run f cp uuid peer sched fuel t s p rest = (s', Ok tt) /\ rtc (step f cp) s s' /\ sCall s' = Some (p, []) /\
    sWritten s' = sWritten s ++ rest.
Proof.
  induction fuel as [|fuel IH]; intros t s rest cont Hinv Hc Hl.
  - destruct rest; [|simpl in Hl; lia]. exists s. rewrite app_nil_r. split; [done|]. split; [apply rtc_refl|done].
  - destruct rest as [|x rest]; [exists s; rewrite app_nil_r; split; [done|]; split; [apply rtc_refl|done]|].
    destruct (write_turn_ok key t s p (x :: rest) cont Hinv Hc ltac:(done)) as (s1 & rest' & E & Hr & Hc1 & Hw & Hlt).
    destruct (inv_steps _ _ _ _ Hinv Hr) as [cont1 Hinv1].
    destruct (IH (S t) s1 rest' cont1 Hinv1 Hc1) as (s' & E' & Hr' & Hc' & Hw'); [lia|].
    exists s'. cbn [write_run]. rewrite E. cbn [st_bind]. split; [done|]. split; [by etrans|]. split; [done|]. by rewrite Hw', Hw.
Qed.

Lemma sys_Write_ok key t s p cont : sys_inv f cp key s cont -> sCall s = None -> wStatus (sw s) = READING ->
  exists s', sys_Write f cp uuid peer sched t s p = (s', Ok (Z.of_nat (length p), None)) /\ rtc (step f cp) s s' /\ sCall s' = None /\
    wStatus (sw s') = READING /\ sWritten s' = sWritten s ++ p.
Proof.
  intros Hinv Hc Hst. destruct s as [w call wr sent]. simpl in *. subst call. unfold sys_Write. simpl.
  assert (write_guard w = None) as Hg.
  { unfold write_guard. destruct (s_single _ _ _ _ _ Hinv) as [Hp _]. simpl in Hp. rewrite Hp. by rewrite decide_False by (intros Hn; by apply Hn). }
  rewrite Hg. pose proof (step_call f cp w p wr sent Hg) as Hs0.
  destruct (step_preserves f cp Hcfg _ _ _ _ Hinv Hs0) as [cont0 Hinv0].
  destruct (write_run_ok key p (length p) t _ p cont0 Hinv0 eq_refl (le_n _)) as (s1 & -> & Hr & Hc1 & Hw).
  destruct (inv_steps _ _ _ _ Hinv0 Hr) as [cont1 Hinv1]. destruct s1 as [w1 call1 wr1 sent1]. simpl in *. subst call1.
  destruct (write_end f w1 p []) as [w2 [n o]] eqn:E. pose proof E as E'.
  unfold write_end in E'. cbn [length] in E'. rewrite decide_False in E' by lia. injection E' as <- <- <-.
  eexists. split; [done|]. split; [|split; [done|]].
  - eapply rtc_l; [exact Hs0|]. eapply rtc_r; [exact Hr|]. by eapply step_return.
  - simpl. split; [|done]. by destruct (s_call _ _ _ _ _ Hinv1).
Qed.

Lemma sys_Close_ok key t s cont now submit : sys_inv f cp key s cont -> sCall s = None -> wStatus (sw s) = READING ->
  bucket_ok (fBucket f) -> Z.of_nat (length (sWritten s)) < 2 ^ 64 -> (forall m, submit m = Ok tt) ->
  exists s' s1 meta w', sys_Close f cp now submit uuid peer sched t s = (s', Ok (s1, meta)) /\ rtc (step f cp) s s1 /\
    sWritten s1 = sWritten s /\ uploads (sw s1) = [] /\ wStatus (sw s1) = UPLOADING /\ Close_finish f now submit (sw s1) = (w', Ok meta).
Proof.
  intros Hinv Hc Hst Hb Hlen Hsub. destruct s as [w call wr sent]. simpl in *. subst call.
  destruct (s_phase _ _ _ _ _ Hinv) as [[Hr Hroom]|[Hst' _ _ _]]; simpl in *; [|congruence].
  destruct (Close_start_inv f cp Hcfg w wr sent cont (s_winv _ _ _ _ _ Hinv) Hr Hroom) as (w1 & cont1 & E1 & _ & Hcl & _).
  pose proof (step_close f cp w wr sent w1 E1) as Hs1. destruct (step_preserves f cp Hcfg _ _ _ _ Hinv Hs1) as [cont1' Hinv1].
  unfold sys_Close. simpl. rewrite E1. destruct (run_some_ok key (sched t) _ cont1' Hinv1) as (s2 & -> & B2 & _). cbn [st_bind].
  destruct (inv_steps _ _ _ _ Hinv1 (proj1 B2)) as [cont2 Hinv2]. destruct (settle_ok key s2 cont2 Hinv2) as (s3 & -> & B3 & U3). cbn [st_bind].
  destruct (inv_steps _ _ _ _ Hinv2 (proj1 B3)) as [cont3 Hinv3]. destruct (beside_trans _ _ _ B2 B3) as (Hr3 & _ & Hw3 & Hst3). simpl in *.
  assert (wStatus (sw s3) = UPLOADING) as Hup by (rewrite Hst3; by destruct Hcl).
  destruct (Close_finish_spec f cp key s3 cont3 now submit Hinv3 Hb Hup U3) as (w' & meta & pg & E & _); [by rewrite Hw3|done|].
  rewrite E. eexists _, s3, meta, w'. split; [done|]. split; [by eapply rtc_l|done].
Qed.

End running.

(** ** Bodies *)

(** What a body stands for, in signed chunks or as it is. *)
Inductive carries (rq : Request) : bytes -> Prop :=
  | carries_signed cs :
      rq_header rq "X-Amz-Content-Sha256" = "STREAMING-AWS4-HMAC-SHA256-PAYLOAD" -> Forall GatewayProofs.chunk_ok cs ->
      concat (pieces (rq_body rq)) = concat (encode_chunk <$> cs) -> body_err (rq_body rq) = None ->
      carries rq (concat (ck_data <$> cs))
  | carries_plain :
      rq_header rq "X-Amz-Content-Sha256" <> "STREAMING-AWS4-HMAC-SHA256-PAYLOAD" -> body_err (rq_body rq) = None ->
      carries rq (concat (pieces (rq_body rq))).

Section bodies.
Context {W F Wr Rd Bk : Type} `{Backend W F Wr Rd Bk}.
Context (buf_pieces : bytes -> list bytes) (Hpieces : forall b, concat (buf_pieces b) = b).
Context (stored : W -> Wr -> bytes) (good : W -> Prop).

Lemma copy_pieces_accepts wr ps : accepts stored good wr -> forall w, good w -> exists w',
  copy_pieces wr ps None w = (w', [], Go None) /\ good w' /\ stored w' wr = stored w wr ++ concat ps.
Proof.
  intros Hwr. induction ps as [|q ps IH]; intros w Hg.
  - exists w. cbn [copy_pieces concat]. rewrite app_nil_r. done.
  - destruct (Hwr w q Hg) as (w1 & E1 & G1 & A1). destruct (IH w1 G1) as (w2 & E2 & G2 & A2). exists w2.
    cbn [copy_pieces concat]. unfold h_bind, h_call. rewrite E1. rewrite decide_False by (intros Hn; by apply Hn). rewrite E2.
    split; [done|]. split; [done|]. by rewrite A2, A1, app_assoc.
Qed.

Lemma putObject_stored rq d w w1 w2 fa wr : accepts stored good wr -> good w2 -> rq_bucket rq <> "" -> rq_key rq <> "" ->
  be_GetIOFactory w (rq_bucket rq) = (w1, Ok fa) -> be_GetEcosWriter fa w1 (rq_key rq) = (w2, Ok wr) -> carries rq d ->
  exists w3, good w3 /\ stored w3 wr = stored w2 wr ++ d /\
    putObject buf_pieces rq w = close_writer rq wr (rq_bucket rq) (rq_key rq) w3.
Proof.
  intros Hwr Hg Hb Hk Hf Hw [cs Hh Hcs Hbody Herr|Hh Herr].
  - by apply (putObject_streamed buf_pieces Hpieces stored good rq w w1 w2 fa wr cs).
  - destruct (copy_pieces_accepts wr (pieces (rq_body rq)) Hwr w2 Hg) as (w3 & E & G & A). exists w3. split; [done|]. split; [done|].
    unfold putObject, parseBucketKey, parseBucket. rewrite decide_False by done.
    unfold h_bind at 1 2, h_ret at 1. rewrite decide_False by done. cbn [h_ret app].
    unfold h_bind at 1, getFactory, h_call. unfold h_bind at 1. rewrite Hf. cbn [h_ret app].
    unfold h_bind at 1, get_writer, h_call. unfold h_bind at 1. rewrite Hw. cbn [h_ret app].
    rewrite decide_False by done. rewrite Herr. unfold h_bind. rewrite E. cbn [h_ret app]. by destruct (close_writer _ _ _ _ w3) as [[w4 o] fl].
Qed.

End bodies.

(** ** The whole way *)

Section whole.
Context `{HR : HashRing, HRok : !HashRingOk, DG : Digests}.
Context {X F Wr Rd Bk : Type} (base : Backend X F Wr Rd Bk).
Context (f : Factory) (cp : ClusterPipelines) (Hcfg : config_ok f) (term : Z) (now : Timestamp) (submit : ObjectMeta -> res unit).
Context (uuid : nat -> string) (peer : nat -> string -> Peer) (sched : nat -> list nat).
Context (Hrouted : blocks_routed cp) (Hpeers : forall a, peers_known (peer a)).
Context (Hbucket : bucket_ok (fBucket f)) (Hsubmit : forall m, submit m = Ok tt).

Abbreviation client := (real_writer base f cp term now submit uuid peer sched).

(** The writer between two calls, after [p0] was its pool. *)
Definition writing (key : string) (p0 : Pool localChunk) (objects : list (Sys * ObjectMeta)) (w : World X) : Prop :=
  rtc (step f cp) (fresh_sys key p0 term) (wd_sys w) /\ sCall (wd_sys w) = None /\ wStatus (sw (wd_sys w)) = READING /\
  wd_objects w = objects.

Lemma client_accepts key p0 objects : newChunkPool f = Ok p0 ->
  @accepts (World X) F (option Wr) Rd Bk client (fun w _ => sWritten (wd_sys w)) (writing key p0 objects) None.
Proof.
  intros Hp w q (Hr & Hc & Hst & Ho). destruct (reachable_inv f cp Hcfg key p0 term _ Hp Hr) as [cont Hinv].
  destruct (sys_Write_ok f cp Hcfg uuid peer sched Hrouted Hpeers key (wd_turn w) (wd_sys w) q cont Hinv Hc Hst)
    as (s' & E & Hr' & Hc' & Hst' & Hw'). exists (set_sys w s').
  cbn [be_Write real_writer]. unfold world_Write. rewrite E. split; [done|]. split; [|done].
  split; [by etrans|done].
Qed.

Lemma put_committed buf_pieces rq d w x1 fa : (forall b, concat (buf_pieces b) = b) -> rq_bucket rq <> "" -> rq_key rq <> "" ->
  carries rq d -> Z.of_nat (length d) < 2 ^ 64 -> @be_GetIOFactory _ _ _ _ _ base (wd_rest w) (rq_bucket rq) = (x1, Ok fa) ->
  exists w' s meta p0 wc, @putObject _ _ _ _ _ client buf_pieces rq w = (w', [O_Status 200], Go tt) /\
    wd_objects w' = wd_objects w ++ [(s, meta)] /\ newChunkPool f = Ok p0 /\ rtc (step f cp) (fresh_sys (rq_key rq) p0 term) s /\
    sWritten s = d /\ uploads (sw s) = [] /\ wStatus (sw s) = UPLOADING /\ Close_finish f now submit (sw s) = (wc, Ok meta).
Proof.
  intros Hp Hb Hk Hd Hlen Hf.
  assert (exists p0, newChunkPool f = Ok p0) as [p0 Hp0].
  { unfold newChunkPool, NewPool. destruct Hcfg. rewrite decide_False; [by eexists|]. intros E0.
    assert (1 <= fUploadBuffer f `div` fChunkSize f) by (apply Z.div_le_lower_bound; lia). lia. }
  set (w1 := mkWorld (wd_sys w) (wd_turn w) (wd_objects w) x1). set (w2 := set_sys w1 (fresh_sys (rq_key rq) p0 term)).
  destruct (@putObject_stored _ _ _ _ _ client buf_pieces Hp (fun w _ => sWritten (wd_sys w)) (writing (rq_key rq) p0 (wd_objects w))
    rq d w w1 w2 fa None) as (w3 & (Hr & Hc & Hst & Ho) & Hw & E); try done.
  - by apply client_accepts.
  - cbn [be_GetIOFactory real_writer]. unfold lift. by rewrite Hf.
  - cbn [be_GetEcosWriter real_writer]. unfold world_open. by rewrite Hp0.
  - simpl in Hw. destruct (reachable_inv f cp Hcfg _ p0 term _ Hp0 Hr) as [cont Hinv].
    destruct (sys_Close_ok f cp Hcfg uuid peer sched Hrouted Hpeers _ (wd_turn w3) (wd_sys w3) cont now submit Hinv Hc Hst Hbucket)
      as (s' & s1 & meta & wc & Ec & Hr1 & Hw1 & Hu & Hs1 & Ef); [by rewrite Hw|done|].
    rewrite E. unfold close_writer, h_bind, h_call. cbn [be_Close real_writer]. unfold world_Close. rewrite Ec.
    eexists _, s1, meta, p0, wc. split; [done|]. simpl. rewrite Ho. split; [done|]. split; [done|]. split; [by etrans|].
    split; [by rewrite Hw1|done].
Qed.

End whole.

(** Every block went up with its first stream, and to a file of its own. *)
Record accepted (gs : Z -> Gaia) (s : Sys) : Prop := {
  ac_finished : Forall (fun b => status b = FINISHED) (heap (sw s));
  ac_first : Forall (fun x => length x.2 = 1%nat) (sSent s);
  ac_paths : forall i j b b' id, heap (sw s) !! i = Some b -> heap (sw s) !! j = Some b' ->
    block_path (gs id) (blockInfo b) = block_path (gs id) (blockInfo b') -> i = j
}.

(** The groups of blocks of a cluster have their pipelines. *)
Lemma storage_routed `{Crush, !CrushOk} c cp gs : storage_ok c cp gs -> blocks_routed cp.
Proof.
  intros [Hwf _ Hg Hp _] pg Hpg. destruct (NewClusterPipelines_spec c Hwf) as [(_ & _ & cp' & Hp' & _ & _ & [_ Hb])|[_ ?]]; [|congruence].
  rewrite Hp in Hp'. injection Hp' as <-. destruct (Hb pg) as (p & Hp' & _); [lia|]. by exists p.
Qed.

(** C2: what is sent to the gateway is what is read from the nodes. A PUT whose
    body carries [d], signed in chunks or not, in pieces of any sizes, is answered
    with 200 and nothing else, and commits an object: whatever goroutines run when,
    the writer never waits for ever. If the nodes took every block with its first
    stream, then whoever gets the metadata that was committed reads [d], for any
    sizes of buffers and any order of the blocks, up to the bytes a node never
    flushes. *)
Theorem upload_read_back `{HashRing, !HashRingOk, Digests, Crush, !CrushOk} {X F Wr Rd Bk : Type} (base : Backend X F Wr Rd Bk)
    (f : Factory) (c : ClusterInfo) (cp : ClusterPipelines) (gs : Z -> Gaia) (D : Z -> Disk) term now submit uuid peer sched
    buf_pieces rq d (w : World X) x1 fa :
  config_ok f -> Z.of_nat bufSize < fChunkSize f -> bucket_ok (fBucket f) -> storage_ok c cp gs ->
  (forall a, peers_known (peer a)) -> (forall m, submit m = Ok tt) -> (forall b, concat (buf_pieces b) = b) ->
  rq_bucket rq <> "" -> rq_key rq <> "" -> carries rq d -> d <> [] -> Z.of_nat (length d) < 2 ^ 61 ->
  be_GetIOFactory (wd_rest w) (rq_bucket rq) = (x1, Ok fa) ->
  exists w' s meta,
    @putObject _ _ _ _ _ (real_writer base f cp term now submit uuid peer sched) buf_pieces rq w = (w', [O_Status 200], Go tt) /\
    wd_objects w' = wd_objects w ++ [(s, meta)] /\
    (accepted gs s -> forall agent_Get fetch_cloud attempts order sizes,
       getObjMeta attempts = Ok meta -> agent_knows agent_Get c (OM_Term meta) -> (forall l, order l ≡ₚ l) ->
       Z.of_nat (sum_list sizes) < 2 ^ 61 ->
       let content := read_back (Z.to_nat (fChunkSize f)) d in
       exists r r', genPipelines agent_Get attempts GetEcosReader = (r, Ok tt) /\
         read_on ConnectEdge (BlockSize (fConfig f)) agent_Get (edge_fetch gs (deliver_all gs D (sSent s))) fetch_cloud order r sizes =
           (r', Ok (take (sum_list sizes) content, bool_decide (sum_list sizes < length content)%nat))).
Proof.
  intros Hcfg HN Hbk Hst Hpeers Hsub Hp Hb Hk Hd Hne Hlen Hf.
  destruct (put_committed base f cp Hcfg term now submit uuid peer sched (storage_routed c cp gs Hst) Hpeers Hbk Hsub
    buf_pieces rq d w x1 fa Hp Hb Hk Hd ltac:(lia) Hf) as (w' & s & meta & p0 & wc & E & Ho & Hp0 & Hr & Hw & Hu & Hs & Hcl).
  exists w', s, meta. split; [done|]. split; [done|]. intros [Ha1 Ha2 Ha3] agent_Get fetch_cloud attempts order sizes Hm Hag Hord Hsz.
  rewrite <- Hw. eapply (stored_is_read f c cp gs D Hcfg (rq_key rq) p0 term s now submit wc meta); try done; by rewrite Hw.
Qed.

(** *** A run: 5003 bytes in two pieces *)

Definition far_request : Request :=
  mkRequest "default" "/k" [] (fun _ => "") "/default/k" 5003 (mkBody [replicate 5000 x07; [x01; x02; x03]] None) None None true.

Definition far_world : World DemoStore := mkWorld (fresh_sys "" far_pool 7) 0 [] demo_empty.

Definition far_client : Backend (World DemoStore) unit (option unit) unit unit :=
  @real_writer length_ring demo_digests _ _ _ _ _ demo_backend far_factory demo_pipes 7 (mkTimestamp 0 0) (fun _ => Ok tt)
    (fun _ => "id-1") (fun _ => good_peer) (fun _ => []).

Definition far_after : World DemoStore := (@putObject _ _ _ _ _ far_client one_piece far_request far_world).1.1.

Definition far_object : Sys * ObjectMeta := default (fresh_sys "" far_pool 7, demo_object) (head (wd_objects far_after)).

Lemma far_carries : carries far_request (replicate 5000 x07 ++ [x01; x02; x03]).
Proof. apply (carries_plain far_request); [discriminate|reflexivity]. Qed.

Lemma far_accepted : accepted demo_gaia far_object.1.
Proof.
  split.
  - vm_compute. by repeat constructor.
  - vm_compute. by repeat constructor.
  - intros i j b b' id Hi%lookup_lt_Some Hj%lookup_lt_Some _.
    assert (length (heap (sw far_object.1)) = 1%nat) as Hl by (vm_compute; reflexivity). lia.
Qed.

Lemma upload_read_back_witness :
  @putObject _ _ _ _ _ far_client one_piece far_request far_world = (far_after, [O_Status 200], Go tt) /\
  exists r r', @genPipelines first_crush far_agent [(Ok far_object.2, Ok tt)] GetEcosReader = (r, Ok tt) /\
    @read_on length_ring first_crush ConnectEdge 10000 far_agent (edge_fetch demo_gaia (deliver_all demo_gaia no_disks (sSent far_object.1)))
      demo_cloud id r [4000; 4000]%nat = (r', Ok (replicate 5000 x07 ++ [x00; x00; x00], false)).
Proof.
  destruct (@upload_read_back length_ring length_ring_ok demo_digests first_crush first_crush_ok DemoStore unit unit unit unit demo_backend
    far_factory small_cluster demo_pipes demo_gaia no_disks 7 (mkTimestamp 0 0) (fun _ => Ok tt) (fun _ => "id-1") (fun _ => good_peer) (fun _ => [])
    one_piece far_request (replicate 5000 x07 ++ [x01; x02; x03]) far_world demo_empty tt)
    as (w' & s & meta & E & Ho & Hread);
    [apply far_config|vm_compute; reflexivity|apply default_bucket_ok|apply far_cluster|intros a n; by eexists|done|exact one_piece_concat
    |discriminate|discriminate|exact far_carries|discriminate|vm_compute; reflexivity|reflexivity|].
  assert (w' = far_after) as -> by (unfold far_after, far_client; by rewrite E).
  assert (far_object = (s, meta)) as Hobj by (unfold far_object; by rewrite Ho).
  split; [exact E|]. rewrite Hobj. cbn [fst snd].
  destruct (Hread ltac:(change s with ((s, meta).1); rewrite <- Hobj; exact far_accepted) far_agent demo_cloud [(Ok meta, Ok tt)] id [4000; 4000]%nat)
    as (r & r' & E1 & E2); [done| |done|vm_compute; reflexivity|].
  { assert (OM_Term meta = 7) as ->; [|exact far_agent_knows]. change meta with ((s, meta).2). rewrite <- Hobj. vm_compute. reflexivity. }
  exists r, r'. split; [exact E1|]. etrans; [exact E2|]. vm_compute. reflexivity.
Defined.
