(* ===== verification/Auth.v ===== *)
(** * Tokens and authentication: [src/messenger/auth/auth.go], [src/messenger/config/config.go]

    A client puts its two keys into a header as a Basic token; an interceptor of the
    server takes the user from it. Base64 is Go's [StdEncoding]; reading the header,
    the tags of a request and the chaining of interceptors are a library's business
    ([Middleware], [MiddlewareOk]). *)

From S2P Require Import Prelude GoStd Errno.

(** ** Base64 *)

Definition alphabet : string := "ABCDEFGHIJKLMNOPQRSTUVWXYZabcdefghijklmnopqrstuvwxyz0123456789+/".

Definition enc_char (v : Z) : ascii := default "="%char (String.get (Z.to_nat v) alphabet).

Fixpoint index_of (a : ascii) (s : string) : option Z :=
  match s with
  | EmptyString => None
  | String b s' => if decide (a = b) then Some 0 else i ← index_of a s'; Some (i + 1)
  end.

Definition dec_char (a : ascii) : option Z := index_of a alphabet.

Definition byte_of (a : ascii) : Z := Z.of_N (N_of_ascii a).

Definition of_byte (z : Z) : ascii := ascii_of_N (Z.to_N (z `mod` 256)).

(** The four characters of a 24-bit value, from the highest. *)
Definition sextet (v : Z) (i : Z) : ascii := enc_char ((v / 2 ^ i) `mod` 64).

Fixpoint EncodeToString (s : string) : string :=
  match s with
  | EmptyString => ""
  | String a EmptyString =>
      let v := byte_of a * 2 ^ 16 in
      String (sextet v 18) (String (sextet v 12) "==")
  | String a (String b EmptyString) =>
      let v := byte_of a * 2 ^ 16 + byte_of b * 2 ^ 8 in
      String (sextet v 18) (String (sextet v 12) (String (sextet v 6) "="))
  | String a (String b (String c s')) =>
      let v := byte_of a * 2 ^ 16 + byte_of b * 2 ^ 8 + byte_of c in
      String (sextet v 18) (String (sextet v 12) (String (sextet v 6) (String (sextet v 0) (EncodeToString s'))))
  end.

Definition value_of (v1 v2 v3 v4 : Z) : Z := v1 * 2 ^ 18 + v2 * 2 ^ 12 + v3 * 2 ^ 6 + v4.

(** Groups of four; padding only at the end. *)
Fixpoint decode_groups (s : string) : option string :=
  match s with
  | EmptyString => Some ""
  | String a (String b (String c (String d s'))) =>
      v1 ← dec_char a;
      v2 ← dec_char b;
      if decide (c = "="%char) then
        if decide (d = "="%char /\ s' = "") then Some (String (of_byte (value_of v1 v2 0 0 / 2 ^ 16)) "") else None
      else
        v3 ← dec_char c;
        if decide (d = "="%char) then
          if decide (s' = "") then
            let v := value_of v1 v2 v3 0 in Some (String (of_byte (v / 2 ^ 16)) (String (of_byte (v / 2 ^ 8)) ""))
          else None
        else
          v4 ← dec_char d;
          rest ← decode_groups s';
          let v := value_of v1 v2 v3 v4 in
          Some (String (of_byte (v / 2 ^ 16)) (String (of_byte (v / 2 ^ 8)) (String (of_byte v) rest)))
  | _ => None
  end.

(** Line ends are skipped wherever they stand. *)
Fixpoint skip_newlines (s : string) : string :=
  match s with
  | EmptyString => ""
  | String a s' => if decide (a = "010"%char \/ a = "013"%char) then skip_newlines s' else String a (skip_newlines s')
  end.

Definition DecodeString (s : string) : res string :=
  or_err (EExt "illegal base64 data") (decode_groups (skip_newlines s)).

(** *** A text is read back *)

Lemma byte_of_range a : 0 <= byte_of a < 256.
Proof. unfold byte_of. pose proof (N_ascii_bounded a). lia. Qed.

Lemma of_byte_of a z : z `mod` 256 = byte_of a -> of_byte z = a.
Proof. unfold of_byte, byte_of. intros ->. by rewrite N2Z.id, ascii_N_embedding. Qed.

Definition sextets : list Z := seqZ 0 64.

Lemma enc_chars : Forall (fun v => dec_char (enc_char v) = Some v /\ enc_char v <> "="%char /\
  enc_char v <> "010"%char /\ enc_char v <> "013"%char) sextets.
Proof. apply Forall_forall. intros v Hv. revert v Hv. apply Forall_forall. by repeat constructor. Qed.

Lemma enc_char_ok v : 0 <= v < 64 -> dec_char (enc_char v) = Some v /\ enc_char v <> "="%char /\
  enc_char v <> "010"%char /\ enc_char v <> "013"%char.
Proof. intros Hv. pose proof enc_chars as H. rewrite Forall_forall in H. apply H, elem_of_seqZ. lia. Qed.

Lemma sextet_ok v i : 0 <= i -> dec_char (sextet v i) = Some ((v / 2 ^ i) `mod` 64) /\ sextet v i <> "="%char /\
  sextet v i <> "010"%char /\ sextet v i <> "013"%char.
Proof. intros Hi. apply enc_char_ok, Z.mod_pos_bound. lia. Qed.

Lemma skip_sextet v i s : 0 <= i -> skip_newlines (String (sextet v i) s) = String (sextet v i) (skip_newlines s).
Proof. intros Hi. destruct (sextet_ok v i Hi) as (_ & _ & H1 & H2). simpl. rewrite decide_False; [done|]. by intros [?|?]. Qed.

(** A 24-bit value is its sextets. *)
Lemma value_of_sextets v : 0 <= v < 2 ^ 24 ->
  value_of ((v / 2 ^ 18) `mod` 64) ((v / 2 ^ 12) `mod` 64) ((v / 2 ^ 6) `mod` 64) ((v / 2 ^ 0) `mod` 64) = v.
Proof.
  intros Hv. unfold value_of.
  change (2 ^ 18) with 262144 in *. change (2 ^ 12) with 4096 in *. change (2 ^ 6) with 64 in *. change (2 ^ 0) with 1.
  change (2 ^ 24) with 16777216 in *. rewrite Z.div_1_r. Z.div_mod_to_equations. lia.
Qed.

(** Induction by groups of three characters. *)
Lemma string_ind3 (P : string -> Prop) : P "" -> (forall a, P (String a "")) -> (forall a b, P (String a (String b ""))) ->
  (forall a b c s, P s -> P (String a (String b (String c s)))) -> forall s, P s.
Proof.
  intros H0 H1 H2 H3. fix IH 1. intros [|a [|b [|c s]]]; [done|apply H1|apply H2|]. apply H3, IH.
Qed.

Lemma skip_encoded s : skip_newlines (EncodeToString s) = EncodeToString s.
Proof.
  induction s as [|a|a b|a b c s IH] using string_ind3; [done| | |]; cbn [EncodeToString]; rewrite !skip_sextet by lia; [done..|].
  by rewrite IH.
Qed.

Lemma decode_encoded s : decode_groups (EncodeToString s) = Some s.
Proof.
  induction s as [|a|a b|a b c s IH] using string_ind3; [done| | |]; cbn [EncodeToString decode_groups];
    pose proof (byte_of_range a) as Ha; try pose proof (byte_of_range b) as Hb; try pose proof (byte_of_range c) as Hc.
  - set (v := byte_of a * 2 ^ 16). destruct (sextet_ok v 18) as [-> _]; [lia|]. destruct (sextet_ok v 12) as [-> _]; [lia|].
    cbn [mbind option_bind]. rewrite decide_True by done. do 2 f_equal. apply of_byte_of.
    pose proof (value_of_sextets v ltac:(lia)) as Hv. unfold value_of in *. subst v.
    Z.div_mod_to_equations. lia.
  - set (v := byte_of a * 2 ^ 16 + byte_of b * 2 ^ 8). destruct (sextet_ok v 18) as [-> _]; [lia|].
    destruct (sextet_ok v 12) as [-> _]; [lia|]. destruct (sextet_ok v 6) as (-> & Hne & _); [lia|].
    cbn [mbind option_bind]. rewrite decide_False by done. pose proof (value_of_sextets v ltac:(lia)) as Hv. unfold value_of in *.
    subst v. do 2 f_equal; [|f_equal]; apply of_byte_of; Z.div_mod_to_equations; lia.
  - set (v := byte_of a * 2 ^ 16 + byte_of b * 2 ^ 8 + byte_of c). destruct (sextet_ok v 18) as [-> _]; [lia|].
    destruct (sextet_ok v 12) as [-> _]; [lia|]. destruct (sextet_ok v 6) as (-> & Hne & _); [lia|].
    destruct (sextet_ok v 0) as (-> & Hne' & _); [lia|].
    cbn [mbind option_bind]. rewrite decide_False by done. rewrite decide_False by done. rewrite IH. cbn [mbind option_bind].
    rewrite (value_of_sextets v) by lia. subst v. do 2 f_equal; [|f_equal; [|f_equal]]; apply of_byte_of; Z.div_mod_to_equations; lia.
Qed.

Lemma DecodeString_Encode s : DecodeString (EncodeToString s) = Ok s.
Proof. unfold DecodeString. by rewrite skip_encoded, decode_encoded. Qed.

(** ** The program *)

Definition RootUserID : string := "root".

Definition TagUserID : string := "userID".
Definition TagRpcConfig : string := "rpcConfig".

Record Config := mkConfig { ListenAddr : string; ListenPort : Z; AuthEnabled : bool }.

Definition DefaultConfig : Config := mkConfig "" 0 false.

(** What the program puts into the tags of a request. *)
Inductive Tag := TagStr (s : string) | TagConf (c : Config).

(** A handler, and an interceptor around it. *)
Definition handler CTX A : Type := CTX -> res A.
Definition interceptor CTX A : Type := CTX -> handler CTX A -> res A.

(** The library of interceptors: the token of a request's header, the tags of a
    request (with the interceptor that makes room for them), the header a client
    sends, what the server gets of it, and interceptors in a row. *)
Class Middleware (CTX : Type) := {
  AuthFromMD : CTX -> string -> res string;
  tag_Set : CTX -> string -> Tag -> CTX;
  tag_Value : CTX -> string -> option Tag;
  with_tags : CTX -> CTX;
  NewOutgoing : CTX -> list (string * string) -> CTX;
  transport : CTX -> CTX;
  ChainUnaryServer {A} : list (interceptor CTX A) -> interceptor CTX A
}.

Section auth.
Context {CTX : Type} `{HM : !Middleware CTX}.

Definition parseToken (token : string) : res string :=
  raw ← DecodeString token;
  match SplitN ":" 2 raw with
  | [userID; _] => Ok userID
  | _ => Ok ""                                 (* [err] is nil here *)
  end.

Definition NewCtxWithToken (ctx : CTX) (ak sk : string) : CTX :=
  NewOutgoing ctx [("authorization", "Basic " +:+ EncodeToString (ak +:+ ":" +:+ sk))].

Definition BasicAuthFunc (ctx : CTX) : res CTX :=
  token ← AuthFromMD ctx "basic";
  match parseToken token with
  | Ok userID => Ok (tag_Set ctx TagUserID (TagStr userID))
  | Err e => Err (EExt ("rpc error: code = Unauthenticated desc = invalid auth token: " +:+ Error e))
  | Panic => Panic
  | Stuck => Stuck
  end.

Definition SetGrpcConfig {A} (config : Config) : interceptor CTX A := fun ctx handler => handler (tag_Set ctx TagRpcConfig (TagConf config)).

Definition GetGrpcConfig (ctx : CTX) : res Config :=
  match tag_Value ctx TagRpcConfig with
  | Some (TagConf c) => Ok c
  | _ => Panic
  end.

Definition GetUserID (ctx : CTX) : res string :=
  conf ← GetGrpcConfig ctx;
  if AuthEnabled conf then
    match tag_Value ctx TagUserID with
    | Some (TagStr u) => Ok u
    | Some _ => Panic
    | None => Err (ENew "user_id not found")
    end
  else Ok RootUserID.

(** The interceptors of [NewRpcServerWithConfig]. *)
Definition ctxtags_interceptor {A} : interceptor CTX A := fun ctx handler => handler (with_tags ctx).

Definition auth_interceptor {A} : interceptor CTX A := fun ctx handler => ctx' ← BasicAuthFunc ctx; handler ctx'.

Definition unaryInterceptors {A} (conf : Config) : list (interceptor CTX A) :=
  [ctxtags_interceptor; SetGrpcConfig conf] ++ (if AuthEnabled conf then [auth_interceptor] else []).

Definition serve {A} (conf : Config) (ctx : CTX) (h : handler CTX A) : res A := ChainUnaryServer (unaryInterceptors conf) ctx h.

End auth.

(** ** The library's behaviour *)

Class MiddlewareOk (CTX : Type) `{HM : !Middleware CTX} := {
  chain_nil {A} ctx (h : handler CTX A) : ChainUnaryServer [] ctx h = h ctx;
  chain_cons {A} i l ctx (h : handler CTX A) : ChainUnaryServer (i :: l) ctx h = i ctx (fun ctx' => ChainUnaryServer l ctx' h);
  has_tags : CTX -> Prop;
  with_tags_has ctx : has_tags (with_tags ctx);
  tag_Set_has ctx k v : has_tags ctx -> has_tags (tag_Set ctx k v);
  tag_Value_with_tags ctx k : tag_Value (with_tags ctx) k = None;
  tag_Value_Set ctx k v k' : has_tags ctx ->
    tag_Value (tag_Set ctx k v) k' = if decide (k = k') then Some v else tag_Value ctx k';
  AuthFromMD_tags ctx s : AuthFromMD (with_tags ctx) s = AuthFromMD ctx s;
  AuthFromMD_Set ctx k v s : AuthFromMD (tag_Set ctx k v) s = AuthFromMD ctx s;
  (* the scheme of a header is compared without regard to case *)
  AuthFromMD_sent ctx t : AuthFromMD (transport (NewOutgoing ctx [("authorization", "Basic " +:+ t)])) "basic" = Ok t
}.

Lemma cut_app_l c s t : cut c (s +:+ String c t) = Some (match cut c s with Some (u, r) => (u, r +:+ String c t) | None => (s, t) end).
Proof.
  induction s as [|a s IH]; [rewrite str_nil_app; cbn [cut]; by rewrite decide_True|]. rewrite str_cons_app. cbn [cut]. destruct (decide (a = c)); [done|].
  rewrite IH. by destruct (cut c s) as [[]|].
Qed.

(** The name in front of a pair of keys. *)
Lemma cut_key ak sk : (match cut ":" (ak +:+ ":" +:+ sk) with Some (u, _) => u | None => "" end) =
  match cut ":" ak with Some (u, _) => u | None => ak end.
Proof. change (":" +:+ sk) with (String ":" sk). rewrite cut_app_l. by destruct (cut ":" ak) as [[]|]. Qed.

Section authOk.
Context {CTX : Type} `{HM : !Middleware CTX, HMo : !MiddlewareOk CTX}.

Lemma parseToken_text s : parseToken (EncodeToString s) = Ok (match cut ":" s with Some (u, _) => u | None => "" end).
Proof.
  unfold parseToken. rewrite DecodeString_Encode. cbn [mbind res_bind SplitN]. by destruct (cut ":" s) as [[u r]|].
Qed.

Lemma serve_on {A} conf ctx (h : handler CTX A) : AuthEnabled conf = true ->
  serve conf ctx h = (ctx' ← BasicAuthFunc (tag_Set (with_tags ctx) TagRpcConfig (TagConf conf)); h ctx').
Proof.
  intros Ha. unfold serve, unaryInterceptors. rewrite Ha. cbn [app].
  rewrite chain_cons. unfold ctxtags_interceptor. rewrite chain_cons. unfold SetGrpcConfig. rewrite chain_cons. unfold auth_interceptor.
  destruct (BasicAuthFunc _); cbn [mbind res_bind]; [by rewrite chain_nil|done..].
Qed.

Lemma serve_off {A} conf ctx (h : handler CTX A) : AuthEnabled conf = false ->
  serve conf ctx h = h (tag_Set (with_tags ctx) TagRpcConfig (TagConf conf)).
Proof.
  intros Ha. unfold serve, unaryInterceptors. rewrite Ha. cbn [app].
  rewrite chain_cons. unfold ctxtags_interceptor. rewrite chain_cons. unfold SetGrpcConfig. by rewrite chain_nil.
Qed.

Lemma user_of_tags conf ctx u : AuthEnabled conf = true ->
  GetUserID (tag_Set (tag_Set (with_tags ctx) TagRpcConfig (TagConf conf)) TagUserID (TagStr u)) = Ok u.
Proof.
  intros Ha. pose proof (with_tags_has ctx) as H1. pose proof (tag_Set_has _ TagRpcConfig (TagConf conf) H1) as H2.
  unfold GetUserID, GetGrpcConfig. rewrite (tag_Value_Set _ TagUserID _ TagRpcConfig H2), (decide_False (P := TagUserID = TagRpcConfig)) by done.
  rewrite (tag_Value_Set _ TagRpcConfig _ TagRpcConfig H1), (decide_True (P := TagRpcConfig = TagRpcConfig)) by done. cbn [mbind res_bind].
  by rewrite Ha, (tag_Value_Set _ TagUserID _ TagUserID H2), decide_True.
Qed.

(** C35: who a handler takes the sender of a request for. With authentication, a
    request with the keys [ak] and [sk] is the user's whose name is [ak] up to its
    first colon, whatever the secret [sk]; without, everybody is root, whatever the
    request says. *)
Theorem served_as (conf : Config) (ctx : CTX) (ak sk : string) :
  serve conf (transport (NewCtxWithToken ctx ak sk)) GetUserID =
    Ok (if AuthEnabled conf then match cut ":" ak with Some (u, _) => u | None => ak end else RootUserID).
Proof.
  destruct (AuthEnabled conf) eqn:Ha.
  - rewrite serve_on by done. unfold BasicAuthFunc, NewCtxWithToken. rewrite AuthFromMD_Set, AuthFromMD_tags, AuthFromMD_sent.
    cbn [mbind res_bind]. rewrite parseToken_text. cbn [mbind res_bind]. rewrite user_of_tags by done. by rewrite cut_key.
  - rewrite serve_off by done. unfold GetUserID, GetGrpcConfig.
    rewrite (tag_Value_Set _ TagRpcConfig _ TagRpcConfig (with_tags_has _)), (decide_True (P := TagRpcConfig = TagRpcConfig)) by done.
    cbn [mbind res_bind]. by rewrite Ha.
Qed.

(** a token without a colon is not refused: its sender is served, as the user
    whose name is empty. *)
Theorem colonless_token_accepted (conf : Config) (ctx : CTX) (text : string) :
  AuthEnabled conf = true -> cut ":" text = None ->
  serve conf (transport (NewOutgoing ctx [("authorization", "Basic " +:+ EncodeToString text)])) GetUserID = Ok "".
Proof.
  intros Ha Hc. rewrite serve_on by done. unfold BasicAuthFunc. rewrite AuthFromMD_Set, AuthFromMD_tags, AuthFromMD_sent.
  cbn [mbind res_bind]. rewrite parseToken_text, Hc. cbn [mbind res_bind]. by rewrite user_of_tags.
Qed.

End authOk.

(** ** A library with that behaviour, for the witnesses *)

Record DemoCtx := mkDemoCtx { dc_out : list (string * string); dc_in : list (string * string); dc_tags : option (list (string * Tag)) }.

Definition assoc {V} (k : string) (l : list (string * V)) : option V := p ← list_find (fun kv => kv.1 = k) l; Some p.2.2.

#[export] Instance demo_middleware : Middleware DemoCtx := {|
  AuthFromMD c _ := match assoc "authorization" (dc_in c) with
                    | Some v => match cut " " v with
                                | Some (_, t) => Ok t
                                | None => Err (EExt "Bad authorization string")
                                end
                    | None => Err (EExt "Request unauthenticated with basic")
                    end;
  tag_Set c k v := mkDemoCtx (dc_out c) (dc_in c) (l ← dc_tags c; Some ((k, v) :: l));
  tag_Value c k := l ← dc_tags c; assoc k l;
  with_tags c := mkDemoCtx (dc_out c) (dc_in c) (Some []);
  NewOutgoing c md := mkDemoCtx md (dc_in c) (dc_tags c);
  transport c := mkDemoCtx [] (dc_out c) None;
  ChainUnaryServer A l := foldr (fun i (h : interceptor DemoCtx A) ctx k => i ctx (fun ctx' => h ctx' k)) (fun ctx k => k ctx) l
|}.

#[export] Instance demo_middleware_ok : MiddlewareOk DemoCtx.
Proof.
  refine {| has_tags c := is_Some (dc_tags c) |}; simpl; try done.
  - by intros c k v [l ->].
  - intros c k v k' [l ->]. unfold assoc. simpl. destruct (decide (k = k')); [done|]. by destruct (list_find _ l) as [[]|].
Defined.

Lemma colonless_token_accepted_witness :
  serve (mkConfig "" 0 true) (transport (NewOutgoing (mkDemoCtx [] [] None) [("authorization", "Basic " +:+ EncodeToString "nobody")])) GetUserID
  = Ok "".
Proof. apply colonless_token_accepted; [done|vm_compute; reflexivity]. Defined.
