(* ===== verification/Messenger.v ===== *)
(** * Connections and servers: [src/messenger/messenger.go]

    One pool per process keeps the connections to the other processes, by address;
    a connection that leaves the pool is closed. The network library is [Grpc],
    what the program relies on [GrpcOk]; the pool is a cache of [Lru.v]. *)

From S2P Require Import Prelude GoStd Errno Infos Lru Auth.

(** ** The network library *)

(** Connections: dialing does not wait for the other side. *)
Class Grpc (NET CONN : Type) := {
  Dial : NET -> string -> NET * res CONN;
  GetState_Shutdown : NET -> CONN -> bool;
  CloseConn : NET -> CONN -> NET
}.

Class GrpcOk (NET CONN : Type) `{EqDecision CONN, HG : !Grpc NET CONN} := {
  net_start : NET;
  made : NET -> CONN -> Prop;
  target : CONN -> string;
  start_made c : ~ made net_start c;
  Dial_Ok n a n' c : Dial n a = (n', Ok c) ->
    ~ made n c /\ target c = a /\ GetState_Shutdown n' c = false /\
    (forall c', made n' c' <-> c' = c \/ made n c') /\
    (forall c', made n c' -> GetState_Shutdown n' c' = GetState_Shutdown n c');
  Dial_fail n a n' r : Dial n a = (n', r) -> is_Ok r = false -> n' = n;
  Close_made n c c' : made (CloseConn n c) c' <-> made n c';
  Close_Shutdown n c c' : GetState_Shutdown (CloseConn n c) c' = bool_decide (c' = c) || GetState_Shutdown n c'
}.

(** ** The pool *)

Definition genAddrWithPort (addr : string) (port : Z) : string := addr +:+ ":" +:+ FormatUint port.

Section pool.
Context {NET CONN P : Type} `{EqDecision CONN, HG : !Grpc NET CONN, HL : !Lru P string CONN}.

Record Conns := mkConns { cs_pool : P; cs_net : NET }.

(** The callback of the pool. *)
Definition close_all (n : NET) (out : list (string * CONN)) : NET := foldl (fun n kv => CloseConn n kv.2) n out.

(** [init] of the package. *)
Definition init_pool (n : NET) : Conns := mkConns (lru_New 64) n.

(** [GetRpcConn] after the pool had nothing to offer. *)
Definition redial (s : Conns) (addrWithPort : string) : Conns * res CONN :=
  match Dial (cs_net s) addrWithPort with
  | (net, Ok conn) =>
      let '(pool, out) := lru_Add (cs_pool s) addrWithPort conn in
      (mkConns pool (close_all net out), Ok conn)
  | (net, r) => (mkConns (cs_pool s) net, r)
  end.

Definition GetRpcConn (s : Conns) (addr : string) (port : Z) : Conns * res CONN :=
  let addrWithPort := genAddrWithPort addr port in
  let '(pool, value) := lru_Get (cs_pool s) addrWithPort in
  let s1 := mkConns pool (cs_net s) in
  match value with
  | Some conn => if GetState_Shutdown (cs_net s1) conn then redial s1 addrWithPort else (s1, Ok conn)
  | None => redial s1 addrWithPort
  end.

Definition GetRpcConnByNodeInfo (s : Conns) (info : NodeInfo) : Conns * res CONN := GetRpcConn s (IpAddr info) (RpcPort info).

(** ** Servers *)

Record RpcServer := mkRpcServer { s_conf : Config; ListenPort : Z }.

(** [Listen] gives the port the system chose for the asked one. Without a listener
    its address cannot be asked for. *)
Definition NewRpcServerWithConfig (Listen : Z -> res Z) (conf : Config) : res RpcServer :=
  match Listen (Auth.ListenPort conf) with
  | Ok port => Ok (mkRpcServer (mkConfig (ListenAddr conf) port (AuthEnabled conf)) port)
  | _ => Panic
  end.

Definition NewRpcServer (Listen : Z -> res Z) (listenPort : Z) : res RpcServer :=
  NewRpcServerWithConfig Listen (mkConfig (ListenAddr DefaultConfig) (i64 listenPort) (AuthEnabled DefaultConfig)).

Definition NewRandomPortRpcServer (Listen : Z -> res Z) : res (Z * RpcServer) :=
  server ← NewRpcServerWithConfig Listen DefaultConfig; Ok (ListenPort server, server).

(** What the pool is used for: a request for a connection, or a holder closing one. *)
Inductive PoolEvent := Ask (addr : string) (port : Z) | Hangup (c : CONN).

Definition pool_step (s : Conns) (e : PoolEvent) : Conns :=
  match e with
  | Ask addr port => (GetRpcConn s addr port).1
  | Hangup c => mkConns (cs_pool s) (CloseConn (cs_net s) c)
  end.

End pool.

Arguments Conns NET P : clear implicits.
Arguments mkConns {NET P}.
Arguments cs_pool {NET P}.
Arguments cs_net {NET P}.
Arguments PoolEvent CONN : clear implicits.

(** ** Addresses *)

Lemma cut_digits s t : all_digits s = true -> cut ":" (s +:+ t) = match cut ":" t with Some (u, r) => Some (s +:+ u, r) | None => None end.
Proof.
  induction s as [|a s IH]; [intros _; rewrite !str_nil_app; by destruct (cut ":" t) as [[]|]|].
  simpl. intros [Ha Hs]%andb_true_iff. destruct (decide (a = ":"%char)) as [->|Hne]; [by vm_compute in Ha|].
  fold (s +:+ t). rewrite IH by done. by destruct (cut ":" t) as [[]|].
Qed.

Lemma no_colon_digits s : all_digits s = true -> cut ":" s = None.
Proof. intros Hs. pose proof (cut_digits s "" Hs) as H. by rewrite str_app_nil_r in H. Qed.

(** The port is what follows the last colon, so an address names one process. *)
Lemma colon_inj a a' p p' : all_digits p = true -> all_digits p' = true ->
  a +:+ String ":" p = a' +:+ String ":" p' -> a = a' /\ p = p'.
Proof.
  intros Hp Hp'. revert a'. induction a as [|x a IH]; intros [|x' a'] Heq.
  - rewrite !str_nil_app in Heq. by injection Heq as ->.
  - rewrite str_nil_app, str_cons_app in Heq. injection Heq as <- ->. pose proof (no_colon_digits _ Hp) as Hc.
    by rewrite cut_app_l in Hc.
  - rewrite str_nil_app, str_cons_app in Heq. injection Heq as -> <-. pose proof (no_colon_digits _ Hp') as Hc.
    by rewrite cut_app_l in Hc.
  - rewrite !str_cons_app in Heq. injection Heq as -> Heq. by destruct (IH a' Heq) as [-> ->].
Qed.

Lemma genAddrWithPort_inj a p a' p' : 0 <= p -> 0 <= p' -> genAddrWithPort a p = genAddrWithPort a' p' -> a = a' /\ p = p'.
Proof.
  intros Hp Hp' Heq. apply colon_inj in Heq as [-> Heq]; [|apply FormatUint_digits..].
  split; [done|]. by apply FormatUint_inj in Heq.
Qed.

(** ** The pool's invariant *)

Section poolOk.
Context {NET CONN P : Type} `{EqDecision CONN, HG : !Grpc NET CONN, HGo : !GrpcOk NET CONN,
  HL : !Lru P string CONN, HLo : !LruOk P string CONN}.

Implicit Types (s : Conns NET P) (c : CONN).

Definition is_open (n : NET) c : Prop := made n c /\ GetState_Shutdown n c = false.

Record pool_ok s : Prop := mkPoolOk {
  po_limit : limit (cs_pool s) = 64%nat;
  po_len : (length (entries (cs_pool s)) <= 64)%nat;
  po_keys : NoDup (entries (cs_pool s)).*1;
  po_made k c : (k, c) ∈ entries (cs_pool s) -> made (cs_net s) c /\ target c = k;
  po_all c : is_open (cs_net s) c -> exists k, (k, c) ∈ entries (cs_pool s)
}.

Lemma init_pool_ok : pool_ok (init_pool net_start).
Proof.
  destruct (lru_New_ok (C := P) (K := string) (V := CONN) 64) as [He Hl].
  split; simpl; rewrite ?He; [done|simpl; lia|constructor|by intros ?? ?%elem_of_nil|].
  intros c [Hm _]. by apply start_made in Hm.
Qed.

Lemma close_all_made n out c : made (close_all n out) c <-> made n c.
Proof. unfold close_all. revert n. induction out as [|kv out IH]; intros n; [done|]. simpl. by rewrite IH, Close_made. Qed.

Lemma close_all_open n out c : GetState_Shutdown (close_all n out) c = false <-> GetState_Shutdown n c = false /\ c ∉ out.*2.
Proof.
  unfold close_all. revert n. induction out as [|kv out IH]; intros n; simpl; [rewrite elem_of_nil; tauto|].
  rewrite IH, Close_Shutdown, not_elem_of_cons. destruct (decide (c = kv.2)) as [->|Hne].
  - rewrite bool_decide_true by done. simpl. split; intros []; [done|tauto].
  - rewrite bool_decide_false by done. simpl. tauto.
Qed.

(** *** Finding an entry *)

Lemma pool_get_ok s k pool o : pool_ok s -> lru_Get (cs_pool s) k = (pool, o) ->
  pool_ok (mkConns pool (cs_net s)) /\ o = find_key k (entries pool) /\
  entries pool ≡ₚ entries (cs_pool s).
Proof.
  intros Hs Hget. destruct (lru_Get_ok _ _ _ _ Hget) as (Hl & -> & He).
  assert (entries pool ≡ₚ entries (cs_pool s)) as Hp.
  { rewrite He. destruct (find_key k _) as [v|] eqn:Hf; [|done]. apply use_known; [apply Hs|done]. }
  assert (NoDup (entries pool).*1) as Hnd by (rewrite Hp; apply Hs).
  split_and!; [split; simpl|..]; try done.
  - rewrite Hl. apply Hs.
  - rewrite Hp. apply Hs.
  - intros k' c. rewrite Hp. apply Hs.
  - intros c Hc. setoid_rewrite Hp. by apply (po_all s Hs).
  - destruct (find_key k (entries (cs_pool s))) as [v|] eqn:Hf.
    + symmetry. apply find_key_elem; [done|]. rewrite Hp. by apply find_key_Some.
    + symmetry. apply find_key_None. rewrite Hp. by apply find_key_None.
Qed.

(** *** A new connection *)

(** The entry of [k], if there is one, is shut down. *)
Definition stale s k : Prop := forall c, (k, c) ∈ entries (cs_pool s) -> GetState_Shutdown (cs_net s) c = true.

Lemma pool_add_ok s k net c pool out : pool_ok s -> stale s k -> Dial (cs_net s) k = (net, Ok c) ->
  lru_Add (cs_pool s) k c = (pool, out) ->
  pool_ok (mkConns pool (close_all net out)) /\ target c = k /\ is_open (close_all net out) c /\ (k, c) ∈ entries pool.
Proof.
  intros Hs Hst Hd Ha. destruct (Dial_Ok _ _ _ _ Hd) as (Hnew & Ht & Ho & Hm & Hold).
  destruct (lru_Add_ok _ _ _ _ _ Ha) as [Hl He]. pose proof (po_limit s Hs) as Hlim.
  assert (forall c' k', (k', c') ∈ entries (cs_pool s) -> c' <> c) as Hne.
  { intros c' k' Hin ->. by apply (po_made s Hs) in Hin as [? _]. }
  assert (forall k' c', (k', c') ∈ (k, c) :: entries (cs_pool s) -> made net c' /\ target c' = k') as Hmk.
  { intros k' c' [[= -> ->]|Hin]%elem_of_cons; [rewrite Hm; auto|]. apply (po_made s Hs) in Hin as [? ?]. rewrite Hm. auto. }
  assert (forall c', is_open net c' -> c' = c \/ exists k', k' <> k /\ (k', c') ∈ entries (cs_pool s)) as Hop.
  { intros c' [[->|Hmade]%Hm Hop]; [by left|right]. rewrite Hold in Hop by done.
    destruct (po_all s Hs c') as [k' Hin]; [done|]. exists k'. split; [|done]. intros ->. apply Hst in Hin. congruence. }
  destruct (decide _) as [Hin|Hin]; injection He as He Hout.
  - subst out. simpl. rewrite He. split_and!; [|done|split; [apply Hm; auto|done]|by left].
    split; simpl; rewrite ?He; [by rewrite Hl| |apply use_NoDup, Hs| |].
    + unfold use. simpl. assert (length (without k (entries (cs_pool s))) < length (entries (cs_pool s)))%nat; [|pose proof (po_len s Hs); lia].
      apply list_elem_of_fmap in Hin as ([k' c'] & -> & Hin). unfold without. eapply length_filter_lt; [exact Hin|naive_solver].
    + intros k' c' [[-> ->]|[_ Hin']]%elem_of_use; apply Hmk; [by left|by right].
    + intros c' [->|(k' & Hk & Hin')]%Hop; [exists k|exists k']; rewrite elem_of_use; auto.
  - assert ((k, c) ∈ entries pool) as Hkc by (rewrite He, Hlim; by left).
    assert (c ∉ out.*2) as Hcout.
    { subst out. rewrite Hlim. intros ([k' c'] & -> & Hd'%(subseteq_drop 63))%list_elem_of_fmap. by apply Hne in Hd'. }
    split_and!; [|done|split; [apply close_all_made, Hm; auto|by apply close_all_open]|done].
    split; simpl.
    + by rewrite Hl.
    + rewrite He, length_take. lia.
    + rewrite He. eapply sublist_NoDup; [|apply fmap_sublist, sublist_take]. by constructor; [|apply Hs].
    + intros k' c'. rewrite He. intros Hin'%subseteq_take. rewrite close_all_made. by apply Hmk.
    + intros c' [Hm' [Ho' Hnout]%close_all_open]. apply close_all_made in Hm'.
      assert (exists k', (k', c') ∈ (k, c) :: entries (cs_pool s)) as [k' Hin'].
      { destruct (Hop c') as [->|(k' & _ & ?)]; [done|by exists k; left|by exists k'; right]. }
      exists k'. rewrite He. rewrite <- (take_drop (limit (cs_pool s)) (_ :: _)), elem_of_app in Hin'. destruct Hin' as [|Hin']; [done|].
      rewrite <- Hout in Hin'. by apply (list_elem_of_fmap_2 snd) in Hin'.
Qed.

(** *** Requests *)

Lemma redial_ok s k s' r : pool_ok s -> stale s k -> redial s k = (s', r) ->
  pool_ok s' /\ forall c, r = Ok c -> target c = k /\ is_open (cs_net s') c /\ (k, c) ∈ entries (cs_pool s').
Proof.
  intros Hs Hst. unfold redial. destruct (Dial (cs_net s) k) as [net [c|e| |]] eqn:Hd;
    [|pose proof (Dial_fail _ _ _ _ Hd eq_refl) as ->; destruct s; by intros [= <- <-]..].
  destruct (lru_Add _ _ _) as [pool' out] eqn:Ha. intros [= <- <-].
  destruct (pool_add_ok s k net c pool' out Hs Hst Hd Ha) as (? & ? & ? & ?). split; [done|]. by intros ? [= <-].
Qed.

Lemma GetRpcConn_ok s addr port s' r : pool_ok s -> GetRpcConn s addr port = (s', r) ->
  pool_ok s' /\ forall c, r = Ok c -> target c = genAddrWithPort addr port /\ is_open (cs_net s') c /\
    (genAddrWithPort addr port, c) ∈ entries (cs_pool s').
Proof.
  intros Hs. unfold GetRpcConn. destruct (lru_Get _ _) as [pool o] eqn:Hget.
  destruct (pool_get_ok _ _ _ _ Hs Hget) as (Hs1 & -> & _). set (k := genAddrWithPort addr port) in *.
  set (s1 := mkConns pool (cs_net s)) in *. cbn [cs_net].
  destruct (find_key k (entries pool)) as [conn|] eqn:Hf.
  - pose proof (find_key_Some _ _ _ Hf) as Hin. destruct (GetState_Shutdown _ conn) eqn:Hsh.
    + apply redial_ok; [done|]. intros c Hc. apply (find_key_elem _ _ _ (po_keys _ Hs1)) in Hc. simpl in Hc. congruence.
    + intros [= <- <-]. split; [done|]. intros ? [= <-]. by destruct (po_made _ Hs1 _ _ Hin).
  - apply redial_ok; [done|]. intros c Hc. apply find_key_None in Hf. by apply (list_elem_of_fmap_2 fst) in Hc.
Qed.

Lemma pool_step_ok s e : pool_ok s -> pool_ok (pool_step s e).
Proof.
  intros Hs. destruct e as [addr port|c]; simpl.
  - destruct (GetRpcConn s addr port) as [s' r] eqn:Hg. by destruct (GetRpcConn_ok _ _ _ _ _ Hs Hg).
  - split; simpl; [apply Hs..| |].
    + intros k c'. rewrite Close_made. apply Hs.
    + intros c' [Hm Ho]. rewrite Close_Shutdown in Ho. apply orb_false_iff in Ho as [_ Ho].
      apply (po_all s Hs). by apply Close_made in Hm.
Qed.

Lemma pool_run_ok es s : pool_ok s -> pool_ok (foldl pool_step s es).
Proof. revert s. induction es as [|e es IH]; [done|]. intros s Hs. by apply IH, pool_step_ok. Qed.

(** A process never holds more than 64 open connections. *)
Lemma open_bounded s (l : list CONN) : pool_ok s -> NoDup l -> (forall c, c ∈ l -> is_open (cs_net s) c) -> (length l <= 64)%nat.
Proof.
  intros Hs Hnd Hop. trans (length (entries (cs_pool s)).*2).
  - apply submseteq_length, NoDup_submseteq; [done|]. intros c Hc.
    destruct (po_all s Hs c (Hop c Hc)) as [k Hk]. by apply (list_elem_of_fmap_2 snd) in Hk.
  - rewrite length_fmap. apply Hs.
Qed.

(** C17: whatever was asked for and hung up before, a connection that [GetRpcConn]
    gives leads to the address asked for and to no other, is open, and asking again
    gives the same; and the process has at most 64 open connections. *)
Theorem connections (es : list (PoolEvent CONN)) (addr : string) (port : Z) s' c :
  GetRpcConn (foldl pool_step (init_pool net_start) es) addr port = (s', Ok c) -> 0 <= port ->
  is_open (cs_net s') c /\
  (forall addr' port', 0 <= port' -> target c = genAddrWithPort addr' port' <-> addr' = addr /\ port' = port) /\
  (exists s'', GetRpcConn s' addr port = (s'', Ok c) /\ cs_net s'' = cs_net s') /\
  (forall l, NoDup l -> (forall c', c' ∈ l -> is_open (cs_net s') c') -> (length l <= 64)%nat).
Proof.
  intros Hg Hport. pose proof (pool_run_ok es _ init_pool_ok) as Hs.
  destruct (GetRpcConn_ok _ _ _ _ _ Hs Hg) as [Hs' Hc]. destruct (Hc c eq_refl) as (Ht & Ho & Hin).
  split_and!; [done| | |intros l; by apply open_bounded].
  - intros addr' port' Hp'. rewrite Ht. split; [|by intros [-> ->]]. intros Heq. apply genAddrWithPort_inj in Heq; [|done..]. naive_solver.
  - unfold GetRpcConn. destruct (lru_Get _ _) as [pool o] eqn:Hget. destruct (pool_get_ok _ _ _ _ Hs' Hget) as (Hs1 & -> & Hp).
    rewrite <- Hp in Hin. rewrite (find_key_elem _ _ _ (po_keys _ Hs1) Hin). cbn [cs_net]. destruct Ho as [_ ->]. eauto.
Qed.

End poolOk.

(** ** A network, for the witnesses *)

(** The connections made, and those closed; a new one gets a new number. *)
Record DemoNet := mkDemoNet { dn_made : list (Z * string); dn_closed : list (Z * string) }.

Definition next_conn (n : DemoNet) : Z := foldr (fun c i => Z.max c.1 i) 0 (dn_made n ++ dn_closed n) + 1.

Lemma next_conn_new n c : c ∈ dn_made n \/ c ∈ dn_closed n -> c.1 < next_conn n.
Proof.
  rewrite <- elem_of_app. unfold next_conn. induction (dn_made n ++ dn_closed n) as [|c' l IH]; [by intros ?%elem_of_nil|].
  simpl. intros [->|Hin]%elem_of_cons; [lia|]. apply IH in Hin. lia.
Qed.

#[export] Instance demo_net_grpc : Grpc DemoNet (Z * string) := {|
  Dial n a := if decide (a = ":0") then (n, Err (EExt "no address"))
              else let c := (next_conn n, a) in (mkDemoNet (c :: dn_made n) (dn_closed n), Ok c);
  GetState_Shutdown n c := bool_decide (c ∈ dn_closed n);
  CloseConn n c := mkDemoNet (dn_made n) (c :: dn_closed n)
|}.

#[export] Instance demo_net_ok : GrpcOk DemoNet (Z * string).
Proof.
  refine {| net_start := mkDemoNet [] []; made n c := c ∈ dn_made n; target := snd |}; simpl.
  - intros c. apply not_elem_of_nil.
  - intros n a n' c. destruct (decide _); [done|]. intros [= <- <-]. simpl.
    pose proof (next_conn_new n (next_conn n, a)) as Hnew. simpl in Hnew.
    split_and!; [intros ?; lia||(assert (next_conn n < next_conn n) by auto; lia)|done| |by intros c'; rewrite elem_of_cons|done].
    apply bool_decide_eq_false_2. intros ?. assert (next_conn n < next_conn n) by auto. lia.
  - intros n a n' r. destruct (decide _); [by intros [= <- <-]|by intros [= <- <-]].
  - done.
  - intros n c c'. rewrite <- bool_decide_or. apply bool_decide_ext. apply elem_of_cons.
Defined.

Lemma connections_witness :
  let go := GetRpcConn (P := ListLru string (Z * string)) in
  let s := go (foldl pool_step (init_pool net_start) [Ask "10.0.0.1" 3267; Ask "10.0.0.2" 3267; Hangup (1, "10.0.0.1:3267")]) "10.0.0.1" 3267 in
  s.2 = Ok (3, "10.0.0.1:3267") /\ (exists s'', go s.1 "10.0.0.1" 3267 = (s'', Ok (3, "10.0.0.1:3267")) /\ cs_net s'' = cs_net s.1).
Proof.
  intros go s. split; [vm_compute; reflexivity|].
  apply (connections [Ask "10.0.0.1" 3267; Ask "10.0.0.2" 3267; Hangup (1, "10.0.0.1:3267")]); [vm_compute; reflexivity|lia].
Defined.
