(* ===== verification/Files.v ===== *)
(** * Files and directories: [src/utils/common/storage.go], [storage_unix.go]

    What packages [os] and [path] do with directories and regular files, for a
    process that may create and write everything: a path is looked up by its
    cleaned name (there are no links), [.], [/] and paths up from the working directory are
    directories. The content of a file is of any type [V]. *)

From S2P Require Import Prelude GoStd Errno.

(** ** Packages os and path *)

Inductive Node (V : Type) := DirNode | FileNode (content : V).

Arguments DirNode {V}.
Arguments FileNode {V} content.

#[global] Instance Node_eq_dec {V} `{EqDecision V} : EqDecision (Node V).
Proof. solve_decision. Defined.

Definition not_exist : error := EExt "no such file or directory".

Definition not_dir : error := EExt "not a directory".

(** [path.Dir]: what stands before the last slash, cleaned. *)
Definition Dir (p : string) : string :=
  match removelast (Split sep p) with
  | [] => Clean ""
  | l => Clean (join l +:+ "/")
  end.

Definition is_base (p : string) : bool :=
  bool_decide (p = "." \/ p = "/") || forallb (fun e => bool_decide (e = "..")) (Split sep p).

Abbreviation FS V := (gmap string (Node V)).

Section files.
Context {V : Type}.

Implicit Types fs : FS V.

Definition node fs (p : string) : option (Node V) :=
  let q := Clean p in if is_base q then Some DirNode else fs !! q.

(** No error of [Stat] on such a system is one that [os.IsExist] recognises. *)
Definition Stat fs (p : string) : res (Node V) :=
  if decide (p = "") then Err not_exist else or_err not_exist (node fs p).

Definition Mkdir fs (q : string) : FS V * res unit :=
  match node fs q with
  | Some DirNode => (fs, Ok tt)
  | Some (FileNode _) => (fs, Err not_dir)
  | None => (<[Clean q := DirNode]> fs, Ok tt)
  end.

(** The directories on the way to a path, outermost first. *)
Definition prefixes (p : string) : list string :=
  let l := Split sep p in (fun n => let q := join (take n l) in if decide (q = "") then "/" else q) <$> seq 1 (length l).

Fixpoint mkdirs fs (l : list string) : FS V * res unit :=
  match l with
  | [] => (fs, Ok tt)
  | q :: l' => do fs, _ <- Mkdir fs q; mkdirs fs l'
  end.

Definition MkdirAll fs (p : string) : FS V * res unit :=
  if decide (p = "") then (fs, Err not_exist) else mkdirs fs (prefixes (Clean p)).

Definition ReadFile fs (p : string) : res V :=
  match Stat fs p with
  | Ok (FileNode d) => Ok d
  | Ok DirNode => Err (EExt "is a directory")
  | Err e => Err e
  | Panic => Panic
  | Stuck => Stuck
  end.

Definition WriteFile fs (p : string) (d : V) : FS V * res unit :=
  if decide (p = "") then (fs, Err not_exist)
  else
    match node fs (Dir p), node fs p with
    | Some DirNode, Some DirNode => (fs, Err (EExt "is a directory"))
    | Some DirNode, _ => (<[Clean p := FileNode d]> fs, Ok tt)
    | Some (FileNode _), _ => (fs, Err not_dir)
    | None, _ => (fs, Err not_exist)
    end.

Definition RemoveAll fs (p : string) : FS V * res unit :=
  if decide (p = "") then (fs, Ok tt)
  else if decide (Clean p = ".") then (fs, Err (EExt "invalid argument"))
  else (filter (fun kv : string * Node V => kv.1 <> Clean p /\ HasPrefix kv.1 (Clean p +:+ "/") = false) fs, Ok tt).

(** ** [storage.go] *)

Definition InitPath fs (path : string) : FS V * res unit :=
  match Stat fs path with
  | Ok DirNode => (fs, Ok tt)
  | Ok (FileNode _) => (fs, Err (ENew "path exist and not a dir"))
  | _ => MkdirAll fs path
  end.

Definition InitAndClearPath fs (path : string) : FS V * res unit :=
  do fs, _ <- InitPath fs path; RemoveAll fs path.

Definition InitParentPath fs (filePath : string) : FS V * res unit := InitPath fs (Dir filePath).

Definition PathExists fs (path : string) : bool := is_Ok (Stat fs path).

(** ** Lemmas *)

Lemma Mkdir_ok fs q fs' : Mkdir fs q = (fs', Ok tt) -> node fs' q = Some DirNode /\ (forall p x, node fs p = Some x -> node fs' p = Some x).
Proof.
  unfold Mkdir. destruct (node fs q) as [[|d]|] eqn:E; intros H; simplify_eq; [done|].
  unfold node in *. destruct (is_base (Clean q)); [done|]. split; [apply lookup_insert_eq|].
  intros p x. destruct (is_base (Clean p)); [done|].
  destruct (decide (Clean p = Clean q)) as [->|Hn]; [congruence|]. by rewrite lookup_insert_ne.
Qed.

Lemma mkdirs_ok l : forall fs fs', mkdirs fs l = (fs', Ok tt) ->
  (forall q, q ∈ l -> node fs' q = Some DirNode) /\ (forall p x, node fs p = Some x -> node fs' p = Some x).
Proof.
  induction l as [|q l IH]; simpl; intros fs fs' H.
  - simplify_eq. split; [|done]. intros q Hq. by apply elem_of_nil in Hq.
  - apply st_bind_inv in H as (fs1 & [] & H1 & H2).
    apply Mkdir_ok in H1 as [H1 H1']. apply IH in H2 as [H2 H2']. split; [|by eauto].
    intros r [->|Hr]%elem_of_cons; eauto.
Qed.

(** A directory that [InitPath] has made is there, and nothing else has changed. *)
Lemma InitPath_ok fs path fs' :
  InitPath fs path = (fs', Ok tt) ->
  path <> "" /\ (forall p x, node fs p = Some x -> node fs' p = Some x).
Proof.
  unfold InitPath, Stat. destruct (decide (path = "")) as [->|Hne]; [done|].
  intros H. split; [done|]. destruct (node fs path) as [[|d]|] eqn:E; simpl in H; simplify_eq; [done|].
  unfold MkdirAll in H. rewrite decide_False in H by done. by apply mkdirs_ok in H as [_ H].
Qed.

Lemma WriteFile_ok fs p d fs' :
  WriteFile fs p d = (fs', Ok tt) -> p <> "" /\ node fs' p = (if is_base (Clean p) then Some DirNode else Some (FileNode d)) /\
    is_base (Clean p) = false.
Proof.
  unfold WriteFile. destruct (decide (p = "")) as [|Hne]; [done|].
  unfold node. destruct (is_base (Clean p)) eqn:Hb.
  { repeat case_match; done. }
  intros H. split; [done|]. split; [|done].
  assert (fs' = <[Clean p := FileNode d]> fs) as -> by (repeat case_match; by simplify_eq).
  apply lookup_insert_eq.
Qed.

(** What was written is read. *)
Lemma ReadFile_WriteFile fs p d fs' : WriteFile fs p d = (fs', Ok tt) -> ReadFile fs' p = Ok d.
Proof.
  intros (Hne & Hn & Hb)%WriteFile_ok. rewrite Hb in Hn.
  unfold ReadFile, Stat. rewrite decide_False by done. by rewrite Hn.
Qed.

(** A file that could be written can be written again. *)
Lemma WriteFile_again fs p d d' fs' :
  WriteFile fs p d = (fs', Ok tt) -> exists fs'', WriteFile fs' p d' = (fs'', Ok tt).
Proof.
  intros Hw. destruct (WriteFile_ok _ _ _ _ Hw) as (Hne & Hn & Hb). rewrite Hb in Hn. unfold WriteFile in *.
  rewrite decide_False in Hw |- * by done. rewrite Hn.
  assert (node fs' (Dir p) = Some DirNode) as ->; [|by eexists].
  destruct (node fs (Dir p)) as [[|]|] eqn:E; try done.
  assert (fs' = <[Clean p := FileNode d]> fs) as -> by (repeat case_match; by simplify_eq).
  unfold node in *. destruct (is_base (Clean (Dir p))); [done|].
  destruct (decide (Clean (Dir p) = Clean p)) as [Heq|Hneq]; [|by rewrite lookup_insert_ne].
  rewrite Hb, <- Heq, E in Hw. done.
Qed.

End files.

(** [storage_unix.go]: [Statfs] gives the free blocks and the size of a block. *)
Definition GetAvailStorage (Statfs : string -> option (Z * Z)) (path : string) : Z :=
  match Statfs path with Some (bavail, bsize) => u64 (bavail * u64 bsize) | None => 0 end.

(** [InitAndClearPath] removes the directory it is to clear, with what is in it: a
    directory below the working directory is not there afterwards. *)
Lemma cleared_is_gone {V} (fs fs' : FS V) (path : string) :
  InitAndClearPath fs path = (fs', Ok tt) -> is_base (Clean path) = false -> PathExists fs' path = false.
Proof.
  unfold InitAndClearPath, PathExists, Stat. intros (fs1 & [] & H1 & H2)%st_bind_inv Hb.
  apply InitPath_ok in H1 as [Hne _]. rewrite decide_False by done.
  unfold RemoveAll in H2. rewrite decide_False in H2 by done.
  destruct (decide (Clean path = ".")); [done|]. simplify_eq. unfold node. rewrite Hb.
  rewrite map_lookup_filter_None_2; [done|]. right. intros x Hx [Hc _]. done.
Qed.

Example files_demo :
  let fs := (InitPath (V:=nat) ∅ "./data/config").1 in
  let fs' := (WriteFile fs "./data/config/node.json" 7%nat).1 in
  ReadFile fs' "data/config/../config/node.json" = Ok 7%nat /\ Stat fs' "data" = Ok DirNode /\
  (InitPath fs' "data/config/node.json/x").2 = Err not_dir /\ Dir "/a" = "/" /\ Dir "a" = "." /\ Dir "a/b/c" = "a/b".
Proof. vm_compute. done. Qed.
