(* ===== verification/Config.v ===== *)
(** * Configurations: [src/utils/config/config.go], [src/edge-node/config/config.go]

    The package keeps, per name of a type, the configuration in use, its default and
    the path of its file. What it is handed are interface values, mostly pointers: the
    structures they lead to are objects of a heap, which the caller and the package
    share. Reflection sees a structure as the list of its fields. What a pointer or a
    slice inside a structure leads to is part of its value. JSON is the class [Json];
    the libraries that copy structures are the class [Copier]. *)

From S2P Require Import Prelude GoStd Errno Files.
From Stdlib Require Import SpecFloat.

(** ** Values seen by reflection *)

Inductive Value :=
  | VString (s : string)
  | VBool (b : bool)
  | VInt (z : Z)
  | VUint (z : Z)
  | VFloat (f : spec_float)
  | VPtr (p : option Value)
  | VSlice (l : option (list Value))
  | VStruct (fs : list (string * string * Value)).

(** A field: its name, its type, its value. *)
Abbreviation Field := (string * string * Value)%type.

(** A structure of a declared type: the package and the name of the type. *)
Record Struct := mkStruct { st_pkg : string; st_name : string; st_fields : list Field }.

(** [reflect.Zero] of the type of a value. *)
Fixpoint Zero (v : Value) : Value :=
  match v with
  | VString _ => VString ""
  | VBool _ => VBool false
  | VInt _ => VInt 0
  | VUint _ => VUint 0
  | VFloat _ => VFloat (S754_zero false)
  | VPtr _ => VPtr None
  | VSlice _ => VSlice None
  | VStruct fs => VStruct ((fun f => (f.1, Zero f.2)) <$> fs)
  end.

(** [reflect.DeepEqual], for two values of one type. *)
Fixpoint DeepEqual (v w : Value) : bool :=
  match v, w with
  | VString s, VString t => bool_decide (s = t)
  | VBool b, VBool c => Bool.eqb b c
  | VInt x, VInt y | VUint x, VUint y => x =? y
  | VFloat f, VFloat g => SFeqb f g
  | VPtr None, VPtr None | VSlice None, VSlice None => true
  | VPtr (Some x), VPtr (Some y) => DeepEqual x y
  | VSlice (Some l), VSlice (Some k) =>
      (fix all l k := match l, k with
        | [], [] => true
        | x :: l', y :: k' => DeepEqual x y && all l' k'
        | _, _ => false
        end) l k
  | VStruct l, VStruct k =>
      (fix all l k := match l, k with
        | [], [] => true
        | x :: l', y :: k' => DeepEqual x.2 y.2 && all l' k'
        | _, _ => false
        end) l k
  | _, _ => false
  end.

Definition isBlank (value : Value) : bool :=
  match value with
  | VString s => (String.length s =? 0)%nat
  | VBool b => negb b
  | VInt z | VUint z => z =? 0
  | VFloat f => SFeqb f (S754_zero false)
  | VPtr p => bool_decide (p = None)
  | _ => DeepEqual value (Zero value)
  end.

(** [Field(i).Set]: types that differ, or a field that is not there, make it panic. *)
Fixpoint set_field (fs : list Field) (i : nat) (f : Field) : res (list Field) :=
  match fs, i with
  | [], _ => Panic
  | (n, t, _) :: fs', O => if decide (t = f.1.2) then Ok ((n, t, f.2) :: fs') else Panic
  | g :: fs', S i' => fs'' ← set_field fs' i' f; Ok (g :: fs'')
  end.

(** ** Fields by name, as the program text has them *)

Fixpoint f_get (fs : list Field) (name : string) : option Value :=
  match fs with
  | [] => None
  | (n, _, v) :: fs' => if decide (n = name) then Some v else f_get fs' name
  end.

Fixpoint f_set (fs : list Field) (name : string) (v : Value) : list Field :=
  match fs with
  | [] => []
  | (n, t, w) :: fs' => if decide (n = name) then (n, t, v) :: fs' else (n, t, w) :: f_set fs' name v
  end.

(** [x.a.b] and [x.a.b = v]. *)
Fixpoint sel (fs : list Field) (path : list string) : option Value :=
  match path with
  | [] => Some (VStruct fs)
  | n :: path' =>
      match f_get fs n with
      | Some (VStruct fs') => sel fs' path'
      | Some v => if decide (path' = []) then Some v else None
      | None => None
      end
  end.

Fixpoint upd (fs : list Field) (path : list string) (v : Value) : list Field :=
  match path with
  | [] => fs
  | [n] => f_set fs n v
  | n :: path' =>
      match f_get fs n with
      | Some (VStruct fs') => f_set fs n (VStruct (upd fs' path' v))
      | _ => fs
      end
  end.

(** ** Interfaces, the registry and the libraries *)

Inductive Iface := INil | IPtr (l : nat) | IVal (s : Struct).

(** JSON into and out of a structure; a text that does not fit may have changed it. *)
Class Json (V : Type) := {
  json_Marshal : Struct -> V;
  json_null : V;
  json_Unmarshal : V -> Struct -> Struct * option error;
  json_Size : V -> Z;
  json_fits : Struct -> bool
}.

(** One type: its name and the names and types of its fields, at every depth. *)
Definition same_type (s s' : Struct) : Prop :=
  st_pkg s = st_pkg s' /\ st_name s = st_name s' /\ Zero (VStruct (st_fields s)) = Zero (VStruct (st_fields s')).

(** A structure JSON can hold (its strings are UTF-8, it has no interfaces) is read
    back; whatever is read, the type stays. *)
Class JsonOk (V : Type) `{Json V} : Prop := {
  Unmarshal_Marshal_json : forall s s0, json_fits s = true -> same_type s s0 -> json_Unmarshal (json_Marshal s) s0 = (s, None);
  Unmarshal_type : forall v s, same_type (json_Unmarshal v s).1 s;
  json_Size_pos : forall s, 0 < json_Size (json_Marshal s)
}.

Class Copier := { copystructure_Copy : Struct -> Struct; deepcopy_Copy : Struct -> Struct }.

Class CopierOk `{Copier} : Prop := {
  copystructure_copies : forall s, copystructure_Copy s = s;
  deepcopy_copies : forall s, deepcopy_Copy s = s
}.

Section config.
Context {V : Type} `{Json V, Copier}.

Record Registry := mkRegistry {
  heap : list Struct;
  confMap : gmap string Iface;
  confPathMap : gmap string string;
  confDefaultMap : gmap string Iface;
  disk : FS V
}.

Implicit Types s : Registry.

Definition with_heap s (h : list Struct) : Registry := mkRegistry h (confMap s) (confPathMap s) (confDefaultMap s) (disk s).

Definition with_disk s (d : FS V) : Registry := mkRegistry (heap s) (confMap s) (confPathMap s) (confDefaultMap s) d.

(** [&Config{...}]: a new object. *)
Definition new_object s (x : Struct) : Registry * nat := (with_heap s (heap s ++ [x]), length (heap s)).

Definition deref s (conf : Iface) : res Struct :=
  match conf with
  | INil => Panic
  | IPtr l => or_panic (heap s !! l)
  | IVal x => Ok x
  end.

(** The name of a type, without its package. *)
Definition getConfType s (conf : Iface) : res string := x ← deref s conf; Ok (st_name x).

(** The loop of [copyValueFromDefault] from field [i] on. *)
Fixpoint fill_from (i n : nat) (fs : list Field) (dflt : list Field) : res (list Field) :=
  match n with
  | O => Ok fs
  | S n' =>
      f ← or_panic (fs !! i);
      if isBlank f.2 then
        d ← or_panic (dflt !! i);
        fs ← set_field fs i d;
        fill_from (S i) n' fs dflt
      else fill_from (S i) n' fs dflt
  end.

(** Only a pointer can be filled, from a pointer. *)
Definition copyValueFromDefault s (newConf defaultConf : Iface) : Registry * res unit :=
  match newConf, defaultConf with
  | INil, _ => (s, Panic)
  | IVal _, _ => (s, Ok tt)
  | IPtr l, IPtr k =>
      do s, x <- pure s (or_panic (heap s !! l));
      do s, d <- pure s (or_panic (heap s !! k));
      do s, fs <- pure s (fill_from 0 (length (st_fields x)) (st_fields x) (st_fields d));
      (with_heap s (<[l := mkStruct (st_pkg x) (st_name x) fs]> (heap s)), Ok tt)
  | IPtr _, _ => (s, Panic)
  end.

(** The loop of [copyValue]. *)
Fixpoint copy_fields (i : nat) (src dst : list Field) : res (list Field) :=
  match src with
  | [] => Ok dst
  | f :: src' => dst ← set_field dst i f; copy_fields (S i) src' dst
  end.

Definition copyValue s (src dst : Iface) : Registry * res unit :=
  match src, dst with
  | INil, _ | _, INil => (s, Ok tt)
  | IVal _, _ => (s, Ok tt)
  | IPtr _, IVal _ => (s, Panic)
  | IPtr k, IPtr l =>
      do s, x <- pure s (or_panic (heap s !! k));
      do s, y <- pure s (or_panic (heap s !! l));
      do s, fs <- pure s (copy_fields 0 (st_fields x) (st_fields y));
      (with_heap s (<[l := mkStruct (st_pkg y) (st_name y) fs]> (heap s)), Ok tt)
  end.

Definition config_not_found : error := ENew "config not found".

(** The default is assigned to the parameter, which ends with the call. *)
Definition GetDefaultConf s (conf : Iface) : Registry * res unit :=
  do s, key <- pure s (getConfType s conf);
  match confDefaultMap s !! key with
  | Some _ => (s, Ok tt)
  | None => (s, Err config_not_found)
  end.

Definition GetConf s (conf : Iface) : Registry * res unit :=
  do s, key <- pure s (getConfType s conf);
  match confMap s !! key with
  | Some c => copyValue s c conf
  | None => (s, Err config_not_found)
  end.

(** [json.Unmarshal] fills what a pointer leads to and refuses anything else. *)
Definition unmarshal_into s (buf : V) (conf : Iface) : Registry * option error :=
  match conf with
  | IPtr l =>
      match heap s !! l with
      | Some x => let '(x', err) := json_Unmarshal buf x in (with_heap s (<[l := x']> (heap s)), err)
      | None => (s, Some (EExt "json: Unmarshal(nil)"))
      end
  | _ => (s, Some (EExt "json: Unmarshal(non-pointer)"))
  end.

Definition Read s (confPath : string) (conf : Iface) : Registry * res unit :=
  match ReadFile (disk s) confPath with
  | Ok buf =>
      match unmarshal_into s buf conf with
      | (s, Some _) => GetDefaultConf s conf
      | (s, None) =>
          do s, key <- pure s (getConfType s conf);
          do s, _ <- copyValueFromDefault s conf (default INil (confDefaultMap s !! key));
          (mkRegistry (heap s) (<[key := conf]> (confMap s)) (confPathMap s) (confDefaultMap s) (disk s), Ok tt)
      end
  | _ => GetDefaultConf s conf
  end.

(** [copystructure.Copy] of an interface value: a pointer is copied with what it
    leads to. *)
Definition copy_iface s (conf : Iface) : Registry * Iface :=
  match conf with
  | INil => (s, INil)
  | IVal x => (s, IVal (copystructure_Copy x))
  | IPtr l =>
      match heap s !! l with
      | Some x => let '(s, l') := new_object s (copystructure_Copy x) in (s, IPtr l')
      | None => (s, INil)
      end
  end.

Definition Register s (defaultConf : Iface) (confPath : string) : Registry * res unit :=
  let '(s, confDefault) := copy_iface s defaultConf in
  do s, key <- pure s (getConfType s confDefault);
  (mkRegistry (heap s) (<[key := defaultConf]> (confMap s)) (<[key := confPath]> (confPathMap s))
     (<[key := confDefault]> (confDefaultMap s)) (disk s), Ok tt).

(** [order] is the order in which the map is gone through. Errors are dropped, a
    panic is not. *)
Fixpoint ReadAll s (order : list string) : Registry * res unit :=
  match order with
  | [] => (s, Ok tt)
  | key :: order' =>
      match Read s (default "" (confPathMap s !! key)) (default INil (confMap s !! key)) with
      | (s, Ok _) | (s, Err _) => ReadAll s order'
      | (s, r) => (s, r)
      end
  end.

Definition marshal s (conf : Iface) : res V :=
  match conf with INil => Ok json_null | _ => x ← deref s conf; Ok (json_Marshal x) end.

Definition write_to s (conf : Iface) (p : string) : Registry * res unit :=
  do s, b <- pure s (marshal s conf);
  let '(d, r) := WriteFile (disk s) p b in (with_disk s d, r).

Definition Write s (conf : Iface) : Registry * res unit :=
  do s, key <- pure s (getConfType s conf);
  match confPathMap s !! key with
  | Some p => write_to s conf p
  | None => (s, Err config_not_found)
  end.

Definition WriteToPath s (conf : Iface) (confPath : string) : Registry * res unit :=
  let '(d, r) := InitPath (disk s) (Dir confPath) in
  do s, _ <- (with_disk s d, r); write_to s conf confPath.

(** ** [edge-node/config/config.go]: the configuration of a node *)

(** An address of an interface: a network or something else, its parts. *)
Record Addr := mkAddr { is_ipnet : bool; is_loopback : bool; is_ipv4 : bool; addr_text : string }.

Definition getSelfIpAddr (InterfaceAddrs : res (list Addr)) : option error * string :=
  match InterfaceAddrs with
  | Ok addrs =>
      (None, foldl (fun selfIp a =>
         if is_ipnet a && negb (is_loopback a) && is_ipv4 a then addr_text a else selfIp) "" addrs)
  | Err e => (Some e, "")
  | _ => (None, "")
  end.

Definition isAvailableIpAdder (InterfaceAddrs : res (list Addr)) (addr : string) : bool :=
  if decide (addr = "") then false
  else
    match InterfaceAddrs with
    | Ok addrs => existsb (fun a => is_ipnet a && negb (is_loopback a) && bool_decide (addr_text a = addr)) addrs
    | _ => false
    end.

Definition p_storage : list string := ["StoragePath"].
Definition p_ip : list string := ["WatcherConfig"; "SelfNodeInfo"; "IpAddr"].
Definition p_uuid : list string := ["WatcherConfig"; "SelfNodeInfo"; "Uuid"].
Definition p_capacity : list string := ["WatcherConfig"; "SelfNodeInfo"; "Capacity"].
Definition p_port : list string := ["WatcherConfig"; "SelfNodeInfo"; "RpcPort"].
Definition p_sun : list string := ["WatcherConfig"; "SunAddr"].

Definition rpcPort : Z := 3267.
Definition httpPort : Z := 3268.

(** [init]: the defaults of the parts, with the address of this machine. *)
Definition DefaultConfig (InterfaceAddrs : res (list Addr)) (parts : Struct) : Struct :=
  mkStruct (st_pkg parts) (st_name parts)
    (upd (upd (upd (upd (st_fields parts) ["HttpPort"] (VUint httpPort)) p_storage (VString "./ecos-data"))
       p_port (VUint rpcPort)) p_ip (VString (getSelfIpAddr InterfaceAddrs).2)).

(** Reading and assigning a field of the structure a pointer leads to. *)
Definition load s (l : nat) (path : list string) : res Value :=
  x ← or_panic (heap s !! l); or_panic (sel (st_fields x) path).

Definition store s (l : nat) (path : list string) (v : Value) : Registry * res unit :=
  do s, x <- pure s (or_panic (heap s !! l));
  (with_heap s (<[l := mkStruct (st_pkg x) (st_name x) (upd (st_fields x) path v)]> (heap s)), Ok tt).

Definition text (v : Value) : string := match v with VString t => t | _ => "" end.

Definition conf_path (storagePath : string) : string := Join [storagePath +:+ "/config/edge_node.json"].

(** What the machine tells: its addresses, the space of a path. *)
Record Machine := mkMachine { m_addrs : res (list Addr); m_Statfs : string -> option (Z * Z) }.

(** The persisted file, if it is there and not empty. *)
Definition persisted s (confPath : string) : bool :=
  match Stat (disk s) confPath with
  | Ok (FileNode d) => 0 <? json_Size d
  | _ => false
  end.

Definition check_address (mc : Machine) s (conf dflt : nat) : Registry * res unit :=
  do s, ip <- pure s (load s conf p_ip);
  if isAvailableIpAdder (m_addrs mc) (text ip) then (s, Ok tt)
  else do s, d <- pure s (load s dflt p_ip); store s conf p_ip d.

Definition check_storage (mc : Machine) s (conf dflt : nat) : Registry * res string :=
  do s, p <- pure s (load s conf p_storage);
  do s, _ <- (if decide (text p = "") then do s, d <- pure s (load s dflt p_storage); store s conf p_storage d else (s, Ok tt));
  do s, p <- pure s (load s conf p_storage);
  let '(d, r) := InitPath (disk s) (text p) in
  do s, _ <- (with_disk s d, r);
  let capacity := GetAvailStorage (m_Statfs mc) (text p) in
  do s, _ <- store s conf p_capacity (VUint capacity);
  if decide (capacity = 0) then (s, Err (ENew "cannot write to storage path")) else (s, Ok (text p)).

(** The identity of the node is the one in the persisted file. *)
Definition keep_identity (dflt : Struct) s (conf : nat) (confPath : string) : Registry * res unit :=
  let is_there := persisted s confPath in
  let '(s, persistConf) := new_object s (deepcopy_Copy dflt) in
  if is_there then
    match Read s confPath (IPtr persistConf) with
    | (s, Panic) => (s, Panic)
    | (s, Stuck) => (s, Stuck)
    | (s, _) => do s, u <- pure s (load s persistConf p_uuid); store s conf p_uuid u
    end
  else (s, Ok tt).

(** [dflt] is the variable [DefaultConfig]; [conf] points to the node's configuration. *)
Definition InitConfig (mc : Machine) (dflt : Struct) s (conf : nat) : Registry * res unit :=
  let '(s, defaultConfig) := new_object s (mkStruct (st_pkg dflt) (st_name dflt) ((fun f => (f.1, Zero f.2)) <$> st_fields dflt)) in
  let '(s, _) := GetDefaultConf s (IPtr defaultConfig) in
  do s, _ <- check_address mc s conf defaultConfig;
  do s, storagePath <- check_storage mc s conf defaultConfig;
  let confPath := conf_path storagePath in
  do s, _ <- keep_identity dflt s conf confPath;
  WriteToPath s (IPtr conf) confPath.

(** A process without configurations, on the files there are. *)
Definition new_process (files : FS V) : Registry := mkRegistry [] ∅ ∅ ∅ files.

(** [nodeRun], up to where the servers are made: the configuration is the object 0.
    An error of [InitConfig] is only reported. *)
Definition start_node (mc : Machine) (dflt : Struct) (sunAddr confPath : string) (files : FS V) : Registry * res unit :=
  let '(s, conf) := new_object (new_process files) (mkStruct (st_pkg dflt) (st_name dflt) (upd (st_fields dflt) p_sun (VString sunAddr))) in
  do s, _ <- Register s (IPtr conf) confPath;
  do s, _ <- ReadAll s [st_name dflt];
  match GetConf s (IPtr conf) with
  | (s, Ok _) | (s, Err _) => InitConfig mc dflt s conf
  | (s, r) => (s, r)
  end.

End config.

Arguments Registry : clear implicits.
