(* ===== verification/ConfigProofs.v ===== *)
(** * Configurations: what a default is worth and who a node is *)

From S2P Require Import Prelude GoStd Errno Files Config.

Section proofs.
Context {V : Type} `{Json V, Copier}.

Implicit Types s : Registry V.

(** ** Who can change a default *)

(** What a program does with the package and with its own objects. *)
Inductive ConfEvent :=
  | CE_New (x : Struct)
  | CE_Assign (l : nat) (path : list string) (v : Value)
  | CE_Register (conf : Iface) (confPath : string)
  | CE_Read (confPath : string) (conf : Iface)
  | CE_ReadAll (order : list string)
  | CE_GetConf (conf : Iface)
  | CE_GetDefaultConf (conf : Iface)
  | CE_Write (conf : Iface)
  | CE_WriteToPath (conf : Iface) (confPath : string).

Definition conf_event s (e : ConfEvent) : Registry V :=
  match e with
  | CE_New x => (new_object s x).1
  | CE_Assign l path v => (store s l path v).1
  | CE_Register conf p => (Register s conf p).1
  | CE_Read p conf => (Read s p conf).1
  | CE_ReadAll order => (ReadAll s order).1
  | CE_GetConf conf => (GetConf s conf).1
  | CE_GetDefaultConf conf => (GetDefaultConf s conf).1
  | CE_Write conf => (Write s conf).1
  | CE_WriteToPath conf p => (WriteToPath s conf p).1
  end.

Definition private s (l : nat) : Prop := exists key, confDefaultMap s !! key = Some (IPtr l).

(** A value a program can have: no pointer to the package's copy of a default. *)
Definition public s (c : Iface) : Prop :=
  match c with IPtr l => ~ private s l /\ (l < length (heap s))%nat | _ => True end.

Definition event_public s (e : ConfEvent) : Prop :=
  match e with
  | CE_New _ | CE_ReadAll _ => True
  | CE_Assign l _ _ => public s (IPtr l)
  | CE_Register c _ | CE_Read _ c | CE_GetConf c | CE_GetDefaultConf c | CE_Write c | CE_WriteToPath c _ => public s c
  end.

Definition registers s (key : string) (e : ConfEvent) : Prop :=
  match e with CE_Register c _ => getConfType s c = Ok key | _ => False end.

(** A run of a program whose events are [allowed]. *)
Inductive conf_run (allowed : Registry V -> ConfEvent -> Prop) : Registry V -> Registry V -> Prop :=
  | run_nil s : conf_run allowed s s
  | run_event s e s' : event_public s e -> allowed s e -> conf_run allowed (conf_event s e) s' -> conf_run allowed s s'.

Definition not_again (key : string) s (e : ConfEvent) : Prop := ~ registers s key e.

Record conf_inv s : Prop := {
  ci_public : forall key c, confMap s !! key = Some c -> public s c;
  ci_default : forall key l, confDefaultMap s !! key = Some (IPtr l) -> (l < length (heap s))%nat
}.

(** What every operation but [Register] does. *)
Record quiet s s' : Prop := {
  q_inv : conf_inv s -> conf_inv s';
  q_defaults : confDefaultMap s' = confDefaultMap s;
  q_length : (length (heap s) <= length (heap s'))%nat;
  q_kept : forall l, private s l -> (l < length (heap s))%nat -> heap s' !! l = heap s !! l
}.

Lemma quiet_private s s' l : quiet s s' -> private s' l <-> private s l.
Proof. intros Q. unfold private. by rewrite (q_defaults _ _ Q). Qed.

Lemma quiet_public s s' c : quiet s s' -> public s c -> public s' c.
Proof.
  intros Q. destruct c as [|l|]; simpl; [done| |done].
  rewrite (quiet_private _ _ _ Q). pose proof (q_length _ _ Q). intros [? ?]. split; [done|lia].
Qed.

#[local] Instance quiet_preorder : PreOrder quiet.
Proof.
  split; [by intros s; split|]. intros s1 s2 s3 Q R. split.
  - intros I. by apply R, Q.
  - by rewrite (q_defaults _ _ R), (q_defaults _ _ Q).
  - pose proof (q_length _ _ Q). pose proof (q_length _ _ R). lia.
  - intros l Hp Hl. rewrite (q_kept _ _ R), (q_kept _ _ Q); try done.
    + by apply (quiet_private _ _ l Q).
    + pose proof (q_length _ _ Q). lia.
Qed.

(** The three ways in which the state changes. *)
Lemma quiet_heap s h :
  (length (heap s) <= length h)%nat -> (forall l, private s l -> (l < length (heap s))%nat -> h !! l = heap s !! l) ->
  quiet s (with_heap s h).
Proof.
  intros Hl Hk. split; [|done|done|done]. intros [I1 I2]. split.
  - intros key [|l|] Hc; simpl; try done. destruct (I1 _ _ Hc) as [? ?]. split; [done|simpl; lia].
  - intros key l Hc. simpl. pose proof (I2 _ _ Hc). lia.
Qed.

Lemma quiet_assign s l x : ~ private s l -> quiet s (with_heap s (<[l := x]> (heap s))).
Proof.
  intros Hn. apply quiet_heap; [by rewrite length_insert|].
  intros k Hp _. apply list_lookup_insert_ne. intros ->. done.
Qed.

Lemma quiet_new s x : quiet s (new_object s x).1.
Proof.
  apply quiet_heap; [rewrite length_app; lia|]. intros l _ Hl. by rewrite lookup_app_l.
Qed.

Lemma quiet_conf s key c : public s c ->
  quiet s (mkRegistry (heap s) (<[key := c]> (confMap s)) (confPathMap s) (confDefaultMap s) (disk s)).
Proof.
  intros Hc. split; [|done|done|done]. intros [I1 I2]. split; [|done].
  intros key' c'. simpl. intros [[-> ->]|[? Hl]]%lookup_insert_Some; [done|by apply (I1 key')].
Qed.

Lemma quiet_disk s d : quiet s (with_disk s d).
Proof. split; [|done|done|done]. intros [I1 I2]. by split. Qed.

Lemma quiet_do {A B} s (m : Registry V * res A) (k : Registry V -> A -> Registry V * res B) :
  quiet s m.1 -> (forall a, m.2 = Ok a -> quiet m.1 (k m.1 a).1) -> quiet s (st_bind m k).1.
Proof. destruct m as [s' [a| | |]]; simpl; intros Q K; try done. etrans; [exact Q|by apply K]. Qed.

Lemma quiet_pure {A B} s (r : res A) (k : Registry V -> A -> Registry V * res B) :
  (forall a, r = Ok a -> quiet s (k s a).1) -> quiet s (st_bind (pure s r) k).1.
Proof. destruct r; simpl; intros K; try done. by apply K. Qed.

Lemma quiet_copyValueFromDefault s c d : public s c -> quiet s (copyValueFromDefault s c d).1.
Proof.
  intros Hc. destruct c as [|l|x]; [done| |done]. destruct d as [|k|y]; try done.
  do 3 (apply quiet_pure; intros ? _). by apply quiet_assign, Hc.
Qed.

Lemma quiet_copyValue s c d : public s d -> quiet s (copyValue s c d).1.
Proof.
  intros Hd. destruct c as [|k|x]; [done| |by destruct d]. destruct d as [|l|y]; try done.
  do 3 (apply quiet_pure; intros ? _). by apply quiet_assign, Hd.
Qed.

Lemma quiet_GetDefaultConf s c : quiet s (GetDefaultConf s c).1.
Proof. unfold GetDefaultConf. apply quiet_pure. intros key _. by destruct (_ !! key). Qed.

Lemma quiet_GetConf s c : public s c -> quiet s (GetConf s c).1.
Proof.
  intros Hc. apply quiet_pure. intros key _.
  destruct (_ !! key); [by apply quiet_copyValue|done].
Qed.

Lemma quiet_unmarshal s buf c : public s c -> quiet s (unmarshal_into s buf c).1.
Proof.
  intros Hc. destruct c as [|l|]; simpl; [done| |done]. destruct (heap s !! l) as [x|]; [|done].
  destruct (json_Unmarshal buf x) as [x' err]. simpl. by apply quiet_assign, Hc.
Qed.

Lemma quiet_Read s p c : public s c -> quiet s (Read s p c).1.
Proof.
  intros Hc. unfold Read. destruct (ReadFile _ _) as [buf| | |]; try apply quiet_GetDefaultConf.
  pose proof (quiet_unmarshal s buf c Hc) as Q. destruct (unmarshal_into s buf c) as [s1 [e|]]; simpl in Q.
  { etrans; [exact Q|apply quiet_GetDefaultConf]. }
  etrans; [exact Q|]. pose proof (quiet_public _ _ _ Q Hc) as Hc1.
  apply quiet_pure. intros key _.
  apply quiet_do; [by apply quiet_copyValueFromDefault|]. intros u _.
  apply quiet_conf. by apply (quiet_public s1), Hc1; apply quiet_copyValueFromDefault.
Qed.

Lemma quiet_ReadAll order : forall s, conf_inv s -> quiet s (ReadAll s order).1.
Proof.
  induction order as [|key order IH]; intros s I; simpl; [done|].
  assert (public s (default INil (confMap s !! key))) as Hc.
  { destruct (confMap s !! key) as [c|] eqn:E; [by apply (ci_public s I key)|done]. }
  pose proof (quiet_Read s (default "" (confPathMap s !! key)) _ Hc) as Q.
  destruct (Read s _ _) as [s1 [a|e| |]]; simpl in Q |- *; try done;
    (etrans; [exact Q|]; by apply IH, Q).
Qed.

Lemma quiet_write_to s c p : quiet s (write_to s c p).1.
Proof.
  apply quiet_pure. intros b _. destruct (WriteFile _ _ _) as [d r]. apply quiet_disk.
Qed.

Lemma quiet_Write s c : quiet s (Write s c).1.
Proof. apply quiet_pure. intros key _. destruct (_ !! key); [apply quiet_write_to|done]. Qed.

Lemma quiet_WriteToPath s c p : quiet s (WriteToPath s c p).1.
Proof.
  unfold WriteToPath. destruct (InitPath _ _) as [d r].
  apply quiet_do; [apply quiet_disk|]. intros u _. apply quiet_write_to.
Qed.

Lemma quiet_store s l path v : public s (IPtr l) -> quiet s (store s l path v).1.
Proof. intros Hl. apply quiet_pure. intros x _. by apply quiet_assign, Hl. Qed.

(** The default that fills what is read. *)
Definition default_of s (key : string) : option Struct :=
  match confDefaultMap s !! key with
  | Some (IPtr l) => heap s !! l
  | _ => None
  end.

Lemma quiet_default s s' key : conf_inv s -> quiet s s' -> default_of s' key = default_of s key.
Proof.
  intros I Q. unfold default_of. rewrite (q_defaults _ _ Q).
  destruct (confDefaultMap s !! key) as [[|l|]|] eqn:E; try done.
  apply Q; [by exists key|]. by apply (ci_default s I key).
Qed.

(** [Register] keeps its copy in a new object. *)
Lemma Register_shape `{!CopierOk} s c p x s' :
  deref s c = Ok x -> Register s c p = (s', Ok tt) -> exists h c',
    s' = mkRegistry (heap s ++ h) (<[st_name x := c]> (confMap s)) (<[st_name x := p]> (confPathMap s))
           (<[st_name x := c']> (confDefaultMap s)) (disk s) /\
    (c = IVal x /\ c' = IVal x /\ h = [] \/ (exists l, c = IPtr l) /\ c' = IPtr (length (heap s)) /\ h = [x]).
Proof.
  unfold Register. destruct c as [|l|y]; simpl; [done| |].
  - destruct (heap s !! l) as [y|] eqn:E; [|done]. intros ?. simplify_eq/=. unfold getConfType. simpl.
    rewrite lookup_app_r, Nat.sub_diag by lia. simpl. rewrite copystructure_copies. intros E'. injection E' as <-.
    exists [x], (IPtr (length (heap s))). split; [done|right]; eauto.
  - intros ?. simplify_eq/=. rewrite copystructure_copies. intros E'. injection E' as <-.
    exists [], (IVal x). rewrite app_nil_r. split; [done|by left].
Qed.

Lemma Register_total `{!CopierOk} s c p x : deref s c = Ok x -> (Register s c p).2 = Ok tt.
Proof.
  unfold Register. destruct c as [|l|y]; simpl; [done| |done].
  destruct (heap s !! l) as [y|] eqn:E; [|done]. intros _. unfold getConfType. simpl.
  by rewrite lookup_app_r, Nat.sub_diag by lia.
Qed.

Lemma Register_ok `{!CopierOk} s c p x s' :
  conf_inv s -> public s c -> deref s c = Ok x -> Register s c p = (s', Ok tt) ->
  conf_inv s' /\ (forall l, c = IPtr l -> default_of s' (st_name x) = Some x) /\
  forall key, key <> st_name x -> default_of s' key = default_of s key.
Proof.
  intros I Hc Hx (h & c' & -> & Hs)%(Register_shape _ _ _ x); [|done].
  assert (forall l, (l < length (heap s))%nat -> ~ private s l ->
    ~ private (mkRegistry (heap s ++ h) (<[st_name x := c]> (confMap s)) (<[st_name x := p]> (confPathMap s))
           (<[st_name x := c']> (confDefaultMap s)) (disk s)) l) as Hp.
  { intros l Hl Hn [key' Hk]. simpl in Hk. apply lookup_insert_Some in Hk as [[_ ->]|[_ Hk]].
    - destruct Hs as [(_ & ? & _)|(_ & ? & _)]; simplify_eq; lia.
    - apply Hn. by exists key'. }
  split; [split; simpl|split].
  - intros key' c0 [[_ <-]|[_ Hk]]%lookup_insert_Some; [|apply (ci_public s I) in Hk; revert Hk];
      [revert Hc|]; [destruct c as [|l|]|destruct c0 as [|l|]]; simpl; try done;
      rewrite length_app; intros [Hn Hl]; (split; [by apply Hp|lia]).
  - intros key' l. rewrite length_app. intros [[_ ->]|[_ Hk]]%lookup_insert_Some.
    + destruct Hs as [(_ & ? & _)|(_ & ? & ->)]; simplify_eq; simpl; lia.
    + pose proof (ci_default s I _ _ Hk). lia.
  - intros l ->. unfold default_of. simpl. rewrite lookup_insert_eq. destruct Hs as [(? & _)|(_ & -> & ->)]; [done|].
    by rewrite lookup_app_r, Nat.sub_diag by lia.
  - intros key Hne. unfold default_of. simpl. rewrite lookup_insert_ne by done.
    destruct (confDefaultMap s !! key) as [[|l|]|] eqn:E; try done.
    by rewrite lookup_app_l by by apply (ci_default s I key).
Qed.

(** A registration happens or the process ends with the state as it is. *)
Lemma Register_cases `{!CopierOk} s c p :
  (Register s c p).1 = s \/ exists x s', deref s c = Ok x /\ Register s c p = (s', Ok tt).
Proof.
  destruct (deref s c) as [x| | |] eqn:E.
  - right. exists x, (Register s c p).1. split; [done|]. by rewrite <- (Register_total s c p x E), <- surjective_pairing.
  - by destruct c as [|l|]; simpl in E; try destruct (heap s !! l).
  - left. destruct c as [|l|]; simpl in E |- *; unfold Register; simpl; [done| |done]. by destruct (heap s !! l).
  - by destruct c as [|l|]; simpl in E; try destruct (heap s !! l).
Qed.

Lemma event_cases `{!CopierOk} s e :
  conf_inv s -> event_public s e ->
  quiet s (conf_event s e) \/
  exists c p x s', e = CE_Register c p /\ deref s c = Ok x /\ Register s c p = (s', Ok tt) /\ conf_event s e = s'.
Proof.
  intros I Hp. destruct e as [x|l path v|c q|p c|order|c|c|c|c p]; simpl in Hp;
    [left; apply quiet_new|left; by apply quiet_store| |left; by apply quiet_Read|left; by apply quiet_ReadAll
    |left; by apply quiet_GetConf|left; apply quiet_GetDefaultConf|left; apply quiet_Write|left; apply quiet_WriteToPath].
  simpl. destruct (Register_cases s c q) as [->|(x & s' & Hx & Hr)]; [by left|]. right.
  exists c, q, x, s'. by rewrite Hr.
Qed.

(** Whatever a program does, the default of a type stays what it was. *)
Lemma event_default `{!CopierOk} s e key :
  conf_inv s -> event_public s e -> ~ registers s key e -> default_of (conf_event s e) key = default_of s key.
Proof.
  intros I Hp Hr. destruct (event_cases s e I Hp) as [Q|(c & p & x & s' & -> & Hx & R & ->)]; [by apply quiet_default|].
  destruct (Register_ok s c p x s' I Hp Hx R) as (_ & _ & Hk). apply Hk. intros ->. apply Hr.
  simpl. unfold getConfType. by rewrite Hx.
Qed.

Lemma event_inv `{!CopierOk} s e : conf_inv s -> event_public s e -> conf_inv (conf_event s e).
Proof.
  intros I Hp. destruct (event_cases s e I Hp) as [Q|(c & p & x & s' & -> & Hx & R & ->)]; [by apply Q|].
  by apply (Register_ok s c p x s' I Hp Hx R).
Qed.

Lemma run_inv `{!CopierOk} allowed s s' : conf_run allowed s s' -> conf_inv s -> conf_inv s'.
Proof. induction 1; [done|]. eauto using event_inv. Qed.

Lemma run_default `{!CopierOk} key s s' :
  conf_run (not_again key) s s' -> conf_inv s -> default_of s' key = default_of s key.
Proof.
  induction 1 as [s|s e s' Hp Hr _ IH]; intros I; [done|].
  rewrite IH by by apply event_inv. by apply event_default.
Qed.

Lemma new_process_inv files : conf_inv (new_process files).
Proof. by split. Qed.

(** ** Reading a file *)

(** A structure with the blank fields of [c] taken from [d]. *)
Definition filled_in (c d : Struct) : Struct :=
  mkStruct (st_pkg c) (st_name c)
    (zip_with (fun f g => (f.1, if isBlank f.2 then g.2 else f.2)) (st_fields c) (st_fields d)).

Lemma set_field_app pre f rest d :
  f.1.2 = d.1.2 -> set_field (pre ++ f :: rest) (length pre) d = Ok (pre ++ (f.1, d.2) :: rest).
Proof.
  intros E. induction pre as [|g pre IH]; simpl.
  - destruct f as [[n t] v]. simpl in *. by rewrite decide_True.
  - destruct g as [[n t] v]. by rewrite IH.
Qed.

Lemma fill_from_ok fs : forall pre dpre ds,
  length pre = length dpre -> (fst <$> fs) = (fst <$> ds) ->
  fill_from (length pre) (length fs) (pre ++ fs) (dpre ++ ds) =
    Ok (pre ++ zip_with (fun f g : Field => (f.1, if isBlank f.2 then g.2 else f.2)) fs ds).
Proof.
  induction fs as [|[f1 f2] fs IH]; intros pre dpre [|d ds] Hl Ht; try done. simpl in Ht. injection Ht as Hd Ht.
  assert ((pre ++ (f1, f2) :: fs) !! length pre = Some (f1, f2)) as E1 by by apply list_lookup_middle.
  assert ((dpre ++ d :: ds) !! length pre = Some d) as E2 by by apply list_lookup_middle.
  specialize (IH (pre ++ [(f1, if isBlank f2 then d.2 else f2)]) (dpre ++ [d]) ds).
  rewrite !length_app, <- !app_assoc, !Nat.add_1_r in IH. simpl in IH. cbn [length fill_from].
  rewrite E1. simpl. destruct (isBlank f2) eqn:Hb; [|rewrite IH by (lia || done); simpl; by rewrite ?Hb].
  rewrite E2. simpl. rewrite set_field_app by by rewrite <- Hd. simpl. rewrite IH by (lia || done). simpl. by rewrite ?Hb.
Qed.

Lemma copy_fields_ok src : forall pre dst, (fst <$> src) = (fst <$> dst) ->
  copy_fields (length pre) src (pre ++ dst) = Ok (pre ++ src).
Proof.
  induction src as [|f src IH]; intros pre [|g dst] Ht; try done. simpl in Ht. injection Ht as Hd Ht.
  cbn [copy_fields]. rewrite set_field_app by by rewrite Hd. cbn [mbind res_bind].
  specialize (IH (pre ++ [f]) dst Ht). rewrite length_app, <- !app_assoc, Nat.add_1_r in IH. simpl in IH.
  rewrite <- Hd. by destruct f.
Qed.

#[export] Instance same_type_equivalence : Equivalence same_type.
Proof.
  split; [by intros x|by intros x y (? & ? & ?)|].
  intros x y z (? & ? & ?) (? & ? & ?). split; [|split]; by etrans.
Qed.

Lemma same_fields x y : same_type x y -> (fst <$> st_fields x) = (fst <$> st_fields y).
Proof.
  intros (_ & _ & E). simpl in E. injection E as E. apply (f_equal (fmap fst)) in E.
  by rewrite <- !list_fmap_compose in E.
Qed.

Lemma filled_in_type c d : same_type c d -> same_type (filled_in c d) c.
Proof.
  intros (_ & _ & E). split; [done|split; [done|]]. destruct c as [? ? fs], d as [? ? ds]. simpl in *. f_equal.
  injection E as E. revert ds E. induction fs as [|f fs IH]; intros [|g ds] E; try done. simpl in *.
  injection E as E1 E2 E3. rewrite IH by done. destruct (isBlank f.2); [|done]. simpl. by rewrite E2.
Qed.

(** [GetConf] copies what is in use. *)
Lemma GetConf_ok s key k m x z :
  confMap s !! key = Some (IPtr k) -> heap s !! k = Some x -> heap s !! m = Some z -> same_type x z -> st_name z = key ->
  GetConf s (IPtr m) = (with_heap s (<[m := x]> (heap s)), Ok tt).
Proof.
  intros Hc Hk Hm E Hz. pose proof E as (Hp & Hn & _). pose proof (same_fields _ _ E) as Ht. unfold GetConf, getConfType. simpl. rewrite Hm. simpl. rewrite Hz, Hc. simpl.
  rewrite Hk. simpl. rewrite Hm. simpl. pose proof (copy_fields_ok _ [] _ Ht) as E'. simpl in E'. rewrite E'. simpl.
  destruct x as [xp xn xf]. simpl in *. by rewrite <- Hp, <- Hn.
Qed.

Lemma Config_Read_ok `{!JsonOk V} s q k y c x :
  ReadFile (disk s) q = Ok (json_Marshal c) -> json_fits c = true -> heap s !! k = Some y -> public s (IPtr k) ->
  conf_inv s -> same_type c y -> default_of s (st_name c) = Some x -> same_type c x ->
  Read s q (IPtr k) = (mkRegistry (<[k := filled_in c x]> (heap s)) (<[st_name c := IPtr k]> (confMap s)) (confPathMap s)
    (confDefaultMap s) (disk s), Ok tt).
Proof.
  intros Hf Hj Hk [Hpk Hl] I Hcy Hd Hcx. unfold Read. rewrite Hf. simpl. rewrite Hk, Unmarshal_Marshal_json by done.
  unfold getConfType. simpl. rewrite list_lookup_insert_eq by done. simpl.
  unfold default_of in Hd. destruct (confDefaultMap s !! st_name c) as [[|d|z]|] eqn:E; try done.
  assert (d <> k) as Hne by (intros ->; apply Hpk; by exists (st_name c)).
  simpl. rewrite list_lookup_insert_ne by done. rewrite Hd. simpl.
  pose proof (same_fields _ _ Hcx) as Ht. pose proof (fill_from_ok _ [] [] _ eq_refl Ht) as E'. simpl in E'. rewrite E'. simpl.
  by rewrite list_insert_insert_eq.
Qed.

(** what a file leaves blank is what was registered. A program registered a
    configuration as the default of its type, and went on using the package and its
    own objects, the registered one included, in any way but registering that type
    again. When it then reads a file that was written from [c] into an object of the
    type, each field is [c]'s or, where that is blank, the one that was registered;
    and this is what [GetConf] copies into any other object. *)
Theorem read_fills_defaults `{!JsonOk V, !CopierOk} files s0 l p x s1 s2 q k c y :
  conf_run (fun _ _ => True) (new_process files) s0 -> public s0 (IPtr l) -> heap s0 !! l = Some x ->
  Register s0 (IPtr l) p = (s1, Ok tt) -> conf_run (not_again (st_name x)) s1 s2 ->
  ReadFile (disk s2) q = Ok (json_Marshal c) -> json_fits c = true ->
  public s2 (IPtr k) -> heap s2 !! k = Some y -> same_type c y -> same_type c x ->
  exists s3, Read s2 q (IPtr k) = (s3, Ok tt) /\ heap s3 !! k = Some (filled_in c x) /\
    forall m z, heap s3 !! m = Some z -> same_type c z ->
      exists s4, GetConf s3 (IPtr m) = (s4, Ok tt) /\ heap s4 !! m = Some (filled_in c x).
Proof.
  intros R0 Hpl Hx Hr R Hf Hj Hpk Hy Hcy Hcx.
  pose proof (run_inv _ _ _ R0 (new_process_inv files)) as I0.
  destruct (Register_ok s0 (IPtr l) p x s1 I0 Hpl) as (I1 & D1 & _); [by simpl; rewrite Hx|done|].
  assert (default_of s2 (st_name c) = Some x) as D2.
  { destruct Hcx as (_ & -> & _). rewrite (run_default _ _ _ R I1). by eapply D1. }
  eexists. split; [apply (Config_Read_ok s2 q k y c x); eauto using run_inv|]. simpl.
  split; [by apply list_lookup_insert_eq, Hpk|]. intros m z Hm Hz.
  eexists. split; [eapply (GetConf_ok _ (st_name c) k m (filled_in c x) z)|]; simpl.
  - by rewrite lookup_insert_eq.
  - by apply list_lookup_insert_eq, Hpk.
  - done.
  - etrans; [by apply filled_in_type|done].
  - by destruct Hz as (_ & ? & _).
  - apply list_lookup_insert_eq. by eapply lookup_lt_Some.
Qed.

End proofs.

(** ** A concrete JSON: documents are structures *)

Fixpoint same_shape (v w : Value) : bool :=
  match v, w with
  | VString _, VString _ | VBool _, VBool _ | VInt _, VInt _ | VUint _, VUint _ | VFloat _, VFloat _
  | VPtr _, VPtr _ | VSlice _, VSlice _ => true
  | VStruct l, VStruct k =>
      (fix all (l k : list Field) := match l, k with
        | [], [] => true
        | f :: l', g :: k' => bool_decide (f.1 = g.1) && same_shape f.2 g.2 && all l' k'
        | _, _ => false
        end) l k
  | _, _ => false
  end.

Lemma same_shape_Zero : forall v w, same_shape v w = true <-> Zero v = Zero w.
Proof.
  fix IH 1. intros v w. destruct v as [| | | | | | |l], w as [| | | | | | |k]; simpl; try (split; congruence).
  revert k. induction l as [|[n x] l IHl]; intros [|[m y] k]; simpl; try (split; congruence).
  rewrite !andb_true_iff, bool_decide_eq_true, IH, IHl. simpl. split.
  - intros [[-> E2] E]. injection E as E. unfold fmap in E. by rewrite E2, E.
  - intros E. injection E as -> -> E. unfold fmap. by rewrite E.
Qed.

Definition struct_shape (x y : Struct) : bool :=
  bool_decide (st_pkg x = st_pkg y) && bool_decide (st_name x = st_name y) &&
  same_shape (VStruct (st_fields x)) (VStruct (st_fields y)).

Lemma struct_shape_spec x y : struct_shape x y = true <-> same_type x y.
Proof. unfold struct_shape, same_type. rewrite !andb_true_iff, !bool_decide_eq_true, same_shape_Zero. tauto. Qed.

#[export] Instance json_struct : Json Struct := {|
  json_Marshal s := s;
  json_null := mkStruct "" "" [];
  json_Unmarshal v s := if struct_shape v s then (v, None) else (s, Some (EExt "json: cannot unmarshal"));
  json_Size _ := 2;
  json_fits _ := true
|}.

#[export] Instance json_struct_ok : JsonOk Struct.
Proof.
  split; simpl.
  - intros s s0 _ E%struct_shape_spec. by rewrite E.
  - intros v s. destruct (struct_shape v s) eqn:E; simpl; [by apply struct_shape_spec|done].
  - done.
Qed.

#[export] Instance copier_id : Copier := {| copystructure_Copy s := s; deepcopy_Copy s := s |}.

#[export] Instance copier_id_ok : CopierOk.
Proof. by split. Qed.

(** The gateway's configuration: the file leaves the host blank; in the meantime the
    program has written over the object it registered. *)
Definition gateway_conf (host : string) (port : Z) (auth : bool) : Struct :=
  mkStruct "ecos/gateway/router" "Config"
    [("Host", "string", VString host); ("Port", "uint64", VUint port); ("EnableAuth", "bool", VBool auth)].

Definition gateway_files : FS Struct := {[ "gateway.json" := FileNode (gateway_conf "" 8080 true) ]}.

Definition conf_made : Registry Struct := (new_object (new_process gateway_files) (gateway_conf "localhost" 3267 false)).1.

Definition conf_registered : Registry Struct := (Register conf_made (IPtr 0) "gateway.json").1.

Definition conf_used : Registry Struct := conf_event conf_registered (CE_Assign 0 ["Host"] (VString "elsewhere")).

Lemma conf_made_run : conf_run (fun _ _ => True) (new_process gateway_files) conf_made.
Proof. eapply (run_event _ _ (CE_New _)); [done|done|apply run_nil]. Qed.

Lemma conf_used_public l : (l < 1)%nat -> public conf_used (IPtr l) /\ public conf_registered (IPtr l) /\ public conf_made (IPtr l).
Proof.
  intros Hl. assert (l = 0%nat) as -> by lia. simpl. unfold private. simpl.
  split; [|split]; (split; [|lia]); intros [key Hk]; simpl in Hk; try done;
    by apply lookup_insert_Some in Hk as [[_ ?]|[_ ?]].
Qed.

Lemma read_fills_defaults_witness :
  exists s3, Read conf_used "gateway.json" (IPtr 0) = (s3, Ok tt) /\
    heap s3 !! 0%nat = Some (gateway_conf "localhost" 8080 true) /\
    forall m z, heap s3 !! m = Some z -> same_type (gateway_conf "" 8080 true) z ->
      exists s4, GetConf s3 (IPtr m) = (s4, Ok tt) /\ heap s4 !! m = Some (gateway_conf "localhost" 8080 true).
Proof.
  destruct (conf_used_public 0 ltac:(lia)) as (P2 & P1 & P0).
  refine (read_fills_defaults gateway_files conf_made 0 "gateway.json" (gateway_conf "localhost" 3267 false) conf_registered
    conf_used "gateway.json" 0 (gateway_conf "" 8080 true) (gateway_conf "elsewhere" 3267 false)
    conf_made_run P0 eq_refl eq_refl _ eq_refl eq_refl P2 eq_refl _ _); [|done..].
  eapply (run_event _ _ (CE_Assign 0 ["Host"] (VString "elsewhere"))); [exact P1| |apply run_nil]. by intros [].
Defined.
