(* ===== verification/NodeConfigProofs.v ===== *)
(** * The configuration of a node: its identity survives restarts *)

From S2P Require Import Prelude GoStd Errno Files Config ConfigProofs.

(** ** Fields of structures of one type *)

Lemma f_get_zero (fs : list Field) n : f_get ((fun f => (f.1, Zero f.2)) <$> fs) n = Zero <$> f_get fs n.
Proof. induction fs as [|[[m t] v] fs IH]; simpl; [done|]. by destruct (decide (m = n)). Qed.

Definition zero_fields (fs : list Field) : list Field := (fun f => (f.1, Zero f.2)) <$> fs.

Lemma sel_zero path : forall fs, sel (zero_fields fs) path = Zero <$> sel fs path.
Proof.
  induction path as [|n path IH]; intros fs; simpl; [done|].
  unfold zero_fields at 1. rewrite f_get_zero. destruct (f_get fs n) as [v|]; simpl; [|done].
  destruct v; simpl; first [apply IH|by destruct (decide (path = []))].
Qed.

Lemma same_sel x y path v : same_type x y -> sel (st_fields x) path = Some v ->
  exists w, sel (st_fields y) path = Some w /\ Zero w = Zero v.
Proof.
  intros (_ & _ & E) Hv. simpl in E. injection E as E. change (zero_fields (st_fields x) = zero_fields (st_fields y)) in E.
  pose proof (sel_zero path (st_fields x)) as Sx. pose proof (sel_zero path (st_fields y)) as Sy.
  rewrite E, Sy, Hv in Sx. destruct (sel (st_fields y) path) as [w|]; simpl in Sx; [|done].
  exists w. split; [done|]. by injection Sx.
Qed.

Lemma f_get_set fs n v w : f_get fs n = Some w -> f_get (f_set fs n v) n = Some v.
Proof.
  induction fs as [|[[m t] u] fs IH]; simpl; [done|].
  destruct (decide (m = n)) as [->|Hn]; simpl; [by rewrite decide_True|by rewrite decide_False].
Qed.

Lemma f_get_set_ne fs n m v : n <> m -> f_get (f_set fs n v) m = f_get fs m.
Proof.
  intros Hne. induction fs as [|[[k t] u] fs IH]; simpl; [done|].
  destruct (decide (k = n)) as [->|Hn]; simpl; [by rewrite !decide_False by done|by rewrite IH].
Qed.

Lemma f_set_zero fs n v w : f_get fs n = Some w -> Zero v = Zero w -> zero_fields (f_set fs n v) = zero_fields fs.
Proof.
  intros Hg Hz. induction fs as [|[[m t] u] fs IH]; simpl in *; [done|].
  destruct (decide (m = n)) as [->|Hn]; simpl; [simplify_eq; by rewrite Hz|by rewrite IH].
Qed.

Lemma sel_upd path : forall fs v w, path <> [] -> sel fs path = Some w -> Zero v = Zero w -> sel (upd fs path v) path = Some v.
Proof.
  induction path as [|n path IH]; intros fs v w Hne Hs Hz; [done|].
  destruct path as [|m path].
  - simpl in *. destruct (f_get fs n) as [u|] eqn:E; [|done]. rewrite (f_get_set _ _ _ _ E). by destruct v.
  - change (upd fs (n :: m :: path) v) with
      (match f_get fs n with Some (VStruct fs') => f_set fs n (VStruct (upd fs' (m :: path) v)) | _ => fs end).
    cbn [sel] in Hs |- *. destruct (f_get fs n) as [u|] eqn:E; [|done]. destruct u; try done.
    rewrite (f_get_set _ _ _ _ E). by apply (IH _ _ w).
Qed.

Lemma upd_zero path : forall fs v w, sel fs path = Some w -> Zero v = Zero w -> zero_fields (upd fs path v) = zero_fields fs.
Proof.
  induction path as [|n path IH]; intros fs v w Hs Hz; [done|].
  destruct path as [|m path].
  - simpl in *. destruct (f_get fs n) as [u|] eqn:E; [|done].
    apply (f_set_zero _ _ _ u); [done|]. destruct u; simpl in Hs; simplify_eq; done.
  - change (upd fs (n :: m :: path) v) with
      (match f_get fs n with Some (VStruct fs') => f_set fs n (VStruct (upd fs' (m :: path) v)) | _ => fs end).
    cbn [sel] in Hs. destruct (f_get fs n) as [u|] eqn:E; [|done]. destruct u; try done.
    apply (f_set_zero _ _ _ _ E). simpl. f_equal. by apply (IH _ _ w).
Qed.

(** Paths of which neither leads through the other. *)
Fixpoint apart (p q : list string) : bool :=
  match p, q with
  | n :: p', m :: q' => bool_decide (n <> m) || apart p' q'
  | _, _ => false
  end.

Lemma sel_upd_apart p : forall q fs v, apart p q = true -> sel (upd fs p v) q = sel fs q.
Proof.
  induction p as [|n p IH]; intros [|m q] fs v Ha; try done. simpl in Ha.
  destruct (decide (n = m)) as [->|Hne].
  - rewrite bool_decide_eq_false_2 in Ha by tauto. simpl in Ha. destruct p as [|k p]; [done|].
    change (upd fs (m :: k :: p) v) with
      (match f_get fs m with Some (VStruct fs') => f_set fs m (VStruct (upd fs' (k :: p) v)) | _ => fs end).
    destruct (f_get fs m) as [u|] eqn:E; [|done]. destruct u; try done.
    cbn [sel]. rewrite (f_get_set _ _ _ _ E), E. by apply IH.
  - destruct p as [|k p]; simpl.
    + by rewrite f_get_set_ne.
    + destruct (f_get fs n) as [u|] eqn:E; [|done]. destruct u; try done. by rewrite f_get_set_ne.
Qed.

Section node.
Context {V : Type} `{JsonOk V, CopierOk}.

Implicit Types s : Registry V.

(** The fields [InitConfig] uses have their types. *)
Definition node_typed (x : Struct) : Prop :=
  (forall path, path ∈ [p_storage; p_ip; p_uuid; p_sun] -> exists t, sel (st_fields x) path = Some (VString t)) /\
  (exists n, sel (st_fields x) p_capacity = Some (VUint n)).

Definition has_capacity (x : Struct) : Prop := exists n, sel (st_fields x) p_capacity = Some (VUint n) /\ n <> 0.

Definition assigned (x : Struct) (path : list string) (v : Value) : Struct :=
  mkStruct (st_pkg x) (st_name x) (upd (st_fields x) path v).

Lemma typed_same x y : node_typed x -> same_type x y -> node_typed y.
Proof.
  intros [Hs [n Hn]] E. split.
  - intros path Hp. destruct (Hs path Hp) as [t Ht]. destruct (same_sel _ _ _ _ E Ht) as (w & Hw & Hz).
    destruct w; simpl in Hz; try done. by eexists.
  - destruct (same_sel _ _ _ _ E Hn) as (w & Hw & Hz). destruct w; simpl in Hz; try done. by eexists.
Qed.

Lemma assigned_type x path v w :
  sel (st_fields x) path = Some w -> Zero v = Zero w -> same_type (assigned x path v) x.
Proof.
  intros Hs Hz. split; [done|split; [done|]]. simpl. f_equal. by apply (upd_zero _ _ _ w).
Qed.

Lemma sel_assigned x p q v : apart p q = true -> sel (st_fields (assigned x p v)) q = sel (st_fields x) q.
Proof. apply sel_upd_apart. Qed.

Lemma sel_assigned_eq x p v w : p <> [] -> sel (st_fields x) p = Some w -> Zero v = Zero w ->
  sel (st_fields (assigned x p v)) p = Some v.
Proof. apply sel_upd. Qed.

Lemma load_ok s l x path v : heap s !! l = Some x -> sel (st_fields x) path = Some v -> load s l path = Ok v.
Proof. intros Hl Hs. unfold load. rewrite Hl. simpl. by rewrite Hs. Qed.

Lemma store_ok s l x path v : heap s !! l = Some x ->
  store s l path v = (with_heap s (<[l := assigned x path v]> (heap s)), Ok tt).
Proof. intros Hl. unfold store. by rewrite Hl. Qed.

(** The node's configuration is [y], the object 0; [x0] is its registered default. *)
Record node_at s (y x0 : Struct) : Prop := {
  na_conf : heap s !! 0%nat = Some y;
  na_type : same_type y x0;
  na_inv : conf_inv s;
  na_public : public s (IPtr 0);
  na_default : default_of s (st_name x0) = Some x0
}.

Lemma node_at_quiet s s' y y' x0 :
  node_at s y x0 -> quiet s s' -> heap s' !! 0%nat = Some y' -> same_type y' x0 -> node_at s' y' x0.
Proof.
  intros N Q Hh Ht. split; [done|done|apply Q, N|by apply (quiet_public _ _ _ Q), N|].
  rewrite (quiet_default _ _ _ (na_inv _ _ _ N) Q). apply N.
Qed.

Lemma node_at_store s y y' x0 :
  node_at s y x0 -> same_type y' x0 -> node_at (with_heap s (<[0%nat := y']> (heap s))) y' x0.
Proof.
  intros N Ht. eapply node_at_quiet; [exact N|by apply quiet_assign, N| |done].
  apply list_lookup_insert_eq, N.
Qed.

Lemma node_at_new s y x0 z : node_at s y x0 -> node_at (new_object s z).1 y x0.
Proof.
  intros N. eapply node_at_quiet; [exact N|apply quiet_new| |apply N]. simpl.
  rewrite lookup_app_l by apply N. apply N.
Qed.

(** The address of the default that is used, the zero of its type, is empty. *)
Lemma check_address_ok mc s d y x0 z :
  node_at s y x0 -> node_typed x0 -> heap s !! d = Some z -> sel (st_fields z) p_ip = Some (VString "") ->
  exists y', check_address mc s 0 d = (with_heap s (<[0%nat := y']> (heap s)), Ok tt) /\ same_type y' x0 /\
    sel (st_fields y') p_ip = Some (VString (
      match sel (st_fields y) p_ip with Some v => if isAvailableIpAdder (m_addrs mc) (text v) then text v else "" | None => "" end)).
Proof.
  intros N T Hd Hz. destruct (typed_same _ y T (symmetry (na_type _ _ _ N))) as [Ty _].
  destruct (Ty p_ip) as [t Ht]; [set_solver|]. unfold check_address.
  rewrite (load_ok _ _ _ _ _ (na_conf _ _ _ N) Ht), Ht. simpl. destruct (isAvailableIpAdder _ t).
  - exists y. split; [|split; [apply N|done]]. destruct s. unfold with_heap. simpl.
    rewrite list_insert_id; [done|apply N].
  - rewrite (load_ok _ _ _ _ _ Hd Hz). simpl. rewrite (store_ok _ _ _ _ _ (na_conf _ _ _ N)).
    exists (assigned y p_ip (VString "")). split; [done|]. split.
    + etrans; [by eapply assigned_type|apply N].
    + by apply (sel_upd p_ip _ _ _ ltac:(done) Ht).
Qed.

Lemma InitPath_empty (d : FS V) : InitPath d "" = (d, Err not_exist).
Proof. done. Qed.

Lemma check_storage_ok mc s d y x0 z s' p :
  node_at s y x0 -> node_typed x0 -> d <> 0%nat -> heap s !! d = Some z -> sel (st_fields z) p_storage = Some (VString "") ->
  check_storage mc s 0 d = (s', Ok p) ->
  exists y', node_at s' y' x0 /\ sel (st_fields y') p_storage = Some (VString p) /\ has_capacity y' /\
    length (heap s') = length (heap s) /\
    (forall q n, node (disk s) q = Some n -> node (disk s') q = Some n).
Proof.
  intros N T Hd0 Hd Hz. destruct (typed_same _ y T (symmetry (na_type _ _ _ N))) as [Ty [n Hn]].
  destruct (Ty p_storage) as [t Ht]; [set_solver|]. unfold check_storage.
  rewrite (load_ok _ _ _ _ _ (na_conf _ _ _ N) Ht). cbn [st_bind pure text].
  destruct (decide (t = "")) as [->|Hne].
  - rewrite (load_ok _ _ _ _ _ Hd Hz). cbn [st_bind pure]. rewrite (store_ok _ _ _ _ _ (na_conf _ _ _ N)). cbn [st_bind pure].
    erewrite load_ok; [|by apply list_lookup_insert_eq, N|by apply (sel_upd p_storage _ _ _ ltac:(done) Ht)].
    cbn [st_bind pure text]. by rewrite InitPath_empty.
  - cbn [st_bind pure]. rewrite (load_ok _ _ _ _ _ (na_conf _ _ _ N) Ht). cbn [st_bind pure text].
    destruct (InitPath (disk s) t) as [fs r] eqn:E. destruct r as [[]| | |]; try done. cbn [st_bind pure].
    rewrite (store_ok (with_disk s fs) _ _ _ _ (na_conf _ _ _ N)). cbn [st_bind pure].
    destruct (decide (_ = 0)) as [|Hc]; [done|]. intros R. simplify_eq.
    exists (assigned y p_capacity (VUint (GetAvailStorage (m_Statfs mc) p))). split; [|split; [|split; [|split]]].
    + apply (node_at_store (with_disk s fs) y); [|etrans; [by eapply assigned_type|apply N]].
      eapply node_at_quiet; [exact N|apply quiet_disk|apply N|apply N].
    + by rewrite sel_assigned.
    + eexists. split; [by eapply sel_assigned_eq|done].
    + simpl. by rewrite length_insert.
    + by apply InitPath_ok in E as [_ E].
Qed.

(** Reading a file into an object of the node's type never fails: the object keeps
    its type, the rest of the heap and the files stay. *)
Lemma Read_frame s q k z x0 :
  conf_inv s -> public s (IPtr k) -> heap s !! k = Some z -> same_type z x0 -> default_of s (st_name x0) = Some x0 ->
  exists z' cm, Read s q (IPtr k) = (mkRegistry (<[k := z']> (heap s)) cm (confPathMap s) (confDefaultMap s) (disk s), Ok tt) /\
    same_type z' x0 /\ (cm = confMap s \/ cm = <[st_name x0 := IPtr k]> (confMap s)).
Proof.
  intros I [Hpk Hl] Hk Ht Hd. unfold default_of in Hd.
  destruct (confDefaultMap s !! st_name x0) as [[|d|v]|] eqn:E; try done.
  assert (d <> k) as Hne by (intros ->; apply Hpk; by exists (st_name x0)).
  assert (forall z', same_type z' x0 ->
    GetDefaultConf (with_heap s (<[k := z']> (heap s))) (IPtr k) = (with_heap s (<[k := z']> (heap s)), Ok tt)) as Hdef.
  { intros z' (_ & Hn & _). unfold GetDefaultConf, getConfType. simpl. rewrite list_lookup_insert_eq by done. simpl.
    by rewrite Hn, E. }
  assert (GetDefaultConf s (IPtr k) = (s, Ok tt)) as Hdef0.
  { destruct Ht as (_ & Hn & _). unfold GetDefaultConf, getConfType. simpl. rewrite Hk. simpl. by rewrite Hn, E. }
  assert (<[k := z]> (heap s) = heap s) as Hid by by apply list_insert_id.
  unfold Read. destruct (ReadFile _ _) as [buf| | |];
    [|exists z, (confMap s); rewrite Hid, Hdef0; destruct s; by eauto..].
  simpl. rewrite Hk. pose proof (Unmarshal_type buf z) as Hu. destruct (json_Unmarshal buf z) as [z' [e|]]; simpl in Hu.
  { assert (same_type z' x0) as Hz' by by etrans. exists z', (confMap s). rewrite Hdef by done. by eauto. }
  assert (same_type z' x0) as Hz' by by etrans. exists (filled_in z' x0), (<[st_name x0 := IPtr k]> (confMap s)).
  split; [|split; [by etrans; [apply filled_in_type|]|by right]].
  unfold getConfType. simpl. rewrite list_lookup_insert_eq by done. simpl. pose proof Hz' as (_ & Hn & _). rewrite Hn, E. simpl.
  rewrite list_lookup_insert_ne by done. rewrite Hd. simpl.
  pose proof (fill_from_ok _ [] [] _ eq_refl (same_fields _ _ Hz')) as F. simpl in F. rewrite F. simpl.
  rewrite list_insert_insert_eq. unfold filled_in. by rewrite Hn.
Qed.

Lemma sel_filled c d path n v : f_get (st_fields c) n = Some (VStruct v) -> isBlank (VStruct v) = false ->
  same_type c d -> sel (st_fields (filled_in c d)) (n :: path) = sel (st_fields c) (n :: path).
Proof.
  intros Hg Hb Ht%same_fields. simpl.
  enough (f_get (zip_with (fun f g : Field => (f.1, if isBlank f.2 then g.2 else f.2)) (st_fields c) (st_fields d)) n =
    f_get (st_fields c) n) as -> by done.
  remember (VStruct v) as u eqn:Eu. clear Eu. destruct c as [? ? fs], d as [? ? ds]. simpl in *. revert ds Ht.
  induction fs as [|[[m t] w] fs IH]; intros [|g ds] Ht; try done. simpl in *. injection Ht as Hg1 Ht.
  destruct (decide (m = n)) as [->|Hne]; [|by apply IH]. simplify_eq. by rewrite Hb.
Qed.

(** The capacity keeps the part of the configuration that holds the identity from
    being blank. *)
Lemma nonzero_not_blank fs path n : sel fs path = Some (VUint n) -> n <> 0 -> isBlank (VStruct fs) = false.
Proof.
  intros Hs Hn. enough (forall path fs, sel fs path = Some (VUint n) -> DeepEqual (VStruct fs) (VStruct (zero_fields fs)) = false) as G
    by by apply (G path).
  clear fs path Hs. induction path as [|m path IH]; intros fs Hs; [done|]. cbn [sel] in Hs.
  destruct (f_get fs m) as [v|] eqn:E; [|done].
  assert (DeepEqual v (Zero v) = false) as Hv.
  { destruct v; try (destruct (decide (path = [])); simplify_eq; simpl; by apply Z.eqb_neq). by apply IH. }
  clear Hs. induction fs as [|[[k t] w] fs IHf]; simpl in E |- *; [done|].
  destruct (decide (k = m)) as [->|Hne]; [simplify_eq; by rewrite Hv|]. apply andb_false_intro2, IHf, E.
Qed.

Lemma identity_filled c d : has_capacity c -> same_type c d ->
  sel (st_fields (filled_in c d)) p_uuid = sel (st_fields c) p_uuid.
Proof.
  intros (n & Hs & Hn) Ht. unfold p_capacity in Hs. cbn [sel] in Hs.
  destruct (f_get (st_fields c) "WatcherConfig") as [v|] eqn:E; [|done]. destruct v as [| | | | | | |fs]; try done.
  apply (sel_filled c d _ _ fs E); [|done]. by apply (nonzero_not_blank fs ["SelfNodeInfo"; "Capacity"] n).
Qed.

Lemma ReadFile_mono (d d' : FS V) p x :
  (forall q n, node d q = Some n -> node d' q = Some n) -> ReadFile d p = Ok x -> ReadFile d' p = Ok x.
Proof.
  intros Hm. unfold ReadFile, Stat. destruct (decide (p = "")); [done|].
  destruct (node d p) as [nd|] eqn:E; simpl; [|done]. by rewrite (Hm _ _ E).
Qed.

Lemma persisted_read s p c : ReadFile (disk s) p = Ok (json_Marshal c) -> persisted s p = true.
Proof.
  unfold ReadFile, persisted. destruct (Stat (disk s) p) as [[|d]| | |]; try done. intros ?. simplify_eq.
  apply Z.ltb_lt, json_Size_pos.
Qed.

(** The identity in the persisted file is adopted; nothing else changes. *)
Lemma keep_identity_ok dflt s y x0 p s' :
  node_at s y x0 -> node_typed x0 -> same_type dflt x0 -> keep_identity dflt s 0 p = (s', Ok tt) ->
  exists y', node_at s' y' x0 /\ disk s' = disk s /\
    (forall q, apart p_uuid q = true -> sel (st_fields y') q = sel (st_fields y) q) /\
    (forall c, ReadFile (disk s) p = Ok (json_Marshal c) -> json_fits c = true -> same_type c x0 -> has_capacity c ->
       sel (st_fields y') p_uuid = sel (st_fields c) p_uuid).
Proof.
  intros N T Hdf. unfold keep_identity. rewrite deepcopy_copies.
  pose proof (node_at_new s y x0 dflt N) as N1. set (k := length (heap s)).
  assert (heap (new_object s dflt).1 !! k = Some dflt) as Hk by (simpl; by rewrite lookup_app_r, Nat.sub_diag by lia).
  assert (public (new_object s dflt).1 (IPtr k)) as Hpk.
  { split; [|simpl; rewrite length_app; simpl; lia]. intros [key Hkey]. simpl in Hkey.
    pose proof (ci_default s (na_inv _ _ _ N) _ _ Hkey). lia. }
  assert (k <> 0%nat) as Hk0 by (pose proof (lookup_lt_Some _ _ _ (na_conf _ _ _ N)); unfold k; lia).
  destruct (persisted s p) eqn:Hp.
  2: { intros R. unfold new_object in R. injection R as <-. exists y. split; [exact N1|]. split; [done|]. split; [done|].
       intros c Hc. apply persisted_read in Hc. congruence. }
  change (new_object s dflt) with ((new_object s dflt).1, k). cbv iota beta.
  set (s1 := (new_object s dflt).1) in *.
  destruct (Read_frame s1 p k dflt x0 (na_inv _ _ _ N1) Hpk Hk Hdf (na_default _ _ _ N1)) as (z & cm & HR & Hz & _).
  pose proof (quiet_Read s1 p (IPtr k) Hpk) as Q. rewrite HR in *. simpl in Q. set (s2 := mkRegistry _ _ _ _ _) in *.
  assert (heap s2 !! k = Some z) as Hkz by by apply list_lookup_insert_eq, Hpk.
  assert (heap s2 !! 0%nat = Some y) as Hy2 by (simpl; rewrite list_lookup_insert_ne by done; apply N1).
  assert (node_at s2 y x0) as N2 by (eapply node_at_quiet; [exact N1|done|done|apply N]).
  destruct (typed_same _ z T (symmetry Hz)) as [Tz _]. destruct (Tz p_uuid) as [u Hu]; [set_solver|].
  destruct (typed_same _ y T (symmetry (na_type _ _ _ N))) as [Ty _]. destruct (Ty p_uuid) as [u0 Hu0]; [set_solver|].
  rewrite (load_ok _ _ _ _ _ Hkz Hu). cbn [st_bind pure]. rewrite (store_ok _ _ _ _ _ Hy2). intros R. simplify_eq.
  exists (assigned y p_uuid (VString u)). split; [|split; [done|split]].
  - apply (node_at_store s2 y); [done|]. etrans; [by eapply assigned_type|apply N].
  - intros q Hq. by apply sel_assigned.
  - intros c Hc Hj Hct Hcap. rewrite (sel_assigned_eq y p_uuid _ _ ltac:(done) Hu0) by done.
    assert (same_type c dflt) as Hcd by by etrans.
    rewrite (Config_Read_ok s1 p k dflt c x0 Hc Hj Hk Hpk (na_inv _ _ _ N1) Hcd) in HR; [| |done].
    + assert (z = filled_in c x0) as ->.
      { injection HR as HR _. apply (f_equal (fun h => h !! k)) in HR. subst s1. simpl in *.
        rewrite !list_lookup_insert_eq in HR by apply Hpk. by injection HR. }
      by rewrite <- Hu, identity_filled.
    + destruct Hct as (_ & -> & _). apply N1.
Qed.

(** [InitConfig] ends with the configuration in the persisted file. *)
Lemma InitConfig_ok mc dflt s y x0 s' :
  node_at s y x0 -> node_typed x0 -> same_type dflt x0 -> InitConfig mc dflt s 0 = (s', Ok tt) ->
  exists y' p, heap s' !! 0%nat = Some y' /\ same_type y' x0 /\ sel (st_fields y') p_storage = Some (VString p) /\
    has_capacity y' /\ ReadFile (disk s') (conf_path p) = Ok (json_Marshal y') /\
    forall c, ReadFile (disk s) (conf_path p) = Ok (json_Marshal c) -> json_fits c = true -> same_type c x0 -> has_capacity c ->
      sel (st_fields y') p_uuid = sel (st_fields c) p_uuid.
Proof.
  intros N T Hdf. unfold InitConfig. set (z := mkStruct _ _ _). set (d := length (heap s)).
  change (new_object s z) with ((new_object s z).1, d). cbv iota beta. set (s1 := (new_object s z).1).
  pose proof (node_at_new s y x0 z N) as N1. fold s1 in N1.
  assert (heap s1 !! d = Some z) as Hd by (simpl; by rewrite lookup_app_r, Nat.sub_diag by lia).
  assert (d <> 0%nat) as Hd0 by (pose proof (lookup_lt_Some _ _ _ (na_conf _ _ _ N)); unfold d; lia).
  assert (forall path, path ∈ [p_storage; p_ip; p_uuid; p_sun] -> sel (st_fields z) path = Some (VString "")) as Hz.
  { intros path Hp. destruct (typed_same _ dflt T (symmetry Hdf)) as [Td _]. destruct (Td path Hp) as [t Ht].
    change (st_fields z) with (zero_fields (st_fields dflt)). by rewrite sel_zero, Ht. }
  assert (GetDefaultConf s1 (IPtr d) = (s1, (GetDefaultConf s1 (IPtr d)).2)) as ->.
  { unfold GetDefaultConf, getConfType, deref. rewrite Hd. simpl. by destruct (confDefaultMap s !! st_name dflt). }
  destruct (check_address_ok mc s1 d y x0 z N1 T Hd (Hz p_ip ltac:(set_solver))) as (y2 & -> & Ht2 & _). cbn [st_bind].
  pose proof (node_at_store s1 y y2 x0 N1 Ht2) as N2. set (s2 := with_heap s1 _) in *.
  assert (heap s2 !! d = Some z) as Hd2 by (simpl; by rewrite list_lookup_insert_ne).
  intros (s3 & p & C & R)%st_bind_inv.
  destruct (check_storage_ok mc s2 d y2 x0 z s3 p N2 T Hd0 Hd2 (Hz p_storage ltac:(set_solver)) C)
    as (y3 & N3 & Hp3 & Hc3 & _ & Hm).
  apply st_bind_inv in R as (s4 & [] & K & R).
  destruct (keep_identity_ok dflt s3 y3 x0 (conf_path p) s4 N3 T Hdf K) as (y4 & N4 & Hd4 & Hq & Hid).
  unfold WriteToPath in R. destruct (InitPath (disk s4) _) as [fs r]. apply st_bind_inv in R as (s5 & [] & E5 & R).
  injection E5 as <- ->. unfold write_to, marshal, deref in R. simpl in R. rewrite (na_conf _ _ _ N4) in R. simpl in R.
  destruct (WriteFile fs (conf_path p) (json_Marshal y4)) as [fs' r'] eqn:W. injection R as <- ->.
  exists y4, p. cbn [with_disk heap disk]. split; [apply N4|]. split; [apply N4|].
  split; [by rewrite Hq|]. split; [destruct Hc3 as (n & Hn & ?); exists n; by rewrite Hq|].
  split; [by eapply ReadFile_WriteFile|]. intros c Hc Hj Hct Hcap. apply Hid; try done.
  by eapply ReadFile_mono; [exact Hm|].
Qed.

(** What [nodeRun] does before it: the default is registered and the user's file read. *)
Lemma start_node_ok mc dflt sunAddr confPath files s' :
  node_typed dflt -> start_node mc dflt sunAddr confPath files = (s', Ok tt) ->
  exists y p, heap s' !! 0%nat = Some y /\ same_type y dflt /\ sel (st_fields y) p_storage = Some (VString p) /\
    has_capacity y /\ ReadFile (disk s') (conf_path p) = Ok (json_Marshal y) /\
    forall c, ReadFile files (conf_path p) = Ok (json_Marshal c) -> json_fits c = true -> same_type c dflt -> has_capacity c ->
      sel (st_fields y) p_uuid = sel (st_fields c) p_uuid.
Proof.
  intros T. unfold start_node. set (x0 := mkStruct _ _ _).
  assert (same_type x0 dflt) as Hx0.
  { destruct T as [Ts _]. destruct (Ts p_sun) as [t Ht]; [set_solver|]. by eapply assigned_type. }
  pose proof (typed_same _ x0 T (symmetry Hx0)) as T0. unfold new_object. cbv iota beta. set (s0 := with_heap _ _).
  intros (s1 & [] & R1 & R)%st_bind_inv.
  assert (conf_inv s0) as I0 by by split.
  assert (public s0 (IPtr 0)) as P0 by (split; [by intros [key Hk]|simpl; lia]).
  destruct (Register_ok s0 (IPtr 0) confPath x0 s1 I0 P0 eq_refl R1) as (I1 & D1 & _). specialize (D1 0%nat eq_refl).
  destruct (Register_shape s0 (IPtr 0) confPath x0 s1 eq_refl R1) as (h & c' & -> & [(? & _)|(_ & -> & ->)]); [done|].
  set (s1 := mkRegistry _ _ _ _ _) in *.
  assert (public s1 (IPtr 0)) as P1 by (apply (ci_public s1 I1 (st_name x0)), lookup_insert_eq).
  cbn [length ReadAll] in R.
  replace (default INil (confMap s1 !! st_name dflt)) with (IPtr 0) in R
    by by rewrite <- (proj1 (proj2 Hx0)); simpl; rewrite lookup_insert_eq.
  destruct (Read_frame s1 (default "" (confPathMap s1 !! st_name dflt)) 0 x0 x0 I1 P1 eq_refl ltac:(done) D1)
    as (z & cm & HR & Hz & Hcm).
  pose proof (quiet_Read s1 (default "" (confPathMap s1 !! st_name dflt)) (IPtr 0) P1) as Q.
  rewrite HR in R, Q. cbn [ReadAll st_bind fst] in R, Q. set (s2 := mkRegistry _ cm _ _ _) in *.
  assert (node_at s1 x0 x0) as N1 by by split.
  assert (node_at s2 z x0) as N2 by by eapply node_at_quiet; [exact N1|exact Q| |].
  assert (confMap s2 !! st_name x0 = Some (IPtr 0)) as Hc.
  { simpl. destruct Hcm as [-> | ->]; simpl; apply lookup_insert_eq. }
  change (length (heap (new_process files))) with 0%nat in R.
  rewrite (GetConf_ok s2 (st_name x0) 0 0 z z Hc eq_refl eq_refl) in R by (done || apply Hz).
  pose proof (node_at_store s2 z z x0 N2 Hz) as N3.
  destruct (InitConfig_ok mc dflt _ z x0 s' N3 T0 (symmetry Hx0) R) as (y & p & ? & ? & ? & ? & ? & Hid).
  exists y, p. do 5 (split; [done || by etrans|]). intros c Hf Hj Hct Hcap. apply Hid; try done. by etrans.
Qed.

(** C18: a node keeps its identity when it is started again. Whatever the command line,
    the user's file and the machine say, and whatever identity the new process has
    made up for itself, a node that keeps its data in the same directory has the
    identity it had in its last life. *)
Theorem node_identity_kept mc1 dflt1 sun1 path1 files s1 x mc2 dflt2 sun2 path2 s2 :
  node_typed dflt1 -> same_type dflt1 dflt2 ->
  start_node mc1 dflt1 sun1 path1 files = (s1, Ok tt) -> heap s1 !! 0%nat = Some x -> json_fits x = true ->
  start_node mc2 dflt2 sun2 path2 (disk s1) = (s2, Ok tt) -> load s2 0 p_storage = load s1 0 p_storage ->
  exists uuid, load s1 0 p_uuid = Ok (VString uuid) /\ load s2 0 p_uuid = Ok (VString uuid).
Proof.
  intros T1 E R1 Hx Hj R2 Hp.
  destruct (start_node_ok _ _ _ _ _ _ T1 R1) as (y1 & p1 & Hy1 & Ht1 & Hp1 & Hc1 & Hf1 & _). assert (y1 = x) as -> by congruence.
  destruct (start_node_ok _ _ _ _ _ _ (typed_same _ _ T1 E) R2) as (y2 & p2 & Hy2 & Ht2 & Hp2 & _ & _ & Hid).
  rewrite (load_ok _ _ _ _ _ Hy1 Hp1), (load_ok _ _ _ _ _ Hy2 Hp2) in Hp. simplify_eq.
  destruct (typed_same _ _ T1 (symmetry Ht1)) as [Ty _]. destruct (Ty p_uuid) as [u Hu]; [set_solver|].
  exists u. split; [by eapply load_ok|]. eapply load_ok; [done|]. rewrite <- Hu. apply Hid; try done. by etrans.
Qed.

(** An address that is not one of the machine's is not replaced by the default, as
    [InitConfig] means to, but by nothing. *)
Lemma unknown_address_emptied mc s d y x0 z t :
  node_at s y x0 -> node_typed x0 -> heap s !! d = Some z -> sel (st_fields z) p_ip = Some (VString "") ->
  sel (st_fields y) p_ip = Some (VString t) -> isAvailableIpAdder (m_addrs mc) t = false ->
  exists s', check_address mc s 0 d = (s', Ok tt) /\ load s' 0 p_ip = Ok (VString "").
Proof.
  intros N T Hd Hz Ht Ha. destruct (check_address_ok mc s d y x0 z N T Hd Hz) as (y' & -> & _ & Hs).
  eexists. split; [done|]. rewrite Ht in Hs. simpl in Hs. rewrite Ha in Hs.
  eapply load_ok; [|exact Hs]. by apply list_lookup_insert_eq, N.
Qed.

End node.

(** A node whose default names itself anew in every process. *)
Definition edge_parts (uuid : string) : Struct :=
  mkStruct "ecos/edge-node/config" "Config" [
    ("Config", "config.Config", VStruct []);
    ("HttpPort", "uint64", VUint 0);
    ("StoragePath", "string", VString "");
    ("WatcherConfig", "watcher.Config", VStruct [
      ("SunAddr", "string", VString "");
      ("SelfNodeInfo", "infos.NodeInfo", VStruct [
        ("RaftId", "uint64", VUint 1); ("Uuid", "string", VString uuid); ("IpAddr", "string", VString "127.0.0.1");
        ("RpcPort", "uint64", VUint 0); ("Capacity", "uint64", VUint 0)]);
      ("ClusterName", "string", VString "ecos_dev")]);
    ("GaiaConfig", "gaia.Config", VStruct [("BasePath", "string", VString "./ecos-data/gaia/"); ("ChunkSize", "uint64", VUint 1048576)])].

Definition demo_machine : Machine :=
  mkMachine (Ok [mkAddr true true true "127.0.0.1"; mkAddr true false true "10.0.0.7"]) (fun _ => Some (1000, 4096)).

Definition edge_default (uuid : string) : Struct := DefaultConfig (m_addrs demo_machine) (edge_parts uuid).

Definition first_life : Registry Struct := (start_node demo_machine (edge_default "uuid-1") "10.0.0.1:3267" "./edge_node.json" ∅).1.

Definition second_life : Registry Struct :=
  (start_node demo_machine (edge_default "uuid-2") "" "./edge_node.json" (disk first_life)).1.

Lemma edge_default_typed uuid : node_typed (edge_default uuid).
Proof. split; [|by eexists]. by intros path [->|[->|[->|[->|[]%elem_of_nil]%elem_of_cons]%elem_of_cons]%elem_of_cons]%elem_of_cons; eexists. Qed.

Lemma node_identity_kept_witness :
  exists uuid, load first_life 0 p_uuid = Ok (VString uuid) /\ load second_life 0 p_uuid = Ok (VString uuid).
Proof.
  refine (node_identity_kept demo_machine (edge_default "uuid-1") "10.0.0.1:3267" "./edge_node.json" ∅ first_life
    (default (edge_parts "") (heap first_life !! 0%nat)) demo_machine (edge_default "uuid-2") "" "./edge_node.json" second_life
    (edge_default_typed _) _ _ _ eq_refl _ _); vm_compute; done.
Defined.

Example identity_demo :
  load first_life 0 p_uuid = Ok (VString "uuid-1") /\ load second_life 0 p_uuid = Ok (VString "uuid-1") /\
  load first_life 0 p_ip = Ok (VString "10.0.0.7") /\
  (start_node (mkMachine (Ok [mkAddr true false true "10.9.9.9"]) (fun _ => Some (1, 1))) (edge_default "u") "" "x" ∅).2 = Ok tt.
Proof. vm_compute. done. Qed.
