(* ===== verification/EdgeNode.v ===== *)
(** * An edge node: [src/edge-node/cmd/node.go]

    [nodeRun] makes the parts of a node and joins them: the watcher and the metadata
    service both set a callback on the storage of cluster information that the
    directory applies its log to, and share the record of the node itself. Here the
    parts of [Config.v], [Moon.v], [Watcher.v] and [Alaya.v] are put together that way,
    with the page the node serves, and followed through a run. The servers, the gateway
    and the outpost, which only call these parts, are in files of their own. *)

From S2P Require Import Prelude GoStd Errno Infos InfoStorage Object Pipeline MetaStorage Alaya AlayaProofs Monitor Sun Moon RaftDiskProofs MoonProofs Watcher WatcherProofs Files Config.

Section edge.
Context `{CR : Crush} {S : Type} `{Storage S} {MS : Type} `{MetaStorage MS} (fresh : Z -> res MS).

Record EdgeNode := mkEdgeNode { e_watcher : Watcher S; e_alaya : Alaya MS }.

Definition set_watcher (e : EdgeNode) (w : Watcher S) : EdgeNode := mkEdgeNode w (e_alaya e).

Definition alaya_hook (self : NodeInfo) : string := "alaya-" +:+ Uuid self.

(** ** Applying what the directory is told *)

(** One callback of a storage, by the name it was set under. *)
Definition edge_callback (e : EdgeNode) (t : InfoType) (info : Information) (name : string) : EdgeNode * res unit :=
  if decide (name = alaya_hook (w_self (e_watcher e)) /\ t = IT_CLUSTER_INFO) then
    do e, a <- pure e (ApplyNewClusterInfo fresh (Watcher_Env (e_watcher e)) (e_alaya e) (GetClusterInfo (Information_BaseInfo info)));
    (mkEdgeNode (e_watcher e) a, Ok tt)
  else let '(w, r) := run_callback (e_watcher e) t info name in (set_watcher e w, r).

Fixpoint edge_callbacks (e : EdgeNode) (t : InfoType) (info : Information) (names : list string) : EdgeNode * res unit :=
  match names with
  | [] => (e, Ok tt)
  | n :: names' => do e, _ <- edge_callback e t info n; edge_callbacks e t info names'
  end.

Definition edge_apply (e : EdgeNode) (req : ProposeInfoRequest) : EdgeNode * res unit :=
  match apply_request (w_moon (e_watcher e)) req with
  | (m, Ok calls) =>
      let e := set_watcher e (set_moon (e_watcher e) m) in
      match pi_BaseInfo req with
      | Some b => edge_callbacks e (BaseInfo_GetInfoType b) (Inf_Base b) calls
      | None => (e, Ok tt)
      end
  | (m, Err x) => (set_watcher e (set_moon (e_watcher e) m), Err x)
  | (m, Panic) => (set_watcher e (set_moon (e_watcher e) m), Panic)
  | (m, Stuck) => (set_watcher e (set_moon (e_watcher e) m), Stuck)
  end.

Fixpoint edge_apply_all (e : EdgeNode) (reqs : list ProposeInfoRequest) : EdgeNode * res unit :=
  match reqs with
  | [] => (e, Ok tt)
  | r :: reqs' => do e, _ <- edge_apply e r; edge_apply_all e reqs'
  end.

(** ** Making and starting the parts *)

(** [NewAlaya] as a part of the node: it sets its callback and registers with the
    monitor, whose refusal is only reported. *)
Definition join_alaya (w : Watcher S) (storages : gmap Z MS) : res EdgeNode :=
  a ← NewAlaya fresh (Watcher_Env w) (RaftId (w_self w)) storages (w_current w);
  r ← set_hook (w_register w) IT_CLUSTER_INFO (alaya_hook (w_self w));
  let w := set_moon w (set_register (w_moon w) r) in
  Ok (mkEdgeNode (set_monitor w (Monitor_Register (w_monitor w) "alaya").1) a).

Definition NewEdgeNode (fresh_info : InfoType -> S) (self : NodeInfo) (conf : ClusterInfo) : res EdgeNode :=
  let m := NewMoon self conf (GetStorageRegister fresh_info) in
  w ← NewWatcher self m;
  join_alaya w ∅.

Definition with_self (a : Alaya MS) (id : Z) : Alaya MS :=
  mkAlaya id (PGMessageChans a) (PGRaftNode a) (MetaStorageRegister a) (a_state a) (clusterPipelines a) (a_outpost a).

(** [w.Run()] and [a.Run()]: the number the cloud gives is written into the record
    both parts point to. *)
Definition edge_Run (e : EdgeNode) (register : option (NodeInfo -> res RegisterResult)) (reply : res (list NodeInfo))
    : EdgeNode * res unit :=
  let '(w, r) := Watcher_Run (e_watcher e) register reply in
  (mkEdgeNode w (Alaya_Run (with_self (e_alaya e) (RaftId (w_self w)))), r).

(** ** The page of a node *)

Inductive NodePage := NP_text (s : string) | NP_nodes (l : list NodeInfo).

(** What is written to the client, in order; a missing watcher is reported and then
    dereferenced all the same. *)
Definition getClusterInfo (w : option (Watcher S)) : list (Z * NodePage) * res unit :=
  match w with
  | None => ([(502, NP_text "Edge Node Not Ready")], Panic)
  | Some w => ([(200, NP_nodes (NodesInfo (w_current w)))], Ok tt)
  end.

End edge.

Arguments EdgeNode S MS : clear implicits.

(** ** From a configuration *)

Section run.
Context {V : Type} `{Json V, Copier} `{CR : Crush} {S : Type} `{Storage S} {MS : Type} `{MetaStorage MS}.

Definition number (v : Value) : Z := match v with VUint n => n | _ => 0 end.

(** The node a configuration describes. *)
Definition conf_node (x : Struct) : NodeInfo :=
  let get p := default (VString "") (sel (st_fields x) p) in
  mkNodeInfo (number (get ["WatcherConfig"; "SelfNodeInfo"; "RaftId"])) (text (get p_uuid)) (text (get p_ip))
    (number (get p_port)) (number (get p_capacity)) NS_UNKNOWN.

(** [nodeRun]: the configuration, then the parts; what is wrong with the
    configuration is only reported. *)
Definition nodeRun (mc : Machine) (dflt : Struct) (sunAddr confPath : string) (files : FS V)
    (fresh_info : InfoType -> S) (fresh : Z -> res MS) (conf : ClusterInfo) : Registry V * res (EdgeNode S MS) :=
  match start_node mc dflt sunAddr confPath files with
  | (s, Panic) => (s, Panic)
  | (s, Stuck) => (s, Stuck)
  | (s, _) =>
      do s, x <- pure s (or_panic (heap s !! 0%nat));
      pure s (NewEdgeNode fresh fresh_info (conf_node x) conf)
  end.

End run.

(** ** The invariant

    [edge_wf n e]: the watcher and the service are well formed, the callbacks of both
    are set, every description there is has [n] groups for metadata, and no raft node is
    ahead of the current term. *)

Section proofs.
Context `{CR : Crush, !CrushOk} {S : Type} `{HS : Storage S, HL : !StorageLaws S, !StorageTotal S, !WritesTotal S}.
Context {MS : Type} `{HM : MetaStorage MS} (fresh : Z -> res MS).

Implicit Types e : EdgeNode S MS.

Definition groups_ok (n : Z) (o : option ClusterPipelines) : Prop :=
  forall cp pg, o = Some cp -> 1 <= pg <= n -> is_Ok (pipeline_at (MetaPipelines cp) pg) = true.

Definition described (n : Z) (c : ClusterInfo) : Prop := cluster_wf c /\ MetaPgNum c = n.

Record edge_wf (n : Z) e : Prop := {
  ew_watcher : watcher_wf (e_watcher e);
  ew_hook : exists s, storage_of (e_watcher e) IT_CLUSTER_INFO = Some s /\ alaya_hook (w_self (e_watcher e)) ∈ hooks s /\
    forall id c, view s !! id = Some (BI_ClusterInfo c) -> described n c;
  ew_alaya : alaya_wf (e_alaya e);
  ew_self : a_self (e_alaya e) = RaftId (w_self (e_watcher e));
  ew_groups : groups_ok n (clusterPipelines (e_alaya e));
  ew_rafts : forall pg r, PGRaftNode (e_alaya e) !! pg = Some r ->
    1 <= pg <= n /\ ClusterTerm (r_pipeline r) <= Term (w_current (e_watcher e))
}.

Lemma hooks_differ self : alaya_hook self <> hook_name self.
Proof. unfold alaya_hook, hook_name. intros E. by injection E. Qed.

(** *** The service's callback *)

Lemma pipelines_groups_ok c cp : cluster_wf c -> NewClusterPipelines c = Ok cp -> groups_ok (MetaPgNum c) (Some cp).
Proof.
  intros Hc E cp' pg [= <-] Hpg. destruct (NewClusterPipelines_spec c Hc) as [(_ & _ & cp' & E' & _ & [_ Hm] & _)|[_ E']].
  - rewrite E in E'. injection E' as <-. by destruct (Hm pg Hpg) as (p & -> & _).
  - congruence.
Qed.

(** No pipelines for a cluster without nodes. *)
Lemma pipelines_need_nodes c cp : cluster_wf c -> NewClusterPipelines c = Ok cp -> NodesInfo c <> [].
Proof.
  intros Hc E Hn. destruct (NewClusterPipelines_spec c Hc) as [(Hk & _)|[_ E']]; [|congruence].
  unfold healthyNodes, GetHealthNode in Hk. rewrite Hn in Hk. simpl in Hk. destruct Hc as (_ & _ & _ & ? & _). lia.
Qed.

(** What a description leaves of the service. *)
Record follows (n : Z) (c : ClusterInfo) (a a' : Alaya MS) : Prop := {
  f_wf : alaya_wf a';
  f_self : a_self a' = a_self a;
  f_groups : groups_ok n (clusterPipelines a');
  f_rafts : forall pg r, PGRaftNode a' !! pg = Some r -> 1 <= pg <= n /\ ClusterTerm (r_pipeline r) <= Term c;
  f_member : forall cp, NewClusterPipelines c = Ok cp -> clusterPipelines a' = Some cp /\
    forall p, p ∈ MetaPipelines cp -> a_self a' ∈ P_RaftId p -> exists r, PGRaftNode a' !! P_PgId p = Some r /\ r_pipeline r = p
}.

Lemma ApplyNewClusterInfo_follows n (w : Watcher S) (a : Alaya MS) c :
  described n c -> alaya_wf a -> groups_ok n (clusterPipelines a) ->
  (forall c0, GetClusterInfoByTerm w (LastTerm c) = Ok c0 -> described n c0) ->
  (forall pg r, PGRaftNode a !! pg = Some r -> 1 <= pg <= n /\ ClusterTerm (r_pipeline r) < Term c) ->
  (forall pg, 1 <= pg <= n -> is_Ok (fresh pg) = true) ->
  exists a', ApplyNewClusterInfo fresh (Watcher_Env w) a (Some c) = Ok a' /\ follows n c a a'.
Proof.
  intros [Hc Hn] Hwf Hg Hst Hr Hf. unfold ApplyNewClusterInfo. cbn [or_panic mbind res_bind].
  set (old := if decide (LastTerm c <> 0) then _ else _). assert (groups_ok n old) as Hold.
  { subst old. destruct (decide _); [|done]. cbn [Watcher_Env Alaya.GetClusterInfoByTerm].
    destruct (GetClusterInfoByTerm w (LastTerm c)) as [c0| | |] eqn:E0; try done. destruct (Hst c0 eq_refl) as [Hc0 <-].
    destruct (NewClusterPipelines c0) as [p| | |] eqn:Ep; try done. by apply pipelines_groups_ok. }
  assert (forall a1, alaya_wf a1 -> a_self a1 = a_self a -> clusterPipelines a1 = clusterPipelines a -> PGRaftNode a1 = PGRaftNode a ->
    (forall cp, NewClusterPipelines c <> Ok cp) -> follows n c a a1) as Hsame.
  { intros a1 H1 H2 H3 H4 H5. split; try done; [by rewrite H3| |intros cp Ecp; by destruct (H5 cp)].
    intros pg r. rewrite H4. intros Hpg. destruct (Hr pg r Hpg). split; [done|lia]. }
  destruct (decide (NodesInfo c = [])) as [Hnil|Hnil].
  { eexists. split; [done|]. apply Hsame; try done. intros cp Ecp. by apply (pipelines_need_nodes c cp). }
  destruct (NewClusterPipelines_spec c Hc) as [(_ & _ & cp & Ecp & _)|[_ Err]].
  2:{ rewrite Err. eexists. split; [done|]. apply Hsame; try done. by rewrite Err. }
  rewrite Ecp. subst n.
  destruct (apply_followed fresh (with_state a UPDATING) c cp old Hc Ecp Hwf Hr Hf) as (a' & -> & Hwf' & Hcp & Hs & Hrafts & Hm).
  { intros o pg -> Hpg. by apply Hold. }
  cbn [mbind res_bind]. eexists. split; [done|]. split; try done; cbn [with_state clusterPipelines PGRaftNode].
  - rewrite Hcp. by apply pipelines_groups_ok.
  - intros pg r Hpg. destruct (Hrafts pg r Hpg) as [Hrange ->]. split; [done|lia].
  - intros cp' Ecp'. assert (cp' = cp) as -> by congruence. split; [done|]. intros p Hin Hself. apply Hm; [done|]. by rewrite <- Hs.
Qed.

(** *** Callbacks in any order *)

(** The watcher taking over a description changes nothing the service looks up. *)
Lemma ApplyNewClusterInfo_current (w : Watcher S) (a : Alaya MS) c0 k c :
  ApplyNewClusterInfo fresh (Watcher_Env (set_current w c0 k)) a (Some c) = ApplyNewClusterInfo fresh (Watcher_Env w) a (Some c).
Proof.
  unfold ApplyNewClusterInfo. cbn [or_panic mbind res_bind]. destruct (decide (LastTerm c <> 0)) as [Hl|]; [|done].
  cbn [Watcher_Env Alaya.GetClusterInfoByTerm]. unfold GetClusterInfoByTerm. by rewrite !(decide_False (P:=LastTerm c = 0)) by done.
Qed.

Definition adopt (w : Watcher S) (c : ClusterInfo) : Watcher S := (clusterInfoChanged w (Inf_Base (BI_ClusterInfo c))).1.

Lemma adopt_set (w : Watcher S) c : exists k, adopt w c = set_current w c k.
Proof. by eexists. Qed.

Lemma edge_callbacks_cluster c names : NoDup names -> forall (w : Watcher S) (a a' : Alaya MS),
  (alaya_hook (w_self w) ∈ names -> ApplyNewClusterInfo fresh (Watcher_Env w) a (Some c) = Ok a') ->
  edge_callbacks fresh (mkEdgeNode w a) IT_CLUSTER_INFO (Inf_Base (BI_ClusterInfo c)) names =
    (mkEdgeNode (if decide (hook_name (w_self w) ∈ names) then adopt w c else w)
       (if decide (alaya_hook (w_self w) ∈ names) then a' else a), Ok tt).
Proof.
  induction 1 as [|x names Hx Hnd IH]; intros w a a' Ha.
  { rewrite !decide_False by apply not_elem_of_nil. done. }
  cbn [edge_callbacks]. unfold edge_callback. cbn [e_watcher e_alaya]. pose proof (hooks_differ (w_self w)) as Hd.
  destruct (decide (x = alaya_hook (w_self w) /\ _)) as [[-> _]|Hna].
  - cbn [Information_BaseInfo GetClusterInfo]. rewrite Ha by (by left). cbn [pure st_bind e_watcher e_alaya].
    rewrite (IH w a' a') by (intros Hin; by destruct (Hx Hin)). rewrite (decide_False (P:=alaya_hook (w_self w) ∈ names)) by done.
    rewrite (decide_True (P:=alaya_hook (w_self w) ∈ alaya_hook (w_self w) :: names)) by (by left).
    rewrite (decide_ext (hook_name (w_self w) ∈ alaya_hook (w_self w) :: names) (hook_name (w_self w) ∈ names)); [done|].
    rewrite elem_of_cons. split; [intros [?|?]; congruence|by right].
  - assert (x <> alaya_hook (w_self w)) as Hxa by (intros ->; by apply Hna). unfold run_callback.
    assert (alaya_hook (w_self w) ∈ x :: names <-> alaya_hook (w_self w) ∈ names) as Hal.
    { rewrite elem_of_cons. split; [intros [?|?]; congruence|by right]. }
    destruct (decide (x = hook_name (w_self w))) as [->|Hxw].
    + destruct (adopt_set w c) as [k Hk]. unfold adopt in Hk. unfold clusterInfoChanged in *. cbn [Information_BaseInfo GetClusterInfo fst] in *.
      unfold set_watcher; cbn [e_watcher e_alaya st_bind]. rewrite (IH _ a a'); cbn [set_current w_self].
      * rewrite (decide_False (P:=hook_name (w_self w) ∈ names)) by done. rewrite (decide_True (P:=hook_name (w_self w) ∈ hook_name (w_self w) :: names)) by (by left).
        by rewrite (decide_ext (alaya_hook (w_self w) ∈ hook_name (w_self w) :: names) (alaya_hook (w_self w) ∈ names)).
      * intros Hin. rewrite ApplyNewClusterInfo_current. apply Ha. by right.
    + unfold set_watcher; cbn [e_watcher e_alaya st_bind]. rewrite (IH w a a') by (intros Hin; apply Ha; by right).
      rewrite (decide_ext (alaya_hook (w_self w) ∈ x :: names) (alaya_hook (w_self w) ∈ names)) by done.
      rewrite (decide_ext (hook_name (w_self w) ∈ x :: names) (hook_name (w_self w) ∈ names)); [done|].
      rewrite elem_of_cons. split; [intros [?|?]; congruence|by right].
Qed.

(** *** One request *)

Lemma edge_callbacks_other t info names : t <> IT_CLUSTER_INFO -> forall e,
  edge_callbacks fresh e t info names =
    (set_watcher e (run_callbacks (e_watcher e) t info names).1, (run_callbacks (e_watcher e) t info names).2).
Proof.
  intros Ht. induction names as [|x names IH]; intros e; [by destruct e|]. cbn [edge_callbacks run_callbacks]. unfold edge_callback.
  rewrite decide_False by tauto. destruct (run_callback _ _ _ _) as [w [[]| | |]]; try done. cbn [st_bind]. by rewrite IH.
Qed.

(** What is not about the cluster only concerns the watcher. *)
Lemma edge_apply_other e req b : pi_BaseInfo req = Some b -> BaseInfo_GetInfoType b <> IT_CLUSTER_INFO ->
  edge_apply fresh e req = (set_watcher e (watcher_apply (e_watcher e) req).1, (watcher_apply (e_watcher e) req).2).
Proof.
  intros Hb Ht. unfold edge_apply, watcher_apply. destruct (apply_request _ _) as [m [calls| | |]]; try done.
  rewrite Hb. by apply edge_callbacks_other.
Qed.

(** What is about neither nodes nor the cluster only concerns the directory. *)
Lemma run_callbacks_other (w : Watcher S) t info names : t <> IT_NODE_INFO -> t <> IT_CLUSTER_INFO ->
  run_callbacks w t info names = (w, Ok tt).
Proof.
  intros Hn Hc. induction names as [|x names IH]; [done|]. cbn [run_callbacks]. unfold run_callback.
  destruct (decide _); [destruct t; done|]. exact IH.
Qed.

Lemma edge_apply_frame e req b : pi_BaseInfo req = Some b -> BaseInfo_GetInfoType b <> IT_NODE_INFO -> BaseInfo_GetInfoType b <> IT_CLUSTER_INFO ->
  exists m, edge_apply fresh e req = (set_watcher e (set_moon (e_watcher e) m), Ok tt) /\
    forall t, t = IT_NODE_INFO \/ t = IT_CLUSTER_INFO ->
      storageMap (infoStorageRegister m) !! t = storageMap (infoStorageRegister (w_moon (e_watcher e))) !! t.
Proof.
  intros Hb Hn Hc. set (m0 := w_moon (e_watcher e)). exists (apply_request m0 req).1. split.
  - rewrite (edge_apply_other e req b Hb Hc). unfold watcher_apply. fold m0.
    destruct (apply_request_write (dom (register_view (infoStorageRegister m0))) m0 req eq_refl) as [_ Hok]. destruct Hok as [calls E].
    { unfold has_info. rewrite Hb. by destruct b. }
    destruct (apply_request m0 req) as [m r]. cbn [fst snd] in *. subst r. rewrite Hb. by rewrite run_callbacks_other.
  - intros t Ht. apply (apply_request_frame m0 req b t Hb). by destruct Ht as [-> | ->].
Qed.

Definition node_request (n : NodeInfo) : ProposeInfoRequest :=
  mkProposeInfoRequest ProposeInfoRequest_ADD (FormatUint (RaftId n)) (Some (BI_NodeInfo n)).

Lemma edge_apply_node n e i : edge_wf n e -> is_u64 (RaftId i) ->
  exists e', edge_apply fresh e (node_request i) = (e', Ok tt) /\ edge_wf n e' /\
    w_current (e_watcher e') = w_current (e_watcher e) /\ e_alaya e' = e_alaya e /\
    w_self (e_watcher e') = w_self (e_watcher e) /\ storage_of (e_watcher e') IT_CLUSTER_INFO = storage_of (e_watcher e) IT_CLUSTER_INFO.
Proof.
  intros [K1 (s & Hs & Hh & Hd) K3 K4 K5 K6] Hu. rewrite (edge_apply_other e (node_request i) (BI_NodeInfo i)) by done.
  destruct (apply_node_frame (e_watcher e) i K1 Hu) as (w' & s0 & s' & E & _ & _ & _ & Hwf & Hc & Hself & Ho).
  fold (node_request i) in E. rewrite E. eexists. split; [done|]. split; [|split_and!; try done; by apply Ho]. unfold set_watcher. split; cbn [fst e_watcher e_alaya]; try done.
  - exists s. rewrite Hself. split; [|done]. by rewrite Ho.
  - by rewrite Hself.
  - by rewrite Hc.
Qed.

(** Descriptions that can be looked up are in the storage. *)
Lemma found_described n (w : Watcher S) s t c :
  storage_of w IT_CLUSTER_INFO = Some s -> (forall id c, view s !! id = Some (BI_ClusterInfo c) -> described n c) ->
  (Term (w_current w) <> 0 -> described n (w_current w)) -> GetClusterInfoByTerm w t = Ok c -> described n c.
Proof.
  intros Hs Hd Hc E. destruct (decide (t = 0)) as [->|Hne].
  - unfold GetClusterInfoByTerm in E. rewrite decide_True in E by done. destruct (decide _); [done|]. injection E as <-. by apply Hc.
  - apply (GetClusterInfoByTerm_inv w s) in E; [|done..]. by eapply Hd.
Qed.

Lemma current_described n e s : edge_wf n e -> storage_of (e_watcher e) IT_CLUSTER_INFO = Some s ->
  (forall id c, view s !! id = Some (BI_ClusterInfo c) -> described n c) ->
  Term (w_current (e_watcher e)) <> 0 -> described n (w_current (e_watcher e)).
Proof.
  intros [(_ & _ & Hcur & _) _ _ _ _ _] Hs Hd Ht. destruct (Hcur Ht) as (s' & Hs' & Hv). rewrite Hs in Hs'. injection Hs' as <-. by eapply Hd.
Qed.

Lemma edge_apply_cluster n e c :
  edge_wf n e -> is_u64 (Term c) -> described n c -> Term (w_current (e_watcher e)) < Term c ->
  (forall pg, 1 <= pg <= n -> is_Ok (fresh pg) = true) ->
  exists e', edge_apply fresh e (cluster_request c) = (e', Ok tt) /\ edge_wf n e' /\ w_current (e_watcher e') = c /\
    follows n c (e_alaya e) (e_alaya e') /\
    exists s s', storage_of (e_watcher e) IT_CLUSTER_INFO = Some s /\ storage_of (e_watcher e') IT_CLUSTER_INFO = Some s' /\
      view s' = <[FormatUint (Term c) := BI_ClusterInfo c]> (view s).
Proof.
  intros K Hu Hd Ht Hf. pose proof K as [K1 (s & Hs & Hh & Hdesc) K3 K4 K5 K6]. destruct e as [w a]. cbn [e_watcher e_alaya] in *.
  pose proof K1 as (_ & (s0 & Hs0 & Hok & Hhook & _) & _). assert (s0 = s) as -> by congruence.
  destruct (Register_Update_total (infoStorageRegister (w_moon w)) (BI_ClusterInfo c) s Hs) as (s' & calls & E & H1 & H2 & H3 & H4 & H5).
  set (w1 := set_moon w (set_register (w_moon w) (InfoStorage.Register (infoStorageRegister (w_moon w)) IT_CLUSTER_INFO s'))).
  assert (storage_of w1 IT_CLUSTER_INFO = Some s') as Hs1 by (unfold storage_of, w_register; cbn; by rewrite lookup_insert_eq).
  assert (forall id c, view s' !! id = Some (BI_ClusterInfo c) -> described n c) as Hdesc'.
  { intros id c'. rewrite H2. intros [[_ [= <-]]|[_ Hv]]%lookup_insert_Some; [done|by eapply Hdesc]. }
  destruct (ApplyNewClusterInfo_follows n w1 a c Hd K3 K5) as (a' & Ea & Hfol); [| |done|].
  { intros c0. apply (found_described n w1 s'); [done|done|]. intros Hc. by apply (current_described n (mkEdgeNode w a) s). }
  { intros pg r Hr. destruct (K6 pg r Hr). split; [done|lia]. }
  exists (mkEdgeNode (adopt w1 c) a'). split; [|split; [|split; [done|split; [done|by exists s, s']]]].
  - unfold edge_apply, apply_request, cluster_request. cbn [pi_Operate pi_BaseInfo info_id pure st_bind or_panic BaseInfo_GetInfoType e_watcher].
    unfold storage_of, w_register in Hs. rewrite decide_True by (apply elem_of_dom; by eexists). cbn [st_bind].
    rewrite E. cbn [BaseInfo_GetInfoType]. unfold set_watcher. cbn [e_alaya e_watcher]. fold w1.
    rewrite (edge_callbacks_cluster c calls H4 w1 a a'); [|done]. by rewrite !decide_True by (apply H5; done).
  - assert (watcher_wf (adopt w1 c)) as Hwf'.
    { apply (apply_cluster_wf w (adopt w1 c) c s s'); try done; [by apply H1|].
      intros t Hne. unfold storage_of, w_register, adopt. cbn. by rewrite lookup_insert_ne. }
    destruct Hfol as [F1 F2 F3 F4 _]. split; cbn [e_watcher e_alaya]; try done.
    + exists s'. split; [done|]. split; [|done]. by rewrite H3.
    + by rewrite F2.
Qed.

(** *** Looking up by term *)

Definition knows (w : Watcher S) (c : ClusterInfo) : Prop := Term c <> 0 /\ GetClusterInfoByTerm w (Term c) = Ok c.

Lemma knows_stored (w : Watcher S) s c : storage_of w IT_CLUSTER_INFO = Some s -> Term c <> 0 ->
  (knows w c <-> view s !! FormatUint (Term c) = Some (BI_ClusterInfo c)).
Proof.
  intros Hs Hc. split; [intros [_ E]; by eapply GetClusterInfoByTerm_inv|]. intros Hv. split; [done|]. by eapply GetClusterInfoByTerm_stored.
Qed.

(** *** Making the parts *)

Lemma served_storage (fresh_info : InfoType -> S) t : t = IT_NODE_INFO \/ t = IT_CLUSTER_INFO ->
  storageMap (GetStorageRegister fresh_info) !! t = Some (fresh_info t).
Proof. intros [-> | ->]; unfold GetStorageRegister, registerAllStorage; cbn [InfoStorage.Register storageMap]; by simplify_map_eq. Qed.

Lemma set_hook_ok (r : StorageRegister S) t s name : storageMap r !! t = Some s ->
  set_hook r t name = Ok (InfoStorage.Register r t (Storage_SetOnUpdate s name)).
Proof. intros E. unfold set_hook, GetStorage. by rewrite E. Qed.

Lemma NewEdgeNode_ok n (fresh_info : InfoType -> S) self conf :
  (forall t, view (fresh_info t) = ∅ /\ storage_ok (fresh_info t)) ->
  exists e, NewEdgeNode fresh fresh_info self conf = Ok e /\ edge_wf n e /\ w_current (e_watcher e) = empty_cluster.
Proof.
  intros Hf. unfold NewEdgeNode, NewWatcher. set (m := NewMoon self conf _).
  assert (infoStorageRegister m = GetStorageRegister fresh_info) as -> by done.
  rewrite (set_hook_ok _ _ (fresh_info IT_NODE_INFO)) by (apply served_storage; by left). cbn [mbind res_bind].
  set (sn := Storage_SetOnUpdate (fresh_info IT_NODE_INFO) (hook_name self)).
  rewrite (set_hook_ok _ IT_CLUSTER_INFO (fresh_info IT_CLUSTER_INFO)) by (cbn [InfoStorage.Register storageMap]; rewrite lookup_insert_ne by done; apply served_storage; by right).
  cbn [mbind res_bind]. set (sc := Storage_SetOnUpdate (fresh_info IT_CLUSTER_INFO) (hook_name self)).
  unfold join_alaya, NewAlaya, ApplyNewClusterInfo. cbn [w_current w_self empty_cluster or_panic mbind res_bind LastTerm NodesInfo].
  rewrite decide_True by done. cbn [mbind res_bind w_register w_moon set_register infoStorageRegister].
  rewrite (set_hook_ok _ IT_CLUSTER_INFO sc) by (cbn [InfoStorage.Register storageMap]; by rewrite lookup_insert_eq).
  cbn [mbind res_bind]. eexists. split; [done|]. split; [|done].
  destruct (hook_view (fresh_info IT_NODE_INFO) (hook_name self)) as (N1 & N2 & N3). fold sn in N1, N2, N3.
  destruct (hook_view (fresh_info IT_CLUSTER_INFO) (hook_name self)) as (C1 & C2 & C3). fold sc in C1, C2, C3.
  destruct (hook_view sc (alaya_hook self)) as (D1 & D2 & D3). pose proof (Hf IT_NODE_INFO) as [Vn On]. pose proof (Hf IT_CLUSTER_INFO) as [Vc Oc].
  set (sc' := Storage_SetOnUpdate sc (alaya_hook self)) in *.
  assert (forall id b, view sc' !! id = Some b -> False) as Hempty by (intros id b; by rewrite D2, C2, Vc, lookup_empty).
  split; cbn [e_watcher e_alaya]; try done.
  - split_and!; [..|done|done].
    + exists sn. unfold storage_of, w_register. cbn. rewrite !lookup_insert_ne, lookup_insert_eq by done. split_and!; [done|by apply N3| |].
      * rewrite N1. set_solver.
      * rewrite N2, Vn. apply map_Forall_empty.
    + exists sc'. unfold storage_of, w_register. cbn. rewrite lookup_insert_eq. split_and!; [done|by apply D3, C3| |].
      * rewrite D1, C1. set_solver.
      * by intros id b Hb%Hempty.
  - exists sc'. split; [unfold storage_of, w_register; cbn; by rewrite lookup_insert_eq|]. split; [rewrite D1; set_solver|].
    by intros id c Hb%Hempty.
Qed.

(** *** Running them *)

Lemma Watcher_Run_keeps (w : Watcher S) sky reply : let w' := (Watcher_Run w sky reply).1 in
  w_register w' = w_register w /\ w_current w' = w_current w /\ Uuid (w_self w') = Uuid (w_self w) /\
  m_stopped (w_moon w') = m_stopped (w_moon w).
Proof.
  unfold Watcher_Run, AskSky. destruct sky as [f|]; [|done]. destruct (f (w_self w)) as [r| | |]; try done. cbn [pure st_bind].
  destruct (rr_ClusterInfo r) as [c|]; [|done]. cbn [or_panic st_bind]. destruct (LeaderInfo c) as [l|]; [|done].
  unfold RequestJoinCluster. destruct (decide _); [done|]. by destruct reply.
Qed.

Lemma edge_Run_wf n e sky reply : edge_wf n e -> let e' := (edge_Run e sky reply).1 in
  edge_wf n e' /\ w_current (e_watcher e') = w_current (e_watcher e).
Proof.
  intros [K1 K2 K3 K4 K5 K6]. pose proof (Watcher_Run_keeps (e_watcher e) sky reply) as Hk. unfold edge_Run.
  destruct (Watcher_Run _ _ _) as [w r]. cbn [fst e_watcher] in *. destruct Hk as (Hr & Hc & Hu & _).
  assert (forall t, storage_of w t = storage_of (e_watcher e) t) as Hst by (intros t; unfold storage_of; by rewrite Hr).
  split; [|done]. split; cbn [e_watcher e_alaya]; try done.
  - destruct K1 as ((sn & H1 & H2 & H3 & H4) & (sc & H5 & H6 & H7 & H8) & H9 & H10). unfold watcher_wf, hooked, hook_name in *.
    rewrite Hc. split_and!; [exists sn|exists sc| |done]; by rewrite ?Hst, ?Hu.
  - destruct K2 as (s & H1 & H2 & H3). exists s. rewrite Hst. unfold alaya_hook in *. by rewrite Hu.
  - by rewrite Hc.
Qed.

(** *** A run *)

Inductive EdgeEvent := EE_Node (i : NodeInfo) | EE_Cluster (c : ClusterInfo) | EE_Other (req : ProposeInfoRequest).

(** A request about a bucket, a user or a volume. *)
Definition about_other (req : ProposeInfoRequest) : Prop :=
  exists b, pi_BaseInfo req = Some b /\ BaseInfo_GetInfoType b <> IT_NODE_INFO /\ BaseInfo_GetInfoType b <> IT_CLUSTER_INFO.

Definition request_of (ev : EdgeEvent) : ProposeInfoRequest :=
  match ev with EE_Node i => node_request i | EE_Cluster c => cluster_request c | EE_Other req => req end.

(** The descriptions of a log have rising terms, and the same number of groups. *)
Fixpoint rising (n term : Z) (evs : list EdgeEvent) : Prop :=
  match evs with
  | [] => True
  | EE_Node i :: evs' => is_u64 (RaftId i) /\ rising n term evs'
  | EE_Other req :: evs' => about_other req /\ rising n term evs'
  | EE_Cluster c :: evs' => is_u64 (Term c) /\ described n c /\ term < Term c /\ rising n (Term c) evs'
  end.

Definition last_description (c : ClusterInfo) (evs : list EdgeEvent) : ClusterInfo :=
  foldl (fun c ev => match ev with EE_Cluster c' => c' | _ => c end) c evs.

(** The service is where the current description puts it. *)
Definition placed e : Prop :=
  forall cp, cluster_wf (w_current (e_watcher e)) -> NewClusterPipelines (w_current (e_watcher e)) = Ok cp ->
    clusterPipelines (e_alaya e) = Some cp /\
    forall p, p ∈ MetaPipelines cp -> RaftId (w_self (e_watcher e)) ∈ P_RaftId p ->
      exists r, PGRaftNode (e_alaya e) !! P_PgId p = Some r /\ r_pipeline r = p.

Lemma knows_u64 e n s c : edge_wf n e -> storage_of (e_watcher e) IT_CLUSTER_INFO = Some s -> knows (e_watcher e) c -> is_u64 (Term c).
Proof.
  intros [(_ & (s0 & Hs0 & _ & _ & Hv) & _) _ _ _ _ _] Hs [Ht Hk]. rewrite Hs in Hs0. injection Hs0 as <-.
  apply (GetClusterInfoByTerm_inv _ s) in Hk; [|done..]. destruct (Hv _ _ Hk) as (c' & [= <-] & _ & Hu). done.
Qed.

(** A step of the run. *)
Lemma step_cluster n e c :
  edge_wf n e -> is_u64 (Term c) -> described n c -> Term (w_current (e_watcher e)) < Term c ->
  (forall pg, 1 <= pg <= n -> is_Ok (fresh pg) = true) ->
  exists e', edge_apply fresh e (cluster_request c) = (e', Ok tt) /\ edge_wf n e' /\ w_current (e_watcher e') = c /\ placed e' /\
    knows (e_watcher e') c /\ forall c0, knows (e_watcher e) c0 -> Term c0 < Term c -> knows (e_watcher e') c0.
Proof.
  intros K Hu Hd Ht Hf. destruct (edge_apply_cluster n e c K Hu Hd Ht Hf) as (e' & E & K' & Hc & Hfol & s & s' & Hs & Hs' & Hv).
  assert (Term c <> 0) as Hnz by (destruct K as [(_ & _ & _ & Hcu) _ _ _ _ _]; unfold is_u64 in Hcu; lia).
  exists e'. split_and!; try done.
  - intros cp _ Ecp. rewrite Hc in Ecp. rewrite <- (ew_self _ _ K'). by apply (f_member _ _ _ _ Hfol).
  - apply (knows_stored _ s'); [done..|]. rewrite Hv. by rewrite lookup_insert_eq.
  - intros c0 Hk Hlt. pose proof (knows_u64 e n s c0 K Hs Hk) as Hu0. apply (knows_stored _ s'); [done|apply Hk|].
    rewrite Hv, lookup_insert_ne; [apply (knows_stored (e_watcher e) s); [done|apply Hk|done]|].
    intros Eq. apply FormatUint_inj in Eq; unfold is_u64 in *; lia.
Qed.

Lemma step_node n e i : edge_wf n e -> placed e -> is_u64 (RaftId i) ->
  exists e', edge_apply fresh e (node_request i) = (e', Ok tt) /\ edge_wf n e' /\ placed e' /\
    w_current (e_watcher e') = w_current (e_watcher e) /\ forall c0, knows (e_watcher e) c0 -> knows (e_watcher e') c0.
Proof.
  intros K P Hu. destruct (edge_apply_node n e i K Hu) as (e' & E & K' & Hc & Ha & Hs & Hst). exists e'. split_and!; try done.
  - unfold placed. by rewrite Hc, Ha, Hs.
  - intros c0 [Hnz Hk]. split; [done|]. destruct K as [_ (s & Hs1 & _) _ _ _ _].
    apply (knows_stored _ s); [by rewrite Hst|done|]. by apply (knows_stored (e_watcher e) s).
Qed.

Lemma step_other n e req : edge_wf n e -> placed e -> about_other req ->
  exists e', edge_apply fresh e req = (e', Ok tt) /\ edge_wf n e' /\ placed e' /\
    w_current (e_watcher e') = w_current (e_watcher e) /\ forall c0, knows (e_watcher e) c0 -> knows (e_watcher e') c0.
Proof.
  intros K P (b & Hb & Hn & Hc). destruct (edge_apply_frame e req b Hb Hn Hc) as (m & E & Hst).
  set (w' := set_moon (e_watcher e) m) in *.
  assert (Hs : forall t, t = IT_NODE_INFO \/ t = IT_CLUSTER_INFO -> storage_of w' t = storage_of (e_watcher e) t) by done.
  destruct K as [((sn & N1 & N2) & (sc & C1 & C2) & Hcur & Hu) (s & S1 & S2) K3 K4 K5 K6].
  exists (set_watcher e w'). split; [done|]. split; [|split; [done|split; [done|]]].
  - constructor; try done; cbn [e_watcher set_watcher].
    + split_and!; [exists sn; rewrite Hs by auto; done|exists sc; rewrite Hs by auto; done| |done].
      intros Ht. destruct (Hcur Ht) as (s0 & ? & ?). exists s0. by rewrite Hs by auto.
    + exists s. rewrite Hs by auto. done.
  - intros c0 [Hnz Hk]. split; [done|]. apply (knows_stored _ s); [cbn [e_watcher set_watcher]; by rewrite Hs by auto|done|].
    by apply (knows_stored (e_watcher e) s).
Qed.

Lemma edge_run n evs : (forall pg, 1 <= pg <= n -> is_Ok (fresh pg) = true) -> forall e,
  edge_wf n e -> placed e -> rising n (Term (w_current (e_watcher e))) evs ->
  exists e', edge_apply_all fresh e (request_of <$> evs) = (e', Ok tt) /\ edge_wf n e' /\ placed e' /\
    w_current (e_watcher e') = last_description (w_current (e_watcher e)) evs /\
    (forall c, knows (e_watcher e) c -> Term c <= Term (w_current (e_watcher e)) -> knows (e_watcher e') c) /\
    forall c, EE_Cluster c ∈ evs -> knows (e_watcher e') c.
Proof.
  intros Hf. induction evs as [|[i|c|req] evs IH]; intros e K P Hr.
  - exists e. split_and!; try done. intros c Hc. by apply not_elem_of_nil in Hc.
  - destruct Hr as [Hu Hr]. destruct (step_node n e i K P Hu) as (e1 & E1 & K1 & P1 & Hc1 & Hk1). rewrite <- Hc1 in Hr.
    destruct (IH e1 K1 P1 Hr) as (e' & E & K' & P' & Hc & Hk & Hin). exists e'. split_and!; try done.
    + cbn [fmap list_fmap request_of edge_apply_all]. rewrite E1. exact E.
    + rewrite Hc. cbn [last_description foldl]. by rewrite Hc1.
    + intros c Hkc Hle. apply Hk; [by apply Hk1|by rewrite Hc1].
    + intros c [?|Hc0]%elem_of_cons; [done|by apply Hin].
  - destruct Hr as (Hu & Hd & Hlt & Hr). destruct (step_cluster n e c K Hu Hd Hlt Hf) as (e1 & E1 & K1 & Hc1 & P1 & Hkc & Hk1).
    rewrite <- Hc1 in Hr. destruct (IH e1 K1 P1 Hr) as (e' & E & K' & P' & Hc & Hk & Hin). exists e'. split_and!; try done.
    + cbn [fmap list_fmap request_of edge_apply_all]. rewrite E1. exact E.
    + rewrite Hc. cbn [last_description foldl]. by rewrite Hc1.
    + intros c0 Hkc0 Hle. apply Hk; [apply Hk1; [done|lia]|rewrite Hc1; lia].
    + intros c0 [[= ->]|Hc0]%elem_of_cons; [|by apply Hin]. apply Hk; [done|]. rewrite Hc1. lia.
  - destruct Hr as [Ho Hr]. destruct (step_other n e req K P Ho) as (e1 & E1 & K1 & P1 & Hc1 & Hk1). rewrite <- Hc1 in Hr.
    destruct (IH e1 K1 P1 Hr) as (e' & E & K' & P' & Hc & Hk & Hin). exists e'. split_and!; try done.
    + cbn [fmap list_fmap request_of edge_apply_all]. rewrite E1. exact E.
    + rewrite Hc. cbn [last_description foldl]. by rewrite Hc1.
    + intros c Hkc Hle. apply Hk; [by apply Hk1|by rewrite Hc1].
    + intros c [?|Hc0]%elem_of_cons; [done|by apply Hin].
Qed.

End proofs.

(** C10: an edge node follows its cluster. The parts [nodeRun] makes fit: the node
    starts; once the watcher has run, let the directory apply any requests about nodes,
    buckets, users and volumes and any descriptions of rising terms. Nothing panics, whatever the order in which
    the storage of descriptions runs the callbacks of the watcher and of the metadata
    service; the last description is the current one and is what the node's page shows;
    every description is found under its term; and if the last one has its pipelines,
    the metadata service has them, with a raft node with exactly its pipeline for every
    group the node is a member of under the number the cloud gave it. *)
Theorem edge_node_follows `{CR : Crush, !CrushOk} {S : Type} `{HS : Storage S, HL : !StorageLaws S, !StorageTotal S}
    `{!WritesTotal S} {MS : Type} `{HM : MetaStorage MS} (fresh : Z -> res MS) (fresh_info : InfoType -> S) self conf n evs :
  (forall t, view (fresh_info t) = ∅ /\ storage_ok (fresh_info t)) -> (forall pg, 1 <= pg <= n -> is_Ok (fresh pg) = true) ->
  rising n 0 evs ->
  exists e0, NewEdgeNode fresh fresh_info self conf = Ok e0 /\
    forall sky reply e1, edge_Run e0 sky reply = (e1, Ok tt) ->
      exists e2, edge_apply_all fresh e1 (request_of <$> evs) = (e2, Ok tt) /\
        let c := last_description empty_cluster evs in
        w_current (e_watcher e2) = c /\ getClusterInfo (Some (e_watcher e2)) = ([(200, NP_nodes (NodesInfo c))], Ok tt) /\
        (forall c', EE_Cluster c' ∈ evs -> GetClusterInfoByTerm (e_watcher e2) (Term c') = Ok c') /\
        forall cp, cluster_wf c -> NewClusterPipelines c = Ok cp ->
          clusterPipelines (e_alaya e2) = Some cp /\
          forall p, p ∈ MetaPipelines cp -> RaftId (w_self (e_watcher e2)) ∈ P_RaftId p ->
            exists r, PGRaftNode (e_alaya e2) !! P_PgId p = Some r /\ r_pipeline r = p.
Proof.
  intros Hfi Hf Hr. destruct (NewEdgeNode_ok fresh n fresh_info self conf Hfi) as (e0 & E0 & K0 & Hc0). exists e0. split; [done|].
  intros sky reply e1 E1. pose proof (edge_Run_wf n e0 sky reply K0) as HK. rewrite E1 in HK. cbn [fst] in HK. destruct HK as [K1 Hc1].
  rewrite Hc0 in Hc1. destruct (edge_run fresh n evs Hf e1 K1) as (e2 & E & _ & P & Hc & _ & Hk).
  - intros cp (_ & _ & Hm & _). exfalso. rewrite Hc1 in Hm. simpl in Hm. lia.
  - by rewrite Hc1.
  - rewrite Hc1 in Hc. exists e2. split; [done|]. cbn zeta. rewrite <- Hc. split_and!; try done. intros c' Hin. apply (Hk c' Hin).
Qed.

(** ** A small node

    The cloud makes it number 3 and names node 1 as leader, which knows both. *)

Definition small_self : NodeInfo := mkNodeInfo 0 "u3" "10.0.0.3" 3267 10 NS_UNKNOWN.

Definition small_leader : NodeInfo := mkNodeInfo 1 "u1" "10.0.0.1" 3267 10 NS_ONLINE.

Definition small_sky : option (NodeInfo -> res RegisterResult) :=
  Some (fun _ => Ok (mkRegisterResult 3 true (Some (mkClusterInfo 0 (Some small_leader) [] None 0 0 0 0 0)))).

Definition small_start : res (EdgeNode MemoryInfoStorage MemoryMetaStorage) :=
  @NewEdgeNode first_crush MemoryInfoStorage _ MemoryMetaStorage fresh_memory (fun _ => NewMemoryInfoStorage) small_self empty_cluster.

Definition small_reply : res (list NodeInfo) := Ok [small_leader].

Definition small_events : list EdgeEvent := [EE_Node small_leader; EE_Cluster small_cluster].

Definition small_table : res ClusterPipelines := @NewClusterPipelines first_crush small_cluster.

Lemma small_table_ok : exists cp, small_table = Ok cp /\ 3 ∈ (match MetaPipelines cp with p :: _ => P_RaftId p | [] => [] end).
Proof.
  assert (match small_table with Ok cp => bool_decide (3 ∈ (match MetaPipelines cp with p :: _ => P_RaftId p | [] => [] end)) | _ => false end = true) as E
    by (vm_compute; reflexivity).
  destruct small_table as [cp| | |]; try done. exists cp. split; [done|]. by apply bool_decide_eq_true in E.
Qed.

Lemma small_runs e0 : small_start = Ok e0 ->
  (edge_Run e0 small_sky small_reply).2 = Ok tt /\
  (forall e2 r, edge_apply_all (MS:=MemoryMetaStorage) (CR:=first_crush) fresh_memory (edge_Run e0 small_sky small_reply).1
     (request_of <$> small_events) = (e2, r) -> RaftId (w_self (e_watcher e2)) = 3).
Proof.
  intros E. assert (match small_start with Ok e => is_Ok (edge_Run e small_sky small_reply).2 &&
    bool_decide (RaftId (w_self (e_watcher (edge_apply_all (MS:=MemoryMetaStorage) (CR:=first_crush) fresh_memory
      (edge_Run e small_sky small_reply).1 (request_of <$> small_events)).1)) = 3) | _ => false end = true) as Hb by (vm_compute; reflexivity).
  rewrite E in Hb. apply andb_true_iff in Hb as [H1 H2%bool_decide_eq_true].
  split; [by destruct (edge_Run e0 small_sky small_reply).2 as [[]| | |]|].
  intros e2 r E2. by rewrite E2 in H2.
Qed.

Lemma edge_node_follows_witness : exists cp (e2 : EdgeNode MemoryInfoStorage MemoryMetaStorage), small_table = Ok cp /\
  getClusterInfo (Some (e_watcher e2)) = ([(200, NP_nodes (NodesInfo small_cluster))], Ok tt) /\
  forall p, p ∈ MetaPipelines cp -> 3 ∈ P_RaftId p -> exists r, PGRaftNode (e_alaya e2) !! P_PgId p = Some r /\ r_pipeline r = p.
Proof.
  destruct small_table_ok as (cp & Ecp & _).
  destruct (@edge_node_follows first_crush first_crush_ok MemoryInfoStorage _ _ _ _ MemoryMetaStorage _ fresh_memory (fun _ => NewMemoryInfoStorage)
    small_self empty_cluster 10 small_events) as (e0 & E0 & Hrun).
  - done.
  - done.
  - split; [unfold is_u64; simpl; lia|]. split; [unfold is_u64; simpl; lia|]. split; [split; [apply small_cluster_wf|done]|]. split; [simpl; lia|done].
  - destruct (small_runs e0 E0) as [H1 H2]. destruct (Hrun small_sky small_reply (edge_Run e0 small_sky small_reply).1) as (e2 & E2 & _ & Hp & _ & Hm).
    + rewrite (surjective_pairing (edge_Run e0 small_sky small_reply)). by rewrite H1.
    + exists cp, e2. split; [exact Ecp|]. split; [exact Hp|]. rewrite <- (H2 e2 _ E2). apply (Hm cp small_cluster_wf Ecp).
Defined.
