(* ===== verification/Deployment.v ===== *)
(** * Clients and nodes together

    The client's view of the cluster ([InfoAgent.v], [Client.v]) takes what the nodes
    answer as an argument. Here that argument is nodes: every request runs the handler
    of the node of [EdgeNode.v] at the address it is sent to. The two sides were
    modelled apart; this file shows that nodes that agree are what the client relies on,
    and that what one client records is what another one gets. *)

From S2P Require Import Prelude GoStd Errno Infos InfoStorage Object Pipeline GaiaMsg Block MetaStorage Alaya AlayaProofs Monitor Sun Moon Watcher WatcherProofs InfoAgent Client ClientProofs Messenger EdgeNode.

(** The nodes, by the address their server listens on. *)
Abbreviation Nodes S MS := (gmap string (EdgeNode S MS)).

Section deployment.
Context `{HR : HashRing, CR : Crush} {S : Type} `{HS : Storage S} {MS : Type} `{HM : MetaStorage MS}.

(** ** Requests *)

Record GetClusterInfoReply := mkGetClusterInfoReply { gr_Result : ResultStatus * string; gr_ClusterInfo : option ClusterInfo }.

(** [Watcher.GetClusterInfo]: the reply, and the error that comes with it. *)
Definition Watcher_GetClusterInfo (w : Watcher S) (term : Z) : res (GetClusterInfoReply * option error) :=
  match GetClusterInfoByTerm w term with
  | Ok info => Ok (mkGetClusterInfoReply (Result_OK, "") (Some info), None)
  | Err e => Ok (mkGetClusterInfoReply (Result_FAIL, Error e) None, Some e)
  | Panic => Panic
  | Stuck => Stuck
  end.

(** What a caller sees of a handler: the reply only if there is no error. A handler that
    panics ends its process and with it the connection. *)
Definition over_rpc {A} (r : res A) : res A :=
  match r with
  | Err e => Err (rpc_error e)
  | Panic => Err (EExt "rpc error: code = Unavailable desc = transport is closing")
  | _ => r
  end.

Definition unavailable : error := EExt "rpc error: code = Unavailable desc = connection refused".

Definition addr_of (n : NodeInfo) : string := genAddrWithPort (IpAddr n) (RpcPort n).

Definition on_node {A} (nodes : Nodes S MS) (n : NodeInfo) (f : EdgeNode S MS -> res A) : res A :=
  match nodes !! addr_of n with
  | Some e => over_rpc (f e)
  | None => Err unavailable
  end.

Definition edge_net (nodes : Nodes S MS) : Network :=
  mkNetwork
    (fun n t id => on_node nodes n (fun e => GetInfo (w_moon (e_watcher e)) t id))
    (fun _ _ => Err unavailable)
    (fun n => on_node nodes n (fun e =>
       x ← Watcher_GetClusterInfo (e_watcher e) 0;
       match x.2 with Some err => Err err | None => Ok (gr_ClusterInfo x.1) end)).

(** Connecting never fails, since it does not wait. The calls that change a node are
    answered as in [cl]. *)
Definition edge_cluster (nodes : Nodes S MS) (cl : Cluster) : Cluster :=
  mkCluster (edge_net nodes) (fun _ => None)
    (fun n tag id => on_node nodes n (fun e => GetObjectMeta (Watcher_Env (e_watcher e)) (e_alaya e) tag id))
    (cl_DeleteMeta cl)
    (fun n tag prefix => on_node nodes n (fun e => ListMeta (e_alaya e) tag prefix))
    (cl_cloud_ListMeta cl)
    (fun n t prefix => on_node nodes n (fun e => ListInfo (w_moon (e_watcher e)) t prefix))
    (cl_ProposeInfo cl).

(** [RecordObjectMeta] at a node whose group commits [before] first. *)
Definition record_at (nodes : Nodes S MS) (n : NodeInfo) (tag : string) (opID : Z) (before : list MetaOperate) (meta : ObjectMeta)
    : Nodes S MS * res unit :=
  match nodes !! addr_of n with
  | Some e =>
      match RecordObjectMeta (Watcher_Env (e_watcher e)) (e_alaya e) tag false opID (Some before) meta with
      | (_, Panic) => (delete (addr_of n) nodes, over_rpc Panic)
      | (a, r) => (<[addr_of n := mkEdgeNode (e_watcher e) a]> nodes, over_rpc r)
      end
  | None => (nodes, Err unavailable)
  end.

Definition get_at (nodes : Nodes S MS) (server : option NodeInfo) (tag objID : string) : res ObjectMeta :=
  match server with
  | Some n => on_node nodes n (fun e => GetObjectMeta (Watcher_Env (e_watcher e)) (e_alaya e) tag objID)
  | None => Err unavailable
  end.

End deployment.

(** ** Nodes that agree *)

Section agreement.
Context `{HR : HashRing, CR : Crush, !HashRingOk, !CrushOk}.
Context {S : Type} `{HS : Storage S, HL : !StorageLaws S, !StorageTotal S}.
Context {MS : Type} `{HM : MetaStorage MS, HML : !MetaStorageLaws MS, !MetaStorageTotal MS}.
Context (dir : directory) (c : ClusterInfo).

Implicit Types (nodes : Nodes S MS) (e : EdgeNode S MS).

(** A node that answers from [dir] and has [c] as its description. *)
Record serving e : Prop := {
  sv_watcher : watcher_wf (e_watcher e);
  sv_current : w_current (e_watcher e) = c;
  sv_dir t id b : dir t id = Some b -> GetInfo (w_moon (e_watcher e)) t id = Ok b;
  sv_alaya : alaya_wf (e_alaya e);
  sv_storages : storages_ok (e_alaya e);
  sv_placed : placed e
}.

(** Whoever runs serves; the members that are not offline run where [c] and the
    directory say. *)
Record agree nodes : Prop := {
  ag_dir : dir_ok dir;
  ag_term : Term c <> 0;
  ag_serving k e : nodes !! k = Some e -> serving e;
  ag_member n : n ∈ NodesInfo c -> State n <> NS_OFFLINE ->
    dir IT_NODE_INFO (FormatUint (RaftId n)) = Some (BI_NodeInfo n) /\
    exists e, nodes !! addr_of n = Some e /\ RaftId (w_self (e_watcher e)) = RaftId n;
  ag_up : exists n, n ∈ NodesInfo c /\ State n <> NS_OFFLINE
}.

Definition reaches nodes (l : list NodeInfo) : Prop := exists n, n ∈ l /\ is_Some (nodes !! addr_of n).

Lemma reaches_cons nodes n l : reaches nodes (n :: l) -> is_Some (nodes !! addr_of n) \/ nodes !! addr_of n = None /\ reaches nodes l.
Proof.
  intros (m & Hm & Hs). destruct (nodes !! addr_of n) eqn:E; [by left; eexists|]. right. split; [done|].
  apply elem_of_cons in Hm as [->|Hm]; [rewrite E in Hs; by destruct Hs|]. by exists m.
Qed.

Lemma reaches_cluster nodes l : agree nodes -> reaches nodes l -> first_cluster (edge_net nodes) l = Ok (Some (Some c)).
Proof.
  intros K. induction l as [|n l IH]; intros Hr; [by destruct Hr as (? & ?%elem_of_nil & _)|].
  cbn [first_cluster edge_net watcher_GetClusterInfo]. unfold on_node. apply reaches_cons in Hr as [[e He]|[-> Hr]]; [|by apply IH].
  rewrite He. unfold Watcher_GetClusterInfo, GetClusterInfoByTerm. rewrite decide_True by done.
  destruct (ag_serving _ K _ _ He) as [_ -> _ _ _ _]. rewrite decide_False by apply (ag_term _ K). done.
Qed.

Lemma reaches_answer nodes l t id b : agree nodes -> dir t id = Some b -> reaches nodes l -> first_answer (edge_net nodes) l t id = Ok b.
Proof.
  intros K Hb. induction l as [|n l IH]; intros Hr; [by destruct Hr as (? & ?%elem_of_nil & _)|].
  cbn [first_answer edge_net moon_GetInfo]. unfold on_node. apply reaches_cons in Hr as [[e He]|[-> Hr]]; [|by apply IH].
  rewrite He. by rewrite (sv_dir _ (ag_serving _ K _ _ He) _ _ _ Hb).
Qed.

(** The nodes are what the client relies on. *)
Lemma agree_steady nodes cl : agree nodes -> steady (edge_cluster nodes cl) dir c.
Proof.
  intros K. assert (reaches nodes (NodesInfo c)) as Hr.
  { destruct (ag_up _ K) as (n & Hn & Hon). destruct (ag_member _ K n Hn Hon) as (_ & e & He & _). exists n. split; [done|by eexists]. }
  constructor; [apply (ag_dir _ K)|by apply reaches_cluster|intros; by apply reaches_answer|].
  intros n Hn Hon. destruct (ag_member _ K n Hn Hon) as (Hd & _). by exists n.
Qed.

(** ** Recording at a node *)

(** A node that runs the group [pg], at the address [n] says. *)
Definition runs_group nodes (pg : Z) (n : NodeInfo) : Prop :=
  exists e r, nodes !! addr_of n = Some e /\ PGRaftNode (e_alaya e) !! pg = Some r.

Lemma serving_set_storage e pg s : serving e -> pg ∈ dom (PGRaftNode (e_alaya e)) -> metas_ok s ->
  serving (mkEdgeNode (e_watcher e) (set_storage (e_alaya e) pg s)).
Proof.
  intros [Hw Hc Hd (H1 & H2 & H3) Hs Hp] Hpg Hok. constructor; try done.
  - split_and!; [done| |done]. cbn [e_alaya set_storage MetaStorageRegister PGRaftNode]. rewrite dom_insert. set_solver.
  - intros pg' s' Hl. cbn [e_alaya set_storage MetaStorageRegister] in Hl. destruct (decide (pg' = pg)) as [->|Hne].
    + rewrite lookup_insert_eq in Hl. by injection Hl as <-.
    + rewrite lookup_insert_ne in Hl by done. by eapply Hs.
Qed.

Lemma agree_set nodes k e e' : agree nodes -> nodes !! k = Some e -> serving e' -> w_self (e_watcher e') = w_self (e_watcher e) ->
  agree (<[k := e']> nodes).
Proof.
  intros K He Hse Hself. constructor; [apply (ag_dir _ K)|apply (ag_term _ K)| | |apply (ag_up _ K)].
  - intros k' e0 Hl. destruct (decide (k' = k)) as [->|Hne].
    + rewrite lookup_insert_eq in Hl. by injection Hl as <-.
    + rewrite lookup_insert_ne in Hl by done. by eapply (ag_serving _ K).
  - intros n Hn Hon. destruct (ag_member _ K n Hn Hon) as (Hd & e0 & He0 & Hid). split; [done|].
    destruct (decide (addr_of n = k)) as [<-|Hne].
    + exists e'. rewrite lookup_insert_eq. split; [done|]. rewrite Hself. congruence.
    + exists e0. by rewrite lookup_insert_ne.
Qed.

(** No copy of an object came from the cloud. *)
Definition edge_only nodes (oid : string) : Prop :=
  forall k e pg s old, nodes !! k = Some e -> MetaStorageRegister (e_alaya e) !! pg = Some s -> metas s !! oid = Some old ->
    Pos old = POSITION_EDGE.

Lemma serving_checks e b key oid meta : serving e -> Term c <> 0 -> bucket_ok b -> key_ok key = true ->
  dir IT_BUCKET_INFO (BucketInfo_GetID b) = Some (BI_BucketInfo b) ->
  GenObjectId b key = Ok oid -> GenObjPgID b key (MetaPgNum c) = Ok (PgId meta) -> ObjId meta = oid ->
  checkClientTerm (Watcher_Env (e_watcher e)) (SetTermToContext (Term c)) = Ok (Term c) /\
  checkObject (Watcher_Env (e_watcher e)) (Term c) meta = Ok (with_id meta oid).
Proof.
  intros [(_ & _ & Hcw & Hu) Hc Hd _ _ _] Ht Hb Hk Hdir Hoid Hpg Hm. rewrite Hc in Hcw, Hu. split.
  - unfold checkClientTerm, GetTermFromContext, SetTermToContext. rewrite ParseUint_FormatUint by done.
    cbn [or_err mbind res_bind Alaya.GetCurrentTerm Watcher_Env]. unfold GetCurrentTerm. rewrite Hc. by rewrite decide_False by (intros Hn; by apply Hn).
  - specialize (Hd _ _ _ Hdir). unfold GetInfo in Hd. destruct (GetInfoDirect _ _ _) as [info| | |] eqn:Ei; try done. injection Hd as Hinfo.
    destruct (Hcw Ht) as (s & Hs & Hv).
    apply (client_agrees (Watcher_Env (e_watcher e)) (Term c) b key info c oid (PgId meta) meta); try done; [by rewrite Hinfo|].
    by apply (GetClusterInfoByTerm_stored _ s).
Qed.

(** A node of the group acknowledges, goes on serving, and answers with what it was told. *)
Lemma record_at_ok nodes n b key oid opID before meta : agree nodes -> runs_group nodes (PgId meta) n -> edge_only nodes oid ->
  bucket_ok b -> key_ok key = true -> dir IT_BUCKET_INFO (BucketInfo_GetID b) = Some (BI_BucketInfo b) ->
  GenObjectId b key = Ok oid -> GenObjPgID b key (MetaPgNum c) = Ok (PgId meta) -> ObjId meta = oid ->
  exists nodes', record_at nodes n (SetTermToContext (Term c)) opID before meta = (nodes', Ok tt) /\ agree nodes' /\
    get_at nodes' (Some n) (SetTermToContext (Term c)) oid = Ok (with_id meta oid).
Proof.
  intros K (e & r & He & Hr) Hedge Hb Hk Hdir Hoid Hpg Hm. pose proof (ag_serving _ K _ _ He) as Hse.
  destruct (serving_checks e b key oid meta Hse (ag_term _ K) Hb Hk Hdir Hoid Hpg Hm) as [Ht Hc].
  destruct (sv_alaya _ Hse) as (_ & Hdom & _). assert (PgId meta ∈ dom (PGRaftNode (e_alaya e))) as Hin by (apply elem_of_dom; by eexists).
  destruct (proj1 (elem_of_dom _ _) (Hdom _ Hin)) as [s Hs].
  destruct (RecordObjectMeta_accepts _ (e_alaya e) _ _ opID before meta _ r s Ht Hc (sv_storages _ Hse) Hr Hs) as (s' & Hok & E).
  { intros old Hold. by eapply Hedge. }
  cbn [PgId with_id] in E. eexists. unfold record_at. rewrite He, E. split; [done|]. split.
  - apply (agree_set _ _ e); [done..| |done]. by apply serving_set_storage.
  - unfold get_at, on_node. rewrite lookup_insert_eq. cbn [e_watcher e_alaya].
    destruct (recorded_found _ _ _ _ _ _ _ _ (sv_storages _ Hse) E) as [Hg _]. rewrite Hm in Hg.
    destruct (SplitID_GenObjectId b key Hb Hk) as (? & ? & oid' & _ & _ & Ho & Hcl & _). rewrite Hoid in Ho. injection Ho as <-.
    rewrite Hcl in Hg. by rewrite Hg.
Qed.

(** ** The way of a request *)

Context (cl : Cluster).
Context (Hwf : cluster_wf c).
Context (Hbig : MetaPgSize c <= Z.of_nat (length (healthyNodes c)) /\ BlockPgSize c <= Z.of_nat (length (healthyNodes c))).

(** The client asks the first node of the group, which runs it. *)
Lemma edge_client_finds nodes a b key pg : agree nodes -> sees (edge_cluster nodes cl) dir c a -> currentClusterInfo a = Some c ->
  GenObjPgID b key (MetaPgNum c) = Ok pg -> 1 <= pg <= MetaPgNum c ->
  exists cp p n, NewClusterPipelines c = Ok cp /\ GetMetaPipeline cp pg = Ok p /\ head (P_RaftId p) = Some (RaftId n) /\
    dir IT_NODE_INFO (FormatUint (RaftId n)) = Some (BI_NodeInfo n) /\ runs_group nodes pg n /\
    exists a', getEdgeAlayaClient (edge_net nodes) b a key = (a', Ok n) /\
      sees (edge_cluster nodes cl) dir c a' /\ currentClusterInfo a' = Some c.
Proof.
  intros K Ha Hc Hpg Hr. pose proof (agree_steady nodes cl K) as Hst.
  destruct (NewClusterPipelines_spec c Hwf) as [(_ & _ & cp & Ecp & _ & Hm & _)|[Hlt _]]; [|lia].
  destruct (proj2 Hm pg Hr) as (p & Hp & Hpid & _ & Hl & _ & Hin).
  destruct Hwf as (_ & _ & _ & Hms & _).
  destruct (P_RaftId p) as [|id ids] eqn:Eids; [simpl in Hl; lia|].
  destruct (Hin id) as (n & Hn & <- & Hon); [by left|]. destruct (ag_member _ K n Hn Hon) as (Hd & e & He & Hself).
  exists cp, p, n. split_and!; [done|done|by rewrite Eids|done| |].
  - destruct (ag_serving _ K _ _ He) as [_ Hcur _ _ _ Hplaced]. destruct (Hplaced cp) as [_ Hgr]; rewrite ?Hcur; [done..|].
    destruct (Hgr p) as (r & Hrn & _); [by apply (pipeline_at_elem _ pg)|rewrite Eids, Hself; by left|]. exists e, r. by rewrite <- Hpid.
  - destruct (GetCurClusterInfo_sees _ _ _ Hst a Ha) as (a1 & E1 & Ha1 & Hc1).
    destruct (agent_Get_sees _ _ _ Hst a1 _ _ _ Ha1 Hc1 Hd) as (a2 & i & E2 & Hi & Ha2 & Hc2). exists a2. split_and!; try done.
    unfold getEdgeAlayaClient. cbn [cl_net edge_cluster] in E1, E2. rewrite E1. cbn [st_bind]. rewrite Hpg. cbn [pure st_bind]. rewrite Ecp.
    unfold GetMetaPGNodeID. unfold GetMetaPipeline in Hp. rewrite Hp. cbn [mbind res_bind]. rewrite Eids. cbn [fmap list_fmap head or_panic pure st_bind].
    rewrite E2. by rewrite Hi.
Qed.

(** ** What clients need *)

(** A client of the edge: what it has kept is in the directory, and a node that it knows
    of runs. Its description of the cluster may be an old one. *)
Definition client_of nodes (a : InfoAgent) : Prop :=
  ia_connectType a = Some ConnectEdge /\ agent_agrees dir a /\
  exists c0, currentClusterInfo a = Some c0 /\ reaches nodes (NodesInfo c0).

Lemma client_sees nodes a : agree nodes -> client_of nodes a -> sees (edge_cluster nodes cl) dir c a.
Proof. intros K (Hct & Ha & c0 & Hc0 & Hr). split_and!; [done..|]. exists c0. split; [done|]. by apply reaches_cluster. Qed.

(** As [edge_client_finds], whatever the client knew before. *)
Lemma client_finds nodes a b key pg : agree nodes -> client_of nodes a ->
  GenObjPgID b key (MetaPgNum c) = Ok pg -> 1 <= pg <= MetaPgNum c ->
  exists cp p n, NewClusterPipelines c = Ok cp /\ GetMetaPipeline cp pg = Ok p /\ head (P_RaftId p) = Some (RaftId n) /\
    dir IT_NODE_INFO (FormatUint (RaftId n)) = Some (BI_NodeInfo n) /\ runs_group nodes pg n /\
    exists a' a'', getAlayaClient (edge_net nodes) ConnectEdge b a key = (a', Ok (Some n)) /\
      GetCurClusterInfo (edge_net nodes) a' = (a'', Ok c).
Proof.
  intros K Ha%(client_sees nodes a K) Hpg Hr. pose proof (agree_steady nodes cl K) as Hst.
  destruct (GetCurClusterInfo_sees _ _ _ Hst a Ha) as (a1 & E1 & Ha1 & Hc1).
  destruct (edge_client_finds nodes a1 b key pg K Ha1 Hc1 Hpg Hr) as (cp & p & n & Ecp & Hp & Hh & Hd & Hrun & a2 & E2 & Ha2 & Hc2).
  destruct (GetCurClusterInfo_sees _ _ _ Hst a2 Ha2) as (a3 & E3 & _). exists cp, p, n. split_and!; try done. exists a2, a3. split; [|done].
  unfold getAlayaClient. enough (getEdgeAlayaClient (edge_net nodes) b a key = getEdgeAlayaClient (edge_net nodes) b a1 key) as ->; [by rewrite E2|].
  assert (GetCurClusterInfo (edge_net nodes) a1 = (a1, Ok c)) as E1'.
  { destruct (ag_up _ K) as (m & Hm & Hon). destruct (ag_member _ K m Hm Hon) as (_ & e & He & _).
    unfold GetCurClusterInfo, UpdateCurClusterInfo. destruct Ha1 as (-> & _). rewrite Hc1. cbn [pure or_panic st_bind].
    rewrite reaches_cluster by (done || by exists m). cbn [pure st_bind]. unfold with_cluster. destruct a1. cbn in *. by subst. }
  unfold getEdgeAlayaClient. cbn [cl_net edge_cluster] in E1. by rewrite E1, E1'.
Qed.

End agreement.

(** ** Properties *)

(** what one client records another one reads. Nodes that have the same description
    and answer from one directory; a client that knows any of them, however old its own
    description is, submits the metadata of an object. The request reaches the first
    node of the object's group, under the term of the nodes, and is acknowledged, whatever
    that group commits before it; the nodes still agree, and every client that knows a
    node of them then gets exactly that metadata from the same node. *)
Theorem recorded_and_read `{HR : HashRing, CR : Crush, !HashRingOk, !CrushOk}
    {S : Type} `{HS : Storage S, HL : !StorageLaws S, !StorageTotal S} {MS : Type} `{HM : MetaStorage MS, HML : !MetaStorageLaws MS, !MetaStorageTotal MS}
    (dir : directory) c (nodes : Nodes S MS) a b key oid meta :
  cluster_wf c -> MetaPgSize c <= Z.of_nat (length (healthyNodes c)) /\ BlockPgSize c <= Z.of_nat (length (healthyNodes c)) ->
  agree dir c nodes -> client_of dir nodes a ->
  bucket_ok b -> key_ok key = true -> dir IT_BUCKET_INFO (BucketInfo_GetID b) = Some (BI_BucketInfo b) ->
  GenObjectId b key = Ok oid -> ObjId meta = oid -> GenObjPgID b key (MetaPgNum c) = Ok (PgId meta) -> edge_only nodes oid ->
  let meta' := with_position meta POSITION_EDGE in
  exists n a', dir IT_NODE_INFO (FormatUint (RaftId n)) = Some (BI_NodeInfo n) /\
    (forall server, SubmitMeta (edge_net nodes) server ConnectEdge b a meta = (a', server (Some n) (SetTermToContext (Term c)) meta')) /\
    forall opID before, exists nodes', record_at nodes n (SetTermToContext (Term c)) opID before meta' = (nodes', Ok tt) /\
      agree dir c nodes' /\
      forall a2, client_of dir nodes' a2 -> exists a2',
        GetObjMeta (edge_net nodes') (get_at nodes') ConnectEdge b a2 key = (a2', Ok meta').
Proof.
  intros Hwf Hbig K Ha Hb Hk Hdir Hoid Hm Hpg Hedge meta'.
  pose (cl := mkCluster (edge_net nodes) (fun _ => None) (fun _ _ _ => Panic) (fun _ _ _ => Panic) (fun _ _ _ => Panic) (fun _ => Panic)
    (fun _ _ _ => Panic) (fun _ _ => Panic)).
  destruct (GenObjPgID_total b key (MetaPgNum c) Hb) as (pg & Epg & Hr); [by destruct Hwf as (_ & _ & ? & _)|].
  rewrite Hpg in Epg. injection Epg as <-.
  destruct (SplitID_GenObjectId b key Hb Hk) as (? & ? & oid' & _ & _ & Ho & _ & Hsplit). rewrite Hoid in Ho. injection Ho as <-.
  destruct (client_finds dir c cl Hwf Hbig nodes a b (CleanObjectKey key) (PgId meta) K Ha) as (cp & p & n & Ecp & Hp & Hh & Hd & Hrun & a1 & a' & E1 & E2);
    [by rewrite GenObjPgID_CleanObjectKey|done|].
  exists n, a'. split; [done|]. split.
  - intros server. unfold SubmitMeta. rewrite Hm, Hsplit. cbn [Object.key]. rewrite E1. cbn [st_bind]. by rewrite E2.
  - intros opID before.
    destruct (record_at_ok dir c nodes n b key oid opID before meta' K Hrun Hedge Hb Hk Hdir Hoid Hpg Hm) as (nodes' & E & K' & Hg).
    exists nodes'. split; [done|]. split; [done|]. intros a2 Ha2.
    destruct (client_finds dir c cl Hwf Hbig nodes' a2 b key (PgId meta) K' Ha2 Hpg Hr) as (cp' & p' & n' & Ecp' & Hp' & Hh' & Hd' & _ & a3 & a4 & E3 & E4).
    rewrite Ecp in Ecp'. injection Ecp' as <-. rewrite Hp in Hp'. injection Hp' as <-. rewrite Hh in Hh'. injection Hh' as Hid.
    rewrite <- Hid, Hd in Hd'. injection Hd' as <-. exists a4. unfold GetObjMeta. rewrite E3. cbn [st_bind]. rewrite E4. cbn [st_bind].
    rewrite Hoid. cbn [pure st_bind]. rewrite Hg. rewrite <- Hm. by destruct meta.
Qed.

(** ** A small cluster

    One node is the whole cluster; the client was told of it and of nothing else. *)

Definition lone_cluster : ClusterInfo := mkClusterInfo 7 (Some (demo_node 1)) [demo_node 1] None 10 1 100 1 0.

Definition lone_watcher : Watcher MemoryInfoStorage :=
  mkWatcher (demo_node 1)
    (mkMoon 1 (Some (mkMoonRaft [1] 1)) (demo_node 1) false ∅ 1
       (mkStorageRegister (<[IT_CLUSTER_INFO := mkMemoryInfoStorage {["7" := Inf_Base (BI_ClusterInfo lone_cluster)]} demo_hooks]>
          (storageMap (demo_storages [1])))) StatusOK)
    (w_monitor (demo_watcher [1])) true 0 lone_cluster false.

Lemma lone_watcher_wf : watcher_wf lone_watcher.
Proof.
  split_and!.
  - exists (mkMemoryInfoStorage (demo_nodes [1]) demo_hooks). split_and!; [done|done|apply demo_hooked|].
    apply demo_nodes_entries. constructor; [unfold is_u64; lia|done].
  - exists (mkMemoryInfoStorage {["7" := Inf_Base (BI_ClusterInfo lone_cluster)]} demo_hooks). split_and!; [done|done|apply demo_hooked|].
    cbn [view memory_laws kvStorage]. rewrite map_fmap_singleton. apply map_Forall_singleton. exists lone_cluster. split_and!; done || (unfold is_u64; simpl; lia).
  - intros _. eexists. split; done.
  - unfold is_u64. simpl. lia.
Qed.

Definition lone_alaya : Alaya MemoryMetaStorage :=
  match ApplyNewClusterInfo (CR:=first_crush) fresh_memory (Watcher_Env lone_watcher) (mkAlaya 1 ∅ ∅ ∅ READY None None) (Some lone_cluster) with
  | Ok a => a
  | _ => mkAlaya 1 ∅ ∅ ∅ READY None None
  end.

Lemma lone_cluster_wf : cluster_wf lone_cluster.
Proof. split_and!; simpl; try lia. apply NoDup_singleton. Qed.

Lemma lone_alaya_follows : exists a, follows (CR:=first_crush) 10 lone_cluster (mkAlaya 1 ∅ ∅ ∅ READY None None) a /\ lone_alaya = a.
Proof.
  pose proof first_crush_ok. destruct (ApplyNewClusterInfo_follows (CR:=first_crush) (MS:=MemoryMetaStorage) fresh_memory 10 lone_watcher
    (mkAlaya 1 ∅ ∅ ∅ READY None None) lone_cluster) as (a & E & K).
  - split; [apply lone_cluster_wf|reflexivity].
  - split_and!; cbn [PGMessageChans PGRaftNode MetaStorageRegister]; [by rewrite dom_empty_L|by rewrite dom_empty|apply map_Forall_empty].
  - intros cp pg [=].
  - intros c0 E. injection E as <-. split; [apply lone_cluster_wf|reflexivity].
  - intros pg r. cbn [PGRaftNode]. by rewrite lookup_empty.
  - reflexivity.
  - exists a. split; [exact K|]. unfold lone_alaya. by rewrite E.
Qed.

Definition lone_nodes : Nodes MemoryInfoStorage MemoryMetaStorage := {[addr_of (demo_node 1) := mkEdgeNode lone_watcher lone_alaya]}.

Definition lone_dir : directory := fun t id =>
  if decide (t = IT_NODE_INFO /\ id = "1") then Some (BI_NodeInfo (demo_node 1))
  else if decide (t = IT_BUCKET_INFO /\ id = BucketInfo_GetID default_bucket) then Some (BI_BucketInfo default_bucket)
  else None.

Lemma lone_dir_inv t id b : lone_dir t id = Some b ->
  t = IT_NODE_INFO /\ id = "1" /\ b = BI_NodeInfo (demo_node 1) \/
  t = IT_BUCKET_INFO /\ id = BucketInfo_GetID default_bucket /\ b = BI_BucketInfo default_bucket.
Proof. unfold lone_dir. repeat destruct (decide _); naive_solver. Qed.

Definition all_empty (m : gmap Z MemoryMetaStorage) : bool := forallb (fun x => bool_decide (size (MetaMap x.2) = 0%nat)) (map_to_list m).

Lemma all_empty_lookup m pg s : all_empty m = true -> m !! pg = Some s -> MetaMap s = ∅.
Proof.
  unfold all_empty. rewrite forallb_forall. intros E Hs%elem_of_map_to_list%list_elem_of_In. apply map_size_empty_inv.
  by apply E, bool_decide_eq_true in Hs.
Qed.

Lemma lone_storages : all_empty (MetaStorageRegister lone_alaya) = true.
Proof. vm_compute. reflexivity. Qed.

Lemma lone_serving : serving (CR:=first_crush) lone_dir lone_cluster (mkEdgeNode lone_watcher lone_alaya).
Proof.
  destruct lone_alaya_follows as (a & K & ->). constructor; cbn [e_watcher e_alaya].
  - apply lone_watcher_wf.
  - reflexivity.
  - intros t id b [(-> & -> & ->)|(-> & -> & ->)]%lone_dir_inv; vm_compute; reflexivity.
  - apply (f_wf _ _ _ _ K).
  - intros pg s _. exact I.
  - intros cp _ Ecp. destruct (f_member _ _ _ _ K cp Ecp) as [H1 H2].
    split; [exact H1|]. intros p Hp Hin. apply H2; [exact Hp|]. rewrite (f_self _ _ _ _ K). exact Hin.
Qed.

Lemma lone_agree : agree (CR:=first_crush) lone_dir lone_cluster lone_nodes.
Proof.
  constructor.
  - intros t id b [(-> & -> & ->)|(-> & -> & ->)]%lone_dir_inv; split; reflexivity.
  - simpl. lia.
  - intros k e He. unfold lone_nodes in He. apply lookup_singleton_Some in He as [_ <-]. apply lone_serving.
  - intros n Hn%list_elem_of_singleton _. subst n. split; [reflexivity|]. eexists. split; [apply lookup_singleton_eq|reflexivity].
  - exists (demo_node 1). split; [by apply list_elem_of_singleton|discriminate].
Qed.

Definition lone_client : InfoAgent := NewInfoAgent (Some lone_cluster) (Some ConnectEdge).

Lemma lone_client_of (nodes : Nodes MemoryInfoStorage MemoryMetaStorage) : is_Some (nodes !! addr_of (demo_node 1)) ->
  client_of lone_dir nodes lone_client.
Proof.
  intros Hn. split_and!; [done| |].
  - intros t m id b Hm Hid. exfalso. revert Hm Hid. unfold register_view. rewrite lookup_fmap. destruct t; vm_compute; by intros [= <-].
  - exists lone_cluster. split; [done|]. exists (demo_node 1). split; [by apply list_elem_of_singleton|done].
Qed.

Lemma recorded_and_read_witness : exists n a',
  SubmitMeta (HR:=length_ring) (CR:=first_crush) (edge_net lone_nodes) (fun _ _ _ => Ok tt) ConnectEdge default_bucket lone_client (demo_meta POSITION_EDGE)
    = (a', Ok tt) /\
  exists nodes', (record_at (HR:=length_ring) lone_nodes n "7" 1 [] (demo_meta POSITION_EDGE)) = (nodes', Ok tt).
Proof.
  destruct (@recorded_and_read length_ring first_crush length_ring_ok first_crush_ok MemoryInfoStorage _ _ _ MemoryMetaStorage _ _ _
    lone_dir lone_cluster lone_nodes lone_client default_bucket "k" demo_id (demo_meta POSITION_EDGE)) as (n & a' & _ & E & Hrec).
  - apply lone_cluster_wf.
  - vm_compute. split; intros [=].
  - apply lone_agree.
  - apply lone_client_of. eexists. apply lookup_singleton_eq.
  - apply default_bucket_ok.
  - reflexivity.
  - reflexivity.
  - vm_compute. reflexivity.
  - reflexivity.
  - vm_compute. reflexivity.
  - intros k e pg s old He Hs Hold. unfold lone_nodes in He. apply lookup_singleton_Some in He as [_ <-]. cbn in Hold.
    by rewrite (all_empty_lookup _ _ _ lone_storages Hs), lookup_empty in Hold.
  - exists n, a'. split; [apply E|]. destruct (Hrec 1 []) as (nodes' & E' & _). by exists nodes'.
Defined.
