(* ===== verification/Started.v ===== *)
(** * From the start of the nodes to the clients

    [Deployment.v] shows what clients may expect of nodes that agree. Here the nodes are
    the ones that [nodeRun] makes: they start, run, and apply the requests of one log of
    the directory. They then agree, on the directory the log describes and on its last
    description of the cluster, and so they serve clients; nothing about the nodes
    themselves is assumed. *)

From stdpp Require Import gmap.
From S2P Require Import Prelude GoStd Errno Infos InfoStorage Object Pipeline GaiaMsg Block MetaStorage Alaya AlayaProofs Monitor Sun Moon RaftDiskProofs MoonProofs Watcher WatcherProofs InfoAgent Client ClientProofs Messenger EdgeNode Deployment.

(** The types a node keeps. *)
Definition node_types : gset InfoType := {[IT_NODE_INFO; IT_CLUSTER_INFO; IT_USER_INFO; IT_BUCKET_INFO; IT_VOLUME_INFO]}.

(** The directory a log of requests describes. *)
Definition log_directory (reqs : list ProposeInfoRequest) : InfoAgent.directory :=
  fun t id => requests_directory node_types reqs !! (t, id).

(** Every entry is under its own type and identifier. *)
Lemma request_write_key types req k b : request_write types req = Some (k, Some b) ->
  k = (BaseInfo_GetInfoType b, BaseInfo_GetID b).
Proof.
  unfold request_write. destruct (pi_BaseInfo req) as [b'|]; [|done]. cbn [mbind option_bind]. destruct (decide _); [|done].
  destruct (pi_Operate req), b'; naive_solver.
Qed.

Lemma log_directory_ok reqs : dir_ok (log_directory reqs).
Proof.
  intros t id b. unfold log_directory, requests_directory.
  assert (forall m : gmap InfoKey BaseInfo, (forall k v, m !! k = Some v -> k = (BaseInfo_GetInfoType v, BaseInfo_GetID v)) ->
    forall k v, write_all m (request_write node_types <$> reqs) !! k = Some v -> k = (BaseInfo_GetInfoType v, BaseInfo_GetID v)) as Hall.
  { induction reqs as [|req reqs IH]; intros m Hm; [done|]. cbn [fmap list_fmap]. apply IH. intros k v.
    destruct (request_write node_types req) as [[k' [v'|]]|] eqn:E; cbn [write]; [| |by apply Hm].
    - apply request_write_key in E as ->. intros [[<- <-]|[_ Hv]]%lookup_insert_Some; [done|by apply Hm].
    - intros [_ Hv]%lookup_delete_Some. by apply Hm. }
  intros Hb. apply Hall in Hb; [by injection Hb as -> ->|]. intros k v. by rewrite lookup_empty.
Qed.

Section started.
Context `{HR : HashRing, CR : Crush, !HashRingOk, !CrushOk}.
Context {S : Type} `{HS : Storage S, HL : !StorageLaws S, !StorageTotal S, !WritesTotal S}.
Context {MS : Type} `{HM : MetaStorage MS, HML : !MetaStorageLaws MS, !MetaStorageTotal MS}.
Context (fresh : Z -> res MS) (fresh_info : InfoType -> S).
Context (Hinfo : forall t, view (fresh_info t) = ∅ /\ storage_ok (fresh_info t)).

Implicit Types (e : EdgeNode S MS).

Definition empty_metas (s : MS) : Prop := metas_ok s /\ metas s = ∅.

Context (Hfresh : forall pg s, fresh pg = Ok s -> empty_metas s).

(** ** What callbacks leave alone *)

(** [keeps e e']: the directory of [e] is untouched in [e'], and no metadata came in. *)
Record keeps e e' : Prop := {
  k_moon : w_moon (e_watcher e') = w_moon (e_watcher e);
  k_self : w_self (e_watcher e') = w_self (e_watcher e);
  k_metas : map_Forall (fun _ => empty_metas) (MetaStorageRegister (e_alaya e)) ->
    map_Forall (fun _ => empty_metas) (MetaStorageRegister (e_alaya e'))
}.

Lemma keeps_refl e : keeps e e.
Proof. done. Qed.

Lemma keeps_trans e1 e2 e3 : keeps e1 e2 -> keeps e2 e3 -> keeps e1 e3.
Proof. intros [M1 S1 A1] [M2 S2 A2]. constructor; [congruence..|auto]. Qed.

Lemma run_callback_keeps (w : Watcher S) t info name :
  w_moon (run_callback w t info name).1 = w_moon w /\ w_self (run_callback w t info name).1 = w_self w.
Proof.
  unfold run_callback, nodeInfoChanged, clusterInfoChanged. destruct (decide _); [|done].
  destruct t; try done; [by destruct (IsLeader _)|by destruct (GetClusterInfo _)].
Qed.

Lemma edge_callback_keeps e t info name : keeps e (edge_callback fresh e t info name).1.
Proof.
  unfold edge_callback. destruct (decide _) as [Hd|Hd].
  - destruct (ApplyNewClusterInfo _ _ _ _) as [a| | |] eqn:Ea; try done. cbn [pure st_bind fst]. constructor; try done.
    cbn [e_alaya]. by apply (ApplyNewClusterInfo_storages empty_metas _ _ _ Hfresh _ _ Ea).
  - destruct (run_callback_keeps (e_watcher e) t info name). destruct (run_callback _ _ _ _). by constructor.
Qed.

Lemma edge_callbacks_keep t info names : forall e, keeps e (edge_callbacks fresh e t info names).1.
Proof.
  induction names as [|x names IH]; intros e; [apply keeps_refl|]. cbn [edge_callbacks].
  pose proof (edge_callback_keeps e t info x) as K. destruct (edge_callback _ _ _ _ _) as [e1 [[]| | |]]; cbn [fst st_bind] in *; try exact K.
  by eapply keeps_trans.
Qed.

(** ** Applying a log *)

Record state_of (M : gmap InfoKey BaseInfo) e : Prop := {
  so_runs : runs node_types (w_moon (e_watcher e));
  so_directory : MoonProofs.directory (w_moon (e_watcher e)) = M;
  so_metas : map_Forall (fun _ => empty_metas) (MetaStorageRegister (e_alaya e))
}.

Lemma edge_apply_state M e e' req : state_of M e -> edge_apply fresh e req = (e', Ok tt) ->
  state_of (write M (request_write node_types req)) e' /\ w_self (e_watcher e') = w_self (e_watcher e).
Proof.
  intros [[Ht Hs] Hd Hm] E. destruct (apply_request_write node_types (w_moon (e_watcher e)) req Ht) as [(Ht' & Hd' & Hs') _].
  unfold edge_apply in E. destruct (apply_request _ _) as [m [calls| | |]]; cbn [fst] in *; try done.
  set (e1 := set_watcher e (set_moon (e_watcher e) m)) in *.
  assert (state_of (write M (request_write node_types req)) e1) as K1.
  { constructor; [|by rewrite <- Hd|done]. unfold runs, serves. cbn. by rewrite Ht', Hs'. }
  destruct (pi_BaseInfo req) as [b|]; [|by injection E as <-].
  pose proof (edge_callbacks_keep (BaseInfo_GetInfoType b) (Inf_Base b) calls e1) as K. rewrite E in K. cbn [fst] in K.
  destruct K as [Km Ks Ka], K1 as [H1 H2 H3]. split; [|done]. constructor; rewrite ?Km; auto.
Qed.

Lemma edge_apply_all_state reqs : forall M e e', state_of M e -> edge_apply_all fresh e reqs = (e', Ok tt) ->
  state_of (write_all M (request_write node_types <$> reqs)) e' /\ w_self (e_watcher e') = w_self (e_watcher e).
Proof.
  induction reqs as [|req reqs IH]; intros M e e' K E; [by injection E as <-|]. cbn [edge_apply_all] in E.
  destruct (edge_apply fresh e req) as [e1 [[]| | |]] eqn:E1; try done. cbn [st_bind] in E.
  destruct (edge_apply_state M e e1 req K E1) as [K1 <-]. by apply (IH _ e1 e').
Qed.

(** ** Starting *)

Lemma set_hook_view (r r' : StorageRegister S) t name : set_hook r t name = Ok r' -> register_view r' = register_view r.
Proof.
  unfold set_hook, GetStorage. destruct (storageMap r !! t) as [s|] eqn:Es; [|done]. intros [= <-].
  unfold register_view. cbn [InfoStorage.Register storageMap]. rewrite fmap_insert. destruct (hook_view s name) as (_ & -> & _).
  apply insert_id. by rewrite lookup_fmap, Es.
Qed.

Lemma fresh_register_view : register_view (GetStorageRegister fresh_info) = gset_to_gmap ∅ node_types.
Proof.
  apply map_eq. intros t. unfold register_view. rewrite lookup_fmap, lookup_gset_to_gmap.
  unfold GetStorageRegister, registerAllStorage, node_types. cbn [InfoStorage.Register storageMap].
  destruct t; rewrite ?lookup_insert_ne, ?lookup_insert_eq, ?lookup_empty by done; cbn [fmap option_fmap option_map].
  all: try (rewrite (proj1 (Hinfo _)), option_guard_True by set_solver; done).
  all: rewrite option_guard_False by set_solver; done.
Qed.

Lemma NewEdgeNode_state self conf e : NewEdgeNode fresh fresh_info self conf = Ok e -> state_of ∅ e.
Proof.
  unfold NewEdgeNode, NewWatcher, join_alaya, NewAlaya. intros E.
  destruct (set_hook _ IT_NODE_INFO _) as [r1| | |] eqn:E1; try done. cbn [mbind res_bind] in E.
  destruct (set_hook r1 IT_CLUSTER_INFO _) as [r2| | |] eqn:E2; try done. cbn [mbind res_bind] in E.
  destruct (ApplyNewClusterInfo _ _ _ _) as [a| | |] eqn:Ea; try done. cbn [mbind res_bind] in E.
  destruct (set_hook _ IT_CLUSTER_INFO (alaya_hook _)) as [r3| | |] eqn:E3; try done. cbn [mbind res_bind] in E. injection E as <-.
  apply set_hook_view in E1, E2, E3. cbn in E1, E3.
  assert (register_view r3 = gset_to_gmap ∅ node_types) as Hv by (rewrite E3, E2, E1; apply fresh_register_view).
  constructor; cbn.
  - split; [|done]. unfold serves. cbn. rewrite Hv. apply dom_gset_to_gmap.
  - unfold MoonProofs.directory. cbn. rewrite Hv. apply map_eq. intros [t id]. rewrite lookup_map_uncurry, lookup_gset_to_gmap, lookup_empty.
    destruct (decide (t ∈ node_types)); [rewrite option_guard_True by done; cbn; by rewrite lookup_empty|by rewrite option_guard_False].
  - apply (ApplyNewClusterInfo_storages empty_metas _ _ _ Hfresh _ _ Ea). apply map_Forall_empty.
Qed.

Lemma edge_Run_state M e sky reply e' : state_of M e -> edge_Run e sky reply = (e', Ok tt) -> state_of M e'.
Proof.
  intros [[Ht Hs] Hd Hm] E. pose proof (Watcher_Run_keeps (e_watcher e) sky reply) as (Hr & _ & _ & Hst). unfold edge_Run in E.
  destruct (Watcher_Run _ _ _) as [w r]. cbn [fst] in *. injection E as <- _. unfold w_register in Hr.
  constructor; cbn [e_watcher e_alaya]; [|unfold MoonProofs.directory in *; by rewrite Hr|done].
  unfold runs, serves. by rewrite Hr, Hst.
Qed.

(** ** A running cluster *)

(** The node as the requests of the log leave it, after it was made and started. *)
Definition started (evs : list EdgeEvent) e : Prop :=
  exists self conf sky reply e0 e1, NewEdgeNode fresh fresh_info self conf = Ok e0 /\
    edge_Run e0 sky reply = (e1, Ok tt) /\ edge_apply_all fresh e1 (request_of <$> evs) = (e, Ok tt).

Lemma last_described n evs : forall c term, rising n term evs -> (Term c <> 0 -> described n c) ->
  Term (last_description c evs) <> 0 -> described n (last_description c evs).
Proof.
  induction evs as [|[i|c'|req] evs IH]; intros c term; cbn [rising last_description foldl]; [tauto|..].
  - intros [_ Hr]. by apply (IH c term).
  - intros (_ & Hd & _ & Hr) _. by apply (IH c' (Term c')).
  - intros [_ Hr]. by apply (IH c term).
Qed.

Lemma started_serving n evs e : (forall pg, 1 <= pg <= n -> is_Ok (fresh pg) = true) -> rising n 0 evs -> started evs e ->
  serving (log_directory (request_of <$> evs)) (last_description empty_cluster evs) e /\
  map_Forall (fun _ => empty_metas) (MetaStorageRegister (e_alaya e)).
Proof.
  intros Hf Hr (self & conf & sky & reply & e0 & e1 & E0 & E1 & E2).
  destruct (NewEdgeNode_ok fresh n fresh_info self conf Hinfo) as (e0' & E0' & K0 & Hc0). rewrite E0 in E0'. injection E0' as <-.
  pose proof (edge_Run_wf n e0 sky reply K0) as HK. rewrite E1 in HK. cbn [fst] in HK. destruct HK as [K1 Hc1]. rewrite Hc0 in Hc1.
  destruct (edge_run fresh n evs Hf e1 K1) as (e' & E & K2 & P & Hc & _); [|by rewrite Hc1|].
  { intros cp (_ & _ & Hm & _). exfalso. rewrite Hc1 in Hm. simpl in Hm. lia. }
  rewrite E2 in E. injection E as <-. rewrite Hc1 in Hc.
  pose proof (edge_Run_state _ _ _ _ _ (NewEdgeNode_state _ _ _ E0) E1) as S1.
  destruct (edge_apply_all_state _ _ _ _ S1 E2) as [[Hruns Hdir Hmetas] _]. split; [|done]. constructor; try done.
  - apply (ew_watcher _ _ K2).
  - intros t id b Hb. pose proof (GetInfo_directory node_types (w_moon (e_watcher e)) t id Hruns) as Hg. rewrite Hdir in Hg.
    unfold log_directory, requests_directory in Hb. by rewrite Hb in Hg.
  - apply (ew_alaya _ _ K2).
  - intros pg s Hs. by apply (Hmetas pg s Hs).
Qed.

(** Every node that runs was started and has applied the log; the members of the last
    description that are not offline run where the log's directory says. *)
Record deployed (evs : list EdgeEvent) (nodes : Nodes S MS) : Prop := {
  de_started k e : nodes !! k = Some e -> started evs e;
  de_term : Term (last_description empty_cluster evs) <> 0;
  de_member m : m ∈ NodesInfo (last_description empty_cluster evs) -> State m <> NS_OFFLINE ->
    log_directory (request_of <$> evs) IT_NODE_INFO (FormatUint (RaftId m)) = Some (BI_NodeInfo m) /\
    exists e, nodes !! addr_of m = Some e /\ RaftId (w_self (e_watcher e)) = RaftId m;
  de_up : exists m, m ∈ NodesInfo (last_description empty_cluster evs) /\ State m <> NS_OFFLINE
}.

Lemma deployed_agree n evs nodes : (forall pg, 1 <= pg <= n -> is_Ok (fresh pg) = true) -> rising n 0 evs -> deployed evs nodes ->
  agree (log_directory (request_of <$> evs)) (last_description empty_cluster evs) nodes /\ forall oid, edge_only nodes oid.
Proof.
  intros Hf Hr [Hs Ht Hm Hu]. split.
  - constructor; try done; [apply log_directory_ok|]. intros k e He. by apply (started_serving n evs e Hf Hr (Hs k e He)).
  - intros oid k e pg s old He Hpg Hold. destruct (started_serving n evs e Hf Hr (Hs k e He)) as [_ Hmetas].
    destruct (Hmetas pg s Hpg) as [_ Hempty]. by rewrite Hempty, lookup_empty in Hold.
Qed.

End started.

(** ** Properties *)

(** C3: a cluster that starts serves its clients. Nodes that [nodeRun] makes, that run,
    and that apply the requests of one log: about nodes, buckets, users and volumes, and
    descriptions of rising terms, the last of which has enough nodes online, at the
    addresses the log gives. A client that knows any of these nodes, however old its
    description of the cluster is, submits the metadata of an object of a bucket the log
    has created: it reaches the first node of the object's group, under the last term,
    and is acknowledged, whatever that group commits before it. Every client that knows a
    node then gets exactly that metadata. *)
Theorem started_cluster_serves `{HR : HashRing, CR : Crush, !HashRingOk, !CrushOk}
    {S : Type} `{HS : Storage S, HL : !StorageLaws S, !StorageTotal S, !WritesTotal S}
    {MS : Type} `{HM : MetaStorage MS, HML : !MetaStorageLaws MS, !MetaStorageTotal MS}
    (fresh : Z -> res MS) (fresh_info : InfoType -> S) n evs (nodes : Nodes S MS) a b key oid meta :
  (forall t, view (fresh_info t) = ∅ /\ storage_ok (fresh_info t)) ->
  (forall pg s, fresh pg = Ok s -> empty_metas s) -> (forall pg, 1 <= pg <= n -> is_Ok (fresh pg) = true) ->
  rising n 0 evs -> deployed fresh fresh_info evs nodes ->
  let dir := log_directory (request_of <$> evs) in
  let c := last_description empty_cluster evs in
  MetaPgSize c <= Z.of_nat (length (healthyNodes c)) /\ BlockPgSize c <= Z.of_nat (length (healthyNodes c)) ->
  client_of dir nodes a ->
  bucket_ok b -> key_ok key = true -> dir IT_BUCKET_INFO (BucketInfo_GetID b) = Some (BI_BucketInfo b) ->
  GenObjectId b key = Ok oid -> ObjId meta = oid -> GenObjPgID b key (MetaPgNum c) = Ok (PgId meta) ->
  let meta' := with_position meta POSITION_EDGE in
  exists m a', dir IT_NODE_INFO (FormatUint (RaftId m)) = Some (BI_NodeInfo m) /\
    (forall server, SubmitMeta (edge_net nodes) server ConnectEdge b a meta = (a', server (Some m) (SetTermToContext (Term c)) meta')) /\
    forall opID before, exists nodes', record_at nodes m (SetTermToContext (Term c)) opID before meta' = (nodes', Ok tt) /\
      forall a2, client_of dir nodes' a2 -> exists a2',
        GetObjMeta (edge_net nodes') (get_at nodes') ConnectEdge b a2 key = (a2', Ok meta').
Proof.
  intros Hinfo Hfresh Hf Hr Hdep dir c Hbig Ha Hb Hk Hdir Hoid Hm Hpg meta'.
  destruct (deployed_agree fresh fresh_info Hinfo Hfresh n evs nodes Hf Hr Hdep) as [Hagree Hedge].
  destruct (last_described n evs empty_cluster 0 Hr) as [Hwf _]; [done|apply (de_term _ _ _ _ Hdep)|].
  destruct (recorded_and_read dir c nodes a b key oid meta Hwf Hbig Hagree Ha Hb Hk Hdir Hoid Hm Hpg (Hedge oid)) as (m & a' & Hd & Hsub & Hrec).
  exists m, a'. split; [done|]. split; [done|]. intros opID before. destruct (Hrec opID before) as (nodes' & E & _ & Hget). by exists nodes'.
Qed.

(** ** One node

    The cloud gives it the number 1 and makes it the leader; its log makes it known,
    creates a bucket, and describes the cluster. *)

Definition lone_self : NodeInfo := mkNodeInfo 0 "u1" "10.0.0.1" 3267 10 NS_UNKNOWN.

Definition lone_sky : option (NodeInfo -> res RegisterResult) :=
  Some (fun _ => Ok (mkRegisterResult 1 true (Some (mkClusterInfo 0 (Some (demo_node 1)) [] None 0 0 0 0 0)))).

Definition lone_log : list EdgeEvent :=
  [EE_Node (demo_node 1);
   EE_Other (mkProposeInfoRequest ProposeInfoRequest_ADD "" (Some (BI_BucketInfo default_bucket)));
   EE_Cluster lone_cluster].

Lemma lone_log_rising : rising 10 0 lone_log.
Proof.
  split; [unfold is_u64; simpl; lia|]. split; [by exists (BI_BucketInfo default_bucket)|].
  split; [unfold is_u64; simpl; lia|]. split; [split; [apply lone_cluster_wf|reflexivity]|]. split; [simpl; lia|exact I].
Qed.

Definition lone_made : res (EdgeNode MemoryInfoStorage MemoryMetaStorage) :=
  NewEdgeNode (CR:=first_crush) fresh_memory (fun _ => NewMemoryInfoStorage) lone_self empty_cluster.

Definition lone_final (e0 : EdgeNode MemoryInfoStorage MemoryMetaStorage) :=
  edge_apply_all (CR:=first_crush) fresh_memory (edge_Run e0 lone_sky (Ok [])).1 (request_of <$> lone_log).

Lemma ok_pair {A} (x : A * res unit) : is_Ok x.2 = true -> x = (x.1, Ok tt).
Proof. by destruct x as [a [[]| | |]]. Qed.

Lemma lone_runs : exists e, started (CR:=first_crush) fresh_memory (fun _ => NewMemoryInfoStorage) lone_log e /\ RaftId (w_self (e_watcher e)) = 1.
Proof.
  assert (match lone_made with
          | Ok e0 => is_Ok (edge_Run e0 lone_sky (Ok [])).2 && is_Ok (lone_final e0).2 &&
              bool_decide (RaftId (w_self (e_watcher (lone_final e0).1)) = 1)
          | _ => false end = true) as E by (vm_compute; reflexivity).
  destruct lone_made as [e0| | |] eqn:E0; try discriminate. apply andb_true_iff in E as [[E1 E2]%andb_true_iff E3%bool_decide_eq_true].
  exists (lone_final e0).1. split; [|exact E3]. exists lone_self, empty_cluster, lone_sky, (Ok []), e0, (edge_Run e0 lone_sky (Ok [])).1.
  split; [exact E0|]. split; by apply ok_pair.
Qed.

Lemma started_cluster_serves_witness : exists (nodes : Nodes MemoryInfoStorage MemoryMetaStorage) m a',
  SubmitMeta (HR:=length_ring) (CR:=first_crush) (edge_net nodes) (fun _ _ _ => Ok tt) ConnectEdge default_bucket lone_client (demo_meta POSITION_EDGE)
    = (a', Ok tt) /\
  exists nodes', record_at (HR:=length_ring) nodes m "7" 1 [] (demo_meta POSITION_EDGE) = (nodes', Ok tt).
Proof.
  destruct lone_runs as (e & Hs & Hid). exists {[addr_of (demo_node 1) := e]}.
  destruct (@started_cluster_serves length_ring first_crush length_ring_ok first_crush_ok MemoryInfoStorage _ _ _ _ MemoryMetaStorage _ _ _
    fresh_memory (fun _ => NewMemoryInfoStorage) 10 lone_log {[addr_of (demo_node 1) := e]} lone_client default_bucket "k" demo_id
    (demo_meta POSITION_EDGE)) as (m & a' & _ & E & Hrec).
  - intros t. split; reflexivity.
  - intros pg s E. injection E as <-. split; reflexivity.
  - intros pg _. reflexivity.
  - apply lone_log_rising.
  - constructor.
    + intros k e' He. apply lookup_singleton_Some in He as [_ <-]. exact Hs.
    + discriminate.
    + intros m Hm%list_elem_of_singleton _. subst m. split; [vm_compute; reflexivity|]. exists e. split; [apply lookup_singleton_eq|exact Hid].
    + exists (demo_node 1). split; [by apply list_elem_of_singleton|discriminate].
  - vm_compute. split; intros [=].
  - split_and!; [reflexivity| |].
    + intros t m id b Hm Hid'. exfalso. revert Hm Hid'. unfold register_view. rewrite lookup_fmap. destruct t; vm_compute; by intros [= <-].
    + exists lone_cluster. split; [reflexivity|]. exists (demo_node 1). split; [by apply list_elem_of_singleton|]. eexists. apply lookup_singleton_eq.
  - apply default_bucket_ok.
  - reflexivity.
  - vm_compute. reflexivity.
  - vm_compute. reflexivity.
  - reflexivity.
  - vm_compute. reflexivity.
  - exists m, a'. split; [apply E|]. destruct (Hrec 1 []) as (nodes' & E' & _). by exists nodes'.
Defined.
