(* ===== verification/Cli.v ===== *)
(** * The command line client: [src/cli/cmd/]

    A command checks the number of its arguments, turns them into a call, and the
    call talks to the cluster and to local files. How a process ends is [Exit]; what
    it prints on its standard output is a list of lines. The library of commands is
    the class [Cobra]. *)

From S2P Require Import Prelude GoStd Errno Infos InfoStorage Lru Object Pipeline GaiaMsg Block Writer Multipart MetaStorage Alaya Monitor Moon InfoAgent Client ClientPool Operators Reader ReaderProofs Files WriterProofs.

(** ** Arguments *)

Class Cobra := { RangeArgs : nat -> nat -> list string -> bool; ExactArgs : nat -> list string -> bool }.

Class CobraOk `{Cobra} : Prop := {
  RangeArgs_spec : forall lo hi args, RangeArgs lo hi args = true <-> (lo <= length args <= hi)%nat;
  ExactArgs_spec : forall n args, ExactArgs n args = true <-> length args = n
}.

Inductive Command := Cmd_key_put | Cmd_key_get | Cmd_key_list | Cmd_key_delete | Cmd_key_describe
  | Cmd_bucket_create | Cmd_cp | Cmd_ls | Cmd_cluster_describe.

(** What a command runs; [Call_nothing]: neither side of a copy is remote. *)
Inductive CliCall :=
  | Call_KeyPut (bucketName key path : string)
  | Call_KeyGet (bucketName key path : string)
  | Call_KeyList (bucketName prefix : string)
  | Call_KeyDelete (bucketName key : string)
  | Call_KeyDescribe (bucketName key : string)
  | Call_bucketCreate (bucketName : string)
  | Call_clusterDescribe
  | Call_Println (s : string)
  | Call_nothing.

Definition arg (args : list string) (i : nat) : res string := or_panic (args !! i).

Definition keyPut (args : list string) : res CliCall :=
  if decide (length args = 3%nat) then b ← arg args 0; k ← arg args 1; p ← arg args 2; Ok (Call_KeyPut b k p)
  else k ← arg args 0; p ← arg args 1; Ok (Call_KeyPut "default" k p).

Definition keyGet (args : list string) : res CliCall :=
  if decide (length args = 3%nat) then b ← arg args 0; k ← arg args 1; p ← arg args 2; Ok (Call_KeyGet b k p)
  else k ← arg args 0; p ← arg args 1; Ok (Call_KeyGet "default" k p).

Definition keyList (args : list string) : res CliCall :=
  if decide (length args = 2%nat) then b ← arg args 0; p ← arg args 1; Ok (Call_KeyList b p)
  else if decide (length args = 1%nat) then b ← arg args 0; Ok (Call_KeyList b "")
  else Ok (Call_KeyList "default" "").

Definition keyDelete (args : list string) : res CliCall :=
  if decide (length args = 2%nat) then b ← arg args 0; k ← arg args 1; Ok (Call_KeyDelete b k)
  else k ← arg args 0; Ok (Call_KeyDelete "default" k).

Definition keyDescribe (args : list string) : res CliCall :=
  if decide (length args = 2%nat) then b ← arg args 0; k ← arg args 1; Ok (Call_KeyDescribe b k)
  else k ← arg args 0; Ok (Call_KeyDescribe "default" k).

Definition EcosUrlPrefix : string := "ecos://".

(** Bucket and key of a remote name: what stands before and after the first slash,
    the key up to the next one. *)
Definition remote_name (url : string) : res (string * string) :=
  let parts := Split sep (TrimPrefix url EcosUrlPrefix) in
  b ← or_panic (parts !! 0%nat);
  k ← or_panic (parts !! 1%nat);
  Ok (b, k).

Definition cp (args : list string) : res CliCall :=
  dst ← arg args 1;
  src ← arg args 0;
  if HasPrefix dst EcosUrlPrefix then bk ← remote_name dst; Ok (Call_KeyPut bk.1 bk.2 src)
  else if HasPrefix src EcosUrlPrefix then bk ← remote_name src; Ok (Call_KeyGet bk.1 bk.2 dst)
  else Ok Call_nothing.

Definition ls (args : list string) : res CliCall :=
  match args with
  | [] => Ok (Call_Println "ls all bucket not supported yet")
  | [b] => Ok (Call_KeyList b "")
  | [b; p] => Ok (Call_KeyList b p)
  | _ => Ok (Call_Println "syntax error")
  end.

(** [None]: the library refuses the number of arguments. *)
Definition dispatch `{Cobra} (c : Command) (args : list string) : res (option CliCall) :=
  let checked (ok : bool) (r : res CliCall) : res (option CliCall) := if ok then x ← r; Ok (Some x) else Ok None in
  match c with
  | Cmd_key_put => checked (RangeArgs 2 3 args) (keyPut args)
  | Cmd_key_get => checked (RangeArgs 2 3 args) (keyGet args)
  | Cmd_key_list => checked (RangeArgs 0 1 args) (keyList args)
  | Cmd_key_delete => checked (RangeArgs 1 2 args) (keyDelete args)
  | Cmd_key_describe => checked (RangeArgs 1 2 args) (keyDescribe args)
  | Cmd_bucket_create => checked (ExactArgs 1 args) (b ← arg args 0; Ok (Call_bucketCreate b))
  | Cmd_cp => checked (ExactArgs 2 args) (cp args)
  | Cmd_ls => checked true (ls args)
  | Cmd_cluster_describe => checked true (Ok Call_clusterDescribe)
  end.

(** ** Running a call *)

(** [Exited]: the code of [os.Exit], 0 when [main] returns. *)
Inductive Exit := Exited (code : Z) | Crashed | Hangs.

Definition exit_of {A} (r : res A) (ok : A -> Exit) (fail : Z) : Exit :=
  match r with Ok a => ok a | Err _ => Exited fail | Panic => Crashed | Stuck => Hangs end.

(** [io.Copy] with its buffer. *)
Definition copySize : nat := Z.to_nat 32768.

Section cli.
Context `{HR : HashRing, CR : Crush, PR : Printing}.
Context {P : Type} `{HL : !Lru P string nat}.
Context (conf : ClientConfig) (connectType : ConnectType) (GetReport : NodeInfo -> res ClusterReport).

(** The cluster, as it answers the client and, in its attempts, repeated calls. *)
Context (cl : Cluster) (attempts : list Cluster).

Definition getClient : Client P := New conf.

(** *** Getting *)

Section get.
Context (cap : Z) (agent_Get : InfoType -> string -> res Information).
Context (fetch_edge : NodeInfo -> string -> Z -> res Stream) (fetch_cloud : string -> Z -> res Stream).
Context (meta : list (res ObjectMeta * res unit)) (sched : list calcBlock -> list calcBlock).

(** Reading into the buffer until the end; what was read goes to the file. *)
Fixpoint io_Copy (fuel : nat) (meta : list (res ObjectMeta * res unit)) (r : EcosReader) (buf out : bytes) : bytes * res unit :=
  match fuel with
  | O => (out, Stuck)
  | S fuel' =>
      match Read connectType cap agent_Get fetch_edge fetch_cloud meta sched r buf with
      | (r, Ok (buf, nr, more)) =>
          let out := out ++ take (Z.to_nat nr) buf in
          if more then io_Copy fuel' [] r buf out else (out, Ok tt)
      | (_, Err e) => (out, Err e)
      | (_, Panic) => (out, Panic)
      | (_, Stuck) => (out, Stuck)
      end
  end.

(** An unknown bucket is only reported. *)
Definition KeyGet (fuel : nat) (bucketName path : string) (fs : FS bytes) : FS bytes * Exit :=
  let '(c, factory) := GetIOFactory (cl_net cl) getClient bucketName in
  match factory with
  | Ok _ =>
      match WriteFile fs path [] with
      | (fs, Ok _) =>
          let '(content, r) := io_Copy fuel meta GetEcosReader (replicate copySize x00) [] in
          ((WriteFile fs path content).1, exit_of r (fun _ => Exited 0) 1)
      | (fs, _) => (fs, Exited 1)
      end
  | r => (fs, exit_of r (fun _ => Exited 0) 0)
  end.

End get.

(** *** Putting, through any writer *)

Section put.
Context {W : Type} (W_Write : W -> bytes -> W * res (Z * option error)) (W_Close : W -> W * res unit).

(** The pieces [io.Copy] reads from a file. *)
Fixpoint pieces (fuel : nat) (content : bytes) : list bytes :=
  match fuel, content with
  | S fuel', _ :: _ => take copySize content :: pieces fuel' (drop copySize content)
  | _, _ => []
  end.

Fixpoint copy_to_writer (w : W) (l : list bytes) : W * res unit :=
  match l with
  | [] => (w, Ok tt)
  | p :: l' =>
      do w, x <- W_Write w p;
      match x with
      | (_, Some e) => (w, Err e)
      | (n, None) => if decide (n = Z.of_nat (length p)) then copy_to_writer w l' else (w, Err (EExt "short write"))
      end
  end.

(** [factory]: what [NewEcosIOFactory] gives, [w] its writer for the key. *)
Definition KeyPut (factory : res unit) (w : W) (path : string) (fs : FS bytes) : W * Exit :=
  match factory with
  | Ok _ =>
      match ReadFile fs path with
      | Ok content =>
          match copy_to_writer w (pieces (length content) content) with
          | (w, Ok _) => let '(w, r) := W_Close w in (w, exit_of r (fun _ => Exited 0) 1)
          | (w, r) => (w, exit_of r (fun _ => Exited 0) 1)
          end
      | r => (w, exit_of r (fun _ => Exited 0) 1)
      end
  | r => (w, exit_of r (fun _ => Exited 0) 1)
  end.

End put.

(** *** The other calls *)

(** A row of the listing: size, date, name. *)
Record Row := mkRow { row_size : Z; row_time : Timestamp; row_key : string }.

Definition cli_agent : InfoAgent := c_InfoAgent getClient.

(** The date of an object without one is a nil pointer. *)
Fixpoint rows_of (l : list ObjectMeta) : res (list Row) :=
  match l with
  | [] => Ok []
  | m :: l' => t ← or_panic (UpdateTime m); rows ← rows_of l'; Ok (mkRow (ObjSize m) t (ObjId m) :: rows)
  end.

(** An error is reported, and an empty table printed. *)
Definition KeyList (bucketName prefix : string) : list Row * Exit :=
  match (ListObjects connectType cl attempts cli_agent bucketName prefix).2 with
  | Ok l => match rows_of l with Ok rows => (rows, Exited 0) | r => ([], exit_of r (fun _ => Crashed) 1) end
  | r => ([], exit_of r (fun _ => Crashed) 0)
  end.

Definition op := op_call connectType GetReport cl attempts.

Definition KeyDelete (bucketName key : string) : Exit :=
  match op (GetVolumeOperator connectType) (Op_Get bucketName) cli_agent with
  | (a, Ok (OR_Operator bucket)) => exit_of (op bucket (Op_Remove key) a).2 (fun _ => Exited 0) 1
  | (_, r) => exit_of r (fun _ => Crashed) 1
  end.

Definition KeyDescribe (bucketName key : string) : list string * Exit :=
  match op (GetVolumeOperator connectType) (Op_Get bucketName) cli_agent with
  | (a, Ok (OR_Operator bucket)) =>
      match op bucket (Op_Get key) a with
      | (a, Ok (OR_Operator obj)) =>
          match op obj Op_State a with
          | (_, Ok (OR_Text state)) => ([state], Exited 0)
          | (_, r) => ([], exit_of r (fun _ => Crashed) 1)
          end
      | (_, r) => ([], exit_of r (fun _ => Crashed) 1)
      end
  | (_, r) => ([], exit_of r (fun _ => Crashed) 1)
  end.

(** The error is only reported. *)
Definition bucketCreate (bucketName : string) : Exit :=
  match GenBucketInfo GetUserID bucketName GetUserID with
  | Some b => exit_of (op (GetVolumeOperator connectType) (Op_CreateBucket b) cli_agent).2 (fun _ => Exited 0) 0
  | None => Crashed
  end.

Definition clusterDescribe : list string * Exit :=
  match op GetClusterOperator Op_State cli_agent with
  | (_, Ok (OR_Text state)) => ([state], Exited 0)
  | (_, r) => ([], exit_of r (fun _ => Crashed) 1)
  end.

End cli.

(** ** What the commands mean *)

(** The number of arguments that passes the check never makes a command panic, except
    that [cp] needs a slash in the remote name. *)
Lemma dispatch_total `{CobraOk} c args : c <> Cmd_cp -> dispatch c args <> Panic /\ dispatch c args <> Stuck.
Proof.
  intros Hc. destruct c; try done; simpl;
    repeat match goal with
    | |- context [if RangeArgs ?lo ?hi ?l then _ else _] =>
        destruct (RangeArgs lo hi l) eqn:E; [apply RangeArgs_spec in E|done]
    | |- context [if ExactArgs ?n ?l then _ else _] =>
        destruct (ExactArgs n l) eqn:E; [apply ExactArgs_spec in E|done]
    end;
    destruct args as [|x [|y [|z [|t args]]]]; simpl in *; try done; lia.
Qed.

(** A name of the form [ecos://bucket/key] is read back when neither has a slash; more
    of the key is dropped, and without a slash the program crashes. *)
Lemma remote_name_ok (b k : string) : nosep b = true -> nosep k = true ->
  remote_name (EcosUrlPrefix +:+ b +:+ "/" +:+ k) = Ok (b, k).
Proof.
  intros Hb Hk. unfold remote_name. rewrite TrimPrefix_app. change ("/" +:+ k) with (String sep k).
  rewrite Split_app by done. by rewrite Split_nosep.
Qed.

Lemma remote_key_cut (b k rest : string) : nosep b = true -> nosep k = true ->
  remote_name (EcosUrlPrefix +:+ b +:+ "/" +:+ k +:+ "/" +:+ rest) = Ok (b, k).
Proof.
  intros Hb Hk. unfold remote_name. rewrite TrimPrefix_app. change ("/" +:+ k +:+ "/" +:+ rest) with (String sep (k +:+ String sep rest)).
  rewrite Split_app by done. by rewrite Split_app.
Qed.

Lemma remote_bucket_crashes (b : string) : nosep b = true -> remote_name (EcosUrlPrefix +:+ b) = Panic.
Proof. intros Hb. unfold remote_name. by rewrite TrimPrefix_app, Split_nosep. Qed.

(** ** Getting an object *)

Lemma copy_to_length p l r src p' : copy_to p l r src = Ok p' -> length p' = length p.
Proof.
  unfold copy_to. destruct (decide _); [|done]. intros E. injection E as <-.
  rewrite !length_app, !length_take, length_drop. lia.
Qed.

Section copying.
Context `{HR : HashRing, CR : Crush}.
Context (connectType : ConnectType) (cap : Z) (agent_Get : InfoType -> string -> res Information).
Context (fetch_edge : NodeInfo -> string -> Z -> res Stream) (fetch_cloud : string -> Z -> res Stream).
Context (sched : list calcBlock -> list calcBlock).

Lemma read_block_length r p cb r' p' :
  read_block connectType cap agent_Get fetch_edge fetch_cloud r p cb = (r', Ok p') -> length p' = length p.
Proof.
  unfold read_block. intros (r1 & m & H1 & H2)%st_bind_inv. apply st_bind_inv in H2 as (r2 & info & H2 & H3).
  destruct (GetBlock _ _ _ _ _ _) as [r3 [block|e| |]]; try done.
  apply st_bind_inv in H3 as (r4 & src & H4 & H5). apply st_bind_inv in H5 as (r5 & q & H5 & H6).
  unfold pure in H5. injection H5 as _ H5. apply copy_to_length in H5. destruct (decide _); injection H6 as _ <-; done.
Qed.

Lemma read_blocks_length l : forall r p r' p',
  read_blocks connectType cap agent_Get fetch_edge fetch_cloud r p l = (r', Ok p') -> length p' = length p.
Proof.
  induction l as [|cb l IH]; simpl; intros r p r' p' E; [by injection E as _ <-|].
  apply st_bind_inv in E as (r1 & p1 & E1 & E2). apply IH in E2. apply read_block_length in E1. congruence.
Qed.

Lemma Read_length attempts r p r' p' n more :
  Read connectType cap agent_Get fetch_edge fetch_cloud attempts sched r p = (r', Ok (p', n, more)) -> length p' = length p.
Proof.
  unfold Read. destruct (if is_ready r then _ else _) as [r1 [u|e| |]]; try done;
    (destruct (calcBlocks _ _) as [[[r2 l] m]|e'| |]; try done; intros (r3 & q & E1 & E2)%st_bind_inv;
     apply read_blocks_length in E1; by injection E2 as _ <- _ _).
Qed.

(** A reader that is not ready gets ready on the first read. *)
Lemma io_Copy_first fuel attempts r r0 buf out :
  is_ready r = false -> genPipelines agent_Get attempts r = (r0, Ok tt) -> is_ready r0 = true ->
  io_Copy connectType cap agent_Get fetch_edge fetch_cloud sched fuel attempts r buf out =
  io_Copy connectType cap agent_Get fetch_edge fetch_cloud sched fuel [] r0 buf out.
Proof. intros Hr Hg H0. destruct fuel; [done|]. simpl. unfold Read. by rewrite Hr, Hg, H0. Qed.

Lemma io_Copy_ok held m (Hsched : forall l, sched l ≡ₚ l) fuel : forall r rest buf out,
  reader_ok connectType cap agent_Get fetch_edge fetch_cloud held m r ->
  stands held m r rest -> rest <> [] ->
  (0 < length buf)%nat -> Z.of_nat (length buf) < 2 ^ 61 -> (length rest <= fuel * length buf)%nat ->
  io_Copy connectType cap agent_Get fetch_edge fetch_cloud sched fuel [] r buf out = (out ++ rest, Ok tt).
Proof.
  induction fuel as [|fuel IH]; intros r rest buf out Hok Hst Hne Hb Hb' Hf; [destruct rest; [done|simpl in *; lia]|].
  cbn [io_Copy]. destruct (Read_ok connectType cap agent_Get fetch_edge fetch_cloud held m sched Hsched r rest buf [] Hok Hst Hb')
    as (r' & p' & E & Hp & Hok' & Hst').
  rewrite E. pose proof (Read_length _ _ _ _ _ _ _ E) as Hl. cbv iota beta. rewrite Nat2Z.id, Hp.
  case_bool_decide as Hlt.
  - rewrite (IH r' (drop (length buf) rest)); rewrite ?Hl, ?length_drop; try lia; try done.
    + by rewrite <- app_assoc, take_drop.
    + by apply Hst'.
    + intros Hd. apply (f_equal length) in Hd. rewrite length_drop in Hd. simpl in Hd. lia.
  - by rewrite take_ge by lia.
Qed.

End copying.

Lemma genPipelines_stands `{HR : HashRing, CR : Crush} agent_Get attempts r r' :
  genPipelines agent_Get attempts r = (r', Ok tt) -> curBlockIndex r' = curBlockIndex r /\ curBlockOffset r' = curBlockOffset r.
Proof.
  unfold genPipelines. destruct (getObjMeta attempts) as [m| | |]; try done.
  destruct (getHistoryClusterInfo _ m) as [[c|]| | |]; try done.
  destruct (NewClusterPipelines c); try done. intros E. by injection E as <-.
Qed.

Lemma get_copies `{HR : HashRing, CR : Crush} connectType cap agent_Get fetch_edge fetch_cloud sched held m meta r0 fuel :
  genPipelines agent_Get meta GetEcosReader = (r0, Ok tt) ->
  reader_ok connectType cap agent_Get fetch_edge fetch_cloud held m r0 -> Blocks m <> [] -> (forall l, sched l ≡ₚ l) ->
  (length (object_bytes held (Blocks m)) <= fuel * copySize)%nat ->
  io_Copy connectType cap agent_Get fetch_edge fetch_cloud sched fuel meta GetEcosReader (replicate copySize x00) [] =
    (object_bytes held (Blocks m), Ok tt).
Proof.
  intros Hg Hok Hne Hs Hf. destruct (genPipelines_stands _ _ _ _ Hg) as [Hi Ho]. pose proof Hok as (_ & Hr & Hsz & _).
  rewrite (io_Copy_first _ _ _ _ _ _ _ _ _ r0) by done.
  rewrite (io_Copy_ok _ _ _ _ _ _ held m Hs fuel r0 (object_bytes held (Blocks m))); rewrite ?length_replicate; try done.
  - by eapply stands_start.
  - destruct (Blocks m) as [|b bs]; [done|]. inv Hsz. intros Hc. apply (f_equal length) in Hc. unfold object_bytes in Hc. simpl in Hc.
    rewrite length_app, (seen_length held cap b) in Hc by done. destruct H1 as (? & _). unfold size_of in Hc. lia.
  - unfold copySize. lia.
Qed.

(** Without metadata the reader dereferences a nil pointer. *)
Lemma get_crashes `{HR : HashRing, CR : Crush} connectType cap agent_Get fetch_edge fetch_cloud sched meta e fuel buf out :
  getObjMeta meta = Err e ->
  io_Copy connectType cap agent_Get fetch_edge fetch_cloud sched (S fuel) meta GetEcosReader buf out = (out, Panic).
Proof. intros Hm. simpl. unfold Read, genPipelines. simpl. by rewrite Hm. Qed.

Section commands.
Context `{HR : HashRing, CR : Crush, PR : Printing}.
Context {P : Type} `{HL : !Lru P string nat}.

(** C27: a file that was fetched holds the object. When the bucket exists, the object's
    metadata is found, its blocks are held by the nodes and the local file can be
    created, [ecos key get] ends well, and the file holds the bytes of the object,
    whatever the order in which the blocks arrive. *)
Theorem get_writes_object (conf : ClientConfig) connectType (cl : Cluster) cap agent_Get fetch_edge fetch_cloud meta sched
    held m r0 fuel bucketName path (fs fs0 : FS bytes) c a :
  GetIOFactory (P := P) (cl_net cl) (getClient conf) bucketName = (c, Ok a) ->
  genPipelines agent_Get meta GetEcosReader = (r0, Ok tt) ->
  reader_ok connectType cap agent_Get fetch_edge fetch_cloud held m r0 -> Blocks m <> [] ->
  WriteFile fs path [] = (fs0, Ok tt) -> (forall l, sched l ≡ₚ l) ->
  (length (object_bytes held (Blocks m)) <= fuel * copySize)%nat ->
  exists fs', KeyGet (P := P) conf connectType cl cap agent_Get fetch_edge fetch_cloud meta sched fuel bucketName path fs = (fs', Exited 0) /\
    ReadFile fs' path = Ok (object_bytes held (Blocks m)).
Proof.
  intros Hf Hg Hok Hne Hw Hs Hfuel. unfold KeyGet. rewrite Hf, Hw, (get_copies _ _ _ _ _ _ held m _ r0) by done.
  destruct (WriteFile_again _ _ _ (object_bytes held (Blocks m)) _ Hw) as [fs' Hw']. rewrite Hw'.
  exists fs'. split; [done|]. by eapply ReadFile_WriteFile.
Qed.

(** Getting an object that is not there crashes, after the local file was emptied. *)
Lemma missing_object_crashes (conf : ClientConfig) connectType (cl : Cluster) cap agent_Get fetch_edge fetch_cloud meta sched
    e fuel bucketName path (fs fs0 : FS bytes) c a :
  GetIOFactory (P := P) (cl_net cl) (getClient conf) bucketName = (c, Ok a) -> getObjMeta meta = Err e ->
  WriteFile fs path [] = (fs0, Ok tt) ->
  exists fs', KeyGet (P := P) conf connectType cl cap agent_Get fetch_edge fetch_cloud meta sched (S fuel) bucketName path fs =
    (fs', Crashed) /\ ReadFile fs' path = Ok [].
Proof.
  intros Hf Hm Hw. unfold KeyGet. rewrite Hf, Hw, (get_crashes _ _ _ _ _ _ _ e) by done.
  destruct (WriteFile_again _ _ _ [] _ Hw) as [fs' Hw']. rewrite Hw'. exists fs'. split; [done|]. by eapply ReadFile_WriteFile.
Qed.

End commands.

(** ** Putting a file *)

Lemma pieces_concat fuel : forall content, (length content <= fuel * copySize)%nat -> concat (pieces fuel content) = content.
Proof.
  induction fuel as [|fuel IH]; intros content Hl; [destruct content; [done|simpl in Hl; lia]|].
  destruct content as [|x content]; [done|]. cbn [pieces concat]. rewrite IH; [apply take_drop|].
  rewrite length_drop. lia.
Qed.

(** The copy is a run of the writer: what was written, when it ends, is the file. *)
Lemma put_copies_file `{HR : HashRing, DG : Digests} (f : Factory) (cp : ClusterPipelines) w wr sent content w' :
  copy_to_writer (Writer.Write f) w (pieces (length content) content) = (w', Ok tt) ->
  rtc (step f cp) (mkSys w None wr sent) (mkSys w' None (wr ++ content) sent).
Proof.
  intros E. assert (Hc : concat (pieces (length content) content) = content).
  { apply pieces_concat. unfold copySize. lia. }
  rewrite <- Hc at 1. clear Hc. revert w wr E. induction (pieces (length content) content) as [|p l IH]; intros w wr E.
  - injection E as <-. simpl. by rewrite app_nil_r.
  - simpl in E. apply st_bind_inv in E as (w1 & [n [e|]] & E1 & E2); [done|].
    destruct (decide _) as [Hn|]; [|done]. etrans; [by eapply Write_run|].
    cbn [concat]. rewrite app_assoc. by apply IH.
Qed.

(** The object of the reader's example, fetched into a directory. *)
Definition demo_cli_conf : ClientConfig := mkClientConfig (2 ^ 20) (2 ^ 25) "node" 3267 "" 0 (Some ConnectEdge).

Definition demo_cli_bucket (n : NodeInfo) (t : InfoType) (id : string) : res BaseInfo := Ok (BI_BucketInfo default_bucket).

Definition demo_cli_net : Network := mkNetwork demo_cli_bucket (fun _ _ => Err (EErrno ConnectionIssue)) (fun _ => Ok None).

Definition demo_cli_cluster : Cluster :=
  mkCluster demo_cli_net (fun _ => None) (fun _ _ _ => Err EEOF) (fun _ _ _ => Ok tt) (fun _ _ _ => Ok []) (fun _ => Ok [])
    (fun _ _ _ => Ok []) (fun _ _ => Ok tt).

Definition demo_get_info (t : InfoType) (id : string) : res Information := Ok (Inf_Base (BI_ClusterInfo small_cluster)).

Definition demo_get_reader : EcosReader :=
  (@genPipelines first_crush demo_get_info [(Ok demo_object, Ok tt)] GetEcosReader).1.

Lemma demo_get_ok : @reader_ok length_ring ConnectCloud 4 demo_get_info no_edge demo_cloud demo_held demo_object demo_get_reader.
Proof.
  split_and!; try done.
  - repeat constructor; simpl; lia.
  - intros b _. unfold source, GetBlockByCloud. change (rd_meta demo_get_reader) with (Some demo_object).
    cbn [or_panic mbind res_bind demo_cloud recv_all concat]. by rewrite app_nil_r.
Qed.

Lemma get_writes_object_witness :
  exists fs', @KeyGet length_ring first_crush (ListLru string nat) _ demo_cli_conf ConnectCloud demo_cli_cluster 4 demo_get_info no_edge
      demo_cloud [(Ok demo_object, Ok tt)] (@reverse calcBlock) 1 "default" "data/../k" ∅ = (fs', Exited 0) /\
    ReadFile fs' "data/../k" = Ok (object_bytes demo_held (Blocks demo_object)).
Proof.
  refine (@get_writes_object length_ring first_crush (ListLru string nat) _ demo_cli_conf ConnectCloud demo_cli_cluster 4 demo_get_info
    no_edge demo_cloud [(Ok demo_object, Ok tt)] (@reverse calcBlock) demo_held demo_object demo_get_reader 1 "default" "data/../k" ∅ _ _ 0
    eq_refl eq_refl demo_get_ok _ eq_refl (@reverse_Permutation calcBlock) _); [done|].
  change (length (object_bytes demo_held (Blocks demo_object))) with 5%nat. unfold copySize. lia.
Defined.
